(** * CStructs+ : vector, singly linked list and doubly linked list

    A shallow embedding of [vector.c], [singly_list.c] and [doubly_list.c]
    (with the memory primitives of [core.c] they are built on) and the
    properties of the library's specification, proved over it.

    The C heap is modelled as one store with a typed region per kind of
    object; every function of the library is a computation over that
    store, written statement by statement after the C text. *)

From Stdlib Require Import ZArith Lia Bool.
From Stdlib Require Import Floats.SpecFloat.
From stdpp Require Import base option list gmap.

Open Scope Z_scope.

(* ===================================================================== *)
(** * Machine integers, pointers, status codes *)
(* ===================================================================== *)

(** [size_t] is a 64-bit unsigned integer; arithmetic on it wraps. *)
Definition SIZE_BITS : Z := 64.
Definition SIZE_MAX : Z := 2 ^ SIZE_BITS - 1.
Definition to_size_t (z : Z) : Z := z mod 2 ^ SIZE_BITS.

(** Addresses are the non-null values of a pointer; a pointer is an
    [option addr], with [NULL] for the null pointer. *)
Definition addr : Type := Z.
Abbreviation ptr := (option addr).
Abbreviation NULL := (@None addr).
Abbreviation bytes := (list Byte.byte).

Definition valid_addr (a : addr) : bool := (0 <? a) && (a <=? SIZE_MAX).

(** core.h: [status_t]. *)
Inductive status_t : Type :=
| SUCCESS
| ERROR_INVALID_INPUT
| ERROR_MEMORY_ALLOCATION
| ERROR_INDEX_OUT_OF_BOUNDS
| ERROR_EMPTY_CONTAINER
| ERROR_NOT_FOUND
| ERROR_FULL_CONTAINER.

#[global] Instance status_eq_dec : EqDecision status_t.
Proof. solve_decision. Defined.

(** vector.h constants. *)
Definition VECTOR_INITIAL_CAPACITY : Z := 16.

(* ===================================================================== *)
(** * The objects of the library *)
(* ===================================================================== *)

(** vector.h: [vector_t].  [v_data] is the address of the buffer. *)
Record vector_t : Type := mk_vector {
  v_data : ptr;
  v_size : Z;
  v_capacity : Z;
  v_element_size : Z
}.

(** singly_list.h: [singly_node_t], [singly_list_t], [singly_list_iter_t].
    A node owns its [data] allocation exclusively (it is allocated in
    [create_node], freed in [destroy_node] and never shared), so the
    element bytes are kept in the node itself. *)

(** A pointer to the [data] block of a node, [node->data].  The block
    has no address of its own in the store: the pointer names the node
    that owns the block.  It is not a pointer to the node. *)
Inductive data_ptr : Type := DataOf (node : addr).

Record singly_node_t : Type := mk_snode {
  sn_data : bytes;
  sn_next : ptr
}.

Record singly_list_t : Type := mk_slist {
  sl_head : ptr;
  sl_tail : ptr;
  sl_size : Z;
  sl_element_size : Z
}.

Record singly_list_iter_t : Type := mk_sliter {
  sli_list : ptr;
  sli_current : ptr;
  sli_position : Z
}.

(** doubly_list.h: [doubly_node_t], [doubly_list_t], [doubly_list_iter_t]. *)
Record doubly_node_t : Type := mk_dnode {
  dn_data : bytes;
  dn_next : ptr;
  dn_prev : ptr
}.

Record doubly_list_t : Type := mk_dlist {
  dl_head : ptr;
  dl_tail : ptr;
  dl_size : Z;
  dl_element_size : Z
}.

Record doubly_list_iter_t : Type := mk_dliter {
  dli_list : ptr;
  dli_current : ptr;
  dli_position : Z
}.

(* ===================================================================== *)
(** * The store *)
(* ===================================================================== *)

(** One region per kind of object, and the future answers of [malloc] and
    [realloc]: [None] is a failed allocation, [Some (a, junk)] hands out
    address [a] whose fresh bytes read as [junk]. *)
Record heap : Type := mk_heap {
  vectors : gmap addr vector_t;
  buffers : gmap addr bytes;
  slists : gmap addr singly_list_t;
  snodes : gmap addr singly_node_t;
  dlists : gmap addr doubly_list_t;
  dnodes : gmap addr doubly_node_t;
  allocator : list (option (addr * bytes))
}.

Definition empty_heap (al : list (option (addr * bytes))) : heap :=
  mk_heap ∅ ∅ ∅ ∅ ∅ ∅ al.

(** A region of the store: how to read it and how to replace it. *)
Record region (T : Type) : Type := mk_region {
  rget : heap -> gmap addr T;
  rset : gmap addr T -> heap -> heap
}.
Arguments rget {T} _ _.
Arguments rset {T} _ _ _.

Definition Vectors : region vector_t :=
  mk_region _ vectors
    (fun m h => mk_heap m (buffers h) (slists h) (snodes h) (dlists h) (dnodes h) (allocator h)).
Definition Buffers : region bytes :=
  mk_region _ buffers
    (fun m h => mk_heap (vectors h) m (slists h) (snodes h) (dlists h) (dnodes h) (allocator h)).
Definition SLists : region singly_list_t :=
  mk_region _ slists
    (fun m h => mk_heap (vectors h) (buffers h) m (snodes h) (dlists h) (dnodes h) (allocator h)).
Definition SNodes : region singly_node_t :=
  mk_region _ snodes
    (fun m h => mk_heap (vectors h) (buffers h) (slists h) m (dlists h) (dnodes h) (allocator h)).
Definition DLists : region doubly_list_t :=
  mk_region _ dlists
    (fun m h => mk_heap (vectors h) (buffers h) (slists h) (snodes h) m (dnodes h) (allocator h)).
Definition DNodes : region doubly_node_t :=
  mk_region _ dnodes
    (fun m h => mk_heap (vectors h) (buffers h) (slists h) (snodes h) (dlists h) m (allocator h)).

Definition set_allocator (al : list (option (addr * bytes))) (h : heap) : heap :=
  mk_heap (vectors h) (buffers h) (slists h) (snodes h) (dlists h) (dnodes h) al.

(** An address is in use when some region holds an object there. *)
Definition in_use (h : heap) (a : addr) : bool :=
  bool_decide (is_Some (vectors h !! a)) || bool_decide (is_Some (buffers h !! a))
  || bool_decide (is_Some (slists h !! a)) || bool_decide (is_Some (snodes h !! a))
  || bool_decide (is_Some (dlists h !! a)) || bool_decide (is_Some (dnodes h !! a)).

(* ===================================================================== *)
(** * Computations over the store *)
(* ===================================================================== *)

(** A C function either returns a value in a new store, or runs into
    undefined behaviour ([Fault]: a dangling or out-of-bounds access, an
    out-of-range conversion), or exhausts the iteration budget of one of
    its unbounded loops ([OutOfFuel]). *)
Inductive outcome (A : Type) : Type :=
| Ok (a : A) (h : heap)
| Fault
| OutOfFuel.
Arguments Ok {A} _ _.
Arguments Fault {A}.
Arguments OutOfFuel {A}.

Definition M (A : Type) : Type := heap -> outcome A.

Definition ret {A} (a : A) : M A := fun h => Ok a h.
Definition fault {A} : M A := fun _ => Fault.
Definition out_of_fuel {A} : M A := fun _ => OutOfFuel.
Definition bind {A B} (m : M A) (k : A -> M B) : M B :=
  fun h => match m h with
           | Ok a h' => k a h'
           | Fault => Fault
           | OutOfFuel => OutOfFuel
           end.

Notation "x <- c ;; k" := (bind c (fun x => k))
  (at level 100, c at next level, right associativity).
Notation "c ;;; k" := (bind c (fun _ => k))
  (at level 100, right associativity).

(** Dereferencing: [load] reads the object a pointer refers to, [store]
    overwrites it; both are undefined on a pointer to no live object. *)
Definition load {T} (R : region T) (p : addr) : M T :=
  fun h => match rget R h !! p with
           | Some x => Ok x h
           | None => Fault
           end.

Definition store {T} (R : region T) (p : addr) (x : T) : M unit :=
  fun h => match rget R h !! p with
           | Some _ => Ok tt (rset R (<[p := x]> (rget R h)) h)
           | None => Fault
           end.

Definition modify {T} (R : region T) (p : addr) (f : T -> T) : M unit :=
  x <- load R p ;; store R p (f x).

(** [free]: the object is gone; freeing what is not allocated is undefined. *)
Definition free {T} (R : region T) (p : addr) : M unit :=
  fun h => match rget R h !! p with
           | Some _ => Ok tt (rset R (delete p (rget R h)) h)
           | None => Fault
           end.

(** The next answer of the system allocator; an allocator that has no
    answer left fails. *)
Definition next_answer : M (option (addr * bytes)) :=
  fun h => match allocator h with
           | [] => Ok None h
           | a :: rest => Ok a (set_allocator rest h)
           end.

(** [malloc] for an object of region [R], initialised by [init] from the
    junk the fresh memory holds.  An allocator never returns an address
    that is null, out of range or in use. *)
Definition malloc {T} (R : region T) (init : bytes -> T) : M ptr :=
  a <- next_answer ;;
  match a with
  | None => ret NULL
  | Some (p, junk) =>
      fun h => if valid_addr p && negb (in_use h p)
               then Ok (Some p) (rset R (<[p := init junk]> (rget R h)) h)
               else Fault
  end.

(* ===================================================================== *)
(** * core.c : memory primitives *)
(* ===================================================================== *)

(** [mem_alloc(size)]: refuses a request of zero bytes, otherwise asks
    [malloc]; the block holds [size] bytes of junk. *)
Definition mem_alloc (size : Z) : M ptr :=
  if size =? 0 then ret NULL
  else malloc Buffers (fun junk => resize (Z.to_nat size) Byte.x00 junk).

(** [mem_realloc(ptr, size)]: refuses zero bytes, allocates when [ptr] is
    null, otherwise asks [realloc]: on failure the old block stays as it
    is; on success the block lives at the returned address (the old one or
    an unused one) with its contents kept up to the smaller of the two
    sizes, and the old address is released. *)
Definition mem_realloc (p : ptr) (size : Z) : M ptr :=
  if size =? 0 then ret NULL
  else match p with
       | None => mem_alloc size
       | Some old =>
           b <- load Buffers old ;;
           a <- next_answer ;;
           match a with
           | None => ret NULL
           | Some (q, junk) =>
               fun h =>
                 if valid_addr q && (bool_decide (q = old) || negb (in_use h q))
                 then Ok (Some q)
                        (rset Buffers
                           (<[q := resize (Z.to_nat size) Byte.x00 (b ++ junk)]>
                              (delete old (rget Buffers h))) h)
                 else Fault
           end
       end.

(** [mem_free(&p)]: releases [*p] unless it is null.  (The caller's
    variable is set to null; where that variable is a field of a live
    object the calling function writes the null itself.) *)
Definition mem_free {T} (R : region T) (p : ptr) : M unit :=
  match p with
  | None => ret tt
  | Some a => free R a
  end.

(** [mem_copy(dest, src, count)] on the bytes the two pointers address:
    the first [count] bytes of [dest] become those of [src].  Reading or
    writing past either object is undefined ([None]). *)
Definition mem_copy (dest src : bytes) (count : Z) : option bytes :=
  if count =? 0 then Some dest
  else if (count <=? Z.of_nat (length src)) && (count <=? Z.of_nat (length dest))
       then Some (take (Z.to_nat count) src ++ drop (Z.to_nat count) dest)
       else None.

(** The bytes from [data + off] to the end of the block [data] points to. *)
Definition bytes_at (data : ptr) (off : Z) : M bytes :=
  match data with
  | None => fault
  | Some d =>
      b <- load Buffers d ;;
      if off <=? Z.of_nat (length b) then ret (drop (Z.to_nat off) b) else fault
  end.

(** Overwrite the block from [data + off] on with [new] (as long as the
    bytes it replaces). *)
Definition put_bytes_at (data : ptr) (off : Z) (new : bytes) : M unit :=
  match data with
  | None => fault
  | Some d =>
      b <- load Buffers d ;;
      if off <=? Z.of_nat (length b)
      then store Buffers d (take (Z.to_nat off) b ++ new)
      else fault
  end.

(** [mem_copy(data + off, src, count)]: into a block. *)
Definition mem_copy_in (data : ptr) (off : Z) (src : bytes) (count : Z) : M unit :=
  dest <- bytes_at data off ;;
  match mem_copy dest src count with
  | Some dest' => put_bytes_at data off dest'
  | None => fault
  end.

(** [mem_copy(output, data + off, count)]: out of a block, into the
    caller's buffer whose contents are [output]; returns its new contents. *)
Definition mem_copy_out (output : bytes) (data : ptr) (off : Z) (count : Z) : M bytes :=
  src <- bytes_at data off ;;
  match mem_copy output src count with
  | Some output' => ret output'
  | None => fault
  end.

(** [mem_move(data + dst, data + src, count)] inside one block: the
    overlap-safe copy, as if through a temporary. *)
Definition mem_move (data : ptr) (dst src : Z) (count : Z) : M unit :=
  from <- bytes_at data src ;;
  mem_copy_in data dst from count.

(* ===================================================================== *)
(** * vector.c *)
(* ===================================================================== *)

(** [capacity * VECTOR_GROWTH_FACTOR] is a product of doubles: the
    capacity is converted to binary64, multiplied by 1.5 and the result
    is converted back to [size_t] by truncation.  [round_binary64 n] is
    the binary64 nearest to the integer [n] (53 significant bits, ties to
    even). *)
Definition round_binary64 (n : Z) : Z :=
  let k := Z.log2 n - 52 in
  if k <=? 0 then n
  else
    let q := n / 2 ^ k in
    let r := n mod 2 ^ k in
    let up := (2 ^ (k - 1) <? r) || ((r =? 2 ^ (k - 1)) && Z.odd q) in
    (if up then q + 1 else q) * 2 ^ k.

(** [(size_t)(capacity * 1.5)]: twice the product is the rounding of
    [3 * (double)capacity]; a product that does not fit [size_t] makes
    the conversion undefined. *)
Definition growth_product (capacity : Z) : option Z :=
  let r := round_binary64 (3 * round_binary64 capacity) / 2 in
  if r <=? SIZE_MAX then Some r else None.

(** The same product through the IEEE-754 operations of the standard
    library's [SpecFloat], to check [growth_product] against. *)
Definition binary64_of_size_t (n : Z) : spec_float :=
  binary_normalize 53 1024 n 0 false.

Definition size_t_of_binary64 (f : spec_float) : option Z :=
  match f with
  | S754_zero _ => Some 0
  | S754_finite false m e =>
      let r := if 0 <=? e then Z.pos m * 2 ^ e else Z.pos m / 2 ^ (- e) in
      if r <=? SIZE_MAX then Some r else None
  | _ => None
  end.

Definition growth_product_ieee (capacity : Z) : option Z :=
  size_t_of_binary64
    (SFmul 53 1024 (binary64_of_size_t capacity) (S754_finite false 3 (-1))).

Definition set_v_data (d : ptr) (v : vector_t) : vector_t :=
  mk_vector d (v_size v) (v_capacity v) (v_element_size v).
Definition set_v_size (n : Z) (v : vector_t) : vector_t :=
  mk_vector (v_data v) n (v_capacity v) (v_element_size v).
Definition set_v_capacity (n : Z) (v : vector_t) : vector_t :=
  mk_vector (v_data v) (v_size v) n (v_element_size v).
Definition set_v_element_size (n : Z) (v : vector_t) : vector_t :=
  mk_vector (v_data v) (v_size v) (v_capacity v) n.

Definition is_success (s : status_t) : bool := bool_decide (s = SUCCESS).

Definition vector_reserve (vector : ptr) (new_capacity : Z) : M status_t :=
  match vector with
  | None => ret ERROR_INVALID_INPUT
  | Some v =>
      vec <- load Vectors v ;;
      if new_capacity <=? v_capacity vec then ret SUCCESS
      else
        new_data <- mem_realloc (v_data vec)
                      (to_size_t (new_capacity * v_element_size vec)) ;;
        match new_data with
        | None => ret ERROR_MEMORY_ALLOCATION
        | Some d =>
            modify Vectors v (set_v_data (Some d)) ;;;
            modify Vectors v (set_v_capacity new_capacity) ;;;
            ret SUCCESS
        end
  end.

Definition vector_check_grow (v : addr) : M status_t :=
  vec <- load Vectors v ;;
  if v_capacity vec <=? v_size vec then
    match growth_product (v_capacity vec) with
    | None => fault
    | Some new_capacity =>
        let new_capacity :=
          if new_capacity <? VECTOR_INITIAL_CAPACITY
          then VECTOR_INITIAL_CAPACITY else new_capacity in
        let new_capacity :=
          if new_capacity <=? v_capacity vec
          then to_size_t (v_capacity vec + 1) else new_capacity in
        vector_reserve (Some v) new_capacity
    end
  else ret SUCCESS.

Definition vector_check_index (v : addr) (index : Z) : M status_t :=
  vec <- load Vectors v ;;
  if v_size vec <=? index then ret ERROR_INDEX_OUT_OF_BOUNDS else ret SUCCESS.

Definition vector_create_with_capacity (element_size initial_capacity : Z) : M ptr :=
  if element_size =? 0 then ret NULL
  else
    let initial_capacity :=
      if initial_capacity =? 0 then VECTOR_INITIAL_CAPACITY else initial_capacity in
    vector <- malloc Vectors (fun _ => mk_vector NULL 0 0 0) ;;
    match vector with
    | None => ret NULL
    | Some v =>
        d <- mem_alloc (to_size_t (element_size * initial_capacity)) ;;
        modify Vectors v (set_v_data d) ;;;
        match d with
        | None => mem_free Vectors (Some v) ;;; ret NULL
        | Some _ =>
            modify Vectors v (set_v_size 0) ;;;
            modify Vectors v (set_v_capacity initial_capacity) ;;;
            modify Vectors v (set_v_element_size element_size) ;;;
            ret (Some v)
        end
    end.

Definition vector_create (element_size : Z) : M ptr :=
  if element_size =? 0 then ret NULL
  else vector_create_with_capacity element_size VECTOR_INITIAL_CAPACITY.

Definition vector_destroy (vector : ptr) : M unit :=
  match vector with
  | None => ret tt
  | Some v =>
      vec <- load Vectors v ;;
      mem_free Buffers (v_data vec) ;;;
      modify Vectors v (set_v_data NULL) ;;;
      mem_free Vectors (Some v)
  end.

Definition vector_push_back (vector : ptr) (element : option bytes) : M status_t :=
  match vector, element with
  | Some v, Some e =>
      result <- vector_check_grow v ;;
      if negb (is_success result) then ret result
      else
        vec <- load Vectors v ;;
        mem_copy_in (v_data vec) (to_size_t (v_size vec * v_element_size vec))
          e (v_element_size vec) ;;;
        modify Vectors v (fun x => set_v_size (to_size_t (v_size x + 1)) x) ;;;
        ret SUCCESS
  | _, _ => ret ERROR_INVALID_INPUT
  end.

(** The result of a function with an [output] parameter is its status
    together with the contents of the caller's buffer afterwards ([None]
    when the caller passed a null [output]). *)
Definition vector_pop_back (vector : ptr) (output : option bytes)
  : M (status_t * option bytes) :=
  match vector with
  | None => ret (ERROR_INVALID_INPUT, output)
  | Some v =>
      vec <- load Vectors v ;;
      if v_size vec =? 0 then ret (ERROR_EMPTY_CONTAINER, output)
      else
        output' <- match output with
                   | None => ret None
                   | Some out =>
                       o <- mem_copy_out out (v_data vec)
                              (to_size_t (to_size_t (v_size vec - 1) * v_element_size vec))
                              (v_element_size vec) ;;
                       ret (Some o)
                   end ;;
        modify Vectors v (fun x => set_v_size (to_size_t (v_size x - 1)) x) ;;;
        ret (SUCCESS, output')
  end.

Definition vector_insert (vector : ptr) (index : Z) (element : option bytes)
  : M status_t :=
  match vector, element with
  | Some v, Some e =>
      vec <- load Vectors v ;;
      if v_size vec <? index then ret ERROR_INDEX_OUT_OF_BOUNDS
      else
        result <- vector_check_grow v ;;
        if negb (is_success result) then ret result
        else
          vec <- load Vectors v ;;
          if index =? v_size vec then vector_push_back vector element
          else
            let es := v_element_size vec in
            mem_move (v_data vec)
              (to_size_t (to_size_t (index + 1) * es))
              (to_size_t (index * es))
              (to_size_t (to_size_t (v_size vec - index) * es)) ;;;
            mem_copy_in (v_data vec) (to_size_t (index * es)) e es ;;;
            modify Vectors v (fun x => set_v_size (to_size_t (v_size x + 1)) x) ;;;
            ret SUCCESS
  | _, _ => ret ERROR_INVALID_INPUT
  end.

Definition vector_remove (vector : ptr) (index : Z) : M status_t :=
  match vector with
  | None => ret ERROR_INVALID_INPUT
  | Some v =>
      result <- vector_check_index v index ;;
      if negb (is_success result) then ret result
      else
        vec <- load Vectors v ;;
        if index =? to_size_t (v_size vec - 1)
        then r <- vector_pop_back vector None ;; ret (fst r)
        else
          let es := v_element_size vec in
          mem_move (v_data vec)
            (to_size_t (index * es))
            (to_size_t (to_size_t (index + 1) * es))
            (to_size_t (to_size_t (to_size_t (v_size vec - index) - 1) * es)) ;;;
          modify Vectors v (fun x => set_v_size (to_size_t (v_size x - 1)) x) ;;;
          ret SUCCESS
  end.

Definition vector_clear (vector : ptr) : M unit :=
  match vector with
  | None => ret tt
  | Some v => modify Vectors v (set_v_size 0)
  end.

Definition vector_get (vector : ptr) (index : Z) (output : option bytes)
  : M (status_t * option bytes) :=
  match vector, output with
  | Some v, Some out =>
      result <- vector_check_index v index ;;
      if negb (is_success result) then ret (result, output)
      else
        vec <- load Vectors v ;;
        o <- mem_copy_out out (v_data vec)
               (to_size_t (index * v_element_size vec)) (v_element_size vec) ;;
        ret (SUCCESS, Some o)
  | _, _ => ret (ERROR_INVALID_INPUT, output)
  end.

Definition vector_set (vector : ptr) (index : Z) (element : option bytes)
  : M status_t :=
  match vector, element with
  | Some v, Some e =>
      result <- vector_check_index v index ;;
      if negb (is_success result) then ret result
      else
        vec <- load Vectors v ;;
        mem_copy_in (v_data vec) (to_size_t (index * v_element_size vec))
          e (v_element_size vec) ;;;
        ret SUCCESS
  | _, _ => ret ERROR_INVALID_INPUT
  end.

(** A pointer into a buffer: the block and the byte offset in it. *)
Definition element_ptr (data : ptr) (off : Z) : M (option (addr * Z)) :=
  match data with
  | None => fault
  | Some d => ret (Some (d, off))
  end.

Definition vector_at_const (vector : ptr) (index : Z) : M (option (addr * Z)) :=
  match vector with
  | None => ret None
  | Some v =>
      vec <- load Vectors v ;;
      if v_size vec <=? index then ret None
      else element_ptr (v_data vec) (to_size_t (index * v_element_size vec))
  end.

Definition vector_at_mutable (vector : ptr) (index : Z) : M (option (addr * Z)) :=
  match vector with
  | None => ret None
  | Some v =>
      vec <- load Vectors v ;;
      if v_size vec <=? index then ret None
      else element_ptr (v_data vec) (to_size_t (index * v_element_size vec))
  end.

Definition vector_front (vector : ptr) : M (option (addr * Z)) :=
  match vector with
  | None => ret None
  | Some v =>
      vec <- load Vectors v ;;
      if v_size vec =? 0 then ret None
      else ret (match v_data vec with Some d => Some (d, 0) | None => None end)
  end.

Definition vector_back (vector : ptr) : M (option (addr * Z)) :=
  match vector with
  | None => ret None
  | Some v =>
      vec <- load Vectors v ;;
      if v_size vec =? 0 then ret None
      else element_ptr (v_data vec)
             (to_size_t (to_size_t (v_size vec - 1) * v_element_size vec))
  end.

Definition vector_size (vector : ptr) : M Z :=
  match vector with
  | None => ret 0
  | Some v => vec <- load Vectors v ;; ret (v_size vec)
  end.

Definition vector_capacity (vector : ptr) : M Z :=
  match vector with
  | None => ret 0
  | Some v => vec <- load Vectors v ;; ret (v_capacity vec)
  end.

Definition vector_empty (vector : ptr) : M bool :=
  match vector with
  | None => ret true
  | Some v => vec <- load Vectors v ;; ret (v_size vec =? 0)
  end.

Definition vector_shrink_to_fit (vector : ptr) : M status_t :=
  match vector with
  | None => ret ERROR_INVALID_INPUT
  | Some v =>
      vec <- load Vectors v ;;
      if v_size vec =? v_capacity vec then ret SUCCESS
      else if v_size vec =? 0 then
        mem_free Buffers (v_data vec) ;;;
        modify Vectors v (set_v_data NULL) ;;;
        modify Vectors v (set_v_capacity 0) ;;;
        ret SUCCESS
      else
        new_data <- mem_realloc (v_data vec)
                      (to_size_t (v_size vec * v_element_size vec)) ;;
        match new_data with
        | None => ret ERROR_MEMORY_ALLOCATION
        | Some d =>
            modify Vectors v (set_v_data (Some d)) ;;;
            modify Vectors v (fun x => set_v_capacity (v_size x) x) ;;;
            ret SUCCESS
        end
  end.

(** C [int]: 32 bits, two's complement. *)
Definition to_int (z : Z) : Z := (z + 2 ^ 31) mod 2 ^ 32 - 2 ^ 31.

(** [cmp_fn]: a three-way comparison of the bytes two pointers address. *)
Definition cmp_fn : Type := bytes -> bytes -> Z.

Fixpoint vector_find_loop (n : nat) (i : Z) (v : addr) (element : bytes) (cmp : cmp_fn)
  : M Z :=
  match n with
  | O => ret (-1)
  | S n' =>
      vec <- load Vectors v ;;
      current <- bytes_at (v_data vec) (to_size_t (i * v_element_size vec)) ;;
      if cmp current element =? 0 then ret (to_int i)
      else vector_find_loop n' (to_size_t (i + 1)) v element cmp
  end.

Definition vector_find (vector : ptr) (element : option bytes) (cmp : option cmp_fn)
  : M Z :=
  match vector, element, cmp with
  | Some v, Some e, Some c =>
      vec <- load Vectors v ;;
      vector_find_loop (Z.to_nat (v_size vec)) 0 v e c
  | _, _, _ => ret (-1)
  end.

Definition vector_contains (vector : ptr) (element : option bytes) (cmp : option cmp_fn)
  : M bool :=
  r <- vector_find vector element cmp ;; ret (0 <=? r).

Definition field {T A} (R : region T) (p : addr) (proj : T -> A) : M A :=
  x <- load R p ;; ret (proj x).

Definition vector_swap (a b : ptr) : M unit :=
  match a, b with
  | Some a, Some b =>
      temp_data <- field Vectors a v_data ;;
      (x <- field Vectors b v_data ;; modify Vectors a (set_v_data x)) ;;;
      modify Vectors b (set_v_data temp_data) ;;;
      temp_size <- field Vectors a v_size ;;
      (x <- field Vectors b v_size ;; modify Vectors a (set_v_size x)) ;;;
      modify Vectors b (set_v_size temp_size) ;;;
      temp_capacity <- field Vectors a v_capacity ;;
      (x <- field Vectors b v_capacity ;; modify Vectors a (set_v_capacity x)) ;;;
      modify Vectors b (set_v_capacity temp_capacity) ;;;
      temp_element_size <- field Vectors a v_element_size ;;
      (x <- field Vectors b v_element_size ;; modify Vectors a (set_v_element_size x)) ;;;
      modify Vectors b (set_v_element_size temp_element_size)
  | _, _ => ret tt
  end.

(** [func] receives a pointer to one element and may rewrite its bytes in
    place: it is given as the function from the element's bytes to their
    new value, of the same length. *)
Fixpoint vector_for_each_loop (n : nat) (i : Z) (v : addr) (func : bytes -> bytes)
  : M unit :=
  match n with
  | O => ret tt
  | S n' =>
      vec <- load Vectors v ;;
      let off := to_size_t (i * v_element_size vec) in
      element <- bytes_at (v_data vec) off ;;
      let old := take (Z.to_nat (v_element_size vec)) element in
      (if bool_decide (length (func old) = length old)
       then put_bytes_at (v_data vec) off
              (func old ++ drop (Z.to_nat (v_element_size vec)) element)
       else fault) ;;;
      vector_for_each_loop n' (to_size_t (i + 1)) v func
  end.

Definition vector_for_each (vector : ptr) (func : option (bytes -> bytes)) : M unit :=
  match vector, func with
  | Some v, Some f =>
      vec <- load Vectors v ;;
      vector_for_each_loop (Z.to_nat (v_size vec)) 0 v f
  | _, _ => ret tt
  end.

(** The loop of [vector_copy]: [src->size] does not change while it runs
    ([dest] is another vector), so it makes [src->size] iterations. *)
Fixpoint vector_copy_loop (n : nat) (i : Z) (src dest : addr) : M ptr :=
  match n with
  | O => ret (Some dest)
  | S n' =>
      s <- load Vectors src ;;
      element <- bytes_at (v_data s) (to_size_t (i * v_element_size s)) ;;
      result <- vector_push_back (Some dest) (Some element) ;;
      if negb (is_success result)
      then vector_destroy (Some dest) ;;; ret NULL
      else vector_copy_loop n' (to_size_t (i + 1)) src dest
  end.

Definition vector_copy (src : ptr) : M ptr :=
  match src with
  | None => ret NULL
  | Some s =>
      vec <- load Vectors s ;;
      dest <- vector_create_with_capacity (v_element_size vec) (v_capacity vec) ;;
      match dest with
      | None => ret NULL
      | Some d => vector_copy_loop (Z.to_nat (v_size vec)) 0 s d
      end
  end.

(* ===================================================================== *)
(** * doubly_list.c *)
(* ===================================================================== *)

Definition set_dn_data (d : bytes) (n : doubly_node_t) : doubly_node_t :=
  mk_dnode d (dn_next n) (dn_prev n).
Definition set_dn_next (p : ptr) (n : doubly_node_t) : doubly_node_t :=
  mk_dnode (dn_data n) p (dn_prev n).
Definition set_dn_prev (p : ptr) (n : doubly_node_t) : doubly_node_t :=
  mk_dnode (dn_data n) (dn_next n) p.

Definition set_dl_head (p : ptr) (l : doubly_list_t) : doubly_list_t :=
  mk_dlist p (dl_tail l) (dl_size l) (dl_element_size l).
Definition set_dl_tail (p : ptr) (l : doubly_list_t) : doubly_list_t :=
  mk_dlist (dl_head l) p (dl_size l) (dl_element_size l).
Definition set_dl_size (n : Z) (l : doubly_list_t) : doubly_list_t :=
  mk_dlist (dl_head l) (dl_tail l) n (dl_element_size l).
Definition set_dl_element_size (n : Z) (l : doubly_list_t) : doubly_list_t :=
  mk_dlist (dl_head l) (dl_tail l) (dl_size l) n.

Definition set_dli_current (p : ptr) (i : doubly_list_iter_t) : doubly_list_iter_t :=
  mk_dliter (dli_list i) p (dli_position i).
Definition set_dli_position (n : Z) (i : doubly_list_iter_t) : doubly_list_iter_t :=
  mk_dliter (dli_list i) (dli_current i) n.

Definition when (b : bool) (m : M unit) : M unit := if b then m else ret tt.

Definition is_null (p : ptr) : bool := match p with None => true | Some _ => false end.

(** [mem_alloc(element_size)] for the data of a node: the block is kept
    in the node, so only its junk contents matter here. *)
Definition mem_alloc_data (size : Z) : M (option bytes) :=
  if size =? 0 then ret None
  else
    a <- next_answer ;;
    match a with
    | None => ret None
    | Some (_, junk) => ret (Some (resize (Z.to_nat size) Byte.x00 junk))
    end.

Definition create_doubly_node (data : bytes) (element_size : Z) : M ptr :=
  node <- malloc DNodes (fun _ => mk_dnode [] NULL NULL) ;;
  match node with
  | None => ret NULL
  | Some n =>
      d <- mem_alloc_data element_size ;;
      match d with
      | None => mem_free DNodes node ;;; ret NULL
      | Some block =>
          match mem_copy block data element_size with
          | None => fault
          | Some block' =>
              modify DNodes n (set_dn_data block') ;;;
              modify DNodes n (set_dn_next NULL) ;;;
              modify DNodes n (set_dn_prev NULL) ;;;
              ret node
          end
      end
  end.

Definition destroy_doubly_node (node : ptr) : M unit := mem_free DNodes node.

(** [for (i = 0; i < index && current != NULL; i++) current = current->next] *)
Fixpoint dl_forward (n : nat) (current : ptr) : M ptr :=
  match n, current with
  | S n', Some c => nd <- load DNodes c ;; dl_forward n' (dn_next nd)
  | _, _ => ret current
  end.

(** [for (i = size - 1; i > index && current != NULL; i--) current = current->prev] *)
Fixpoint dl_backward (n : nat) (current : ptr) : M ptr :=
  match n, current with
  | S n', Some c => nd <- load DNodes c ;; dl_backward n' (dn_prev nd)
  | _, _ => ret current
  end.

Definition get_doubly_node_at (list : ptr) (index : Z) : M ptr :=
  match list with
  | None => ret NULL
  | Some lp =>
      l <- load DLists lp ;;
      if dl_size l <=? index then ret NULL
      else if index <? dl_size l / 2
           then dl_forward (Z.to_nat index) (dl_head l)
           else dl_backward (Z.to_nat (to_size_t (dl_size l - 1) - index)) (dl_tail l)
  end.

Definition doubly_list_create (element_size : Z) : M ptr :=
  if element_size =? 0 then ret NULL
  else
    list <- malloc DLists (fun _ => mk_dlist NULL NULL 0 0) ;;
    match list with
    | None => ret NULL
    | Some lp =>
        modify DLists lp (set_dl_head NULL) ;;;
        modify DLists lp (set_dl_tail NULL) ;;;
        modify DLists lp (set_dl_size 0) ;;;
        modify DLists lp (set_dl_element_size element_size) ;;;
        ret list
    end.

Fixpoint doubly_list_clear_loop (fuel : nat) (current : ptr) : M unit :=
  match current with
  | None => ret tt
  | Some c =>
      match fuel with
      | O => out_of_fuel
      | S fuel' =>
          next <- field DNodes c dn_next ;;
          destroy_doubly_node current ;;;
          doubly_list_clear_loop fuel' next
      end
  end.

Definition doubly_list_clear (fuel : nat) (list : ptr) : M unit :=
  match list with
  | None => ret tt
  | Some lp =>
      current <- field DLists lp dl_head ;;
      doubly_list_clear_loop fuel current ;;;
      modify DLists lp (set_dl_head NULL) ;;;
      modify DLists lp (set_dl_tail NULL) ;;;
      modify DLists lp (set_dl_size 0)
  end.

Definition doubly_list_destroy (fuel : nat) (list : ptr) : M unit :=
  match list with
  | None => ret tt
  | Some lp => doubly_list_clear fuel list ;;; mem_free DLists list
  end.

Definition doubly_list_push_front (list : ptr) (element : option bytes) : M status_t :=
  match list, element with
  | Some lp, Some e =>
      es <- field DLists lp dl_element_size ;;
      new_node <- create_doubly_node e es ;;
      match new_node with
      | None => ret ERROR_MEMORY_ALLOCATION
      | Some n =>
          (head <- field DLists lp dl_head ;; modify DNodes n (set_dn_next head)) ;;;
          (head <- field DLists lp dl_head ;;
           match head with
           | Some hd => modify DNodes hd (set_dn_prev new_node)
           | None => ret tt
           end) ;;;
          modify DLists lp (set_dl_head new_node) ;;;
          (tail <- field DLists lp dl_tail ;;
           when (is_null tail) (modify DLists lp (set_dl_tail new_node))) ;;;
          modify DLists lp (fun l => set_dl_size (to_size_t (dl_size l + 1)) l) ;;;
          ret SUCCESS
      end
  | _, _ => ret ERROR_INVALID_INPUT
  end.

Definition doubly_list_push_back (list : ptr) (element : option bytes) : M status_t :=
  match list, element with
  | Some lp, Some e =>
      es <- field DLists lp dl_element_size ;;
      new_node <- create_doubly_node e es ;;
      match new_node with
      | None => ret ERROR_MEMORY_ALLOCATION
      | Some n =>
          (tail <- field DLists lp dl_tail ;; modify DNodes n (set_dn_prev tail)) ;;;
          (tail <- field DLists lp dl_tail ;;
           match tail with
           | Some tl => modify DNodes tl (set_dn_next new_node)
           | None => ret tt
           end) ;;;
          modify DLists lp (set_dl_tail new_node) ;;;
          (head <- field DLists lp dl_head ;;
           when (is_null head) (modify DLists lp (set_dl_head new_node))) ;;;
          modify DLists lp (fun l => set_dl_size (to_size_t (dl_size l + 1)) l) ;;;
          ret SUCCESS
      end
  | _, _ => ret ERROR_INVALID_INPUT
  end.

(** [if (output != NULL) mem_copy(output, data, element_size)]: the
    contents of the caller's buffer afterwards. *)
Definition copy_out (output : option bytes) (data : bytes) (element_size : Z)
  : M (option bytes) :=
  match output with
  | None => ret None
  | Some out =>
      match mem_copy out data element_size with
      | Some out' => ret (Some out')
      | None => fault
      end
  end.

Definition doubly_list_pop_front (list : ptr) (output : option bytes)
  : M (status_t * option bytes) :=
  match list with
  | None => ret (ERROR_INVALID_INPUT, output)
  | Some lp =>
      head <- field DLists lp dl_head ;;
      match head with
      | None => ret (ERROR_EMPTY_CONTAINER, output)
      | Some old_head =>
          output' <- (d <- field DNodes old_head dn_data ;;
                      es <- field DLists lp dl_element_size ;;
                      copy_out output d es) ;;
          (next <- field DNodes old_head dn_next ;; modify DLists lp (set_dl_head next)) ;;;
          (head <- field DLists lp dl_head ;;
           match head with
           | Some hd => modify DNodes hd (set_dn_prev NULL)
           | None => modify DLists lp (set_dl_tail NULL)
           end) ;;;
          destroy_doubly_node (Some old_head) ;;;
          modify DLists lp (fun l => set_dl_size (to_size_t (dl_size l - 1)) l) ;;;
          ret (SUCCESS, output')
      end
  end.

Definition doubly_list_pop_back (list : ptr) (output : option bytes)
  : M (status_t * option bytes) :=
  match list with
  | None => ret (ERROR_INVALID_INPUT, output)
  | Some lp =>
      tail <- field DLists lp dl_tail ;;
      match tail with
      | None => ret (ERROR_EMPTY_CONTAINER, output)
      | Some old_tail =>
          output' <- (d <- field DNodes old_tail dn_data ;;
                      es <- field DLists lp dl_element_size ;;
                      copy_out output d es) ;;
          (prev <- field DNodes old_tail dn_prev ;; modify DLists lp (set_dl_tail prev)) ;;;
          (tail <- field DLists lp dl_tail ;;
           match tail with
           | Some tl => modify DNodes tl (set_dn_next NULL)
           | None => modify DLists lp (set_dl_head NULL)
           end) ;;;
          destroy_doubly_node (Some old_tail) ;;;
          modify DLists lp (fun l => set_dl_size (to_size_t (dl_size l - 1)) l) ;;;
          ret (SUCCESS, output')
      end
  end.

Definition doubly_list_insert (list : ptr) (index : Z) (element : option bytes)
  : M status_t :=
  match list, element with
  | Some lp, Some e =>
      l <- load DLists lp ;;
      if dl_size l <? index then ret ERROR_INDEX_OUT_OF_BOUNDS
      else if index =? 0 then doubly_list_push_front list element
      else if index =? dl_size l then doubly_list_push_back list element
      else
        current <- get_doubly_node_at list index ;;
        match current with
        | None => ret ERROR_INDEX_OUT_OF_BOUNDS
        | Some cur =>
            new_node <- create_doubly_node e (dl_element_size l) ;;
            match new_node with
            | None => ret ERROR_MEMORY_ALLOCATION
            | Some n =>
                (prev <- field DNodes cur dn_prev ;; modify DNodes n (set_dn_prev prev)) ;;;
                modify DNodes n (set_dn_next current) ;;;
                (prev <- field DNodes cur dn_prev ;;
                 match prev with
                 | Some pv => modify DNodes pv (set_dn_next new_node)
                 | None => ret tt
                 end) ;;;
                modify DNodes cur (set_dn_prev new_node) ;;;
                modify DLists lp (fun l => set_dl_size (to_size_t (dl_size l + 1)) l) ;;;
                ret SUCCESS
            end
        end
  | _, _ => ret ERROR_INVALID_INPUT
  end.

Definition doubly_list_remove (list : ptr) (index : Z) : M status_t :=
  match list with
  | None => ret ERROR_INVALID_INPUT
  | Some lp =>
      l <- load DLists lp ;;
      if dl_size l <=? index then ret ERROR_INDEX_OUT_OF_BOUNDS
      else if index =? 0
           then r <- doubly_list_pop_front list None ;; ret (fst r)
      else if index =? to_size_t (dl_size l - 1)
           then r <- doubly_list_pop_back list None ;; ret (fst r)
      else
        to_remove <- get_doubly_node_at list index ;;
        match to_remove with
        | None => ret ERROR_INDEX_OUT_OF_BOUNDS
        | Some rm =>
            (prev <- field DNodes rm dn_prev ;;
             match prev with
             | Some pv => next <- field DNodes rm dn_next ;;
                          modify DNodes pv (set_dn_next next)
             | None => ret tt
             end) ;;;
            (next <- field DNodes rm dn_next ;;
             match next with
             | Some nx => prev <- field DNodes rm dn_prev ;;
                          modify DNodes nx (set_dn_prev prev)
             | None => ret tt
             end) ;;;
            destroy_doubly_node to_remove ;;;
            modify DLists lp (fun l => set_dl_size (to_size_t (dl_size l - 1)) l) ;;;
            ret SUCCESS
        end
  end.

Fixpoint doubly_list_copy_loop (fuel : nat) (fuel0 : nat) (current : ptr) (dest : addr)
  : M ptr :=
  match current with
  | None => ret (Some dest)
  | Some c =>
      match fuel with
      | O => out_of_fuel
      | S fuel' =>
          d <- field DNodes c dn_data ;;
          result <- doubly_list_push_back (Some dest) (Some d) ;;
          if negb (is_success result)
          then doubly_list_destroy fuel0 (Some dest) ;;; ret NULL
          else
            next <- field DNodes c dn_next ;;
            doubly_list_copy_loop fuel' fuel0 next dest
      end
  end.

Definition doubly_list_copy (fuel : nat) (src : ptr) : M ptr :=
  match src with
  | None => ret NULL
  | Some sp =>
      es <- field DLists sp dl_element_size ;;
      dest <- doubly_list_create es ;;
      match dest with
      | None => ret NULL
      | Some dp =>
          current <- field DLists sp dl_head ;;
          doubly_list_copy_loop fuel fuel current dp
      end
  end.

Definition doubly_list_get (list : ptr) (index : Z) (output : option bytes)
  : M (status_t * option bytes) :=
  match list, output with
  | Some lp, Some out =>
      node <- get_doubly_node_at list index ;;
      match node with
      | None => ret (ERROR_INDEX_OUT_OF_BOUNDS, output)
      | Some n =>
          d <- field DNodes n dn_data ;;
          es <- field DLists lp dl_element_size ;;
          output' <- copy_out output d es ;;
          ret (SUCCESS, output')
      end
  | _, _ => ret (ERROR_INVALID_INPUT, output)
  end.

Definition doubly_list_set (list : ptr) (index : Z) (element : option bytes)
  : M status_t :=
  match list, element with
  | Some lp, Some e =>
      node <- get_doubly_node_at list index ;;
      match node with
      | None => ret ERROR_INDEX_OUT_OF_BOUNDS
      | Some n =>
          d <- field DNodes n dn_data ;;
          es <- field DLists lp dl_element_size ;;
          match mem_copy d e es with
          | Some d' => modify DNodes n (set_dn_data d') ;;; ret SUCCESS
          | None => fault
          end
      end
  | _, _ => ret ERROR_INVALID_INPUT
  end.

(** The [*_ref], [front] and [back] functions return [node->data], a
    pointer to the data block of a node, not the node. *)
Definition doubly_list_get_ref (list : ptr) (index : Z) : M (option data_ptr) :=
  node <- get_doubly_node_at list index ;;
  match node with
  | Some n => load DNodes n ;;; ret (Some (DataOf n))
  | None => ret None
  end.

Definition doubly_list_front (list : ptr) : M (option data_ptr) :=
  match list with
  | None => ret None
  | Some lp =>
      head <- field DLists lp dl_head ;;
      match head with
      | Some hd => load DNodes hd ;;; ret (Some (DataOf hd))
      | None => ret None
      end
  end.

Definition doubly_list_back (list : ptr) : M (option data_ptr) :=
  match list with
  | None => ret None
  | Some lp =>
      tail <- field DLists lp dl_tail ;;
      match tail with
      | Some tl => load DNodes tl ;;; ret (Some (DataOf tl))
      | None => ret None
      end
  end.

Definition doubly_list_size (list : ptr) : M Z :=
  match list with
  | None => ret 0
  | Some lp => field DLists lp dl_size
  end.

Definition doubly_list_empty (list : ptr) : M bool :=
  match list with
  | None => ret true
  | Some lp => s <- field DLists lp dl_size ;; ret (s =? 0)
  end.

(** [for (i = 0; i < list->size && current != NULL; i++)] *)
Fixpoint doubly_list_find_loop (n : nat) (i : Z) (current : ptr) (element : bytes)
    (cmp : cmp_fn) : M Z :=
  match n, current with
  | S n', Some c =>
      nd <- load DNodes c ;;
      if cmp (dn_data nd) element =? 0 then ret (to_int i)
      else doubly_list_find_loop n' (to_size_t (i + 1)) (dn_next nd) element cmp
  | _, _ => ret (-1)
  end.

Definition doubly_list_find (list : ptr) (element : option bytes) (cmp : option cmp_fn)
  : M Z :=
  match list, element, cmp with
  | Some lp, Some e, Some c =>
      l <- load DLists lp ;;
      doubly_list_find_loop (Z.to_nat (dl_size l)) 0 (dl_head l) e c
  | _, _, _ => ret (-1)
  end.

Definition doubly_list_contains (list : ptr) (element : option bytes)
    (cmp : option cmp_fn) : M bool :=
  r <- doubly_list_find list element cmp ;; ret (0 <=? r).

Definition doubly_list_insert_before (list node : ptr) (element : option bytes)
  : M status_t :=
  match list, node, element with
  | Some lp, Some nd, Some e =>
      es <- field DLists lp dl_element_size ;;
      new_node <- create_doubly_node e es ;;
      match new_node with
      | None => ret ERROR_MEMORY_ALLOCATION
      | Some n =>
          (prev <- field DNodes nd dn_prev ;; modify DNodes n (set_dn_prev prev)) ;;;
          modify DNodes n (set_dn_next node) ;;;
          (prev <- field DNodes nd dn_prev ;;
           match prev with
           | Some pv => modify DNodes pv (set_dn_next new_node)
           | None => modify DLists lp (set_dl_head new_node)
           end) ;;;
          modify DNodes nd (set_dn_prev new_node) ;;;
          modify DLists lp (fun l => set_dl_size (to_size_t (dl_size l + 1)) l) ;;;
          ret SUCCESS
      end
  | _, _, _ => ret ERROR_INVALID_INPUT
  end.

Definition doubly_list_insert_after (list node : ptr) (element : option bytes)
  : M status_t :=
  match list, node, element with
  | Some lp, Some nd, Some e =>
      es <- field DLists lp dl_element_size ;;
      new_node <- create_doubly_node e es ;;
      match new_node with
      | None => ret ERROR_MEMORY_ALLOCATION
      | Some n =>
          modify DNodes n (set_dn_prev node) ;;;
          (next <- field DNodes nd dn_next ;; modify DNodes n (set_dn_next next)) ;;;
          (next <- field DNodes nd dn_next ;;
           match next with
           | Some nx => modify DNodes nx (set_dn_prev new_node)
           | None => modify DLists lp (set_dl_tail new_node)
           end) ;;;
          modify DNodes nd (set_dn_next new_node) ;;;
          modify DLists lp (fun l => set_dl_size (to_size_t (dl_size l + 1)) l) ;;;
          ret SUCCESS
      end
  | _, _, _ => ret ERROR_INVALID_INPUT
  end.

(** [while (current != NULL) { temp = current->prev; current->prev =
    current->next; current->next = temp; current = current->prev; }] *)
Fixpoint doubly_list_reverse_loop (fuel : nat) (current : ptr) : M unit :=
  match current with
  | None => ret tt
  | Some c =>
      match fuel with
      | O => out_of_fuel
      | S fuel' =>
          temp <- field DNodes c dn_prev ;;
          (next <- field DNodes c dn_next ;; modify DNodes c (set_dn_prev next)) ;;;
          modify DNodes c (set_dn_next temp) ;;;
          current' <- field DNodes c dn_prev ;;
          doubly_list_reverse_loop fuel' current'
      end
  end.

Definition doubly_list_reverse (fuel : nat) (list : ptr) : M status_t :=
  match list with
  | None => ret ERROR_INVALID_INPUT
  | Some lp =>
      l <- load DLists lp ;;
      if dl_size l <=? 1 then ret SUCCESS
      else
        let current := dl_head l in
        (tail <- field DLists lp dl_tail ;; modify DLists lp (set_dl_head tail)) ;;;
        modify DLists lp (set_dl_tail current) ;;;
        doubly_list_reverse_loop fuel current ;;;
        ret SUCCESS
  end.

Definition doubly_list_swap (a b : ptr) : M unit :=
  match a, b with
  | Some a, Some b =>
      temp_head <- field DLists a dl_head ;;
      (x <- field DLists b dl_head ;; modify DLists a (set_dl_head x)) ;;;
      modify DLists b (set_dl_head temp_head) ;;;
      temp_tail <- field DLists a dl_tail ;;
      (x <- field DLists b dl_tail ;; modify DLists a (set_dl_tail x)) ;;;
      modify DLists b (set_dl_tail temp_tail) ;;;
      temp_size <- field DLists a dl_size ;;
      (x <- field DLists b dl_size ;; modify DLists a (set_dl_size x)) ;;;
      modify DLists b (set_dl_size temp_size) ;;;
      temp_element_size <- field DLists a dl_element_size ;;
      (x <- field DLists b dl_element_size ;; modify DLists a (set_dl_element_size x)) ;;;
      modify DLists b (set_dl_element_size temp_element_size)
  | _, _ => ret tt
  end.

(** Iterators are values of the caller: a function that takes an
    [iter] pointer gets the iterator it points to ([None] for a null
    pointer) and returns, with its result, the iterator as it leaves it. *)
Definition doubly_list_iter_create (list : ptr) : M doubly_list_iter_t :=
  current <- match list with
             | Some lp => field DLists lp dl_head
             | None => ret NULL
             end ;;
  ret (mk_dliter list current 0).

Definition doubly_list_iter_create_reverse (list : ptr) : M doubly_list_iter_t :=
  current <- match list with
             | Some lp => field DLists lp dl_tail
             | None => ret NULL
             end ;;
  position <- match list with
              | Some lp => s <- field DLists lp dl_size ;; ret (to_size_t (s - 1))
              | None => ret 0
              end ;;
  ret (mk_dliter list current position).

Definition doubly_list_iter_has_next (iter : option doubly_list_iter_t) : bool :=
  match iter with
  | Some it => negb (is_null (dli_current it))
  | None => false
  end.

Definition doubly_list_iter_has_prev (iter : option doubly_list_iter_t) : bool :=
  match iter with
  | Some it => negb (is_null (dli_current it))
  | None => false
  end.

(** [iter->list->element_size], read only when [output] is not null. *)
Definition dl_iter_copy_out (it : doubly_list_iter_t) (c : addr) (output : option bytes)
  : M (option bytes) :=
  match output with
  | None => ret None
  | Some _ =>
      d <- field DNodes c dn_data ;;
      es <- match dli_list it with
            | Some lp => field DLists lp dl_element_size
            | None => fault
            end ;;
      copy_out output d es
  end.

Definition doubly_list_iter_next (iter : option doubly_list_iter_t)
    (output : option bytes)
  : M (status_t * option doubly_list_iter_t * option bytes) :=
  match iter with
  | None => ret (ERROR_INVALID_INPUT, iter, output)
  | Some it =>
      match dli_current it with
      | None => ret (ERROR_INVALID_INPUT, iter, output)
      | Some c =>
          output' <- dl_iter_copy_out it c output ;;
          next <- field DNodes c dn_next ;;
          let it := set_dli_current next it in
          let it := set_dli_position (to_size_t (dli_position it + 1)) it in
          ret (SUCCESS, Some it, output')
      end
  end.

Definition doubly_list_iter_prev (iter : option doubly_list_iter_t)
    (output : option bytes)
  : M (status_t * option doubly_list_iter_t * option bytes) :=
  match iter with
  | None => ret (ERROR_INVALID_INPUT, iter, output)
  | Some it =>
      match dli_current it with
      | None => ret (ERROR_INVALID_INPUT, iter, output)
      | Some c =>
          output' <- dl_iter_copy_out it c output ;;
          prev <- field DNodes c dn_prev ;;
          let it := set_dli_current prev it in
          let it := set_dli_position (to_size_t (dli_position it - 1)) it in
          ret (SUCCESS, Some it, output')
      end
  end.

Definition doubly_list_iter_remove (iter : option doubly_list_iter_t)
  : M (status_t * option doubly_list_iter_t) :=
  match iter with
  | None => ret (ERROR_INVALID_INPUT, iter)
  | Some it =>
      match dli_list it, dli_current it with
      | Some lp, Some to_remove =>
          next <- field DNodes to_remove dn_next ;;
          (prev <- field DNodes to_remove dn_prev ;;
           match prev with
           | Some pv => nx <- field DNodes to_remove dn_next ;;
                        modify DNodes pv (set_dn_next nx)
           | None => nx <- field DNodes to_remove dn_next ;;
                     modify DLists lp (set_dl_head nx)
           end) ;;;
          (nx <- field DNodes to_remove dn_next ;;
           match nx with
           | Some n => pv <- field DNodes to_remove dn_prev ;;
                       modify DNodes n (set_dn_prev pv)
           | None => pv <- field DNodes to_remove dn_prev ;;
                     modify DLists lp (set_dl_tail pv)
           end) ;;;
          let it := set_dli_current next it in
          modify DLists lp (fun l => set_dl_size (to_size_t (dl_size l - 1)) l) ;;;
          destroy_doubly_node (Some to_remove) ;;;
          ret (SUCCESS, Some it)
      | _, _ => ret (ERROR_INVALID_INPUT, iter)
      end
  end.

(* ===================================================================== *)
(** * singly_list.c *)
(* ===================================================================== *)

Definition set_sn_data (d : bytes) (n : singly_node_t) : singly_node_t :=
  mk_snode d (sn_next n).
Definition set_sn_next (p : ptr) (n : singly_node_t) : singly_node_t :=
  mk_snode (sn_data n) p.

Definition set_sl_head (p : ptr) (l : singly_list_t) : singly_list_t :=
  mk_slist p (sl_tail l) (sl_size l) (sl_element_size l).
Definition set_sl_tail (p : ptr) (l : singly_list_t) : singly_list_t :=
  mk_slist (sl_head l) p (sl_size l) (sl_element_size l).
Definition set_sl_size (n : Z) (l : singly_list_t) : singly_list_t :=
  mk_slist (sl_head l) (sl_tail l) n (sl_element_size l).
Definition set_sl_element_size (n : Z) (l : singly_list_t) : singly_list_t :=
  mk_slist (sl_head l) (sl_tail l) (sl_size l) n.

Definition set_sli_current (p : ptr) (i : singly_list_iter_t) : singly_list_iter_t :=
  mk_sliter (sli_list i) p (sli_position i).
Definition set_sli_position (n : Z) (i : singly_list_iter_t) : singly_list_iter_t :=
  mk_sliter (sli_list i) (sli_current i) n.

Definition create_node (data : bytes) (element_size : Z) : M ptr :=
  node <- malloc SNodes (fun _ => mk_snode [] NULL) ;;
  match node with
  | None => ret NULL
  | Some n =>
      d <- mem_alloc_data element_size ;;
      match d with
      | None => mem_free SNodes node ;;; ret NULL
      | Some block =>
          match mem_copy block data element_size with
          | None => fault
          | Some block' =>
              modify SNodes n (set_sn_data block') ;;;
              modify SNodes n (set_sn_next NULL) ;;;
              ret node
          end
      end
  end.

Definition destroy_node (node : ptr) : M unit := mem_free SNodes node.

(** [for (i = 0; i < index && current != NULL; i++) current = current->next] *)
Fixpoint sl_forward (n : nat) (current : ptr) : M ptr :=
  match n, current with
  | S n', Some c => nd <- load SNodes c ;; sl_forward n' (sn_next nd)
  | _, _ => ret current
  end.

Definition get_node_at (list : ptr) (index : Z) : M ptr :=
  match list with
  | None => ret NULL
  | Some lp =>
      l <- load SLists lp ;;
      if sl_size l <=? index then ret NULL
      else sl_forward (Z.to_nat index) (sl_head l)
  end.

Definition singly_list_create (element_size : Z) : M ptr :=
  if element_size =? 0 then ret NULL
  else
    list <- malloc SLists (fun _ => mk_slist NULL NULL 0 0) ;;
    match list with
    | None => ret NULL
    | Some lp =>
        modify SLists lp (set_sl_head NULL) ;;;
        modify SLists lp (set_sl_tail NULL) ;;;
        modify SLists lp (set_sl_size 0) ;;;
        modify SLists lp (set_sl_element_size element_size) ;;;
        ret list
    end.

Fixpoint singly_list_clear_loop (fuel : nat) (current : ptr) : M unit :=
  match current with
  | None => ret tt
  | Some c =>
      match fuel with
      | O => out_of_fuel
      | S fuel' =>
          next <- field SNodes c sn_next ;;
          destroy_node current ;;;
          singly_list_clear_loop fuel' next
      end
  end.

Definition singly_list_clear (fuel : nat) (list : ptr) : M unit :=
  match list with
  | None => ret tt
  | Some lp =>
      current <- field SLists lp sl_head ;;
      singly_list_clear_loop fuel current ;;;
      modify SLists lp (set_sl_head NULL) ;;;
      modify SLists lp (set_sl_tail NULL) ;;;
      modify SLists lp (set_sl_size 0)
  end.

Definition singly_list_destroy (fuel : nat) (list : ptr) : M unit :=
  match list with
  | None => ret tt
  | Some lp => singly_list_clear fuel list ;;; mem_free SLists list
  end.

Definition singly_list_push_front (list : ptr) (element : option bytes) : M status_t :=
  match list, element with
  | Some lp, Some e =>
      es <- field SLists lp sl_element_size ;;
      new_node <- create_node e es ;;
      match new_node with
      | None => ret ERROR_MEMORY_ALLOCATION
      | Some n =>
          (head <- field SLists lp sl_head ;; modify SNodes n (set_sn_next head)) ;;;
          modify SLists lp (set_sl_head new_node) ;;;
          (tail <- field SLists lp sl_tail ;;
           when (is_null tail) (modify SLists lp (set_sl_tail new_node))) ;;;
          modify SLists lp (fun l => set_sl_size (to_size_t (sl_size l + 1)) l) ;;;
          ret SUCCESS
      end
  | _, _ => ret ERROR_INVALID_INPUT
  end.

Definition singly_list_push_back (list : ptr) (element : option bytes) : M status_t :=
  match list, element with
  | Some lp, Some e =>
      es <- field SLists lp sl_element_size ;;
      new_node <- create_node e es ;;
      match new_node with
      | None => ret ERROR_MEMORY_ALLOCATION
      | Some n =>
          (tail <- field SLists lp sl_tail ;;
           match tail with
           | None =>
               modify SLists lp (set_sl_head new_node) ;;;
               modify SLists lp (set_sl_tail new_node)
           | Some tl =>
               modify SNodes tl (set_sn_next new_node) ;;;
               modify SLists lp (set_sl_tail new_node)
           end) ;;;
          modify SLists lp (fun l => set_sl_size (to_size_t (sl_size l + 1)) l) ;;;
          ret SUCCESS
      end
  | _, _ => ret ERROR_INVALID_INPUT
  end.

Definition singly_list_pop_front (list : ptr) (output : option bytes)
  : M (status_t * option bytes) :=
  match list with
  | None => ret (ERROR_INVALID_INPUT, output)
  | Some lp =>
      head <- field SLists lp sl_head ;;
      match head with
      | None => ret (ERROR_EMPTY_CONTAINER, output)
      | Some old_head =>
          output' <- (d <- field SNodes old_head sn_data ;;
                      es <- field SLists lp sl_element_size ;;
                      copy_out output d es) ;;
          (next <- field SNodes old_head sn_next ;; modify SLists lp (set_sl_head next)) ;;;
          (head <- field SLists lp sl_head ;;
           when (is_null head) (modify SLists lp (set_sl_tail NULL))) ;;;
          destroy_node (Some old_head) ;;;
          modify SLists lp (fun l => set_sl_size (to_size_t (sl_size l - 1)) l) ;;;
          ret (SUCCESS, output')
      end
  end.

(** [while (current->next != list->tail) current = current->next] *)
Fixpoint singly_list_pop_back_loop (fuel : nat) (current : addr) (tail : ptr) : M addr :=
  next <- field SNodes current sn_next ;;
  if bool_decide (next = tail) then ret current
  else match fuel with
       | O => out_of_fuel
       | S fuel' =>
           match next with
           | Some nx => singly_list_pop_back_loop fuel' nx tail
           | None => fault
           end
       end.

Definition singly_list_pop_back (fuel : nat) (list : ptr) (output : option bytes)
  : M (status_t * option bytes) :=
  match list with
  | None => ret (ERROR_INVALID_INPUT, output)
  | Some lp =>
      head <- field SLists lp sl_head ;;
      match head with
      | None => ret (ERROR_EMPTY_CONTAINER, output)
      | Some hd =>
          tail <- field SLists lp sl_tail ;;
          output' <- match output, tail with
                     | Some _, Some tl =>
                         d <- field SNodes tl sn_data ;;
                         es <- field SLists lp sl_element_size ;;
                         copy_out output d es
                     | _, _ => ret output
                     end ;;
          (if bool_decide (head = tail) then
             destroy_node head ;;;
             modify SLists lp (set_sl_head NULL) ;;;
             modify SLists lp (set_sl_tail NULL)
           else
             current <- singly_list_pop_back_loop fuel hd tail ;;
             destroy_node tail ;;;
             modify SNodes current (set_sn_next NULL) ;;;
             modify SLists lp (set_sl_tail (Some current))) ;;;
          modify SLists lp (fun l => set_sl_size (to_size_t (sl_size l - 1)) l) ;;;
          ret (SUCCESS, output')
      end
  end.

Definition singly_list_insert (list : ptr) (index : Z) (element : option bytes)
  : M status_t :=
  match list, element with
  | Some lp, Some e =>
      l <- load SLists lp ;;
      if sl_size l <? index then ret ERROR_INDEX_OUT_OF_BOUNDS
      else if index =? 0 then singly_list_push_front list element
      else if index =? sl_size l then singly_list_push_back list element
      else
        prev <- get_node_at list (to_size_t (index - 1)) ;;
        match prev with
        | None => ret ERROR_INDEX_OUT_OF_BOUNDS
        | Some pv =>
            new_node <- create_node e (sl_element_size l) ;;
            match new_node with
            | None => ret ERROR_MEMORY_ALLOCATION
            | Some n =>
                (next <- field SNodes pv sn_next ;; modify SNodes n (set_sn_next next)) ;;;
                modify SNodes pv (set_sn_next new_node) ;;;
                modify SLists lp (fun l => set_sl_size (to_size_t (sl_size l + 1)) l) ;;;
                ret SUCCESS
            end
        end
  | _, _ => ret ERROR_INVALID_INPUT
  end.

Definition singly_list_remove (list : ptr) (index : Z) : M status_t :=
  match list with
  | None => ret ERROR_INVALID_INPUT
  | Some lp =>
      l <- load SLists lp ;;
      if sl_size l <=? index then ret ERROR_INDEX_OUT_OF_BOUNDS
      else if index =? 0
           then r <- singly_list_pop_front list None ;; ret (fst r)
      else
        prev <- get_node_at list (to_size_t (index - 1)) ;;
        match prev with
        | None => ret ERROR_INDEX_OUT_OF_BOUNDS
        | Some pv =>
            to_remove <- field SNodes pv sn_next ;;
            match to_remove with
            | None => ret ERROR_INDEX_OUT_OF_BOUNDS
            | Some rm =>
                (next <- field SNodes rm sn_next ;; modify SNodes pv (set_sn_next next)) ;;;
                (tail <- field SLists lp sl_tail ;;
                 when (bool_decide (to_remove = tail)) (modify SLists lp (set_sl_tail prev))) ;;;
                destroy_node to_remove ;;;
                modify SLists lp (fun l => set_sl_size (to_size_t (sl_size l - 1)) l) ;;;
                ret SUCCESS
            end
        end
  end.

Fixpoint singly_list_copy_loop (fuel : nat) (fuel0 : nat) (current : ptr) (dest : addr)
  : M ptr :=
  match current with
  | None => ret (Some dest)
  | Some c =>
      match fuel with
      | O => out_of_fuel
      | S fuel' =>
          d <- field SNodes c sn_data ;;
          result <- singly_list_push_back (Some dest) (Some d) ;;
          if negb (is_success result)
          then singly_list_destroy fuel0 (Some dest) ;;; ret NULL
          else
            next <- field SNodes c sn_next ;;
            singly_list_copy_loop fuel' fuel0 next dest
      end
  end.

Definition singly_list_copy (fuel : nat) (src : ptr) : M ptr :=
  match src with
  | None => ret NULL
  | Some sp =>
      es <- field SLists sp sl_element_size ;;
      dest <- singly_list_create es ;;
      match dest with
      | None => ret NULL
      | Some dp =>
          current <- field SLists sp sl_head ;;
          singly_list_copy_loop fuel fuel current dp
      end
  end.

Definition singly_list_get (list : ptr) (index : Z) (output : option bytes)
  : M (status_t * option bytes) :=
  match list, output with
  | Some lp, Some out =>
      node <- get_node_at list index ;;
      match node with
      | None => ret (ERROR_INDEX_OUT_OF_BOUNDS, output)
      | Some n =>
          d <- field SNodes n sn_data ;;
          es <- field SLists lp sl_element_size ;;
          output' <- copy_out output d es ;;
          ret (SUCCESS, output')
      end
  | _, _ => ret (ERROR_INVALID_INPUT, output)
  end.

Definition singly_list_set (list : ptr) (index : Z) (element : option bytes)
  : M status_t :=
  match list, element with
  | Some lp, Some e =>
      node <- get_node_at list index ;;
      match node with
      | None => ret ERROR_INDEX_OUT_OF_BOUNDS
      | Some n =>
          d <- field SNodes n sn_data ;;
          es <- field SLists lp sl_element_size ;;
          match mem_copy d e es with
          | Some d' => modify SNodes n (set_sn_data d') ;;; ret SUCCESS
          | None => fault
          end
      end
  | _, _ => ret ERROR_INVALID_INPUT
  end.

Definition singly_list_get_ref (list : ptr) (index : Z) : M (option data_ptr) :=
  node <- get_node_at list index ;;
  match node with
  | Some n => load SNodes n ;;; ret (Some (DataOf n))
  | None => ret None
  end.

Definition singly_list_front (list : ptr) : M (option data_ptr) :=
  match list with
  | None => ret None
  | Some lp =>
      head <- field SLists lp sl_head ;;
      match head with
      | Some hd => load SNodes hd ;;; ret (Some (DataOf hd))
      | None => ret None
      end
  end.

Definition singly_list_back (list : ptr) : M (option data_ptr) :=
  match list with
  | None => ret None
  | Some lp =>
      tail <- field SLists lp sl_tail ;;
      match tail with
      | Some tl => load SNodes tl ;;; ret (Some (DataOf tl))
      | None => ret None
      end
  end.

Definition singly_list_size (list : ptr) : M Z :=
  match list with
  | None => ret 0
  | Some lp => field SLists lp sl_size
  end.

Definition singly_list_empty (list : ptr) : M bool :=
  match list with
  | None => ret true
  | Some lp => s <- field SLists lp sl_size ;; ret (s =? 0)
  end.

Fixpoint singly_list_find_loop (n : nat) (i : Z) (current : ptr) (element : bytes)
    (cmp : cmp_fn) : M Z :=
  match n, current with
  | S n', Some c =>
      nd <- load SNodes c ;;
      if cmp (sn_data nd) element =? 0 then ret (to_int i)
      else singly_list_find_loop n' (to_size_t (i + 1)) (sn_next nd) element cmp
  | _, _ => ret (-1)
  end.

Definition singly_list_find (list : ptr) (element : option bytes) (cmp : option cmp_fn)
  : M Z :=
  match list, element, cmp with
  | Some lp, Some e, Some c =>
      l <- load SLists lp ;;
      singly_list_find_loop (Z.to_nat (sl_size l)) 0 (sl_head l) e c
  | _, _, _ => ret (-1)
  end.

Definition singly_list_contains (list : ptr) (element : option bytes)
    (cmp : option cmp_fn) : M bool :=
  r <- singly_list_find list element cmp ;; ret (0 <=? r).

(** [while (current != NULL) { next = current->next; current->next = prev;
    prev = current; current = next; }]; returns the final [prev]. *)
Fixpoint singly_list_reverse_loop (fuel : nat) (prev current : ptr) : M ptr :=
  match current with
  | None => ret prev
  | Some c =>
      match fuel with
      | O => out_of_fuel
      | S fuel' =>
          next <- field SNodes c sn_next ;;
          modify SNodes c (set_sn_next prev) ;;;
          singly_list_reverse_loop fuel' current next
      end
  end.

Definition singly_list_reverse (fuel : nat) (list : ptr) : M status_t :=
  match list with
  | None => ret ERROR_INVALID_INPUT
  | Some lp =>
      l <- load SLists lp ;;
      if sl_size l <=? 1 then ret SUCCESS
      else
        let current := sl_head l in
        (head <- field SLists lp sl_head ;; modify SLists lp (set_sl_tail head)) ;;;
        prev <- singly_list_reverse_loop fuel NULL current ;;
        modify SLists lp (set_sl_head prev) ;;;
        ret SUCCESS
  end.

Definition singly_list_swap (a b : ptr) : M unit :=
  match a, b with
  | Some a, Some b =>
      temp_head <- field SLists a sl_head ;;
      (x <- field SLists b sl_head ;; modify SLists a (set_sl_head x)) ;;;
      modify SLists b (set_sl_head temp_head) ;;;
      temp_tail <- field SLists a sl_tail ;;
      (x <- field SLists b sl_tail ;; modify SLists a (set_sl_tail x)) ;;;
      modify SLists b (set_sl_tail temp_tail) ;;;
      temp_size <- field SLists a sl_size ;;
      (x <- field SLists b sl_size ;; modify SLists a (set_sl_size x)) ;;;
      modify SLists b (set_sl_size temp_size) ;;;
      temp_element_size <- field SLists a sl_element_size ;;
      (x <- field SLists b sl_element_size ;; modify SLists a (set_sl_element_size x)) ;;;
      modify SLists b (set_sl_element_size temp_element_size)
  | _, _ => ret tt
  end.

Definition singly_list_iter_create (list : ptr) : M singly_list_iter_t :=
  current <- match list with
             | Some lp => field SLists lp sl_head
             | None => ret NULL
             end ;;
  ret (mk_sliter list current 0).

Definition singly_list_iter_has_next (iter : option singly_list_iter_t) : bool :=
  match iter with
  | Some it => negb (is_null (sli_current it))
  | None => false
  end.

Definition sl_iter_copy_out (it : singly_list_iter_t) (c : addr) (output : option bytes)
  : M (option bytes) :=
  match output with
  | None => ret None
  | Some _ =>
      d <- field SNodes c sn_data ;;
      es <- match sli_list it with
            | Some lp => field SLists lp sl_element_size
            | None => fault
            end ;;
      copy_out output d es
  end.

Definition singly_list_iter_next (iter : option singly_list_iter_t)
    (output : option bytes)
  : M (status_t * option singly_list_iter_t * option bytes) :=
  match iter with
  | None => ret (ERROR_INVALID_INPUT, iter, output)
  | Some it =>
      match sli_current it with
      | None => ret (ERROR_INVALID_INPUT, iter, output)
      | Some c =>
          output' <- sl_iter_copy_out it c output ;;
          next <- field SNodes c sn_next ;;
          let it := set_sli_current next it in
          let it := set_sli_position (to_size_t (sli_position it + 1)) it in
          ret (SUCCESS, Some it, output')
      end
  end.

Definition singly_list_iter_remove (iter : option singly_list_iter_t) : M status_t :=
  match iter with
  | None => ret ERROR_INVALID_INPUT
  | Some it =>
      match sli_list it with
      | None => ret ERROR_INVALID_INPUT
      | Some _ =>
          if sli_position it =? 0 then ret ERROR_INVALID_INPUT
          else singly_list_remove (sli_list it) (to_size_t (sli_position it - 1))
      end
  end.

(* ===================================================================== *)
(** * Concrete stores *)
(* ===================================================================== *)

Import Byte.

(** A 4-byte element. *)
Definition elem4 (x : byte) : bytes := [x; x00; x00; x00].

(** The vector [1, 2, 3] of 4-byte elements at address 100, with room for
    4 elements in the buffer at address 200; the allocator will hand out
    address 300 next. *)
Definition demo_vec : vector_t := mk_vector (Some 200) 3 4 4.

Definition demo_vec_heap : heap :=
  mk_heap {[ 100 := demo_vec ]}
          {[ 200 := elem4 x01 ++ elem4 x02 ++ elem4 x03 ++ elem4 xff ]}
          ∅ ∅ ∅ ∅ [Some (300, [])].

(** A full vector: 16 elements in a buffer of capacity 16. *)
Definition demo_full_vec : vector_t := mk_vector (Some 200) 16 16 4.

Definition demo_full_heap : heap :=
  mk_heap {[ 100 := demo_full_vec ]} {[ 200 := replicate 64 x07 ]}
          ∅ ∅ ∅ ∅ [Some (300, [])].

(** A full vector of capacity 1. *)
Definition demo_one_vec : vector_t := mk_vector (Some 200) 1 1 4.

Definition demo_one_heap : heap :=
  mk_heap {[ 100 := demo_one_vec ]} {[ 200 := elem4 x01 ]}
          ∅ ∅ ∅ ∅ [Some (300, [])].

(** The growth rule in the words of the specification: the capacity
    becomes [max(capacity * 1.5, 16)], or [capacity + 1] if multiplying
    by 1.5 did not exceed the old capacity. *)
Definition spec_next_capacity (capacity : Z) : option Z :=
  match growth_product capacity with
  | Some gp =>
      Some (if gp <=? capacity then capacity + 1
            else Z.max gp VECTOR_INITIAL_CAPACITY)
  | None => None
  end.

(* ===================================================================== *)
(** * What the containers hold: element sequences and invariants *)
(* ===================================================================== *)

(** ** Vector *)

(** The first [n] slots of [es] bytes of a buffer. *)
Fixpoint slices (es n : nat) (b : bytes) : list bytes :=
  match n with
  | O => []
  | S n' => take es b :: slices es n' (drop es b)
  end.

(** The element sequence of the vector at [v]: element [i] is the
    [element_size] bytes at offset [i * element_size] of the buffer. *)
Definition vector_elements (h : heap) (v : addr) : list bytes :=
  match vectors h !! v with
  | Some vec =>
      match v_data vec with
      | Some d =>
          match buffers h !! d with
          | Some b => slices (Z.to_nat (v_element_size vec)) (Z.to_nat (v_size vec)) b
          | None => []
          end
      | None => []
      end
  | None => []
  end.

(** A well-formed vector: the fields are [size_t] values, elements are
    not empty, [size <= capacity], and the live elements lie inside the
    buffer. *)
Definition vec_ok (h : heap) (v : addr) : Prop :=
  exists vec,
    vectors h !! v = Some vec /\
    0 < v_element_size vec <= SIZE_MAX /\
    0 <= v_size vec <= v_capacity vec /\ v_capacity vec <= SIZE_MAX /\
    match v_data vec with
    | None => v_size vec = 0
    | Some d =>
        exists b, buffers h !! d = Some b /\
                  v_size vec * v_element_size vec <= Z.of_nat (length b) /\
                  Z.of_nat (length b) <= SIZE_MAX
    end.

(** Every function of vector.h, as a call with its arguments. *)
Inductive vector_call : Type :=
| VCreate (element_size : Z)
| VCreateWithCapacity (element_size initial_capacity : Z)
| VDestroy (vector : ptr)
| VCopy (src : ptr)
| VPushBack (vector : ptr) (element : option bytes)
| VPopBack (vector : ptr) (output : option bytes)
| VInsert (vector : ptr) (index : Z) (element : option bytes)
| VRemove (vector : ptr) (index : Z)
| VClear (vector : ptr)
| VGet (vector : ptr) (index : Z) (output : option bytes)
| VSet (vector : ptr) (index : Z) (element : option bytes)
| VAtConst (vector : ptr) (index : Z)
| VAtMutable (vector : ptr) (index : Z)
| VFront (vector : ptr)
| VBack (vector : ptr)
| VSize (vector : ptr)
| VCapacity (vector : ptr)
| VEmpty (vector : ptr)
| VReserve (vector : ptr) (new_capacity : Z)
| VShrinkToFit (vector : ptr)
| VFind (vector : ptr) (element : option bytes) (cmp : option cmp_fn)
| VContains (vector : ptr) (element : option bytes) (cmp : option cmp_fn)
| VSwap (a b : ptr)
| VForEach (vector : ptr) (func : option (bytes -> bytes)).

(** Running a call: the status it returns, if it returns one. *)
Definition run_vector_call (c : vector_call) : M (option status_t) :=
  match c with
  | VCreate es => vector_create es ;;; ret None
  | VCreateWithCapacity es n => vector_create_with_capacity es n ;;; ret None
  | VDestroy v => vector_destroy v ;;; ret None
  | VCopy src => vector_copy src ;;; ret None
  | VPushBack v e => s <- vector_push_back v e ;; ret (Some s)
  | VPopBack v out => r <- vector_pop_back v out ;; ret (Some (fst r))
  | VInsert v i e => s <- vector_insert v i e ;; ret (Some s)
  | VRemove v i => s <- vector_remove v i ;; ret (Some s)
  | VClear v => vector_clear v ;;; ret None
  | VGet v i out => r <- vector_get v i out ;; ret (Some (fst r))
  | VSet v i e => s <- vector_set v i e ;; ret (Some s)
  | VAtConst v i => vector_at_const v i ;;; ret None
  | VAtMutable v i => vector_at_mutable v i ;;; ret None
  | VFront v => vector_front v ;;; ret None
  | VBack v => vector_back v ;;; ret None
  | VSize v => vector_size v ;;; ret None
  | VCapacity v => vector_capacity v ;;; ret None
  | VEmpty v => vector_empty v ;;; ret None
  | VReserve v n => s <- vector_reserve v n ;; ret (Some s)
  | VShrinkToFit v => s <- vector_shrink_to_fit v ;; ret (Some s)
  | VFind v e c => vector_find v e c ;;; ret None
  | VContains v e c => vector_contains v e c ;;; ret None
  | VSwap a b => vector_swap a b ;;; ret None
  | VForEach v f => vector_for_each v f ;;; ret None
  end.

Fixpoint run_vector_calls (cs : list vector_call) : M unit :=
  match cs with
  | [] => ret tt
  | c :: cs' => run_vector_call c ;;; run_vector_calls cs'
  end.

(** ** Chains of nodes *)

Section Chain.
Context {N : Type} (nxt : N -> ptr).

(** [lseg m p q ls]: following [nxt] from [p] visits exactly the nodes
    [ls], in this order, and arrives at [q]. *)
Fixpoint lseg (m : gmap addr N) (p q : ptr) (ls : list addr) : Prop :=
  match ls with
  | [] => p = q
  | a :: ls' => p = Some a /\ exists nd, m !! a = Some nd /\ lseg m (nxt nd) q ls'
  end.

(** The nodes met in at most [n] steps from [p]. *)
Fixpoint nodes_from (m : gmap addr N) (n : nat) (p : ptr) : list addr :=
  match n, p with
  | S n', Some a =>
      a :: match m !! a with
           | Some nd => nodes_from m n' (nxt nd)
           | None => []
           end
  | _, _ => []
  end.
End Chain.

(** All objects of a region sit at valid addresses. *)
Definition valid_region {T} (m : gmap addr T) : Prop :=
  forall a, is_Some (m !! a) -> valid_addr a = true.

(** ** Singly linked list *)

(** The structural invariant of the list at [lp]: the chain from [head]
    along [next] has exactly [size] nodes, ends at [tail] and terminates;
    [head], [tail] and [size] agree on emptiness; [tail->next] is null. *)
Definition sl_inv (h : heap) (lp : addr) : Prop :=
  exists l ls,
    slists h !! lp = Some l /\
    lseg sn_next (snodes h) (sl_head l) None ls /\
    Z.of_nat (length ls) = sl_size l /\
    sl_tail l = last ls /\
    (sl_head l = None <-> sl_size l = 0) /\
    (sl_size l = 0 <-> sl_tail l = None) /\
    (forall t, sl_tail l = Some t ->
               exists nd, snodes h !! t = Some nd /\ sn_next nd = None).

Definition singly_list_nodes (h : heap) (lp : addr) : list addr :=
  match slists h !! lp with
  | Some l => nodes_from sn_next (snodes h) (Z.to_nat (sl_size l)) (sl_head l)
  | None => []
  end.

Definition sn_data_at (h : heap) (a : addr) : bytes :=
  match snodes h !! a with
  | Some nd => sn_data nd
  | None => []
  end.

(** The element sequence of the list, from head to tail. *)
Definition singly_list_elements (h : heap) (lp : addr) : list bytes :=
  sn_data_at h <$> singly_list_nodes h lp.

(** ** Doubly linked list *)

(** The structural invariant of the doubly linked list at [lp]: that of
    the singly linked list, and the back links mirror the forward links:
    [m->prev == n] whenever [n->next == m], and [head->prev] is null. *)
Definition dl_inv (h : heap) (lp : addr) : Prop :=
  exists l ls,
    dlists h !! lp = Some l /\
    lseg dn_next (dnodes h) (dl_head l) None ls /\
    Z.of_nat (length ls) = dl_size l /\
    dl_tail l = last ls /\
    (dl_head l = None <-> dl_size l = 0) /\
    (dl_size l = 0 <-> dl_tail l = None) /\
    (forall t, dl_tail l = Some t ->
               exists nd, dnodes h !! t = Some nd /\ dn_next nd = None) /\
    (forall n m nd, n ∈ ls -> dnodes h !! n = Some nd -> dn_next nd = Some m ->
                    exists md, dnodes h !! m = Some md /\ dn_prev md = Some n) /\
    (forall hd, dl_head l = Some hd ->
                exists nd, dnodes h !! hd = Some nd /\ dn_prev nd = None).

Definition doubly_list_nodes (h : heap) (lp : addr) : list addr :=
  match dlists h !! lp with
  | Some l => nodes_from dn_next (dnodes h) (Z.to_nat (dl_size l)) (dl_head l)
  | None => []
  end.

Definition dn_data_at (h : heap) (a : addr) : bytes :=
  match dnodes h !! a with
  | Some nd => dn_data nd
  | None => []
  end.

Definition doubly_list_elements (h : heap) (lp : addr) : list bytes :=
  dn_data_at h <$> doubly_list_nodes h lp.

(* ===================================================================== *)
(** * Relations between stores *)
(* ===================================================================== *)

(** The contents of the store, without the allocator's future answers. *)
Definition contents (h : heap) :=
  (vectors h, buffers h, slists h, snodes h, dlists h, dnodes h).

(** The capacity [vector_check_grow] asks [vector_reserve] for, given the
    truncated product [gp] and the current capacity. *)
Definition next_capacity (gp cap : Z) : Z :=
  let n := if gp <? VECTOR_INITIAL_CAPACITY then VECTOR_INITIAL_CAPACITY else gp in
  if n <=? cap then to_size_t (cap + 1) else n.

(** The effect of an operation on the vector at [v] on the rest of the
    store: other vectors and the buffers of other vectors are untouched,
    and the buffer the vector ends up with is its old one or an address
    that was not in use. *)
Definition touches_only (h h1 : heap) (v : addr) : Prop :=
  (forall u, u <> v -> vectors h1 !! u = vectors h !! u) /\
  (forall a, is_Some (buffers h !! a) ->
             (forall vec, vectors h !! v = Some vec -> v_data vec <> Some a) ->
             buffers h1 !! a = buffers h !! a) /\
  (forall vec1 a, vectors h1 !! v = Some vec1 -> v_data vec1 = Some a ->
                  (exists vec, vectors h !! v = Some vec /\ v_data vec = Some a) \/
                  buffers h !! a = None).

(** The effect of an operation on the vector at [v]: it touches only
    that vector and its buffer, never a list, and the vector's capacity
    does not decrease (nor does its element size change). *)
Definition vec_effect (h h1 : heap) (v : addr) : Prop :=
  touches_only h h1 v /\
  slists h1 = slists h /\ snodes h1 = snodes h /\
  dlists h1 = dlists h /\ dnodes h1 = dnodes h /\
  (forall vec, vectors h !! v = Some vec ->
               exists vec1, vectors h1 !! v = Some vec1 /\
                            v_capacity vec <= v_capacity vec1 /\
                            v_element_size vec1 = v_element_size vec).

(** An operation that touches no list. *)
Definition lists_same (h h1 : heap) : Prop :=
  slists h1 = slists h /\ snodes h1 = snodes h /\
  dlists h1 = dlists h /\ dnodes h1 = dnodes h.

(** The calls after which the vector at [v] may have a lower capacity, or
    none at all: [vector_shrink_to_fit], a [vector_swap] that exchanges
    its fields with those of another vector, and its [vector_destroy]. *)
Definition keeps_capacity (v : addr) (c : vector_call) : Prop :=
  match c with
  | VShrinkToFit _ => False
  | VSwap a b => a <> Some v /\ b <> Some v
  | VDestroy p => p <> Some v
  | _ => True
  end.

(** The capacity of the vector at [v] is not lower in [h1] than in [h]. *)
Definition capacity_le (h h1 : heap) (v : addr) : Prop :=
  forall vec, vectors h !! v = Some vec ->
              exists vec1, vectors h1 !! v = Some vec1 /\
                           v_capacity vec <= v_capacity vec1.

(* ===================================================================== *)
(** * More concrete stores *)
(* ===================================================================== *)

(** Two vectors of 4-byte elements: [1, 2, 3] with capacity 4 at address
    100 and an empty one with capacity 2 at address 110. *)
Definition demo_small_vec : vector_t := mk_vector (Some 210) 0 2 4.

Definition demo_two_heap : heap :=
  mk_heap {[ 100 := demo_vec; 110 := demo_small_vec ]}
          {[ 200 := elem4 Byte.x01 ++ elem4 Byte.x02 ++ elem4 Byte.x03 ++ elem4 Byte.xff;
             210 := elem4 Byte.x00 ++ elem4 Byte.x00 ]}
          ∅ ∅ ∅ ∅ [Some (300, [])].

(** A sequence of calls on the vector at 100 without [shrink_to_fit]. *)
Definition demo_calls : list vector_call :=
  [ VPushBack (Some 100) (Some (elem4 Byte.x04));
    VPushBack (Some 100) (Some (elem4 Byte.x05));
    VPopBack (Some 100) None;
    VRemove (Some 100) 0;
    VClear (Some 100);
    VReserve (Some 100) 8 ].

(* ===================================================================== *)
(** * Lists as sequences of nodes *)
(* ===================================================================== *)

(** The node before position [i] of [ls]. *)
Definition pred_of (ls : list addr) (i : nat) : ptr :=
  match i with
  | O => None
  | S j => ls !! j
  end.

(** [ls] is a chain in [m]: the node at each position links to the node
    at the next one, the last one to null. *)
Definition links {N} (nxt : N -> ptr) (m : gmap addr N) (ls : list addr) : Prop :=
  forall i a, ls !! i = Some a -> exists nd, m !! a = Some nd /\ nxt nd = ls !! S i.

(** The same for the back links: each node links back to the node at
    the previous position, the first one to null. *)
Definition back_links (m : gmap addr doubly_node_t) (ls : list addr) : Prop :=
  forall i a, ls !! i = Some a ->
              exists nd, m !! a = Some nd /\ dn_prev nd = pred_of ls i.

(** The singly linked list at [lp] consists of the nodes [ls]. *)
Definition sl_repr (h : heap) (lp : addr) (ls : list addr) : Prop :=
  exists l, slists h !! lp = Some l /\
            sl_head l = head ls /\ sl_tail l = last ls /\
            sl_size l = Z.of_nat (length ls) /\
            links sn_next (snodes h) ls.

(** The doubly linked list at [lp] consists of the nodes [ls]. *)
Definition dl_repr (h : heap) (lp : addr) (ls : list addr) : Prop :=
  exists l, dlists h !! lp = Some l /\
            dl_head l = head ls /\ dl_tail l = last ls /\
            dl_size l = Z.of_nat (length ls) /\
            links dn_next (dnodes h) ls /\ back_links (dnodes h) ls.

(** The lists of a well-formed store: every list satisfies its
    structural invariant, no node belongs to two lists, and every node
    sits at a valid address. *)
Definition slists_ok (h : heap) : Prop :=
  valid_region (snodes h) /\
  (forall lp, is_Some (slists h !! lp) -> sl_inv h lp) /\
  (forall lp lp' a, lp <> lp' -> a ∈ singly_list_nodes h lp ->
                    a ∈ singly_list_nodes h lp' -> False).

Definition dlists_ok (h : heap) : Prop :=
  valid_region (dnodes h) /\
  (forall lp, is_Some (dlists h !! lp) -> dl_inv h lp) /\
  (forall lp lp' a, lp <> lp' -> a ∈ doubly_list_nodes h lp ->
                    a ∈ doubly_list_nodes h lp' -> False).

(* ===================================================================== *)
(** * Concrete lists *)
(* ===================================================================== *)

(** The singly linked list [1, 2, 3] at address 400, the doubly linked
    list [1, 2, 3] at address 500 and an empty doubly linked list at
    address 600, all of 4-byte elements. *)
Definition demo_lists_heap : heap :=
  mk_heap ∅ ∅
    {[ 400 := mk_slist (Some 410) (Some 430) 3 4 ]}
    {[ 410 := mk_snode (elem4 Byte.x01) (Some 420);
       420 := mk_snode (elem4 Byte.x02) (Some 430);
       430 := mk_snode (elem4 Byte.x03) None ]}
    {[ 500 := mk_dlist (Some 510) (Some 530) 3 4;
       600 := mk_dlist None None 0 4 ]}
    {[ 510 := mk_dnode (elem4 Byte.x01) (Some 520) None;
       520 := mk_dnode (elem4 Byte.x02) (Some 530) (Some 510);
       530 := mk_dnode (elem4 Byte.x03) None (Some 520) ]}
    [Some (700, []); Some (710, [])].

(** [ls] with [x] put at position [k]. *)
Definition insert_at {A} (k : nat) (x : A) (ls : list A) : list A :=
  take k ls ++ x :: drop k ls.

(** What an operation on the singly linked list at [lp] leaves alone:
    the other lists, their nodes and their elements. *)
Definition sl_frame (h h1 : heap) (lp : addr) : Prop :=
  forall lp', lp' <> lp ->
    slists h1 !! lp' = slists h !! lp' /\
    singly_list_nodes h1 lp' = singly_list_nodes h lp' /\
    singly_list_elements h1 lp' = singly_list_elements h lp'.

(** The effect of an operation on the singly linked list at [lp]: the
    lists of the store stay well formed, and nothing but that list and
    its nodes is touched. *)
Definition sl_effect (h h1 : heap) (lp : addr) : Prop :=
  slists_ok h1 /\ sl_frame h h1 lp /\
  vectors h1 = vectors h /\ buffers h1 = buffers h /\
  dlists h1 = dlists h /\ dnodes h1 = dnodes h.

Definition dl_frame (h h1 : heap) (lp : addr) : Prop :=
  forall lp', lp' <> lp ->
    dlists h1 !! lp' = dlists h !! lp' /\
    doubly_list_nodes h1 lp' = doubly_list_nodes h lp' /\
    doubly_list_elements h1 lp' = doubly_list_elements h lp'.

Definition dl_effect (h h1 : heap) (lp : addr) : Prop :=
  dlists_ok h1 /\ dl_frame h h1 lp /\
  vectors h1 = vectors h /\ buffers h1 = buffers h /\
  slists h1 = slists h /\ snodes h1 = snodes h.

(** The nodes of a store after those of [ls] were released one by one. *)
Definition drop_nodes {N} (ls : list addr) (m : gmap addr N) : gmap addr N :=
  foldl (fun m a => delete a m) m ls.

(** The nodes of a store after the loop of [singly_list_reverse] walked
    the chain [ls] with [prev] as the node before it: each node links
    back to the one that was before it. *)
Fixpoint rev_links (prev : ptr) (ls : list addr) (m : gmap addr singly_node_t)
  : gmap addr singly_node_t :=
  match ls with
  | [] => m
  | c :: ls' => rev_links (Some c) ls' (alter (set_sn_next prev) c m)
  end.

(** The same for [doubly_list_reverse]: each node has its two links
    exchanged. *)
Definition flip_links (ls : list addr) (m : gmap addr doubly_node_t)
  : gmap addr doubly_node_t :=
  foldl (fun m c => alter (fun nd => mk_dnode (dn_data nd) (dn_prev nd) (dn_next nd)) c m)
        m ls.

(** The nodes of a store after the node at position [k] of the doubly
    linked chain [ls] was unlinked and released: the node before it
    links to the node after it, and back. *)
Definition dl_unlink (ls : list addr) (k : nat) (m : gmap addr doubly_node_t)
  : gmap addr doubly_node_t :=
  let pv := pred_of ls k in
  let nx := ls !! S k in
  let m1 := match pv with Some p => alter (set_dn_next nx) p m | None => m end in
  let m2 := match nx with Some x => alter (set_dn_prev pv) x m1 | None => m1 end in
  match ls !! k with Some c => delete c m2 | None => m2 end.

(* ===================================================================== *)
(** * The functions of the list headers as calls *)
(* ===================================================================== *)

(** Every function of singly_list.h, as a call with its arguments. *)
Inductive slist_call : Type :=
| SCreate (element_size : Z)
| SDestroy (list : ptr)
| SCopy (src : ptr)
| SPushFront (list : ptr) (element : option bytes)
| SPushBack (list : ptr) (element : option bytes)
| SPopFront (list : ptr) (output : option bytes)
| SPopBack (list : ptr) (output : option bytes)
| SInsert (list : ptr) (index : Z) (element : option bytes)
| SRemove (list : ptr) (index : Z)
| SClear (list : ptr)
| SGet (list : ptr) (index : Z) (output : option bytes)
| SSet (list : ptr) (index : Z) (element : option bytes)
| SGetRef (list : ptr) (index : Z)
| SFront (list : ptr)
| SBack (list : ptr)
| SSize (list : ptr)
| SEmpty (list : ptr)
| SFind (list : ptr) (element : option bytes) (cmp : option cmp_fn)
| SContains (list : ptr) (element : option bytes) (cmp : option cmp_fn)
| SReverse (list : ptr)
| SSwap (a b : ptr)
| SIterCreate (list : ptr)
| SIterHasNext (iter : option singly_list_iter_t)
| SIterNext (iter : option singly_list_iter_t) (output : option bytes)
| SIterRemove (iter : option singly_list_iter_t).

(** Running a call with [fuel] iterations for each of its loops: the
    status it returns, if it returns one. *)
Definition run_slist_call (fuel : nat) (c : slist_call) : M (option status_t) :=
  match c with
  | SCreate es => singly_list_create es ;;; ret None
  | SDestroy l => singly_list_destroy fuel l ;;; ret None
  | SCopy src => singly_list_copy fuel src ;;; ret None
  | SPushFront l e => s <- singly_list_push_front l e ;; ret (Some s)
  | SPushBack l e => s <- singly_list_push_back l e ;; ret (Some s)
  | SPopFront l out => r <- singly_list_pop_front l out ;; ret (Some (fst r))
  | SPopBack l out => r <- singly_list_pop_back fuel l out ;; ret (Some (fst r))
  | SInsert l i e => s <- singly_list_insert l i e ;; ret (Some s)
  | SRemove l i => s <- singly_list_remove l i ;; ret (Some s)
  | SClear l => singly_list_clear fuel l ;;; ret None
  | SGet l i out => r <- singly_list_get l i out ;; ret (Some (fst r))
  | SSet l i e => s <- singly_list_set l i e ;; ret (Some s)
  | SGetRef l i => singly_list_get_ref l i ;;; ret None
  | SFront l => singly_list_front l ;;; ret None
  | SBack l => singly_list_back l ;;; ret None
  | SSize l => singly_list_size l ;;; ret None
  | SEmpty l => singly_list_empty l ;;; ret None
  | SFind l e c => singly_list_find l e c ;;; ret None
  | SContains l e c => singly_list_contains l e c ;;; ret None
  | SReverse l => s <- singly_list_reverse fuel l ;; ret (Some s)
  | SSwap a b => singly_list_swap a b ;;; ret None
  | SIterCreate l => singly_list_iter_create l ;;; ret None
  | SIterHasNext it => let _ := singly_list_iter_has_next it in ret None
  | SIterNext it out => r <- singly_list_iter_next it out ;; ret (Some (fst (fst r)))
  | SIterRemove it => s <- singly_list_iter_remove it ;; ret (Some s)
  end.

(** Every function of doubly_list.h. *)
Inductive dlist_call : Type :=
| DCreate (element_size : Z)
| DDestroy (list : ptr)
| DCopy (src : ptr)
| DPushFront (list : ptr) (element : option bytes)
| DPushBack (list : ptr) (element : option bytes)
| DPopFront (list : ptr) (output : option bytes)
| DPopBack (list : ptr) (output : option bytes)
| DInsert (list : ptr) (index : Z) (element : option bytes)
| DRemove (list : ptr) (index : Z)
| DClear (list : ptr)
| DGet (list : ptr) (index : Z) (output : option bytes)
| DSet (list : ptr) (index : Z) (element : option bytes)
| DGetRef (list : ptr) (index : Z)
| DFront (list : ptr)
| DBack (list : ptr)
| DSize (list : ptr)
| DEmpty (list : ptr)
| DFind (list : ptr) (element : option bytes) (cmp : option cmp_fn)
| DContains (list : ptr) (element : option bytes) (cmp : option cmp_fn)
| DInsertBefore (list node : ptr) (element : option bytes)
| DInsertAfter (list node : ptr) (element : option bytes)
| DReverse (list : ptr)
| DSwap (a b : ptr)
| DIterCreate (list : ptr)
| DIterCreateReverse (list : ptr)
| DIterHasNext (iter : option doubly_list_iter_t)
| DIterHasPrev (iter : option doubly_list_iter_t)
| DIterNext (iter : option doubly_list_iter_t) (output : option bytes)
| DIterPrev (iter : option doubly_list_iter_t) (output : option bytes)
| DIterRemove (iter : option doubly_list_iter_t).

Definition run_dlist_call (fuel : nat) (c : dlist_call) : M (option status_t) :=
  match c with
  | DCreate es => doubly_list_create es ;;; ret None
  | DDestroy l => doubly_list_destroy fuel l ;;; ret None
  | DCopy src => doubly_list_copy fuel src ;;; ret None
  | DPushFront l e => s <- doubly_list_push_front l e ;; ret (Some s)
  | DPushBack l e => s <- doubly_list_push_back l e ;; ret (Some s)
  | DPopFront l out => r <- doubly_list_pop_front l out ;; ret (Some (fst r))
  | DPopBack l out => r <- doubly_list_pop_back l out ;; ret (Some (fst r))
  | DInsert l i e => s <- doubly_list_insert l i e ;; ret (Some s)
  | DRemove l i => s <- doubly_list_remove l i ;; ret (Some s)
  | DClear l => doubly_list_clear fuel l ;;; ret None
  | DGet l i out => r <- doubly_list_get l i out ;; ret (Some (fst r))
  | DSet l i e => s <- doubly_list_set l i e ;; ret (Some s)
  | DGetRef l i => doubly_list_get_ref l i ;;; ret None
  | DFront l => doubly_list_front l ;;; ret None
  | DBack l => doubly_list_back l ;;; ret None
  | DSize l => doubly_list_size l ;;; ret None
  | DEmpty l => doubly_list_empty l ;;; ret None
  | DFind l e c => doubly_list_find l e c ;;; ret None
  | DContains l e c => doubly_list_contains l e c ;;; ret None
  | DInsertBefore l nd e => s <- doubly_list_insert_before l nd e ;; ret (Some s)
  | DInsertAfter l nd e => s <- doubly_list_insert_after l nd e ;; ret (Some s)
  | DReverse l => s <- doubly_list_reverse fuel l ;; ret (Some s)
  | DSwap a b => doubly_list_swap a b ;;; ret None
  | DIterCreate l => doubly_list_iter_create l ;;; ret None
  | DIterCreateReverse l => doubly_list_iter_create_reverse l ;;; ret None
  | DIterHasNext it => let _ := doubly_list_iter_has_next it in ret None
  | DIterHasPrev it => let _ := doubly_list_iter_has_prev it in ret None
  | DIterNext it out => r <- doubly_list_iter_next it out ;; ret (Some (fst (fst r)))
  | DIterPrev it out => r <- doubly_list_iter_prev it out ;; ret (Some (fst (fst r)))
  | DIterRemove it => r <- doubly_list_iter_remove it ;; ret (Some (fst r))
  end.

(** A call on a list of either kind, and a call on any container. *)
Inductive list_call : Type :=
| OnSingly (c : slist_call)
| OnDoubly (c : dlist_call).

Inductive call : Type :=
| OnVector (c : vector_call)
| OnList (c : list_call).

Definition run_list_call (fuel : nat) (c : list_call) : M (option status_t) :=
  match c with
  | OnSingly c => run_slist_call fuel c
  | OnDoubly c => run_dlist_call fuel c
  end.

Definition run_call (fuel : nat) (c : call) : M (option status_t) :=
  match c with
  | OnVector c => run_vector_call c
  | OnList c => run_list_call fuel c
  end.

(** ** What a call asks of its arguments *)

Definition is_size_t (z : Z) : Prop := 0 <= z <= SIZE_MAX.

(** An index or a position is a [size_t]. *)
Definition vector_call_ok (c : vector_call) : Prop :=
  match c with
  | VInsert _ i _ | VRemove _ i | VGet _ i _ | VSet _ i _ => is_size_t i
  | _ => True
  end.

Definition slist_call_ok (c : slist_call) : Prop :=
  match c with
  | SInsert _ i _ | SRemove _ i | SGet _ i _ | SSet _ i _ | SGetRef _ i => is_size_t i
  | SIterRemove (Some it) => is_size_t (sli_position it)
  | _ => True
  end.

(** For the doubly linked list also: the node given to [insert_before]
    or [insert_after] is a node of that list, and the iterator given to
    [iter_remove] is valid, it stands on a node of its list. *)
Definition dlist_call_ok (h : heap) (c : dlist_call) : Prop :=
  match c with
  | DInsert _ i _ | DRemove _ i | DGet _ i _ | DSet _ i _ | DGetRef _ i => is_size_t i
  | DInsertBefore (Some lp) (Some nd) _ | DInsertAfter (Some lp) (Some nd) _ =>
      nd ∈ doubly_list_nodes h lp
  | DIterRemove (Some it) =>
      match dli_list it, dli_current it with
      | Some lp, Some c => c ∈ doubly_list_nodes h lp
      | _, _ => True
      end
  | _ => True
  end.

Definition list_call_ok (h : heap) (c : list_call) : Prop :=
  match c with
  | OnSingly c => slist_call_ok c
  | OnDoubly c => dlist_call_ok h c
  end.

Definition call_ok (h : heap) (c : call) : Prop :=
  match c with
  | OnVector c => vector_call_ok c
  | OnList c => list_call_ok h c
  end.

(** The number of nodes the loops of a call walk over: those of the list
    it is given. *)
Definition slist_call_fuel (h : heap) (c : slist_call) : nat :=
  match c with
  | SDestroy (Some lp) | SCopy (Some lp) | SPopBack (Some lp) _
  | SClear (Some lp) | SReverse (Some lp) => length (singly_list_nodes h lp)
  | _ => 0
  end.

Definition dlist_call_fuel (h : heap) (c : dlist_call) : nat :=
  match c with
  | DDestroy (Some lp) | DCopy (Some lp) | DClear (Some lp) | DReverse (Some lp) =>
      length (doubly_list_nodes h lp)
  | _ => 0
  end.

Definition list_call_fuel (h : heap) (c : list_call) : nat :=
  match c with
  | OnSingly c => slist_call_fuel h c
  | OnDoubly c => dlist_call_fuel h c
  end.

(** ** Well-formed stores *)

Definition lists_ok (h : heap) : Prop := slists_ok h /\ dlists_ok h.

Definition vectors_ok (h : heap) : Prop :=
  forall v, is_Some (vectors h !! v) -> vec_ok h v.

Definition store_ok (h : heap) : Prop := vectors_ok h /\ lists_ok h.

(** ** The validation of the arguments, as the specification words it

    A fallible function first validates its arguments: a null argument
    is an invalid input, taking from an empty container an
    empty-container error, an index past the end an out-of-bounds error.
    [validation h c] is the error the call [c] has to return in the
    store [h] for that, [None] when its arguments pass. *)
Definition missing {A} (x : option A) : bool :=
  match x with
  | Some _ => false
  | None => true
  end.

Definition vector_len (h : heap) (p : ptr) : option Z :=
  a ← p; v_size <$> vectors h !! a.

Definition slist_len (h : heap) (p : ptr) : option Z :=
  a ← p; (fun _ => Z.of_nat (length (singly_list_elements h a))) <$> slists h !! a.

Definition dlist_len (h : heap) (p : ptr) : option Z :=
  a ← p; (fun _ => Z.of_nat (length (doubly_list_elements h a))) <$> dlists h !! a.

Definition validate (null : bool) (bad : option bool) (e : status_t) : option status_t :=
  if null then Some ERROR_INVALID_INPUT
  else match bad with
       | Some true => Some e
       | _ => None
       end.

Definition vector_validation (h : heap) (c : vector_call) : option status_t :=
  match c with
  | VPushBack v e => validate (missing v || missing e) None SUCCESS
  | VPopBack v _ =>
      validate (missing v) ((fun n => n =? 0) <$> vector_len h v) ERROR_EMPTY_CONTAINER
  | VInsert v i e =>
      validate (missing v || missing e) ((fun n => n <? i) <$> vector_len h v)
        ERROR_INDEX_OUT_OF_BOUNDS
  | VRemove v i =>
      validate (missing v) ((fun n => n <=? i) <$> vector_len h v)
        ERROR_INDEX_OUT_OF_BOUNDS
  | VGet v i out =>
      validate (missing v || missing out) ((fun n => n <=? i) <$> vector_len h v)
        ERROR_INDEX_OUT_OF_BOUNDS
  | VSet v i e =>
      validate (missing v || missing e) ((fun n => n <=? i) <$> vector_len h v)
        ERROR_INDEX_OUT_OF_BOUNDS
  | VReserve v _ => validate (missing v) None SUCCESS
  | VShrinkToFit v => validate (missing v) None SUCCESS
  | _ => None
  end.

Definition slist_validation (h : heap) (c : slist_call) : option status_t :=
  match c with
  | SPushFront l e | SPushBack l e => validate (missing l || missing e) None SUCCESS
  | SPopFront l _ | SPopBack l _ =>
      validate (missing l) ((fun n => n =? 0) <$> slist_len h l) ERROR_EMPTY_CONTAINER
  | SInsert l i e =>
      validate (missing l || missing e) ((fun n => n <? i) <$> slist_len h l)
        ERROR_INDEX_OUT_OF_BOUNDS
  | SRemove l i =>
      validate (missing l) ((fun n => n <=? i) <$> slist_len h l)
        ERROR_INDEX_OUT_OF_BOUNDS
  | SGet l i x | SSet l i x =>
      validate (missing l || missing x) ((fun n => n <=? i) <$> slist_len h l)
        ERROR_INDEX_OUT_OF_BOUNDS
  | SReverse l => validate (missing l) None SUCCESS
  | SIterNext it _ => validate (missing (it ≫= sli_current)) None SUCCESS
  | SIterRemove it =>
      validate (missing (it ≫= sli_list)
                || match it with Some i => sli_position i =? 0 | None => true end)
        (i ← it; (fun n => n <? sli_position i) <$> slist_len h (sli_list i))
        ERROR_INDEX_OUT_OF_BOUNDS
  | _ => None
  end.

Definition dlist_validation (h : heap) (c : dlist_call) : option status_t :=
  match c with
  | DPushFront l e | DPushBack l e => validate (missing l || missing e) None SUCCESS
  | DPopFront l _ | DPopBack l _ =>
      validate (missing l) ((fun n => n =? 0) <$> dlist_len h l) ERROR_EMPTY_CONTAINER
  | DInsert l i e =>
      validate (missing l || missing e) ((fun n => n <? i) <$> dlist_len h l)
        ERROR_INDEX_OUT_OF_BOUNDS
  | DRemove l i =>
      validate (missing l) ((fun n => n <=? i) <$> dlist_len h l)
        ERROR_INDEX_OUT_OF_BOUNDS
  | DGet l i x | DSet l i x =>
      validate (missing l || missing x) ((fun n => n <=? i) <$> dlist_len h l)
        ERROR_INDEX_OUT_OF_BOUNDS
  | DInsertBefore l nd e | DInsertAfter l nd e =>
      validate (missing l || missing nd || missing e) None SUCCESS
  | DReverse l => validate (missing l) None SUCCESS
  | DIterNext it _ | DIterPrev it _ => validate (missing (it ≫= dli_current)) None SUCCESS
  | DIterRemove it =>
      validate (missing (it ≫= dli_list) || missing (it ≫= dli_current)) None SUCCESS
  | _ => None
  end.

Definition validation (h : heap) (c : call) : option status_t :=
  match c with
  | OnVector c => vector_validation h c
  | OnList (OnSingly c) => slist_validation h c
  | OnList (OnDoubly c) => dlist_validation h c
  end.

(* ===================================================================== *)
(** * Copies of a vector *)
(* ===================================================================== *)

(** The bytes of the buffer of the vector at [v]. *)
Definition vector_buffer (h : heap) (v : addr) : bytes :=
  match vectors h !! v with
  | Some vec =>
      match v_data vec with
      | Some d => default [] (buffers h !! d)
      | None => []
      end
  | None => []
  end.

(** The calls by which [vector_copy] fills the copy [d]: one
    [vector_push_back] for each of the [n] elements from index [i] on of
    the source, whose buffer holds [b]; each is given by the pointer to
    it, [data + i * element_size]. *)
Fixpoint copy_pushes (d : addr) (b : bytes) (es : Z) (i : Z) (n : nat)
  : list vector_call :=
  match n with
  | O => []
  | S n' =>
      VPushBack (Some d) (Some (drop (Z.to_nat (to_size_t (i * es))) b))
      :: copy_pushes d b es (to_size_t (i + 1)) n'
  end.

(** The vectors a call is given. *)
Definition call_vectors (c : vector_call) : list ptr :=
  match c with
  | VCreate _ | VCreateWithCapacity _ _ => []
  | VSwap a b => [a; b]
  | VDestroy v | VCopy v | VPushBack v _ | VPopBack v _ | VInsert v _ _ | VRemove v _
  | VClear v | VGet v _ _ | VSet v _ _ | VAtConst v _ | VAtMutable v _ | VFront v
  | VBack v | VSize v | VCapacity v | VEmpty v | VReserve v _ | VShrinkToFit v
  | VFind v _ _ | VContains v _ _ | VForEach v _ => [v]
  end.

(** A call that is not given the vector at [s]. *)
Definition leaves (s : addr) (c : vector_call) : Prop := Some s ∉ call_vectors c.

(** The vector at [s] owns its buffer: the buffer is live and no other
    vector points to it. *)
Definition owns_buffer (h : heap) (s : addr) : Prop :=
  forall vec q, vectors h !! s = Some vec -> v_data vec = Some q ->
    is_Some (buffers h !! q) /\
    forall u vecu, u <> s -> vectors h !! u = Some vecu -> v_data vecu <> Some q.

(** What a call leaves of the vector at [s]: the vector, the contents of
    its buffer, and its being the only vector with that buffer. *)
Definition kept (h h1 : heap) (s : addr) : Prop :=
  owns_buffer h1 s /\ vectors h1 !! s = vectors h !! s /\
  forall vec q, vectors h !! s = Some vec -> v_data vec = Some q ->
                buffers h1 !! q = buffers h !! q.

(** A store that extends another: what was there is as it was, and the
    buffers of the new vectors are new. *)
Definition extends (h h1 : heap) : Prop :=
  (forall u, is_Some (vectors h !! u) -> vectors h1 !! u = vectors h !! u) /\
  (forall a, is_Some (buffers h !! a) -> buffers h1 !! a = buffers h !! a) /\
  (forall u vecu a, vectors h !! u = None -> vectors h1 !! u = Some vecu ->
                    v_data vecu = Some a -> buffers h !! a = None).

(** A vector that [vector_shrink_to_fit] has left without a buffer, at
    address 100. *)
Definition demo_shrunk_vec : vector_t := mk_vector NULL 0 0 4.

Definition demo_shrunk_heap : heap :=
  mk_heap {[ 100 := demo_shrunk_vec ]} ∅ ∅ ∅ ∅ ∅ [Some (300, []); Some (310, [])].

(* ===================================================================== *)
(** * More concrete lists *)
(* ===================================================================== *)

(** The lists of [demo_lists_heap] with an allocator that has seven
    answers left: enough for a list and three nodes with their data. *)
Definition demo_lists_rich : heap :=
  set_allocator [Some (700, []); Some (710, []); Some (720, []);
                 Some (730, []); Some (740, []); Some (750, []);
                 Some (760, [])] demo_lists_heap.

(* ===================================================================== *)
(** * core.c : comparing, filling and exchanging memory *)
(* ===================================================================== *)

(** The value of a byte read through an [unsigned char *]. *)
Definition byte_value (b : Byte.byte) : Z := Z.of_N (Byte.to_N b).

(** [(char)value]: the low eight bits of an [int]. *)
Definition byte_of_int (value : Z) : Byte.byte :=
  default Byte.x00 (Byte.of_N (Z.to_N (value mod 256))).

(** [for (i = 0; i < count; i++) if (p1[i] != p2[i]) return (int)p1[i] - (int)p2[i];]
    on the bytes the two pointers address; reading past the end of
    either object is undefined ([None]). *)
Fixpoint mem_cmp_loop (n : nat) (p1 p2 : bytes) : option Z :=
  match n with
  | O => Some 0
  | S n' =>
      match p1, p2 with
      | b1 :: r1, b2 :: r2 =>
          if byte_value b1 =? byte_value b2 then mem_cmp_loop n' r1 r2
          else Some (byte_value b1 - byte_value b2)
      | _, _ => None
      end
  end.

(** [mem_cmp(ptr1, ptr2, count)]: 0 when either pointer is null or
    [count] is 0, otherwise the difference of the first two bytes that
    differ, or 0. *)
Definition mem_cmp (ptr1 ptr2 : option bytes) (count : Z) : option Z :=
  match ptr1, ptr2 with
  | Some p1, Some p2 =>
      if count =? 0 then Some 0 else mem_cmp_loop (Z.to_nat count) p1 p2
  | _, _ => Some 0
  end.

(** A comparison function for elements of [n] bytes, through [mem_cmp]. *)
Definition cmp_bytes (n : Z) : cmp_fn :=
  fun x y => default 0 (mem_cmp (Some x) (Some y) n).

(* ===================================================================== *)
(** * Iterators *)
(* ===================================================================== *)

(** The iterator [it] stands on position [k] of the list at [lp]: its
    current node is the [k]-th node of the list (null when [k] is the
    size), and its position is [k]. *)
Definition sl_iter_at (h : heap) (lp : addr) (k : nat) (it : singly_list_iter_t) : Prop :=
  sli_list it = Some lp /\
  sli_current it = singly_list_nodes h lp !! k /\
  sli_position it = Z.of_nat k.

Definition dl_iter_at (h : heap) (lp : addr) (k : nat) (it : doubly_list_iter_t) : Prop :=
  dli_list it = Some lp /\
  dli_current it = doubly_list_nodes h lp !! k /\
  dli_position it = Z.of_nat k.

(* ===================================================================== *)
(** * deque.c, stack.c, queue.c : the containers built on the others *)
(* ===================================================================== *)

(** deque.h: [deque_t]; stack.h: [stack_array_t], [stack_list_t];
    queue.h: [queue_array_t], [queue_list_t], with the fields the
    functions use. *)
Record deque_t : Type := mk_deque { dq_list : ptr }.

Record stack_array_t : Type := mk_stack_array { sa_vector : ptr }.

Record stack_list_t : Type := mk_stack_list { stl_list : ptr }.

Record queue_array_t : Type := mk_queue_array {
  qa_data : ptr;
  qa_front : Z;
  qa_rear : Z;
  qa_size : Z;
  qa_capacity : Z;
  qa_element_size : Z
}.

Record queue_list_t : Type := mk_queue_list { ql_list : ptr }.

(** These objects live beside the store of vectors and lists, one
    region per kind. *)
Record adapters : Type := mk_adapters {
  deques : gmap addr deque_t;
  stack_arrays : gmap addr stack_array_t;
  stack_lists : gmap addr stack_list_t;
  queue_arrays : gmap addr queue_array_t;
  queue_lists : gmap addr queue_list_t
}.

Definition no_adapters : adapters := mk_adapters ∅ ∅ ∅ ∅ ∅.

Record aregion (T : Type) : Type := mk_aregion {
  aget : adapters -> gmap addr T;
  aset : gmap addr T -> adapters -> adapters
}.
Arguments aget {T} _ _.
Arguments aset {T} _ _ _.

Definition Deques : aregion deque_t :=
  mk_aregion _ deques
    (fun m w => mk_adapters m (stack_arrays w) (stack_lists w) (queue_arrays w) (queue_lists w)).
Definition StackArrays : aregion stack_array_t :=
  mk_aregion _ stack_arrays
    (fun m w => mk_adapters (deques w) m (stack_lists w) (queue_arrays w) (queue_lists w)).
Definition StackLists : aregion stack_list_t :=
  mk_aregion _ stack_lists
    (fun m w => mk_adapters (deques w) (stack_arrays w) m (queue_arrays w) (queue_lists w)).
Definition QueueArrays : aregion queue_array_t :=
  mk_aregion _ queue_arrays
    (fun m w => mk_adapters (deques w) (stack_arrays w) (stack_lists w) m (queue_lists w)).
Definition QueueLists : aregion queue_list_t :=
  mk_aregion _ queue_lists
    (fun m w => mk_adapters (deques w) (stack_arrays w) (stack_lists w) (queue_arrays w) m).

Definition adapter_in_use (w : adapters) (a : addr) : bool :=
  bool_decide (is_Some (deques w !! a)) || bool_decide (is_Some (stack_arrays w !! a))
  || bool_decide (is_Some (stack_lists w !! a)) || bool_decide (is_Some (queue_arrays w !! a))
  || bool_decide (is_Some (queue_lists w !! a)).

(** A computation over both: it threads the adapters through a
    computation over the store. *)
Definition A4 (A : Type) : Type := adapters -> M (A * adapters).

Definition ret4 {A} (a : A) : A4 A := fun w => ret (a, w).
Definition bind4 {A B} (m : A4 A) (k : A -> A4 B) : A4 B :=
  fun w => r <- m w ;; k (fst r) (snd r).
Definition lift {A} (m : M A) : A4 A := fun w => a <- m ;; ret (a, w).

Notation "x <~ c ;; k" := (bind4 c (fun x => k))
  (at level 100, c at next level, right associativity).
Notation "c ;;~ k" := (bind4 c (fun _ => k))
  (at level 100, right associativity).

Definition aload {T} (R : aregion T) (p : addr) : A4 T :=
  fun w => match aget R w !! p with
           | Some x => ret (x, w)
           | None => fault
           end.

Definition amodify {T} (R : aregion T) (p : addr) (f : T -> T) : A4 unit :=
  fun w => match aget R w !! p with
           | Some x => ret (tt, aset R (<[p := f x]> (aget R w)) w)
           | None => fault
           end.

Definition afree {T} (R : aregion T) (p : addr) : A4 unit :=
  fun w => match aget R w !! p with
           | Some _ => ret (tt, aset R (delete p (aget R w)) w)
           | None => fault
           end.

(** [mem_alloc(sizeof(T))] for an adapter: the allocator's next answer,
    which is never an address in use in the store or among the
    adapters.  (The allocations of the store itself look at the store
    only: they allow answers that fall on an adapter, which a real
    allocator never gives; what is proved holds for those as well.) *)
Definition amalloc {T} (R : aregion T) (init : T) : A4 ptr :=
  fun w =>
    a <- next_answer ;;
    match a with
    | None => ret (NULL, w)
    | Some (p, _) =>
        fun h => if valid_addr p && negb (in_use h p) && negb (adapter_in_use w p)
                 then Ok (Some p, aset R (<[p := init]> (aget R w)) w) h
                 else Fault
    end.

(** ** deque.c *)

Definition set_dq_list (l : ptr) (d : deque_t) : deque_t := mk_deque l.

Definition deque_create (element_size : Z) : A4 ptr :=
  if element_size =? 0 then ret4 NULL
  else
    deque <~ amalloc Deques (mk_deque NULL) ;;
    match deque with
    | None => ret4 NULL
    | Some d =>
        list <~ lift (doubly_list_create element_size) ;;
        amodify Deques d (set_dq_list list) ;;~
        match list with
        | None => afree Deques d ;;~ ret4 NULL
        | Some _ => ret4 deque
        end
    end.

Definition deque_destroy (fuel : nat) (deque : ptr) : A4 unit :=
  match deque with
  | None => ret4 tt
  | Some d =>
      dq <~ aload Deques d ;;
      lift (doubly_list_destroy fuel (dq_list dq)) ;;~
      afree Deques d
  end.

Definition deque_push_front (deque : ptr) (element : option bytes) : A4 status_t :=
  match deque, element with
  | Some d, Some _ =>
      dq <~ aload Deques d ;; lift (doubly_list_push_front (dq_list dq) element)
  | _, _ => ret4 ERROR_INVALID_INPUT
  end.

Definition deque_push_back (deque : ptr) (element : option bytes) : A4 status_t :=
  match deque, element with
  | Some d, Some _ =>
      dq <~ aload Deques d ;; lift (doubly_list_push_back (dq_list dq) element)
  | _, _ => ret4 ERROR_INVALID_INPUT
  end.

Definition deque_pop_front (deque : ptr) (output : option bytes)
  : A4 (status_t * option bytes) :=
  match deque with
  | None => ret4 (ERROR_INVALID_INPUT, output)
  | Some d => dq <~ aload Deques d ;; lift (doubly_list_pop_front (dq_list dq) output)
  end.

Definition deque_pop_back (deque : ptr) (output : option bytes)
  : A4 (status_t * option bytes) :=
  match deque with
  | None => ret4 (ERROR_INVALID_INPUT, output)
  | Some d => dq <~ aload Deques d ;; lift (doubly_list_pop_back (dq_list dq) output)
  end.

Definition deque_peek_front (deque : ptr) (output : option bytes)
  : A4 (status_t * option bytes) :=
  match deque, output with
  | Some d, Some _ =>
      dq <~ aload Deques d ;; lift (doubly_list_get (dq_list dq) 0 output)
  | _, _ => ret4 (ERROR_INVALID_INPUT, output)
  end.

Definition deque_peek_back (deque : ptr) (output : option bytes)
  : A4 (status_t * option bytes) :=
  match deque, output with
  | Some d, Some _ =>
      dq <~ aload Deques d ;;
      empty <~ lift (doubly_list_empty (dq_list dq)) ;;
      if (empty : bool) then ret4 (ERROR_EMPTY_CONTAINER, output)
      else
        size <~ lift (doubly_list_size (dq_list dq)) ;;
        lift (doubly_list_get (dq_list dq) (to_size_t (size - 1)) output)
  | _, _ => ret4 (ERROR_INVALID_INPUT, output)
  end.

Definition deque_peek_front_ref (deque : ptr) : A4 (option data_ptr) :=
  match deque with
  | Some d => dq <~ aload Deques d ;; lift (doubly_list_front (dq_list dq))
  | None => ret4 None
  end.

Definition deque_peek_back_ref (deque : ptr) : A4 (option data_ptr) :=
  match deque with
  | Some d => dq <~ aload Deques d ;; lift (doubly_list_back (dq_list dq))
  | None => ret4 None
  end.

Definition deque_size (deque : ptr) : A4 Z :=
  match deque with
  | Some d => dq <~ aload Deques d ;; lift (doubly_list_size (dq_list dq))
  | None => ret4 0
  end.

Definition deque_empty (deque : ptr) : A4 bool :=
  match deque with
  | Some d => dq <~ aload Deques d ;; lift (doubly_list_empty (dq_list dq))
  | None => ret4 true
  end.

Definition deque_insert (deque : ptr) (index : Z) (element : option bytes)
  : A4 status_t :=
  match deque, element with
  | Some d, Some _ =>
      dq <~ aload Deques d ;; lift (doubly_list_insert (dq_list dq) index element)
  | _, _ => ret4 ERROR_INVALID_INPUT
  end.

Definition deque_remove (deque : ptr) (index : Z) : A4 status_t :=
  match deque with
  | Some d => dq <~ aload Deques d ;; lift (doubly_list_remove (dq_list dq) index)
  | None => ret4 ERROR_INVALID_INPUT
  end.

Definition deque_get (deque : ptr) (index : Z) (output : option bytes)
  : A4 (status_t * option bytes) :=
  match deque, output with
  | Some d, Some _ =>
      dq <~ aload Deques d ;; lift (doubly_list_get (dq_list dq) index output)
  | _, _ => ret4 (ERROR_INVALID_INPUT, output)
  end.

Definition deque_set (deque : ptr) (index : Z) (element : option bytes)
  : A4 status_t :=
  match deque, element with
  | Some d, Some _ =>
      dq <~ aload Deques d ;; lift (doubly_list_set (dq_list dq) index element)
  | _, _ => ret4 ERROR_INVALID_INPUT
  end.

(** ** stack.c : the stack on a vector *)

Definition set_sa_vector (v : ptr) (s : stack_array_t) : stack_array_t :=
  mk_stack_array v.

Definition stack_array_create_with_capacity (element_size capacity : Z) : A4 ptr :=
  if element_size =? 0 then ret4 NULL
  else
    stack <~ amalloc StackArrays (mk_stack_array NULL) ;;
    match stack with
    | None => ret4 NULL
    | Some s =>
        vector <~ lift (vector_create_with_capacity element_size capacity) ;;
        amodify StackArrays s (set_sa_vector vector) ;;~
        match vector with
        | None => afree StackArrays s ;;~ ret4 NULL
        | Some _ => ret4 stack
        end
    end.

Definition stack_array_create (element_size : Z) : A4 ptr :=
  stack_array_create_with_capacity element_size VECTOR_INITIAL_CAPACITY.

Definition stack_array_destroy (stack : ptr) : A4 unit :=
  match stack with
  | None => ret4 tt
  | Some s =>
      st <~ aload StackArrays s ;;
      lift (vector_destroy (sa_vector st)) ;;~
      afree StackArrays s
  end.

Definition stack_array_push (stack : ptr) (element : option bytes) : A4 status_t :=
  match stack, element with
  | Some s, Some _ =>
      st <~ aload StackArrays s ;; lift (vector_push_back (sa_vector st) element)
  | _, _ => ret4 ERROR_INVALID_INPUT
  end.

Definition stack_array_pop (stack : ptr) (output : option bytes)
  : A4 (status_t * option bytes) :=
  match stack with
  | None => ret4 (ERROR_INVALID_INPUT, output)
  | Some s => st <~ aload StackArrays s ;; lift (vector_pop_back (sa_vector st) output)
  end.

Definition stack_array_peek (stack : ptr) (output : option bytes)
  : A4 (status_t * option bytes) :=
  match stack, output with
  | Some s, Some _ =>
      st <~ aload StackArrays s ;;
      empty <~ lift (vector_empty (sa_vector st)) ;;
      if (empty : bool) then ret4 (ERROR_EMPTY_CONTAINER, output)
      else
        size <~ lift (vector_size (sa_vector st)) ;;
        lift (vector_get (sa_vector st) (to_size_t (size - 1)) output)
  | _, _ => ret4 (ERROR_INVALID_INPUT, output)
  end.

Definition stack_array_peek_ref (stack : ptr) : A4 (option (addr * Z)) :=
  match stack with
  | None => ret4 None
  | Some s =>
      st <~ aload StackArrays s ;;
      empty <~ lift (vector_empty (sa_vector st)) ;;
      if (empty : bool) then ret4 None else lift (vector_back (sa_vector st))
  end.

Definition stack_array_size (stack : ptr) : A4 Z :=
  match stack with
  | Some s => st <~ aload StackArrays s ;; lift (vector_size (sa_vector st))
  | None => ret4 0
  end.

Definition stack_array_empty (stack : ptr) : A4 bool :=
  match stack with
  | Some s => st <~ aload StackArrays s ;; lift (vector_empty (sa_vector st))
  | None => ret4 true
  end.

Definition stack_array_capacity (stack : ptr) : A4 Z :=
  match stack with
  | Some s => st <~ aload StackArrays s ;; lift (vector_capacity (sa_vector st))
  | None => ret4 0
  end.

Definition stack_array_reserve (stack : ptr) (capacity : Z) : A4 status_t :=
  match stack with
  | Some s => st <~ aload StackArrays s ;; lift (vector_reserve (sa_vector st) capacity)
  | None => ret4 ERROR_INVALID_INPUT
  end.

(** ** stack.c : the stack on a singly linked list *)

Definition set_stl_list (l : ptr) (s : stack_list_t) : stack_list_t := mk_stack_list l.

Definition stack_list_create (element_size : Z) : A4 ptr :=
  if element_size =? 0 then ret4 NULL
  else
    stack <~ amalloc StackLists (mk_stack_list NULL) ;;
    match stack with
    | None => ret4 NULL
    | Some s =>
        list <~ lift (singly_list_create element_size) ;;
        amodify StackLists s (set_stl_list list) ;;~
        match list with
        | None => afree StackLists s ;;~ ret4 NULL
        | Some _ => ret4 stack
        end
    end.

Definition stack_list_destroy (fuel : nat) (stack : ptr) : A4 unit :=
  match stack with
  | None => ret4 tt
  | Some s =>
      st <~ aload StackLists s ;;
      lift (singly_list_destroy fuel (stl_list st)) ;;~
      afree StackLists s
  end.

Definition stack_list_push (stack : ptr) (element : option bytes) : A4 status_t :=
  match stack, element with
  | Some s, Some _ =>
      st <~ aload StackLists s ;; lift (singly_list_push_front (stl_list st) element)
  | _, _ => ret4 ERROR_INVALID_INPUT
  end.

Definition stack_list_pop (stack : ptr) (output : option bytes)
  : A4 (status_t * option bytes) :=
  match stack with
  | None => ret4 (ERROR_INVALID_INPUT, output)
  | Some s => st <~ aload StackLists s ;; lift (singly_list_pop_front (stl_list st) output)
  end.

Definition stack_list_peek (stack : ptr) (output : option bytes)
  : A4 (status_t * option bytes) :=
  match stack, output with
  | Some s, Some _ =>
      st <~ aload StackLists s ;; lift (singly_list_get (stl_list st) 0 output)
  | _, _ => ret4 (ERROR_INVALID_INPUT, output)
  end.

Definition stack_list_peek_ref (stack : ptr) : A4 (option data_ptr) :=
  match stack with
  | Some s => st <~ aload StackLists s ;; lift (singly_list_front (stl_list st))
  | None => ret4 None
  end.

Definition stack_list_size (stack : ptr) : A4 Z :=
  match stack with
  | Some s => st <~ aload StackLists s ;; lift (singly_list_size (stl_list st))
  | None => ret4 0
  end.

Definition stack_list_empty (stack : ptr) : A4 bool :=
  match stack with
  | Some s => st <~ aload StackLists s ;; lift (singly_list_empty (stl_list st))
  | None => ret4 true
  end.

(** ** queue.c : the queue on a singly linked list *)

Definition set_ql_list (l : ptr) (q : queue_list_t) : queue_list_t := mk_queue_list l.

Definition queue_list_create (element_size : Z) : A4 ptr :=
  if element_size =? 0 then ret4 NULL
  else
    queue <~ amalloc QueueLists (mk_queue_list NULL) ;;
    match queue with
    | None => ret4 NULL
    | Some q =>
        list <~ lift (singly_list_create element_size) ;;
        amodify QueueLists q (set_ql_list list) ;;~
        match list with
        | None => afree QueueLists q ;;~ ret4 NULL
        | Some _ => ret4 queue
        end
    end.

Definition queue_list_destroy (fuel : nat) (queue : ptr) : A4 unit :=
  match queue with
  | None => ret4 tt
  | Some q =>
      qu <~ aload QueueLists q ;;
      lift (singly_list_destroy fuel (ql_list qu)) ;;~
      afree QueueLists q
  end.

Definition queue_list_enqueue (queue : ptr) (element : option bytes) : A4 status_t :=
  match queue, element with
  | Some q, Some _ =>
      qu <~ aload QueueLists q ;; lift (singly_list_push_back (ql_list qu) element)
  | _, _ => ret4 ERROR_INVALID_INPUT
  end.

Definition queue_list_dequeue (queue : ptr) (output : option bytes)
  : A4 (status_t * option bytes) :=
  match queue with
  | None => ret4 (ERROR_INVALID_INPUT, output)
  | Some q => qu <~ aload QueueLists q ;; lift (singly_list_pop_front (ql_list qu) output)
  end.

Definition queue_list_peek (queue : ptr) (output : option bytes)
  : A4 (status_t * option bytes) :=
  match queue, output with
  | Some q, Some _ =>
      qu <~ aload QueueLists q ;; lift (singly_list_get (ql_list qu) 0 output)
  | _, _ => ret4 (ERROR_INVALID_INPUT, output)
  end.

Definition queue_list_peek_ref (queue : ptr) : A4 (option data_ptr) :=
  match queue with
  | Some q => qu <~ aload QueueLists q ;; lift (singly_list_front (ql_list qu))
  | None => ret4 None
  end.

Definition queue_list_size (queue : ptr) : A4 Z :=
  match queue with
  | Some q => qu <~ aload QueueLists q ;; lift (singly_list_size (ql_list qu))
  | None => ret4 0
  end.

Definition queue_list_empty (queue : ptr) : A4 bool :=
  match queue with
  | Some q => qu <~ aload QueueLists q ;; lift (singly_list_empty (ql_list qu))
  | None => ret4 true
  end.

(** ** queue.c : the queue on a circular array *)

Definition QUEUE_INITIAL_CAPACITY : Z := 16.
Definition QUEUE_GROWTH_FACTOR : Z := 2.

Definition set_qa_data (d : ptr) (q : queue_array_t) : queue_array_t :=
  mk_queue_array d (qa_front q) (qa_rear q) (qa_size q) (qa_capacity q) (qa_element_size q).
Definition set_qa_front (x : Z) (q : queue_array_t) : queue_array_t :=
  mk_queue_array (qa_data q) x (qa_rear q) (qa_size q) (qa_capacity q) (qa_element_size q).
Definition set_qa_rear (x : Z) (q : queue_array_t) : queue_array_t :=
  mk_queue_array (qa_data q) (qa_front q) x (qa_size q) (qa_capacity q) (qa_element_size q).
Definition set_qa_size (x : Z) (q : queue_array_t) : queue_array_t :=
  mk_queue_array (qa_data q) (qa_front q) (qa_rear q) x (qa_capacity q) (qa_element_size q).
Definition set_qa_capacity (x : Z) (q : queue_array_t) : queue_array_t :=
  mk_queue_array (qa_data q) (qa_front q) (qa_rear q) (qa_size q) x (qa_element_size q).
Definition set_qa_element_size (x : Z) (q : queue_array_t) : queue_array_t :=
  mk_queue_array (qa_data q) (qa_front q) (qa_rear q) (qa_size q) (qa_capacity q) x.

(** [x % y] on [size_t]; undefined for [y = 0]. *)
Definition size_mod (x y : Z) : A4 Z :=
  if y =? 0 then lift fault else ret4 (x mod y).

Definition queue_array_resize (queue : ptr) (new_capacity : Z) : A4 status_t :=
  match queue with
  | None => ret4 ERROR_INVALID_INPUT
  | Some q =>
      qu <~ aload QueueArrays q ;;
      if new_capacity <? qa_size qu then ret4 ERROR_INVALID_INPUT
      else
        let es := qa_element_size qu in
        new_data <~ lift (mem_alloc (to_size_t (new_capacity * es))) ;;
        match new_data with
        | None => ret4 ERROR_MEMORY_ALLOCATION
        | Some _ =>
            (if 0 <? qa_size qu then
               if qa_front qu <? qa_rear qu then
                 let bytes_to_copy := to_size_t (qa_size qu * es) in
                 lift (src <- bytes_at (qa_data qu) (to_size_t (qa_front qu * es)) ;;
                       mem_copy_in new_data 0 src bytes_to_copy)
               else
                 let first_part := to_size_t (qa_capacity qu - qa_front qu) in
                 let first_bytes := to_size_t (first_part * es) in
                 let second_bytes := to_size_t (qa_rear qu * es) in
                 lift (src1 <- bytes_at (qa_data qu) (to_size_t (qa_front qu * es)) ;;
                       mem_copy_in new_data 0 src1 first_bytes ;;;
                       src2 <- bytes_at (qa_data qu) 0 ;;
                       mem_copy_in new_data first_bytes src2 second_bytes)
             else ret4 tt) ;;~
            lift (mem_free Buffers (qa_data qu)) ;;~
            amodify QueueArrays q (set_qa_data NULL) ;;~
            amodify QueueArrays q (set_qa_data new_data) ;;~
            amodify QueueArrays q (set_qa_capacity new_capacity) ;;~
            amodify QueueArrays q (set_qa_front 0) ;;~
            amodify QueueArrays q (fun x => set_qa_rear (qa_size x) x) ;;~
            ret4 SUCCESS
        end
  end.

Definition queue_array_check_grow (q : addr) : A4 status_t :=
  qu <~ aload QueueArrays q ;;
  if qa_capacity qu <=? qa_size qu then
    let new_capacity := to_size_t (qa_capacity qu * QUEUE_GROWTH_FACTOR) in
    let new_capacity :=
      if new_capacity <? QUEUE_INITIAL_CAPACITY then QUEUE_INITIAL_CAPACITY
      else new_capacity in
    queue_array_resize (Some q) new_capacity
  else ret4 SUCCESS.

Definition queue_array_create_with_capacity (element_size capacity : Z) : A4 ptr :=
  if element_size =? 0 then ret4 NULL
  else
    let capacity := if capacity =? 0 then QUEUE_INITIAL_CAPACITY else capacity in
    queue <~ amalloc QueueArrays (mk_queue_array NULL 0 0 0 0 0) ;;
    match queue with
    | None => ret4 NULL
    | Some q =>
        d <~ lift (mem_alloc (to_size_t (capacity * element_size))) ;;
        amodify QueueArrays q (set_qa_data d) ;;~
        match d with
        | None => afree QueueArrays q ;;~ ret4 NULL
        | Some _ =>
            amodify QueueArrays q (set_qa_front 0) ;;~
            amodify QueueArrays q (set_qa_rear 0) ;;~
            amodify QueueArrays q (set_qa_size 0) ;;~
            amodify QueueArrays q (set_qa_capacity capacity) ;;~
            amodify QueueArrays q (set_qa_element_size element_size) ;;~
            ret4 queue
        end
    end.

Definition queue_array_create (element_size : Z) : A4 ptr :=
  queue_array_create_with_capacity element_size QUEUE_INITIAL_CAPACITY.

Definition queue_array_destroy (queue : ptr) : A4 unit :=
  match queue with
  | None => ret4 tt
  | Some q =>
      qu <~ aload QueueArrays q ;;
      lift (mem_free Buffers (qa_data qu)) ;;~
      amodify QueueArrays q (set_qa_data NULL) ;;~
      afree QueueArrays q
  end.

Definition queue_array_enqueue (queue : ptr) (element : option bytes) : A4 status_t :=
  match queue, element with
  | Some q, Some e =>
      result <~ queue_array_check_grow q ;;
      if negb (is_success result) then ret4 result
      else
        qu <~ aload QueueArrays q ;;
        lift (mem_copy_in (qa_data qu) (to_size_t (qa_rear qu * qa_element_size qu))
                e (qa_element_size qu)) ;;~
        rear <~ size_mod (to_size_t (qa_rear qu + 1)) (qa_capacity qu) ;;
        amodify QueueArrays q (set_qa_rear rear) ;;~
        amodify QueueArrays q (fun x => set_qa_size (to_size_t (qa_size x + 1)) x) ;;~
        ret4 SUCCESS
  | _, _ => ret4 ERROR_INVALID_INPUT
  end.

Definition queue_array_dequeue (queue : ptr) (output : option bytes)
  : A4 (status_t * option bytes) :=
  match queue with
  | None => ret4 (ERROR_INVALID_INPUT, output)
  | Some q =>
      qu <~ aload QueueArrays q ;;
      if qa_size qu =? 0 then ret4 (ERROR_EMPTY_CONTAINER, output)
      else
        out <~ match output with
               | Some o =>
                   lift (o' <- mem_copy_out o (qa_data qu)
                                 (to_size_t (qa_front qu * qa_element_size qu))
                                 (qa_element_size qu) ;;
                         ret (Some o'))
               | None => ret4 None
               end ;;
        front <~ size_mod (to_size_t (qa_front qu + 1)) (qa_capacity qu) ;;
        amodify QueueArrays q (set_qa_front front) ;;~
        amodify QueueArrays q (fun x => set_qa_size (to_size_t (qa_size x - 1)) x) ;;~
        ret4 (SUCCESS, out)
  end.

Definition queue_array_peek (queue : ptr) (output : option bytes)
  : A4 (status_t * option bytes) :=
  match queue, output with
  | Some q, Some o =>
      qu <~ aload QueueArrays q ;;
      if qa_size qu =? 0 then ret4 (ERROR_EMPTY_CONTAINER, output)
      else
        lift (o' <- mem_copy_out o (qa_data qu)
                      (to_size_t (qa_front qu * qa_element_size qu))
                      (qa_element_size qu) ;;
              ret (SUCCESS, Some o'))
  | _, _ => ret4 (ERROR_INVALID_INPUT, output)
  end.

Definition queue_array_peek_ref (queue : ptr) : A4 (option (addr * Z)) :=
  match queue with
  | None => ret4 None
  | Some q =>
      qu <~ aload QueueArrays q ;;
      if qa_size qu =? 0 then ret4 None
      else lift (element_ptr (qa_data qu) (to_size_t (qa_front qu * qa_element_size qu)))
  end.

Definition queue_array_size (queue : ptr) : A4 Z :=
  match queue with
  | Some q => qu <~ aload QueueArrays q ;; ret4 (qa_size qu)
  | None => ret4 0
  end.

Definition queue_array_empty (queue : ptr) : A4 bool :=
  match queue with
  | Some q => qu <~ aload QueueArrays q ;; ret4 (qa_size qu =? 0)
  | None => ret4 true
  end.

Definition queue_array_capacity (queue : ptr) : A4 Z :=
  match queue with
  | Some q => qu <~ aload QueueArrays q ;; ret4 (qa_capacity qu)
  | None => ret4 0
  end.

Definition queue_array_reserve (queue : ptr) (capacity : Z) : A4 status_t :=
  match queue with
  | None => ret4 ERROR_INVALID_INPUT
  | Some q =>
      qu <~ aload QueueArrays q ;;
      if capacity <=? qa_capacity qu then ret4 SUCCESS
      else queue_array_resize queue capacity
  end.

(** ** The circular array as a sequence *)

(** The cell [index] of a block of cells of [es] bytes each. *)
Definition cell (es : Z) (b : bytes) (index : Z) : bytes :=
  take (Z.to_nat es) (drop (Z.to_nat (index * es)) b).

(** A buffer the caller hands over has room for [n] bytes, or is null. *)
Definition has_room (n : Z) (output : option bytes) : bool :=
  match output with
  | Some o => n <=? Z.of_nat (length o)
  | None => true
  end.

(** The elements of a circular array with the fields [qu] in the block
    [b], from the front to the rear: the [size] cells from cell [front]
    on, continuing at cell 0 after the last cell of the array. *)
Definition ring_elements (qu : queue_array_t) (b : bytes) : list bytes :=
  (fun i => cell (qa_element_size qu) b ((qa_front qu + Z.of_nat i) mod qa_capacity qu))
  <$> seq 0 (Z.to_nat (qa_size qu)).

Definition queue_array_elements (w : adapters) (h : heap) (q : addr) : list bytes :=
  match queue_arrays w !! q with
  | Some qu =>
      match qa_data qu with
      | Some d =>
          match buffers h !! d with
          | Some b => ring_elements qu b
          | None => []
          end
      | None => []
      end
  | None => []
  end.

(** The invariant of the circular array: a live block of [capacity]
    cells, [front] a cell of it, at most [capacity] elements, and [rear]
    the cell after the last element. *)
Definition qa_ok (w : adapters) (h : heap) (q : addr) : Prop :=
  exists qu d b,
    queue_arrays w !! q = Some qu /\ qa_data qu = Some d /\ buffers h !! d = Some b /\
    0 < qa_element_size qu /\ 0 < qa_capacity qu /\
    qa_capacity qu * qa_element_size qu <= Z.of_nat (length b) /\
    Z.of_nat (length b) <= SIZE_MAX /\
    0 <= qa_size qu <= qa_capacity qu /\
    0 <= qa_front qu < qa_capacity qu /\
    qa_rear qu = (qa_front qu + qa_size qu) mod qa_capacity qu.

(** ** A concrete state *)

(** The lists of [demo_lists_heap] beside the vector [1, 2, 3] at
    address 100 and the block of a circular array at address 250, whose
    four cells hold 3, a free cell, 1 and 2. *)
Definition demo_store : heap :=
  mk_heap {[ 100 := demo_vec ]}
          {[ 200 := elem4 Byte.x01 ++ elem4 Byte.x02 ++ elem4 Byte.x03 ++ elem4 Byte.xff;
             250 := elem4 Byte.x03 ++ elem4 Byte.xff ++ elem4 Byte.x01 ++ elem4 Byte.x02 ]}
          (slists demo_lists_heap) (snodes demo_lists_heap)
          (dlists demo_lists_heap) (dnodes demo_lists_heap)
          [Some (300, [])].

(** The queue [1, 2, 3] that wraps around in that block: [front] is
    cell 2 and [rear] is cell 1. *)
Definition demo_queue : queue_array_t := mk_queue_array (Some 250) 2 1 3 4 4.

(** A deque on the doubly linked list at 500 and one on the empty list
    at 600, a stack on the vector, a stack and a queue on the singly
    linked list at 400, and the circular array queue. *)
Definition demo_adapters : adapters :=
  mk_adapters {[ 800 := mk_deque (Some 500); 810 := mk_deque (Some 600) ]}
              {[ 840 := mk_stack_array (Some 100) ]}
              {[ 820 := mk_stack_list (Some 400) ]}
              {[ 850 := demo_queue ]}
              {[ 830 := mk_queue_list (Some 400) ]}.

(** The same store with two answers left in its allocator, and the same
    adapters with the circular array queue full: the queue
    [1, 2, 3, 255] in the four cells of the block at 250. *)
Definition demo_store_rich : heap :=
  set_allocator [Some (300, []); Some (310, [])] demo_store.

Definition demo_full_queue : queue_array_t := mk_queue_array (Some 250) 2 2 4 4 4.

Definition demo_full_adapters : adapters :=
  mk_adapters (deques demo_adapters) (stack_arrays demo_adapters)
              (stack_lists demo_adapters) {[ 850 := demo_full_queue ]}
              (queue_lists demo_adapters).

(* ===================================================================== *)
(** * Allocations that succeed *)
(* ===================================================================== *)

(** [allocation_succeeds old h]: the next answer of the allocator is a
    block, at an address in range that is free or is [old] itself (a
    [realloc] that extends the block where it is). *)
Definition allocation_succeeds (old : ptr) (h : heap) : bool :=
  match allocator h with
  | Some (q, _) :: _ => valid_addr q && (bool_decide (old = Some q) || negb (in_use h q))
  | _ => false
  end.

(** [node_allocation_succeeds h]: the next two answers of the allocator
    are blocks, as [create_node] and [create_doubly_node] ask for them:
    the first for the node, at an address in range that is free, the
    second for its data. *)
Definition node_allocation_succeeds (h : heap) : bool :=
  match allocator h with
  | Some (n, _) :: Some _ :: _ => valid_addr n && negb (in_use h n)
  | _ => false
  end.

(** [holds_capacity h v]: the block of the vector at [v] has room for
    its capacity, as the blocks [vector_create_with_capacity] and
    [vector_reserve] allocate have. *)
Definition holds_capacity (h : heap) (v : addr) : Prop :=
  exists vec d b,
    vectors h !! v = Some vec /\ v_data vec = Some d /\ buffers h !! d = Some b /\
    v_capacity vec * v_element_size vec <= Z.of_nat (length b).

(** [growth_fits vec]: the capacity [vector_check_grow] asks for when
    the vector is full is defined, and an array of that capacity fits
    [size_t]. *)
Definition growth_fits (vec : vector_t) : Prop :=
  exists gp, growth_product (v_capacity vec) = Some gp /\
             next_capacity gp (v_capacity vec) * v_element_size vec <= SIZE_MAX.

(* ===================================================================== *)
(** * Reasoning about computations *)
(* ===================================================================== *)


Lemma bind_Ok {A B} (m : M A) (k : A -> M B) h a h1 :
  m h = Ok a h1 -> bind m k h = k a h1.
Proof. unfold bind. intros ->. reflexivity. Qed.

Lemma bind_Fault {A B} (m : M A) (k : A -> M B) h :
  m h = Fault -> bind m k h = Fault.
Proof. unfold bind. intros ->. reflexivity. Qed.

Lemma bind_OutOfFuel {A B} (m : M A) (k : A -> M B) h :
  m h = OutOfFuel -> bind m k h = OutOfFuel.
Proof. unfold bind. intros ->. reflexivity. Qed.

Lemma bind_inv {A B} (m : M A) (k : A -> M B) h b h2 :
  bind m k h = Ok b h2 -> exists a h1, m h = Ok a h1 /\ k a h1 = Ok b h2.
Proof.
  unfold bind. destruct (m h) as [a h1| |]; try discriminate.
  intros H. exists a, h1. split; [reflexivity | exact H].
Qed.

Lemma ret_inv {A} (a b : A) h h1 : ret a h = Ok b h1 -> a = b /\ h = h1.
Proof. unfold ret. intros H. injection H as -> ->. split; reflexivity. Qed.

Lemma load_inv {T} (R : region T) p h x h1 :
  load R p h = Ok x h1 -> rget R h !! p = Some x /\ h1 = h.
Proof.
  unfold load. destruct (rget R h !! p) eqn:E; [|discriminate].
  intros H. injection H as -> ->. split; reflexivity.
Qed.

Lemma load_Some {T} (R : region T) p h x :
  rget R h !! p = Some x -> load R p h = Ok x h.
Proof. unfold load. intros ->. reflexivity. Qed.

Lemma field_Some {T A} (R : region T) p (f : T -> A) h x :
  rget R h !! p = Some x -> field R p f h = Ok (f x) h.
Proof. unfold field, bind, load, ret. intros ->. reflexivity. Qed.

Lemma field_inv {T A} (R : region T) p (f : T -> A) h a h1 :
  field R p f h = Ok a h1 -> exists x, rget R h !! p = Some x /\ a = f x /\ h1 = h.
Proof.
  unfold field, bind, load, ret. destruct (rget R h !! p) eqn:E; [|discriminate].
  intros H. injection H as <- <-. eauto.
Qed.

Lemma store_Some {T} (R : region T) p x h y :
  rget R h !! p = Some y ->
  store R p x h = Ok tt (rset R (<[p := x]> (rget R h)) h).
Proof. unfold store. intros ->. reflexivity. Qed.

Lemma modify_Some {T} (R : region T) p f h x :
  rget R h !! p = Some x ->
  modify R p f h = Ok tt (rset R (<[p := f x]> (rget R h)) h).
Proof.
  intros H. unfold modify, bind, load, store. rewrite H. cbn. rewrite H. reflexivity.
Qed.

Lemma modify_inv {T} (R : region T) p f h u h1 :
  modify R p f h = Ok u h1 ->
  exists x, rget R h !! p = Some x /\ h1 = rset R (<[p := f x]> (rget R h)) h.
Proof.
  unfold modify, bind, load, store. destruct (rget R h !! p) eqn:E; [|discriminate].
  cbn. rewrite E. intros H. injection H as <-. eauto.
Qed.

Lemma free_Some {T} (R : region T) p h x :
  rget R h !! p = Some x ->
  free R p h = Ok tt (rset R (delete p (rget R h)) h).
Proof. unfold free. intros ->. reflexivity. Qed.

Lemma free_inv {T} (R : region T) p h u h1 :
  free R p h = Ok u h1 ->
  is_Some (rget R h !! p) /\ h1 = rset R (delete p (rget R h)) h.
Proof.
  unfold free. destruct (rget R h !! p) eqn:E; [|discriminate].
  intros H. injection H as <-. eauto.
Qed.

Lemma set_allocator_id h : set_allocator (allocator h) h = h.
Proof. destruct h. reflexivity. Qed.

Lemma next_answer_inv h a h1 :
  next_answer h = Ok a h1 -> exists al, h1 = set_allocator al h.
Proof.
  unfold next_answer. destruct (allocator h) as [|x rest] eqn:E; intros H;
    injection H as <- <-.
  - exists (allocator h). symmetry. apply set_allocator_id.
  - exists rest. reflexivity.
Qed.

Lemma in_use_false h a :
  in_use h a = false ->
  vectors h !! a = None /\ buffers h !! a = None /\ slists h !! a = None /\
  snodes h !! a = None /\ dlists h !! a = None /\ dnodes h !! a = None.
Proof.
  unfold in_use. rewrite !orb_false_iff, !bool_decide_eq_false.
  intros [[[[[H1 H2] H3] H4] H5] H6].
  repeat split; apply eq_None_not_Some; assumption.
Qed.

Lemma malloc_inv {T} (R : region T) init h r h1 :
  malloc R init h = Ok r h1 ->
  exists al,
    match r with
    | None => h1 = set_allocator al h
    | Some p =>
        valid_addr p = true /\ in_use h p = false /\
        exists junk,
          h1 = rset R (<[p := init junk]> (rget R (set_allocator al h)))
                 (set_allocator al h)
    end.
Proof.
  unfold malloc. intros H. apply bind_inv in H as (a & h0 & Hn & H).
  apply next_answer_inv in Hn as [al ->]. exists al.
  destruct a as [[p junk]|].
  - destruct (valid_addr p && negb (in_use (set_allocator al h) p)) eqn:E;
      [|discriminate].
    injection H as <- <-. apply andb_true_iff in E as [Hv Hu].
    apply negb_true_iff in Hu. eauto.
  - apply ret_inv in H as [<- <-]. reflexivity.
Qed.

(** Decomposing a computation that returned. *)
Ltac minv1 H :=
  lazymatch type of H with
  | bind _ _ _ = Ok _ _ =>
      let a := fresh "a" in let h := fresh "h" in let H1 := fresh "E" in
      apply bind_inv in H as (a & h & H1 & H); minv1 H1
  | ret _ _ = Ok _ _ => apply ret_inv in H as [? ?]; simplify_eq
  | load _ _ _ = Ok _ _ => apply load_inv in H as [H ?]; subst
  | field _ _ _ _ = Ok _ _ =>
      let x := fresh "x" in apply field_inv in H as (x & H & ? & ?); subst
  | modify _ _ _ _ = Ok _ _ =>
      let x := fresh "x" in apply modify_inv in H as (x & H & ?); subst
  | free _ _ _ = Ok _ _ => apply free_inv in H as [H ?]; subst
  | fault _ = Ok _ _ => discriminate H
  | out_of_fuel _ = Ok _ _ => discriminate H
  | Fault = Ok _ _ => discriminate H
  | OutOfFuel = Ok _ _ => discriminate H
  | Ok _ _ = Ok _ _ => injection H as ? ?; simplify_eq
  | _ => idtac
  end.

Ltac minv H := minv1 H; try minv1 H.

Lemma bind_ret_l {A B} (a : A) (k : A -> M B) h : bind (ret a) k h = k a h.
Proof. reflexivity. Qed.

Lemma bind_assoc {A B C} (m : M A) (f : A -> M B) (g : B -> M C) h :
  bind (bind m f) g h = bind m (fun x => bind (f x) g) h.
Proof. unfold bind. destruct (m h); reflexivity. Qed.

Lemma when_true (m : M unit) h : when true m h = m h.
Proof. reflexivity. Qed.

Lemma when_false (m : M unit) h : when false m h = Ok tt h.
Proof. reflexivity. Qed.

(** Looking an address up in a store that was updated. *)
Ltac lookup_tac :=
  cbn [rget rset Vectors Buffers SLists SNodes DLists DNodes
       vectors buffers slists snodes dlists dnodes allocator set_allocator];
  repeat first
    [ rewrite lookup_insert_eq
    | rewrite lookup_insert_ne by congruence
    | rewrite lookup_delete_ne by congruence ];
  first [ eassumption | reflexivity ].

(** Running a computation forward, one statement at a time. *)
Ltac fwd_term t :=
  lazymatch t with
  | bind (bind _ _) _ _ => rewrite bind_assoc
  | bind (ret _) _ _ => rewrite bind_ret_l
  | bind (load ?R ?p) ?k ?h =>
      erewrite (bind_Ok (load R p) k h) by (apply load_Some; lookup_tac)
  | bind (field ?R ?p ?f) ?k ?h =>
      erewrite (bind_Ok (field R p f) k h) by (apply field_Some; lookup_tac)
  | bind (modify ?R ?p ?f) ?k ?h =>
      erewrite (bind_Ok (modify R p f) k h) by (apply modify_Some; lookup_tac)
  | bind (store ?R ?p ?x) ?k ?h =>
      erewrite (bind_Ok (store R p x) k h) by (eapply store_Some; lookup_tac)
  | bind (free ?R ?p) ?k ?h =>
      erewrite (bind_Ok (free R p) k h) by (eapply free_Some; lookup_tac)
  | bind (mem_free ?R (Some ?p)) ?k ?h =>
      erewrite (bind_Ok (mem_free R (Some p)) k h) by (eapply free_Some; lookup_tac)
  | bind (mem_free ?R None) ?k ?h => rewrite bind_ret_l
  | bind (when true _) _ _ => unfold when at 1
  | bind (when false _) _ _ => unfold when at 1
  | load ?R ?p ?h => erewrite (load_Some R p h) by lookup_tac
  | field ?R ?p ?f ?h => erewrite (field_Some R p f h) by lookup_tac
  | modify ?R ?p ?f ?h => erewrite (modify_Some R p f h) by lookup_tac
  | store ?R ?p ?x ?h => erewrite (store_Some R p x h) by lookup_tac
  | free ?R ?p ?h => erewrite (free_Some R p h) by lookup_tac
  | mem_free ?R (Some ?p) ?h =>
      unfold mem_free; erewrite (free_Some R p h) by lookup_tac
  end.

Ltac fwd1 :=
  lazymatch goal with
  | |- ?t = _ -> _ => fwd_term t
  | |- ?t = _ => fwd_term t
  end.

Ltac fwd := repeat (fwd1; cbv beta).

(** The same on a hypothesis. *)
Ltac fwd_in H := revert H; fwd; intros H.

(* ===================================================================== *)
(** * Memory primitives *)
(* ===================================================================== *)

Lemma in_use_set_allocator al h a : in_use (set_allocator al h) a = in_use h a.
Proof. reflexivity. Qed.

Lemma mem_alloc_inv sz h r h1 :
  mem_alloc sz h = Ok r h1 ->
  exists al,
    match r with
    | None => h1 = set_allocator al h
    | Some p =>
        sz <> 0 /\ valid_addr p = true /\ in_use h p = false /\
        exists junk,
          h1 = rset Buffers (<[p := resize (Z.to_nat sz) Byte.x00 junk]> (buffers h))
                 (set_allocator al h)
    end.
Proof.
  unfold mem_alloc. destruct (Z.eqb_spec sz 0) as [->|Hsz]; intros H.
  - minv H. exists (allocator h1). symmetry. apply set_allocator_id.
  - apply malloc_inv in H as [al H]. exists al. destruct r as [p|]; [|exact H].
    destruct H as (Hv & Hu & junk & ->). eauto 10.
Qed.

Lemma mem_realloc_inv p sz h r h1 :
  mem_realloc p sz h = Ok r h1 ->
  exists al,
    match r with
    | None => h1 = set_allocator al h
    | Some q =>
        sz <> 0 /\ valid_addr q = true /\
        exists b junk,
          match p with
          | None => b = [] /\ in_use h q = false
          | Some old => buffers h !! old = Some b /\ (q = old \/ in_use h q = false)
          end /\
          h1 = rset Buffers
                 (<[q := resize (Z.to_nat sz) Byte.x00 (b ++ junk)]>
                    (match p with
                     | Some old => delete old (buffers h)
                     | None => buffers h
                     end))
                 (set_allocator al h)
    end.
Proof.
  unfold mem_realloc. destruct (Z.eqb_spec sz 0) as [->|Hsz]; intros H.
  - minv H. exists (allocator h1). symmetry. apply set_allocator_id.
  - destruct p as [old|].
    + apply bind_inv in H as (b & h0 & Hb & H). minv Hb.
      apply bind_inv in H as (a & h2 & Ha & H).
      apply next_answer_inv in Ha as [al ->]. exists al.
      destruct a as [[q junk]|].
      * destruct (valid_addr q && _) eqn:E in H; [|discriminate].
        injection H as <- <-. apply andb_true_iff in E as [Hv Hu].
        split; [exact Hsz|]. split; [exact Hv|]. exists b, junk. split; [|reflexivity].
        split; [assumption|]. apply orb_true_iff in Hu as [Hu|Hu].
        -- left. apply bool_decide_eq_true in Hu. exact Hu.
        -- right. apply negb_true_iff in Hu. exact Hu.
      * minv H. reflexivity.
    + apply mem_alloc_inv in H as [al H]. exists al. destruct r as [q|]; [|exact H].
      destruct H as (_ & Hv & Hu & junk & ->). split; [exact Hsz|]. split; [exact Hv|].
      exists [], junk. split; [split; [reflexivity | exact Hu] | reflexivity].
Qed.

(* ===================================================================== *)
(** * vector.c : capacity *)
(* ===================================================================== *)

Lemma vector_reserve_inv v n h s h1 vec :
  vectors h !! v = Some vec ->
  vector_reserve (Some v) n h = Ok s h1 ->
  (s = SUCCESS /\ n <= v_capacity vec /\ h1 = h) \/
  (s = ERROR_MEMORY_ALLOCATION /\ v_capacity vec < n /\
   exists al, h1 = set_allocator al h) \/
  (s = SUCCESS /\ v_capacity vec < n /\
   exists al q b junk,
     let sz := to_size_t (n * v_element_size vec) in
     sz <> 0 /\ valid_addr q = true /\
     match v_data vec with
     | None => b = [] /\ in_use h q = false
     | Some old => buffers h !! old = Some b /\ (q = old \/ in_use h q = false)
     end /\
     h1 = rset Vectors
            (<[v := mk_vector (Some q) (v_size vec) n (v_element_size vec)]> (vectors h))
            (rset Buffers
               (<[q := resize (Z.to_nat sz) Byte.x00 (b ++ junk)]>
                  (match v_data vec with
                   | Some old => delete old (buffers h)
                   | None => buffers h
                   end))
               (set_allocator al h))).
Proof.
  intros Hv H. unfold vector_reserve in H.
  apply bind_inv in H as (vec' & h0 & E & H). minv E.
  assert (vec' = vec) by (cbn in *; congruence). subst vec'. clear E.
  destruct (Z.leb_spec n (v_capacity vec)) as [Hle|Hlt].
  - minv H. left. auto.
  - apply bind_inv in H as (nd & h2 & E & H).
    apply mem_realloc_inv in E as [al E]. destruct nd as [q|].
    + destruct E as (Hsz & Hq & b & junk & Hp & ->).
      apply bind_inv in H as (u1 & h3 & E1 & H). apply modify_inv in E1 as (x1 & L1 & ->).
      apply bind_inv in H as (u2 & h4 & E2 & H). apply modify_inv in E2 as (x2 & L2 & ->).
      minv H. right. right. split; [reflexivity|]. split; [lia|].
      exists al, q, b, junk. cbn. split; [exact Hsz|]. split; [exact Hq|]. split; [exact Hp|].
      cbn in L1, L2. rewrite Hv in L1. injection L1 as <-.
      rewrite lookup_insert_eq in L2. injection L2 as <-.
      cbn. rewrite insert_insert_eq. reflexivity.
    + subst h2. minv H. right. left. split; [reflexivity|]. split; [lia|]. eauto.
Qed.


Lemma round_binary64_small n : 0 <= n < 2 ^ 53 -> round_binary64 n = n.
Proof.
  intros [H0 H]. unfold round_binary64.
  destruct (Z.eq_dec n 0) as [->|Hn]; [reflexivity|].
  assert (Z.log2 n < 53) by (apply Z.log2_lt_pow2; lia).
  destruct (Z.leb_spec (Z.log2 n - 52) 0); [reflexivity | lia].
Qed.

Lemma growth_product_exact c :
  0 <= c -> 3 * c < 2 ^ 53 -> growth_product c = Some (3 * c / 2).
Proof.
  intros H0 H. unfold growth_product.
  rewrite (round_binary64_small c) by lia.
  rewrite (round_binary64_small (3 * c)) by lia.
  assert (3 * c / 2 <= SIZE_MAX).
  { unfold SIZE_MAX, SIZE_BITS. apply Z.le_trans with (2 ^ 53); [|lia].
    apply Z.div_le_upper_bound; lia. }
  destruct (Z.leb_spec (3 * c / 2) SIZE_MAX); [reflexivity | lia].
Qed.

Lemma growth_product_SIZE_MAX : growth_product SIZE_MAX = None.
Proof. vm_compute. reflexivity. Qed.

(** The model of the double product agrees with the IEEE-754 product of
    the standard library on capacities of every magnitude. *)
Lemma growth_product_agrees_with_ieee :
  forallb (fun c => bool_decide (growth_product c = growth_product_ieee c))
    [0; 1; 2; 3; 10; 15; 16; 17; 24; 36; 1000; 2 ^ 31; 2 ^ 32 + 1;
     2 ^ 52 - 1; 2 ^ 52; 2 ^ 52 + 1; 2 ^ 52 + 3; 2 ^ 53 - 1; 2 ^ 53; 2 ^ 53 + 1;
     2 ^ 53 + 3; 2 ^ 54 + 2; 2 ^ 54 + 6; 2 ^ 60 + 129; 2 ^ 60 + 128; 2 ^ 62 + 1;
     2 ^ 63; 2 ^ 63 + 1025; 12297829382473033728; 12297829382473034410;
     12297829382473034411; 12297829382473035776; 2 ^ 64 - 2048; 2 ^ 64 - 1025;
     2 ^ 64 - 1] = true.
Proof. vm_compute. reflexivity. Qed.

Lemma next_capacity_gt gp cap :
  0 <= cap < SIZE_MAX -> cap < next_capacity gp cap.
Proof.
  intros Hc. unfold next_capacity, to_size_t, VECTOR_INITIAL_CAPACITY.
  unfold SIZE_MAX, SIZE_BITS in *.
  destruct (Z.ltb_spec gp 16); cbn zeta;
    match goal with |- context [?a <=? cap] => destruct (Z.leb_spec a cap) end;
    rewrite ?Z.mod_small by lia; lia.
Qed.

Lemma vector_check_grow_inv v h s h1 vec :
  vectors h !! v = Some vec ->
  vector_check_grow v h = Ok s h1 ->
  (v_size vec < v_capacity vec /\ s = SUCCESS /\ h1 = h) \/
  (v_capacity vec <= v_size vec /\
   exists gp, growth_product (v_capacity vec) = Some gp /\
              vector_reserve (Some v) (next_capacity gp (v_capacity vec)) h = Ok s h1).
Proof.
  intros Hv H. unfold vector_check_grow in H.
  apply bind_inv in H as (vec' & h0 & E & H). minv E.
  assert (vec' = vec) by (cbn in *; congruence). subst vec'. clear E.
  destruct (Z.leb_spec (v_capacity vec) (v_size vec)) as [Hle|Hlt].
  - right. split; [exact Hle|].
    destruct (growth_product (v_capacity vec)) as [gp|]; [|discriminate].
    exists gp. split; [reflexivity|]. exact H.
  - minv H. left. auto.
Qed.

(** What a successful [vector_check_grow] leaves behind: the vector's
    size and element size are kept; either nothing changed (there was
    room), or the capacity is the requested one and the buffer was
    reallocated to it. *)
Lemma vector_check_grow_success v h h1 vec :
  vectors h !! v = Some vec ->
  0 <= v_capacity vec <= SIZE_MAX ->
  vector_check_grow v h = Ok SUCCESS h1 ->
  (v_size vec < v_capacity vec /\ h1 = h) \/
  (v_capacity vec <= v_size vec /\
   exists gp al q b junk,
     let nc := next_capacity gp (v_capacity vec) in
     let sz := to_size_t (nc * v_element_size vec) in
     growth_product (v_capacity vec) = Some gp /\
     v_capacity vec < nc /\
     sz <> 0 /\ valid_addr q = true /\
     match v_data vec with
     | None => b = [] /\ in_use h q = false
     | Some old => buffers h !! old = Some b /\ (q = old \/ in_use h q = false)
     end /\
     h1 = rset Vectors
            (<[v := mk_vector (Some q) (v_size vec) nc (v_element_size vec)]> (vectors h))
            (rset Buffers
               (<[q := resize (Z.to_nat sz) Byte.x00 (b ++ junk)]>
                  (match v_data vec with
                   | Some old => delete old (buffers h)
                   | None => buffers h
                   end))
               (set_allocator al h))).
Proof.
  intros Hv Hcap H.
  apply (vector_check_grow_inv _ _ _ _ _ Hv) in H as [(Hlt & _ & ->)|(Hle & gp & Hgp & H)].
  - left. auto.
  - right. split; [exact Hle|].
    assert (v_capacity vec < SIZE_MAX).
    { destruct (Z.eq_dec (v_capacity vec) SIZE_MAX) as [E|E]; [|lia].
      rewrite E, growth_product_SIZE_MAX in Hgp. discriminate. }
    pose proof (next_capacity_gt gp (v_capacity vec) ltac:(lia)) as Hgt.
    apply (vector_reserve_inv _ _ _ _ _ _ Hv) in H
      as [(_ & Hn & _)|[(Hs & _)|(_ & _ & al & q & b & junk & Hsz & Hq & Hp & ->)]].
    + lia.
    + discriminate.
    + exists gp, al, q, b, junk. cbn. auto 10.
Qed.

(* ===================================================================== *)
(** * Slots of a buffer *)
(* ===================================================================== *)

Section Slices.
Local Open Scope nat_scope.
Implicit Types (b : bytes) (es n m i : nat).

Lemma slices_length es n b : length (slices es n b) = n.
Proof. revert b. induction n as [|n IH]; intros b; cbn; [reflexivity|]. by rewrite IH. Qed.

Lemma slices_ext es n b b' :
  take (n * es) b = take (n * es) b' -> slices es n b = slices es n b'.
Proof.
  revert b b'. induction n as [|n IH]; intros b b' H; cbn; [reflexivity|].
  cbn in H. f_equal.
  - apply (f_equal (take es)) in H. rewrite !take_take in H.
    replace (es `min` (es + n * es)) with es in H by lia. exact H.
  - apply IH. apply (f_equal (drop es)) in H.
    rewrite <- !take_drop_commute in H. exact H.
Qed.

Lemma slices_app es n m b :
  slices es (n + m) b = slices es n b ++ slices es m (drop (n * es) b).
Proof.
  revert b. induction n as [|n IH]; intros b; cbn; [reflexivity|].
  f_equal. rewrite IH. rewrite drop_drop. reflexivity.
Qed.

Lemma slices_cons es n b x :
  length x = es -> slices es (S n) (x ++ b) = x :: slices es n b.
Proof.
  intros <-. cbn. rewrite take_app_length, drop_app_length. reflexivity.
Qed.

Lemma slices_take es n i b : i <= n -> take i (slices es n b) = slices es i b.
Proof.
  intros H. replace n with (i + (n - i)) by lia. rewrite slices_app.
  rewrite take_app_length'; [reflexivity|]. by rewrite slices_length.
Qed.

Lemma slices_drop es n i b :
  i <= n -> drop i (slices es n b) = slices es (n - i) (drop (i * es) b).
Proof.
  intros H. replace n with (i + (n - i)) at 1 by lia. rewrite slices_app.
  rewrite drop_app_length'; [reflexivity|]. by rewrite slices_length.
Qed.

Lemma slices_lookup es n i b :
  i < n -> slices es n b !! i = Some (take es (drop (i * es) b)).
Proof.
  revert i b. induction n as [|n IH]; intros i b H; [lia|].
  destruct i as [|i]; cbn; [reflexivity|].
  rewrite IH by lia. rewrite drop_drop. reflexivity.
Qed.

Lemma slices_prefix es n b rest :
  n * es <= length b -> slices es n (b ++ rest) = slices es n b.
Proof. intros H. apply slices_ext. by rewrite take_app_le. Qed.
End Slices.

(* ===================================================================== *)
(** * Copies into and out of a buffer *)
(* ===================================================================== *)

Lemma mem_copy_inv dest src n r :
  mem_copy dest src n = Some r ->
  r = take (Z.to_nat n) src ++ drop (Z.to_nat n) dest /\
  (n <> 0 -> n <= Z.of_nat (length src) /\ n <= Z.of_nat (length dest)).
Proof.
  unfold mem_copy. destruct (Z.eqb_spec n 0) as [->|Hn].
  - intros [= <-]. split; [reflexivity | congruence].
  - destruct (Z.leb_spec n (Z.of_nat (length src)));
      destruct (Z.leb_spec n (Z.of_nat (length dest))); cbn; try discriminate.
    intros [= <-]. auto.
Qed.

Lemma bytes_at_inv d off h r h1 :
  bytes_at (Some d) off h = Ok r h1 ->
  exists b, buffers h !! d = Some b /\ off <= Z.of_nat (length b) /\
            r = drop (Z.to_nat off) b /\ h1 = h.
Proof.
  unfold bytes_at. intros H. apply bind_inv in H as (b & h0 & E & H). minv E.
  destruct (Z.leb_spec off (Z.of_nat (length b))); [|discriminate].
  minv H. eauto.
Qed.

Lemma mem_copy_in_inv d off src n h u h1 :
  mem_copy_in (Some d) off src n h = Ok u h1 ->
  exists b,
    buffers h !! d = Some b /\ off <= Z.of_nat (length b) /\
    (n <> 0 -> n <= Z.of_nat (length src) /\
               n <= Z.of_nat (length (drop (Z.to_nat off) b))) /\
    h1 = rset Buffers
           (<[d := take (Z.to_nat off) b ++ take (Z.to_nat n) src
                   ++ drop (Z.to_nat n) (drop (Z.to_nat off) b)]> (buffers h)) h.
Proof.
  unfold mem_copy_in. intros H. apply bind_inv in H as (dest & h0 & E & H).
  apply bytes_at_inv in E as (b & Hb & Hoff & -> & ->).
  destruct (mem_copy _ src n) as [r|] eqn:Hc; [|discriminate].
  apply mem_copy_inv in Hc as [-> Hn].
  unfold put_bytes_at in H. apply bind_inv in H as (b' & h0 & E & H). minv E.
  assert (b' = b) by (cbn in *; congruence). subst b'.
  destruct (Z.leb_spec off (Z.of_nat (length b))); [|lia].
  unfold store in H. cbn in H. rewrite Hb in H. injection H as <-.
  exists b. auto.
Qed.

Lemma mem_move_inv d dst src n h u h1 :
  mem_move (Some d) dst src n h = Ok u h1 ->
  exists b,
    buffers h !! d = Some b /\ src <= Z.of_nat (length b) /\
    dst <= Z.of_nat (length b) /\
    (n <> 0 -> n <= Z.of_nat (length (drop (Z.to_nat src) b)) /\
               n <= Z.of_nat (length (drop (Z.to_nat dst) b))) /\
    h1 = rset Buffers
           (<[d := take (Z.to_nat dst) b ++ take (Z.to_nat n) (drop (Z.to_nat src) b)
                   ++ drop (Z.to_nat n) (drop (Z.to_nat dst) b)]> (buffers h)) h.
Proof.
  unfold mem_move. intros H. apply bind_inv in H as (from & h0 & E & H).
  apply bytes_at_inv in E as (b & Hb & Hsrc & -> & ->).
  apply mem_copy_in_inv in H as (b' & Hb' & Hdst & Hn & ->).
  assert (b' = b) by congruence. subst b'. exists b. auto.
Qed.

Lemma mem_copy_out_inv out d off n h r h1 :
  mem_copy_out out (Some d) off n h = Ok r h1 ->
  exists b,
    buffers h !! d = Some b /\ off <= Z.of_nat (length b) /\
    (n <> 0 -> n <= Z.of_nat (length (drop (Z.to_nat off) b)) /\
               n <= Z.of_nat (length out)) /\
    r = take (Z.to_nat n) (drop (Z.to_nat off) b) ++ drop (Z.to_nat n) out /\
    h1 = h.
Proof.
  unfold mem_copy_out. intros H. apply bind_inv in H as (src & h0 & E & H).
  apply bytes_at_inv in E as (b & Hb & Hoff & -> & ->).
  destruct (mem_copy out _ n) as [r'|] eqn:Hc; [|discriminate].
  apply mem_copy_inv in Hc as [-> Hn]. minv H. exists b. auto.
Qed.

Lemma mem_copy_in_null off src n h : mem_copy_in NULL off src n h = Fault.
Proof. reflexivity. Qed.

Lemma mem_move_null dst src n h : mem_move NULL dst src n h = Fault.
Proof. reflexivity. Qed.

(* ===================================================================== *)
(** * vector.c : insertion *)
(* ===================================================================== *)


Lemma touches_only_refl h v : touches_only h h v.
Proof. repeat split; eauto. Qed.

Lemma to_size_t_small z : 0 <= z <= SIZE_MAX -> to_size_t z = z.
Proof. unfold to_size_t, SIZE_MAX. intros H. apply Z.mod_small. lia. Qed.

Lemma to_size_t_range z : 0 <= to_size_t z <= SIZE_MAX.
Proof.
  unfold to_size_t, SIZE_MAX, SIZE_BITS.
  pose proof (Z.mod_pos_bound z (2 ^ 64) ltac:(lia)). lia.
Qed.

Lemma next_capacity_range gp cap :
  0 <= gp <= SIZE_MAX -> 0 <= next_capacity gp cap <= SIZE_MAX.
Proof.
  intros H. unfold next_capacity, VECTOR_INITIAL_CAPACITY.
  pose proof (to_size_t_range (cap + 1)).
  assert (16 <= SIZE_MAX) by (unfold SIZE_MAX, SIZE_BITS; lia).
  destruct (Z.ltb_spec gp 16); cbn zeta;
    match goal with |- context [?a <=? cap] => destruct (Z.leb_spec a cap) end; lia.
Qed.

Lemma growth_product_range c gp : growth_product c = Some gp -> gp <= SIZE_MAX.
Proof.
  unfold growth_product.
  destruct (Z.leb_spec (round_binary64 (3 * round_binary64 c) / 2) SIZE_MAX);
    [|discriminate]. intros [= <-]. assumption.
Qed.

Lemma round_binary64_nonneg n : 0 <= n -> 0 <= round_binary64 n.
Proof.
  intros H. unfold round_binary64.
  destruct (Z.leb_spec (Z.log2 n - 52) 0); [exact H|]. cbn zeta.
  assert (0 < 2 ^ (Z.log2 n - 52)) by (apply Z.pow_pos_nonneg; lia).
  assert (0 <= n / 2 ^ (Z.log2 n - 52)) by (apply Z.div_pos; lia).
  destruct (_ || _); nia.
Qed.

Lemma growth_product_nonneg c gp : 0 <= c -> growth_product c = Some gp -> 0 <= gp.
Proof.
  intros Hc. unfold growth_product.
  destruct (Z.leb_spec (round_binary64 (3 * round_binary64 c) / 2) SIZE_MAX);
    [|discriminate]. intros [= <-].
  apply Z.div_pos; [|lia]. apply round_binary64_nonneg.
  pose proof (round_binary64_nonneg c Hc). lia.
Qed.

(** [vector_check_grow] on a well-formed vector, when it succeeds. *)
Lemma vector_check_grow_ok h v vec h0 :
  vectors h !! v = Some vec -> vec_ok h v ->
  vector_check_grow v h = Ok SUCCESS h0 ->
  exists d0 cap0,
    vectors h0 = <[v := mk_vector d0 (v_size vec) cap0 (v_element_size vec)]> (vectors h) /\
    slists h0 = slists h /\ snodes h0 = snodes h /\
    dlists h0 = dlists h /\ dnodes h0 = dnodes h /\
    v_capacity vec <= cap0 <= SIZE_MAX /\
    (v_size vec < v_capacity vec -> cap0 = v_capacity vec /\ h0 = h) /\
    (v_capacity vec <= v_size vec ->
     v_capacity vec < cap0 /\
     exists gp, growth_product (v_capacity vec) = Some gp /\
                cap0 = next_capacity gp (v_capacity vec)) /\
    touches_only h h0 v /\
    match d0 with
    | None => v_size vec = 0
    | Some q =>
        exists b0, buffers h0 !! q = Some b0 /\
                   Z.of_nat (length b0) <= SIZE_MAX /\
                   (v_size vec * v_element_size vec <= Z.of_nat (length b0) ->
                    slices (Z.to_nat (v_element_size vec)) (Z.to_nat (v_size vec)) b0
                    = vector_elements h v)
    end.
Proof.
  intros Hv (vec' & Hv' & Hes & Hsz & Hcap & Hd) H.
  assert (vec' = vec) by congruence. subst vec'.
  apply (vector_check_grow_success _ _ _ _ Hv ltac:(lia)) in H
    as [(Hlt & ->)|(Hle & gp & al & q & b & junk & Hgp & Hnc & Hsz0 & Hq & Hp & ->)].
  - exists (v_data vec), (v_capacity vec).
    split. { rewrite insert_id; [reflexivity|]. rewrite Hv. by destruct vec. }
    split_and!; try reflexivity; try lia; auto using touches_only_refl.
    destruct (v_data vec) as [d|] eqn:Ed; [|exact Hd].
    destruct Hd as (b & Hb & Hlen & Hmax). exists b. split; [exact Hb|].
    split; [exact Hmax|]. intros _. unfold vector_elements. rewrite Hv, Ed, Hb. reflexivity.
  - cbn zeta in *. set (nc := next_capacity gp (v_capacity vec)) in *.
    set (sz := to_size_t (nc * v_element_size vec)) in *.
    exists (Some q), nc. cbn.
    pose proof (growth_product_range _ _ Hgp).
    assert (0 <= v_capacity vec) as Hc0 by lia.
    pose proof (growth_product_nonneg _ _ Hc0 Hgp).
    pose proof (next_capacity_range gp (v_capacity vec) ltac:(lia)).
    split_and!; try reflexivity; try lia.
    { intros _. split; [lia | eauto]. }
    { unfold touches_only. split_and!.
      - intros u Hu. cbn. by rewrite lookup_insert_ne.
      - intros a Ha Hne. cbn. specialize (Hne _ Hv).
        assert (q <> a).
        { intros ->. destruct Ha as [x Ha]. destruct (v_data vec) as [old|].
          - destruct Hp as [_ [->|Hu]]; [congruence|].
            apply in_use_false in Hu as (_ & Hu & _). congruence.
          - destruct Hp as [_ Hu].
            apply in_use_false in Hu as (_ & Hu & _). congruence. }
        rewrite lookup_insert_ne by assumption.
        destruct (v_data vec) as [old|]; [|reflexivity].
        rewrite lookup_delete_ne; [reflexivity | congruence].
      - intros vec1 a Hv1 Ha. cbn in Hv1. rewrite lookup_insert_eq in Hv1.
        injection Hv1 as <-. cbn in Ha. injection Ha as <-.
        destruct (v_data vec) as [old|] eqn:Ed.
        + destruct Hp as [_ [->|Hu]]; [left; eauto|].
          right. by apply in_use_false in Hu as (_ & Hu & _).
        + destruct Hp as [_ Hu]. right.
          by apply in_use_false in Hu as (_ & Hu & _). }
    exists (resize (Z.to_nat sz) Byte.x00 (b ++ junk)).
    split; [by rewrite lookup_insert_eq|].
    rewrite length_resize. pose proof (to_size_t_range (nc * v_element_size vec)).
    split; [fold sz in H2; lia|].
    intros Hfit. unfold vector_elements. rewrite Hv.
    destruct (v_data vec) as [old|] eqn:Ed.
    + destruct Hp as [Hb _]. rewrite Hb.
      destruct Hd as (b' & Hb' & Hlen & Hmax). assert (b' = b) by congruence. subst b'.
      apply slices_ext. rewrite resize_spec.
      rewrite take_app_le by (rewrite length_take, length_app; lia).
      rewrite take_take.
      rewrite take_app_le by lia.
      f_equal. fold sz in H2. lia.
    + rewrite Hd. reflexivity.
Qed.

Lemma is_success_true s : is_success s = true <-> s = SUCCESS.
Proof. unfold is_success. apply bool_decide_eq_true. Qed.

Lemma is_success_false s : is_success s = false <-> s <> SUCCESS.
Proof. unfold is_success. apply bool_decide_eq_false. Qed.

Lemma touches_only_trans h h0 h1 v :
  touches_only h h0 v -> touches_only h0 h1 v -> touches_only h h1 v.
Proof.
  intros (A1 & A2 & A3) (B1 & B2 & B3). unfold touches_only. split_and!.
  - intros u Hu. rewrite B1, A1 by assumption. reflexivity.
  - intros a Ha Hne. rewrite <- (A2 a Ha Hne). apply B2.
    + rewrite (A2 a Ha Hne). exact Ha.
    + intros vec0 Hv0 Hd0. destruct (A3 _ _ Hv0 Hd0) as [(vec & Hv & Hd)|Hn].
      * exact (Hne _ Hv Hd).
      * rewrite Hn in Ha. by destruct Ha.
  - intros vec1 a Hv1 Hd1. destruct (B3 _ _ Hv1 Hd1) as [(vec0 & Hv0 & Hd0)|Hn].
    + exact (A3 _ _ Hv0 Hd0).
    + destruct (buffers h !! a) as [x|] eqn:Ea; [|right; reflexivity].
      destruct (vectors h !! v) as [vec|] eqn:Ev.
      * destruct (decide (v_data vec = Some a)) as [Hd|Hd]; [left; eauto|].
        rewrite (A2 a) in Hn; [congruence | eauto |].
        intros vec' Hv'. congruence.
      * rewrite (A2 a) in Hn; [congruence | eauto |]. intros vec' Hv'. congruence.
Qed.

(** An update in place of the vector at [v] and of its buffer. *)
Lemma touches_only_update h h1 v vec q b1 vec1 :
  vectors h !! v = Some vec -> v_data vec = Some q -> v_data vec1 = Some q ->
  vectors h1 = <[v := vec1]> (vectors h) ->
  buffers h1 = <[q := b1]> (buffers h) ->
  touches_only h h1 v.
Proof.
  intros Hv Hd Hd1 Ev Eb. unfold touches_only. split_and!.
  - intros u Hu. rewrite Ev. by rewrite lookup_insert_ne.
  - intros a Ha Hne. rewrite Eb. specialize (Hne _ Hv).
    rewrite lookup_insert_ne; [reflexivity | congruence].
  - intros vec' a Hv' Hd'. rewrite Ev, lookup_insert_eq in Hv'.
    injection Hv' as <-. left. exists vec. split; [exact Hv | congruence].
Qed.

Lemma slices_one es b : slices es 1 b = [take es b].
Proof. reflexivity. Qed.

(** [vector_push_back] on a well-formed vector, when it succeeds. *)
Lemma vector_push_back_ok h v vec e h1 :
  vectors h !! v = Some vec -> vec_ok h v ->
  vector_push_back (Some v) (Some e) h = Ok SUCCESS h1 ->
  vec_ok h1 v /\
  (exists vec1,
     vectors h1 !! v = Some vec1 /\
     v_size vec1 = v_size vec + 1 /\
     v_element_size vec1 = v_element_size vec /\
     v_capacity vec <= v_capacity vec1 /\
     (v_size vec < v_capacity vec -> v_capacity vec1 = v_capacity vec) /\
     (v_capacity vec <= v_size vec ->
      v_capacity vec < v_capacity vec1 /\
      exists gp, growth_product (v_capacity vec) = Some gp /\
                 v_capacity vec1 = next_capacity gp (v_capacity vec))) /\
  vector_elements h1 v
  = vector_elements h v ++ [take (Z.to_nat (v_element_size vec)) e] /\
  v_element_size vec <= Z.of_nat (length e) /\
  touches_only h h1 v /\
  slists h1 = slists h /\ snodes h1 = snodes h /\
  dlists h1 = dlists h /\ dnodes h1 = dnodes h /\
  (v_size vec < v_capacity vec ->
   exists q b1 vec1,
     v_data vec = Some q /\ v_data vec1 = Some q /\
     vectors h1 = <[v := vec1]> (vectors h) /\
     buffers h1 = <[q := b1]> (buffers h) /\
     allocator h1 = allocator h).
Proof.
  intros Hv Hok H. pose proof Hok as (vec' & Hv' & Hes & Hsz & Hcap & Hd).
  assert (vec' = vec) by congruence. subst vec'. clear Hv'.
  unfold vector_push_back in H.
  apply bind_inv in H as (s0 & h0 & Hg & H).
  destruct (is_success s0) eqn:Es0; cbn in H.
  2:{ minv H; try (apply is_success_false in Es0; congruence). }
  apply is_success_true in Es0. subst s0.
  apply (vector_check_grow_ok _ _ _ _ Hv Hok) in Hg
    as (d0 & cap0 & Ev0 & Esl & Esn & Edl & Edn & Hcap0 & Hno & Hgrow & Hto & Hd0).
  apply bind_inv in H as (vec0 & h0' & E & H). minv E. cbn in E.
  rewrite Ev0, lookup_insert_eq in E. injection E as <-. cbn in H.
  apply bind_inv in H as (u & h2 & Hc & H).
  destruct d0 as [q|]; [|discriminate Hc].
  apply mem_copy_in_inv in Hc as (b0 & Hb0 & Hoff & Hn & ->).
  destruct Hd0 as (b0' & Hb0' & Hmax0 & Hel). assert (b0' = b0) by congruence. subst b0'.
  apply bind_inv in H as (u' & h3 & Hm & H). apply modify_inv in Hm as (x & Hx & ->).
  minv H. cbn in Hx. rewrite Ev0, lookup_insert_eq in Hx. injection Hx as <-. cbn.
  assert (v_size vec * v_element_size vec <= SIZE_MAX) as Hprod.
  { destruct (v_data vec) as [d|].
    - destruct Hd as (b & _ & Hl1 & Hl2). lia.
    - rewrite Hd. unfold SIZE_MAX, SIZE_BITS. lia. }
  rewrite (to_size_t_small (v_size vec * v_element_size vec)) in * by nia.
  specialize (Hn ltac:(lia)) as [Hle Hroom]. rewrite length_drop in Hroom.
  assert (v_size vec + 1 <= (v_size vec + 1) * v_element_size vec) by nia.
  rewrite (to_size_t_small (v_size vec + 1)) by lia.
  set (es := Z.to_nat (v_element_size vec)) in *.
  set (n := Z.to_nat (v_size vec)) in *.
  assert (Z.to_nat (v_size vec * v_element_size vec) = (n * es)%nat) as Eoff
      by (subst n es; rewrite Z2Nat.inj_mul; lia).
  rewrite Eoff in *.
  assert (n * es + es <= length b0)%nat as Hfit by lia.
  assert (cap0 <= SIZE_MAX) by lia.
  assert (v_size vec + 1 <= cap0).
  { destruct (Z.lt_ge_cases (v_size vec) (v_capacity vec)) as [Hlt|Hge].
    - destruct (Hno Hlt) as [-> _]. lia.
    - destruct (Hgrow ltac:(lia)) as [? _]. lia. }
  split_and!.
  - exists (mk_vector (Some q) (v_size vec + 1) cap0 (v_element_size vec)). cbn.
    rewrite lookup_insert_eq. split_and!; try reflexivity; try lia.
    eexists. rewrite lookup_insert_eq. split; [reflexivity|].
    rewrite !length_app, !length_take, !length_drop. lia.
  - eexists. cbn. rewrite lookup_insert_eq. split; [reflexivity|]. cbn.
    split_and!; try reflexivity; try lia.
    all: intros Hx; first [by destruct (Hno Hx) | exact (Hgrow Hx)].
  - unfold vector_elements at 1. cbn. rewrite !lookup_insert_eq. cbn.
    rewrite lookup_insert_eq.
    replace (Z.to_nat (v_size vec + 1)) with (n + 1)%nat by lia.
    rewrite slices_app, slices_one. f_equal.
    + rewrite slices_prefix by (rewrite length_take; lia).
      rewrite <- Hel by lia. apply slices_ext. rewrite take_take. f_equal. lia.
    + rewrite drop_app_length' by (rewrite length_take; lia).
      rewrite take_app_length' by (rewrite length_take; lia). reflexivity.
  - exact Hle.
  - eapply touches_only_trans; [exact Hto|].
    eapply (touches_only_update h0 _ v
              (mk_vector (Some q) (v_size vec) cap0 (v_element_size vec)) q _
              (mk_vector (Some q) (v_size vec + 1) cap0 (v_element_size vec))); cbn.
    + rewrite Ev0. apply lookup_insert_eq.
    + reflexivity.
    + reflexivity.
    + reflexivity.
    + reflexivity.
  - cbn. exact Esl.
  - cbn. exact Esn.
  - cbn. exact Edl.
  - cbn. exact Edn.
  - intros Hlt. destruct (Hno Hlt) as [-> ->].
    assert (v_data vec = Some q) as Hq.
    { rewrite Ev0, lookup_insert_eq in Hv. by injection Hv as <-. }
    exists q. eexists _, (mk_vector (Some q) (v_size vec + 1) (v_capacity vec)
                            (v_element_size vec)).
    split_and!; [exact Hq | reflexivity | cbn; reflexivity ..].
Qed.

Lemma vector_check_grow_status v h s h1 :
  vector_check_grow v h = Ok s h1 -> s = SUCCESS \/ s = ERROR_MEMORY_ALLOCATION.
Proof.
  destruct (vectors h !! v) as [vec|] eqn:Hv; intros H.
  2:{ unfold vector_check_grow, bind, load in H. cbn in H. rewrite Hv in H. discriminate. }
  apply (vector_check_grow_inv _ _ _ _ _ Hv) in H as [(_ & -> & _)|(_ & gp & _ & H)].
  - left. reflexivity.
  - apply (vector_reserve_inv _ _ _ _ _ _ Hv) in H as [(-> & _)|[(-> & _)|(-> & _)]]; auto.
Qed.

(** After a successful [vector_check_grow] there is room: a second call
    changes nothing. *)
Lemma vector_check_grow_again h v vec h0 :
  vectors h !! v = Some vec ->
  0 <= v_capacity vec <= SIZE_MAX -> v_size vec <= v_capacity vec ->
  vector_check_grow v h = Ok SUCCESS h0 ->
  vector_check_grow v h0 = Ok SUCCESS h0 /\
  exists vec0, vectors h0 !! v = Some vec0 /\ v_size vec0 = v_size vec /\
               v_size vec0 < v_capacity vec0.
Proof.
  intros Hv Hcap Hsz H.
  apply (vector_check_grow_success _ _ _ _ Hv Hcap) in H
    as [(Hlt & ->)|(Hle & gp & al & q & b & junk & Hgp & Hnc & Hsz0 & Hq & Hp & ->)].
  - split; [|eauto].
    unfold vector_check_grow, bind, load. cbn. rewrite Hv.
    destruct (Z.leb_spec (v_capacity vec) (v_size vec)); [lia | reflexivity].
  - cbn zeta in *. split.
    + unfold vector_check_grow, bind, load. cbn. rewrite lookup_insert_eq. cbn.
      destruct (Z.leb_spec (next_capacity gp (v_capacity vec)) (v_size vec));
        [lia | reflexivity].
    + eexists. cbn. rewrite lookup_insert_eq. split; [reflexivity|]. cbn. lia.
Qed.

(** Inserting at [index == size] is [vector_push_back]. *)
Lemma vector_insert_at_end h v vec e :
  vectors h !! v = Some vec ->
  0 <= v_capacity vec <= SIZE_MAX -> v_size vec <= v_capacity vec ->
  vector_insert (Some v) (v_size vec) (Some e) h = vector_push_back (Some v) (Some e) h.
Proof.
  intros Hv Hcap Hsz. unfold vector_insert, vector_push_back.
  rewrite (bind_Ok _ _ _ _ _ (load_Some Vectors v h vec Hv)).
  rewrite Z.ltb_irrefl.
  destruct (vector_check_grow v h) as [s0 h0| |] eqn:Hg.
  - rewrite !(bind_Ok _ _ _ _ _ Hg).
    destruct (is_success s0) eqn:Es0; cbn [negb]; [|reflexivity].
    apply is_success_true in Es0. subst s0.
    destruct (vector_check_grow_again _ _ _ _ Hv Hcap Hsz Hg)
      as (Hg0 & vec0 & Hv0 & Hs0 & _).
    rewrite (bind_Ok _ _ _ _ _ (load_Some Vectors v h0 vec0 Hv0)).
    rewrite <- Hs0, Z.eqb_refl.
    rewrite (bind_Ok _ _ _ _ _ Hg0). cbn [negb is_success]. reflexivity.
  - rewrite !(bind_Fault _ _ _ Hg). reflexivity.
  - rewrite !(bind_OutOfFuel _ _ _ Hg). reflexivity.
Qed.

(** [vector_insert] strictly inside a well-formed vector, when it
    succeeds: the slots from [index] on move one slot to the right and the
    element is written at [index]. *)
Lemma vector_insert_middle_ok h v vec index e h1 :
  vectors h !! v = Some vec -> vec_ok h v ->
  0 <= index < v_size vec ->
  vector_insert (Some v) index (Some e) h = Ok SUCCESS h1 ->
  vec_ok h1 v /\
  (exists vec1,
     vectors h1 !! v = Some vec1 /\
     v_size vec1 = v_size vec + 1 /\
     v_element_size vec1 = v_element_size vec /\
     v_capacity vec <= v_capacity vec1 /\
     (v_capacity vec <= v_size vec ->
      v_capacity vec < v_capacity vec1 /\
      exists gp, growth_product (v_capacity vec) = Some gp /\
                 v_capacity vec1 = next_capacity gp (v_capacity vec))) /\
  vector_elements h1 v
  = take (Z.to_nat index) (vector_elements h v)
    ++ take (Z.to_nat (v_element_size vec)) e
    :: drop (Z.to_nat index) (vector_elements h v) /\
  v_element_size vec <= Z.of_nat (length e) /\
  touches_only h h1 v.
Proof.
  intros Hv Hok Hidx H. pose proof Hok as (vec' & Hv' & Hes & Hsz & Hcap & Hd).
  assert (vec' = vec) by congruence. subst vec'. clear Hv'.
  unfold vector_insert in H.
  rewrite (bind_Ok _ _ _ _ _ (load_Some Vectors v h vec Hv)) in H.
  destruct (Z.ltb_spec (v_size vec) index); [lia|].
  apply bind_inv in H as (s0 & h0 & Hg & H).
  destruct (is_success s0) eqn:Es0; cbn [negb] in H.
  2:{ minv H; try (apply is_success_false in Es0; congruence). }
  apply is_success_true in Es0. subst s0.
  apply (vector_check_grow_ok _ _ _ _ Hv Hok) in Hg
    as (d0 & cap0 & Ev0 & Esl & Esn & Edl & Edn & Hcap0 & Hno & Hgrow & Hto & Hd0).
  apply bind_inv in H as (vec0 & h0' & E & H). minv E. cbn in E.
  rewrite Ev0, lookup_insert_eq in E. injection E as <-. cbn in H.
  destruct (Z.eqb_spec index (v_size vec)) as [|Hne]; [lia|].
  assert (v_size vec * v_element_size vec <= SIZE_MAX) as Hprod.
  { destruct (v_data vec) as [d|].
    - destruct Hd as (b & _ & Hl1 & Hl2). lia.
    - rewrite Hd. unfold SIZE_MAX, SIZE_BITS. lia. }
  assert ((index + 1) * v_element_size vec <= v_size vec * v_element_size vec) as Hm1
      by (apply Z.mul_le_mono_nonneg_r; lia).
  assert ((v_size vec - index) * v_element_size vec <= v_size vec * v_element_size vec)
      as Hm2 by (apply Z.mul_le_mono_nonneg_r; lia).
  assert (0 <= index * v_element_size vec) as Hm3 by (apply Z.mul_nonneg_nonneg; lia).
  assert (0 < (v_size vec - index) * v_element_size vec) as Hm4
      by (apply Z.mul_pos_pos; lia).
  assert ((index + 1) * v_element_size vec
          = index * v_element_size vec + v_element_size vec) as Hm5 by ring.
  assert (v_size vec <= v_size vec * v_element_size vec) as Hm6.
  { rewrite <- (Z.mul_1_r (v_size vec)) at 1. apply Z.mul_le_mono_nonneg_l; lia. }
  rewrite (to_size_t_small (index + 1)) in H by lia.
  rewrite (to_size_t_small (v_size vec - index)) in H by lia.
  rewrite (to_size_t_small ((index + 1) * _)) in H by lia.
  rewrite (to_size_t_small (index * _)) in H by lia.
  rewrite (to_size_t_small ((v_size vec - index) * _)) in H by lia.
  apply bind_inv in H as (u & h2 & Hmv & H).
  destruct d0 as [q|]; [|discriminate Hmv].
  apply mem_move_inv in Hmv as (b0 & Hb0 & Hsrc & Hdst & Hn & ->).
  destruct Hd0 as (b0' & Hb0' & Hmax0 & Hel). assert (b0' = b0) by congruence. subst b0'.
  apply bind_inv in H as (u1 & h3 & Hc & H).
  apply mem_copy_in_inv in Hc as (b1 & Hb1 & Hoff & Hn1 & ->).
  cbn in Hb1. rewrite lookup_insert_eq in Hb1. injection Hb1 as <-.
  apply bind_inv in H as (u' & h3 & Hm & H). apply modify_inv in Hm as (x & Hx & ->).
  minv H. cbn in Hx. rewrite Ev0, lookup_insert_eq in Hx. injection Hx as <-. cbn.
  specialize (Hn ltac:(lia)) as [Hroom1 Hroom2]. rewrite !length_drop in *.
  specialize (Hn1 ltac:(lia)) as [Hle _].
  set (es := Z.to_nat (v_element_size vec)) in *.
  set (n := Z.to_nat (v_size vec)) in *.
  set (i := Z.to_nat index) in *.
  assert (Z.to_nat (index * v_element_size vec) = (i * es)%nat) as E1
      by (subst i es; rewrite Z2Nat.inj_mul; lia).
  assert (Z.to_nat ((index + 1) * v_element_size vec) = (i * es + es)%nat) as E2
      by (subst i es; rewrite Z2Nat.inj_mul, Z2Nat.inj_add; lia).
  assert (Z.to_nat ((v_size vec - index) * v_element_size vec) = ((n - i) * es)%nat) as E3
      by (subst i es n; rewrite Z2Nat.inj_mul, Z2Nat.inj_sub; lia).
  rewrite E1, E2, E3 in *.
  assert (i < n)%nat as Hin by lia.
  assert ((n - i) * es = n * es - i * es)%nat as Esub by apply Nat.mul_sub_distr_r.
  assert (i * es + es <= n * es)%nat as Hies.
  { replace (i * es + es)%nat with (S i * es)%nat by (cbn [Nat.mul]; lia).
    apply Nat.mul_le_mono_r. lia. }
  assert ((n - i) * es + (i * es + es) = n * es + es)%nat as Ear by lia.
  assert (n * es + es <= length b0)%nat as Hfit.
  { assert (Z.of_nat ((n - i) * es) <= Z.of_nat (length b0 - (i * es + es))) by lia. lia. }
  assert (Z.of_nat (n * es) = v_size vec * v_element_size vec) as Ez
      by (subst n es; rewrite Nat2Z.inj_mul; lia).
  rewrite (to_size_t_small (v_size vec + 1)) by lia.
  assert (v_size vec + 1 <= cap0).
  { destruct (Z.lt_ge_cases (v_size vec) (v_capacity vec)) as [Hlt|Hge].
    - destruct (Hno Hlt) as [-> _]. lia.
    - destruct (Hgrow ltac:(lia)) as [? _]. lia. }
  set (b1 := take (i * es + es) b0 ++ take ((n - i) * es) (drop (i * es) b0)
             ++ drop ((n - i) * es) (drop (i * es + es) b0)) in *.
  assert (length b1 = length b0) as Hlen1.
  { subst b1. rewrite !length_app, !length_take, !length_drop. lia. }
  split_and!.
  - exists (mk_vector (Some q) (v_size vec + 1) cap0 (v_element_size vec)). cbn.
    rewrite lookup_insert_eq. split_and!; try reflexivity; try lia.
    eexists. rewrite lookup_insert_eq. split; [reflexivity|].
    rewrite !length_app, !length_take, !length_drop. lia.
  - eexists. cbn. rewrite lookup_insert_eq. split; [reflexivity|]. cbn.
    split_and!; try reflexivity; try lia.
    all: intros Hx; exact (Hgrow Hx).
  - unfold vector_elements at 1. cbn. rewrite !lookup_insert_eq. cbn.
    rewrite lookup_insert_eq. rewrite <- Hel by lia.
    replace (Z.to_nat (v_size vec + 1)) with (i + S (n - i))%nat by lia.
    rewrite slices_app. f_equal.
    + rewrite slices_take by lia. apply slices_ext.
      rewrite take_app_length' by (rewrite length_take; lia).
      subst b1. rewrite take_app_le by (rewrite length_take; lia).
      rewrite take_take. f_equal. lia.
    + rewrite drop_app_length' by (rewrite length_take; lia).
      rewrite slices_cons by (rewrite length_take; lia). f_equal.
      rewrite slices_drop by lia.
      rewrite drop_drop. subst b1.
      rewrite drop_app_length' by (rewrite length_take; lia).
      rewrite slices_prefix by (rewrite length_take, length_drop; lia).
      apply slices_ext. rewrite take_take. f_equal. lia.
  - exact Hle.
  - eapply touches_only_trans; [exact Hto|].
    eapply (touches_only_update h0 _ v
              (mk_vector (Some q) (v_size vec) cap0 (v_element_size vec)) q _
              (mk_vector (Some q) (v_size vec + 1) cap0 (v_element_size vec))); cbn.
    + rewrite Ev0. apply lookup_insert_eq.
    + reflexivity.
    + reflexivity.
    + reflexivity.
    + rewrite insert_insert_eq. reflexivity.
Qed.


(* ===================================================================== *)
(** * vector.c : element access *)
(* ===================================================================== *)

Lemma bytes_at_Some d off h b :
  buffers h !! d = Some b -> off <= Z.of_nat (length b) ->
  bytes_at (Some d) off h = Ok (drop (Z.to_nat off) b) h.
Proof.
  intros Hb Hoff. unfold bytes_at. fwd.
  destruct (Z.leb_spec off (Z.of_nat (length b))); [reflexivity | lia].
Qed.

Lemma mem_copy_Some dest src n :
  n <= Z.of_nat (length src) -> n <= Z.of_nat (length dest) ->
  mem_copy dest src n = Some (take (Z.to_nat n) src ++ drop (Z.to_nat n) dest).
Proof.
  intros H1 H2. unfold mem_copy. destruct (Z.eqb_spec n 0) as [->|Hn]; [reflexivity|].
  destruct (Z.leb_spec n (Z.of_nat (length src))); [|lia].
  destruct (Z.leb_spec n (Z.of_nat (length dest))); [|lia]. reflexivity.
Qed.

(** [vector_get] on a well-formed vector returns the element of the
    sequence at the index. *)
Lemma vector_get_ok h v index out x :
  vec_ok h v -> 0 <= index ->
  vector_elements h v !! Z.to_nat index = Some x ->
  Z.of_nat (length x) <= Z.of_nat (length out) ->
  vector_get (Some v) index (Some out) h
  = Ok (SUCCESS, Some (x ++ drop (length x) out)) h.
Proof.
  intros (vec & Hv & Hes & Hsz & Hcap & Hd) Hi Hx Hout.
  unfold vector_elements in Hx. rewrite Hv in Hx.
  destruct (v_data vec) as [d|] eqn:Ed; [|discriminate].
  destruct Hd as (b & Hb & Hlen & Hmax). rewrite Hb in Hx.
  assert (Z.to_nat index < Z.to_nat (v_size vec))%nat as Hlt.
  { apply lookup_lt_Some in Hx. by rewrite slices_length in Hx. }
  rewrite slices_lookup in Hx by exact Hlt. injection Hx as <-.
  assert ((index + 1) * v_element_size vec <= v_size vec * v_element_size vec) as Hm1
      by (apply Z.mul_le_mono_nonneg_r; lia).
  assert (0 <= index * v_element_size vec) as Hm3 by (apply Z.mul_nonneg_nonneg; lia).
  assert ((index + 1) * v_element_size vec
          = index * v_element_size vec + v_element_size vec) as Hm5 by ring.
  set (es := Z.to_nat (v_element_size vec)) in *.
  assert (Z.to_nat (index * v_element_size vec) = (Z.to_nat index * es)%nat) as E1
      by (subst es; rewrite Z2Nat.inj_mul; lia).
  assert (length (take es (drop (Z.to_nat index * es) b)) = es) as Elen.
  { rewrite length_take, length_drop. lia. }
  rewrite Elen in *.
  unfold vector_get, vector_check_index. fwd.
  destruct (Z.leb_spec (v_size vec) index); [lia|]. fwd.
  change (negb (is_success SUCCESS)) with false. cbv iota. fwd.
  rewrite Ed, (to_size_t_small (index * _)) by lia.
  unfold mem_copy_out. fwd.
  assert (index * v_element_size vec <= Z.of_nat (length b)) as Hoff by lia.
  rewrite (bind_Ok _ _ _ _ _ (bytes_at_Some d _ h b Hb Hoff)).
  rewrite mem_copy_Some by (rewrite ?length_drop; lia).
  rewrite E1. reflexivity.
Qed.

Lemma vector_push_back_status v e h s h1 :
  vector_push_back (Some v) (Some e) h = Ok s h1 ->
  s = SUCCESS \/ s = ERROR_MEMORY_ALLOCATION.
Proof.
  unfold vector_push_back. intros H.
  apply bind_inv in H as (s0 & h0 & Hg & H).
  apply vector_check_grow_status in Hg.
  destruct (is_success s0) eqn:Es0; cbn [negb] in H.
  - apply bind_inv in H as (? & ? & _ & H). apply bind_inv in H as (? & ? & _ & H).
    apply bind_inv in H as (? & ? & _ & H). minv H. auto.
  - minv H. exact Hg.
Qed.

Lemma vector_insert_status v index e h s h1 :
  vector_insert (Some v) index (Some e) h = Ok s h1 ->
  s = SUCCESS \/ s = ERROR_MEMORY_ALLOCATION \/
  (s = ERROR_INDEX_OUT_OF_BOUNDS /\ h1 = h /\
   exists vec, vectors h !! v = Some vec /\ v_size vec < index).
Proof.
  unfold vector_insert. intros H.
  apply bind_inv in H as (vec & h0 & E & H). minv E.
  destruct (Z.ltb_spec (v_size vec) index).
  { minv H. right. right. eauto. }
  apply bind_inv in H as (s0 & h0 & Hg & H).
  apply vector_check_grow_status in Hg.
  destruct (is_success s0) eqn:Es0; cbn [negb] in H.
  - apply bind_inv in H as (vec0 & ? & _ & H).
    destruct (index =? v_size vec0).
    + apply vector_push_back_status in H. tauto.
    + apply bind_inv in H as (? & ? & _ & H). apply bind_inv in H as (? & ? & _ & H).
      apply bind_inv in H as (? & ? & _ & H). minv H. auto.
  - minv H. tauto.
Qed.

Lemma slices_lookup_length es n b i x :
  (n * es <= length b)%nat -> slices es n b !! i = Some x -> length x = es.
Proof.
  intros Hfit Hx. assert (i < n)%nat as Hi.
  { apply lookup_lt_Some in Hx. by rewrite slices_length in Hx. }
  rewrite slices_lookup in Hx by exact Hi. injection Hx as <-.
  rewrite length_take, length_drop.
  assert (S i * es <= n * es)%nat by (apply Nat.mul_le_mono_r; lia).
  cbn [Nat.mul] in *. lia.
Qed.

Lemma vector_elements_length h v :
  vec_ok h v ->
  forall vec, vectors h !! v = Some vec ->
              Z.of_nat (length (vector_elements h v)) = v_size vec.
Proof.
  intros (vec & Hv & Hes & Hsz & Hcap & Hd) vec' Hv'.
  assert (vec' = vec) by congruence. subst vec'.
  unfold vector_elements. rewrite Hv.
  destruct (v_data vec) as [d|]; [|cbn; lia].
  destruct Hd as (b & -> & _). rewrite slices_length. lia.
Qed.

Lemma vector_insert_oob_iff h v vec index e s h1 :
  vectors h !! v = Some vec ->
  vector_insert (Some v) index (Some e) h = Ok s h1 ->
  s = ERROR_INDEX_OUT_OF_BOUNDS <-> v_size vec < index.
Proof.
  intros Hv H. split.
  - intros ->. apply vector_insert_status in H
      as [?|[?|(_ & _ & vec' & Hv' & Hlt)]]; try discriminate.
    assert (vec' = vec) by congruence. by subst vec'.
  - intros Hlt. unfold vector_insert in H. fwd_in H.
    destruct (Z.ltb_spec (v_size vec) index) as [Hx|Hx]; [|lia].
    by minv H.
Qed.

(** What an [insert] that returned has done: it fails
    with IndexOutOfBounds exactly when [index > n] ([index == n] is a
    valid append); on success, [get(index)] returns the inserted element
    and the elements formerly at positions [index .. n) occupy positions
    [index+1 .. n+1) in their original order (those before [index] stay
    where they were). *)
Lemma vector_insert_returned h v vec index e s h1 :
  vectors h !! v = Some vec -> vec_ok h v -> 0 <= index ->
  vector_insert (Some v) index (Some e) h = Ok s h1 ->
  (s = ERROR_INDEX_OUT_OF_BOUNDS <-> v_size vec < index) /\
  (s = SUCCESS ->
   let es := Z.to_nat (v_element_size vec) in
   let x := take es e in
   length x = es /\
   vector_elements h1 v
   = take (Z.to_nat index) (vector_elements h v)
     ++ x :: drop (Z.to_nat index) (vector_elements h v) /\
   (forall out, (es <= length out)%nat ->
      vector_get (Some v) index (Some out) h1
      = Ok (SUCCESS, Some (x ++ drop es out)) h1) /\
   (forall j out, index <= j < v_size vec -> (es <= length out)%nat ->
      exists y, vector_get (Some v) j (Some out) h
                = Ok (SUCCESS, Some (y ++ drop es out)) h /\
                vector_get (Some v) (j + 1) (Some out) h1
                = Ok (SUCCESS, Some (y ++ drop es out)) h1) /\
   (forall j out, 0 <= j < index -> (es <= length out)%nat ->
      exists y, vector_get (Some v) j (Some out) h
                = Ok (SUCCESS, Some (y ++ drop es out)) h /\
                vector_get (Some v) j (Some out) h1
                = Ok (SUCCESS, Some (y ++ drop es out)) h1)).
Proof.
  intros Hv Hok Hidx H.
  pose proof (vector_insert_oob_iff _ _ _ _ _ _ _ Hv H) as Hiff.
  split; [exact Hiff|].
  intros ->. cbn zeta.
  pose proof Hok as (vec' & Hv' & Hes & Hsz & Hcap & Hd).
  assert (vec' = vec) by congruence. subst vec'. clear Hv'.
  assert (index <= v_size vec) as Hle.
  { destruct (Z.le_gt_cases index (v_size vec)) as [?|Hgt]; [assumption|].
    apply Hiff in Hgt. discriminate. }
  set (es := Z.to_nat (v_element_size vec)).
  set (xs := vector_elements h v).
  assert (length xs = Z.to_nat (v_size vec)) as Hlen.
  { pose proof (vector_elements_length h v Hok vec Hv). subst xs. lia. }
  assert (vec_ok h1 v /\
          vector_elements h1 v
          = take (Z.to_nat index) xs ++ take es e :: drop (Z.to_nat index) xs /\
          v_element_size vec <= Z.of_nat (length e)) as (Hok1 & Hel1 & Hlen_e).
  { destruct (Z.eq_dec index (v_size vec)) as [->|Hne].
    - rewrite (vector_insert_at_end h v vec e Hv) in H by lia.
      apply (vector_push_back_ok _ _ _ _ _ Hv Hok) in H
        as (Hok1 & _ & Hel & Hle_e & _).
      split; [exact Hok1|]. split; [|exact Hle_e].
      fold xs in Hel. rewrite Hel. rewrite (take_ge xs), (drop_ge xs) by lia. reflexivity.
    - apply (vector_insert_middle_ok _ _ _ _ _ _ Hv Hok) in H
        as (Hok1 & _ & Hel & Hle_e & _); [|lia]. fold xs in Hel. auto. }
  assert (length (take es e) = es) as Hlx by (rewrite length_take; lia).
  split; [exact Hlx|]. split; [exact Hel1|].
  assert (forall j y out, 0 <= j -> vector_elements h1 v !! Z.to_nat j = Some y ->
            length y = es -> (es <= length out)%nat ->
            vector_get (Some v) j (Some out) h1
            = Ok (SUCCESS, Some (y ++ drop es out)) h1) as Hget1.
  { intros j y out Hj Hy Hly Hout. rewrite <- Hly.
    apply vector_get_ok; [assumption | assumption | assumption | lia]. }
  assert (forall j y out, 0 <= j -> xs !! Z.to_nat j = Some y ->
            length y = es -> (es <= length out)%nat ->
            vector_get (Some v) j (Some out) h
            = Ok (SUCCESS, Some (y ++ drop es out)) h) as Hget0.
  { intros j y out Hj Hy Hly Hout. rewrite <- Hly.
    apply vector_get_ok; [assumption | assumption | assumption | lia]. }
  assert (forall j y, xs !! j = Some y -> length y = es) as Hlens.
  { intros j y Hy. subst xs. unfold vector_elements in Hy. rewrite Hv in Hy.
    destruct (v_data vec) as [d|]; [|discriminate].
    destruct Hd as (b & Hb & Hfit & _). rewrite Hb in Hy.
    eapply slices_lookup_length; [|exact Hy].
    apply Nat2Z.inj_le. rewrite Nat2Z.inj_mul. lia. }
  split_and!.
  - intros out Hout. apply Hget1; [lia | | exact Hlx | exact Hout].
    rewrite Hel1. rewrite lookup_app_r by (rewrite length_take; lia).
    rewrite length_take. replace (_ - _)%nat with 0%nat by lia. reflexivity.
  - intros j out Hj Hout.
    destruct (xs !! Z.to_nat j) as [y|] eqn:Hy.
    2:{ apply lookup_ge_None in Hy. lia. }
    exists y. split; [apply Hget0; eauto; lia|].
    apply Hget1; [lia | | eauto | exact Hout].
    rewrite Hel1. rewrite lookup_app_r by (rewrite length_take; lia).
    rewrite length_take.
    replace (Z.to_nat (j + 1) - _)%nat with (S (Z.to_nat j - Z.to_nat index)) by lia.
    rewrite lookup_cons. cbv iota. rewrite lookup_drop. rewrite <- Hy. f_equal. lia.
  - intros j out Hj Hout.
    destruct (xs !! Z.to_nat j) as [y|] eqn:Hy.
    2:{ apply lookup_ge_None in Hy. lia. }
    exists y. split; [apply Hget0; eauto; lia|].
    apply Hget1; [lia | | eauto | exact Hout].
    rewrite Hel1. rewrite lookup_app_l by (rewrite length_take; lia).
    rewrite lookup_take_lt by lia. exact Hy.
Qed.

(* ===================================================================== *)
(** * vector.c : growth policy *)
(* ===================================================================== *)

Lemma next_capacity_unfold gp cap :
  0 <= cap < SIZE_MAX ->
  next_capacity gp cap
  = if Z.max gp VECTOR_INITIAL_CAPACITY <=? cap then cap + 1
    else Z.max gp VECTOR_INITIAL_CAPACITY.
Proof.
  intros Hc. unfold next_capacity, VECTOR_INITIAL_CAPACITY.
  rewrite (to_size_t_small (cap + 1)) by lia.
  destruct (Z.ltb_spec gp 16).
  - rewrite Z.max_r by lia. reflexivity.
  - rewrite Z.max_l by lia. reflexivity.
Qed.

(** An insertion into a full, well-formed vector that succeeds went
    through [vector_reserve] with the capacity [vector_check_grow]
    computes. *)
Lemma vector_insertion_grows h v vec e index h1 :
  vectors h !! v = Some vec -> vec_ok h v ->
  v_size vec = v_capacity vec ->
  (vector_push_back (Some v) (Some e) h = Ok SUCCESS h1 \/
   (0 <= index /\ vector_insert (Some v) index (Some e) h = Ok SUCCESS h1)) ->
  exists vec1 gp,
    vectors h1 !! v = Some vec1 /\
    growth_product (v_capacity vec) = Some gp /\
    v_capacity vec1 = next_capacity gp (v_capacity vec) /\
    v_capacity vec < v_capacity vec1 /\
    v_capacity vec < SIZE_MAX.
Proof.
  intros Hv Hok Hfull H.
  assert (exists vec1,
            vectors h1 !! v = Some vec1 /\
            (v_capacity vec <= v_size vec ->
             v_capacity vec < v_capacity vec1 /\
             exists gp, growth_product (v_capacity vec) = Some gp /\
                        v_capacity vec1 = next_capacity gp (v_capacity vec)))
    as (vec1 & Hv1 & Hg).
  { pose proof Hok as (vec' & Hv' & Hes & Hsz & Hcap & Hd).
    assert (vec' = vec) by congruence. subst vec'.
    destruct H as [H|[Hidx H]].
    - apply (vector_push_back_ok _ _ _ _ _ Hv Hok) in H
        as (_ & (vec1 & Hv1 & _ & _ & _ & _ & Hg) & _). eauto.
    - assert (index <= v_size vec) as Hle.
      { destruct (Z.le_gt_cases index (v_size vec)) as [?|Hgt]; [assumption|].
        apply (vector_insert_oob_iff _ _ _ _ _ _ _ Hv H) in Hgt. discriminate. }
      destruct (Z.eq_dec index (v_size vec)) as [->|Hne].
      + rewrite (vector_insert_at_end h v vec e Hv) in H by lia.
        apply (vector_push_back_ok _ _ _ _ _ Hv Hok) in H
          as (_ & (vec1 & Hv1 & _ & _ & _ & _ & Hg) & _). eauto.
      + apply (vector_insert_middle_ok _ _ _ _ _ _ Hv Hok) in H
          as (_ & (vec1 & Hv1 & _ & _ & _ & Hg) & _); [|lia]. eauto. }
  destruct (Hg ltac:(lia)) as (Hlt & gp & Hgp & Hnc).
  exists vec1, gp. split_and!; try assumption.
  destruct Hok as (vec' & Hv' & Hes & Hsz & Hcap & Hd).
  assert (vec' = vec) by congruence. subst vec'.
  destruct (Z.eq_dec (v_capacity vec) SIZE_MAX) as [E|E]; [|lia].
  rewrite E, growth_product_SIZE_MAX in Hgp. discriminate.
Qed.

(** C2 (as the code has it) — For a well-formed vector whose size has
    reached its capacity, the next insertion that succeeds grows the
    capacity to [max(capacity * 1.5, 16)], where the product is the
    double product truncated to [size_t]; the fallback [capacity + 1]
    applies when that maximum does not exceed the old capacity.  Every
    such growth strictly increases the capacity.  As long as the product
    is exact in double arithmetic ([3 * capacity < 2^53]) the maximum
    always exceeds the old capacity, so the new capacity is
    [max(floor(capacity * 3 / 2), 16)]: 16 for the capacities 0 and 1,
    where multiplying by 1.5 does not exceed the old capacity. *)
Theorem vector_growth_policy h v vec e index h1 :
  vectors h !! v = Some vec -> vec_ok h v ->
  v_size vec = v_capacity vec ->
  (vector_push_back (Some v) (Some e) h = Ok SUCCESS h1 \/
   (0 <= index /\ vector_insert (Some v) index (Some e) h = Ok SUCCESS h1)) ->
  exists vec1 gp,
    vectors h1 !! v = Some vec1 /\
    growth_product (v_capacity vec) = Some gp /\
    v_capacity vec1
    = (if Z.max gp VECTOR_INITIAL_CAPACITY <=? v_capacity vec
       then v_capacity vec + 1
       else Z.max gp VECTOR_INITIAL_CAPACITY) /\
    v_capacity vec < v_capacity vec1 /\
    (3 * v_capacity vec < 2 ^ 53 ->
     gp = 3 * v_capacity vec / 2 /\
     v_capacity vec1 = Z.max (3 * v_capacity vec / 2) VECTOR_INITIAL_CAPACITY).
Proof.
  intros Hv Hok Hfull H.
  destruct (vector_insertion_grows _ _ _ _ _ _ Hv Hok Hfull H)
    as (vec1 & gp & Hv1 & Hgp & Hnc & Hlt & Hmax).
  destruct Hok as (vec' & Hv' & Hes & Hsz & Hcap & Hd).
  assert (vec' = vec) by congruence. subst vec'.
  rewrite next_capacity_unfold in Hnc by lia.
  exists vec1, gp. split_and!; try assumption.
  intros Hexact. rewrite growth_product_exact in Hgp by lia.
  injection Hgp as <-. split; [reflexivity|]. rewrite Hnc.
  unfold VECTOR_INITIAL_CAPACITY.
  assert (v_capacity vec <= 3 * v_capacity vec / 2)
    by (apply Z.div_le_lower_bound; lia).
  destruct (Z.leb_spec (Z.max (3 * v_capacity vec / 2) 16) (v_capacity vec)) as [Hle|_];
    [|reflexivity].
  exfalso.
  assert (v_capacity vec + 8 <= 3 * v_capacity vec / 2 \/ v_capacity vec < 16) as [?|?]; [|lia|lia].
  destruct (Z.lt_ge_cases (v_capacity vec) 16); [right; assumption|left].
  apply Z.div_le_lower_bound; lia.
Qed.

Lemma demo_vec_ok : vec_ok demo_vec_heap 100.
Proof.
  exists demo_vec. split; [reflexivity|]. cbn.
  split_and!; try (unfold SIZE_MAX, SIZE_BITS; lia).
  eexists. split; [reflexivity|]. cbn. unfold SIZE_MAX, SIZE_BITS. lia.
Defined.

Lemma demo_full_ok : vec_ok demo_full_heap 100.
Proof.
  exists demo_full_vec. split; [reflexivity|]. cbn.
  split_and!; try (unfold SIZE_MAX, SIZE_BITS; lia).
  eexists. split; [reflexivity|]. cbn. unfold SIZE_MAX, SIZE_BITS. lia.
Defined.


Lemma vector_growth_policy_witness :
  exists h1 vec1,
    vector_push_back (Some 100) (Some (elem4 Byte.x09)) demo_full_heap = Ok SUCCESS h1 /\
    vectors h1 !! 100 = Some vec1 /\ v_capacity vec1 = 24.
Proof.
  destruct (vector_push_back (Some 100) (Some (elem4 Byte.x09)) demo_full_heap)
    as [s h1| |] eqn:E; try (vm_compute in E; discriminate E).
  assert (s = SUCCESS) as -> by (vm_compute in E; congruence).
  destruct (vector_growth_policy demo_full_heap 100 demo_full_vec (elem4 Byte.x09) 0 h1
              eq_refl demo_full_ok eq_refl (or_introl E))
    as (vec1 & gp & Hv1 & _ & _ & _ & Hx).
  exists h1, vec1. split; [reflexivity|]. split; [exact Hv1|].
  destruct (Hx ltac:(cbn; lia)) as [_ ->]. reflexivity.
Defined.

(** C2, as the claim words it, fails on the code: at capacity 1 the
    product [1 * 1.5] truncates to 1 and does not exceed the old
    capacity, so the claim gives [capacity + 1 = 2]; the code takes the
    maximum with 16 first and grows to 16. *)
Lemma vector_growth_claim_counterexample :
  exists h1 vec1,
    vector_push_back (Some 100) (Some (elem4 Byte.x02)) demo_one_heap = Ok SUCCESS h1 /\
    vectors h1 !! 100 = Some vec1 /\
    v_capacity vec1 = 16 /\
    spec_next_capacity (v_capacity demo_one_vec) = Some 2 /\
    Some (v_capacity vec1) <> spec_next_capacity (v_capacity demo_one_vec).
Proof.
  eexists _, _. split; [vm_compute; reflexivity|].
  split; [vm_compute; reflexivity|].
  split; [reflexivity|]. split; [reflexivity|]. vm_compute. discriminate.
Qed.

(* ===================================================================== *)
(** * vector.c : what an operation may change *)
(* ===================================================================== *)


Lemma vec_effect_refl h v : vec_effect h h v.
Proof.
  split; [apply touches_only_refl|]. split_and!; try reflexivity.
  intros vec Hv. exists vec. split_and!; [assumption | lia | reflexivity].
Qed.

Lemma vec_effect_trans h h0 h1 v :
  vec_effect h h0 v -> vec_effect h0 h1 v -> vec_effect h h1 v.
Proof.
  intros (A & A1 & A2 & A3 & A4 & A5) (B & B1 & B2 & B3 & B4 & B5).
  split; [eapply touches_only_trans; eassumption|].
  split_and!; try congruence.
  intros vec Hv. destruct (A5 _ Hv) as (vec0 & Hv0 & Hc0 & He0).
  destruct (B5 _ Hv0) as (vec1 & Hv1 & Hc1 & He1).
  exists vec1. split_and!; [assumption | lia | congruence].
Qed.

Lemma vec_effect_allocator h al v : vec_effect h (set_allocator al h) v.
Proof.
  split; [repeat split; eauto|]. split_and!; try reflexivity.
  intros vec Hv. exists vec. split_and!; [assumption | lia | reflexivity].
Qed.

(** Writing into the buffer of the vector. *)
Lemma vec_effect_buffer h v vec q b1 :
  vectors h !! v = Some vec -> v_data vec = Some q ->
  vec_effect h (rset Buffers (<[q := b1]> (buffers h)) h) v.
Proof.
  intros Hv Hd. split.
  - eapply (touches_only_update h _ v vec q b1 vec); cbn; try eassumption; try reflexivity.
    rewrite insert_id; [reflexivity | exact Hv].
  - split_and!; try reflexivity. intros vec' Hv'. exists vec'. cbn.
    split_and!; [assumption | lia | reflexivity].
Qed.

(** Updating fields of the vector other than [data], without lowering
    the capacity or changing the element size. *)
Lemma vec_effect_modify h v vec f :
  vectors h !! v = Some vec ->
  v_data (f vec) = v_data vec -> v_capacity vec <= v_capacity (f vec) ->
  v_element_size (f vec) = v_element_size vec ->
  vec_effect h (rset Vectors (<[v := f vec]> (vectors h)) h) v.
Proof.
  intros Hv Hd Hc He. split.
  - unfold touches_only. cbn. split_and!.
    + intros u Hu. by rewrite lookup_insert_ne.
    + intros a Ha Hne. reflexivity.
    + intros vec1 a Hv1 Ha. rewrite lookup_insert_eq in Hv1. injection Hv1 as <-.
      left. exists vec. split; [exact Hv | congruence].
  - split_and!; try reflexivity. intros vec' Hv'.
    assert (vec' = vec) by congruence. subst vec'.
    exists (f vec). cbn. rewrite lookup_insert_eq. auto.
Qed.

Lemma vector_reserve_effect v n h s h1 :
  vector_reserve (Some v) n h = Ok s h1 ->
  (s <> SUCCESS -> s = ERROR_MEMORY_ALLOCATION /\ contents h1 = contents h) /\
  vec_effect h h1 v.
Proof.
  destruct (vectors h !! v) as [vec|] eqn:Hv; intros H.
  2:{ unfold vector_reserve in H. apply bind_inv in H as (? & ? & E & _).
      minv E. cbn in *. congruence. }
  apply (vector_reserve_inv _ _ _ _ _ _ Hv) in H
    as [(-> & Hn & ->)|[(-> & Hlt & al & ->)|(-> & Hlt & al & q & b & junk & Hsz & Hq & Hp & ->)]].
  - split; [congruence | apply vec_effect_refl].
  - split; [auto | apply vec_effect_allocator].
  - split; [congruence|]. cbn zeta in *. split.
    + unfold touches_only. cbn. split_and!.
      * intros u Hu. by rewrite lookup_insert_ne.
      * intros a Ha Hne. specialize (Hne _ Hv).
        assert (q <> a).
        { intros ->. destruct Ha as [x Ha]. destruct (v_data vec) as [old|].
          - destruct Hp as [_ [->|Hu]]; [congruence|].
            apply in_use_false in Hu as (_ & Hu & _). congruence.
          - destruct Hp as [_ Hu].
            apply in_use_false in Hu as (_ & Hu & _). congruence. }
        rewrite lookup_insert_ne by assumption.
        destruct (v_data vec) as [old|]; [|reflexivity].
        rewrite lookup_delete_ne; [reflexivity | congruence].
      * intros vec1 a Hv1 Ha. rewrite lookup_insert_eq in Hv1.
        injection Hv1 as <-. cbn in Ha. injection Ha as <-.
        destruct (v_data vec) as [old|] eqn:Ed.
        -- destruct Hp as [_ [->|Hu]]; [left; eauto|].
           right. by apply in_use_false in Hu as (_ & Hu & _).
        -- destruct Hp as [_ Hu]. right.
           by apply in_use_false in Hu as (_ & Hu & _).
    + cbn. split_and!; try reflexivity. intros vec' Hv'.
      assert (vec' = vec) by congruence. subst vec'.
      eexists. rewrite lookup_insert_eq. split; [reflexivity|]. cbn. split; [lia | reflexivity].
Qed.

Lemma vector_check_grow_effect v h s h1 :
  vector_check_grow v h = Ok s h1 ->
  (s <> SUCCESS -> s = ERROR_MEMORY_ALLOCATION /\ contents h1 = contents h) /\
  vec_effect h h1 v.
Proof.
  destruct (vectors h !! v) as [vec|] eqn:Hv; intros H.
  2:{ unfold vector_check_grow in H. apply bind_inv in H as (? & ? & E & _).
      minv E. cbn in *. congruence. }
  apply (vector_check_grow_inv _ _ _ _ _ Hv) in H as [(_ & -> & ->)|(_ & gp & _ & H)].
  - split; [congruence | apply vec_effect_refl].
  - by apply vector_reserve_effect in H.
Qed.

(** A copy into the vector's buffer. *)
Lemma mem_copy_in_effect h v vec off src n u h1 :
  vectors h !! v = Some vec ->
  mem_copy_in (v_data vec) off src n h = Ok u h1 ->
  vec_effect h h1 v /\ vectors h1 = vectors h.
Proof.
  intros Hv H. destruct (v_data vec) as [q|] eqn:Ed; [|discriminate H].
  apply mem_copy_in_inv in H as (b & Hb & _ & _ & ->).
  split; [by eapply vec_effect_buffer | reflexivity].
Qed.

Lemma mem_move_effect h v vec dst src n u h1 :
  vectors h !! v = Some vec ->
  mem_move (v_data vec) dst src n h = Ok u h1 ->
  vec_effect h h1 v /\ vectors h1 = vectors h.
Proof.
  intros Hv H. destruct (v_data vec) as [q|] eqn:Ed; [|discriminate H].
  apply mem_move_inv in H as (b & Hb & _ & _ & _ & ->).
  split; [by eapply vec_effect_buffer | reflexivity].
Qed.

Lemma modify_size_effect h v f u h1 :
  modify Vectors v (fun x => set_v_size (f x) x) h = Ok u h1 -> vec_effect h h1 v.
Proof.
  intros H. apply modify_inv in H as (vec & Hv & ->).
  by apply (vec_effect_modify h v vec (fun x => set_v_size (f x) x)).
Qed.

Lemma vector_push_back_effect v e h s h1 :
  vector_push_back (Some v) (Some e) h = Ok s h1 ->
  (s <> SUCCESS -> s = ERROR_MEMORY_ALLOCATION /\ contents h1 = contents h) /\
  vec_effect h h1 v.
Proof.
  unfold vector_push_back. intros H.
  apply bind_inv in H as (s0 & h0 & Hg & H).
  apply vector_check_grow_effect in Hg as [Hfail Heff].
  destruct (is_success s0) eqn:Es0; cbn [negb] in H.
  - apply bind_inv in H as (vec0 & h0' & E & H). minv E. rename E into Hv0. cbn in Hv0.
    apply bind_inv in H as (u1 & h2 & Hc & H).
    apply (mem_copy_in_effect _ _ _ _ _ _ _ _ Hv0) in Hc as [Hc _].
    apply bind_inv in H as (u2 & h3 & Hm & H).
    apply modify_size_effect in Hm. minv H.
    split; [congruence|]. eauto using vec_effect_trans.
  - minv H. apply is_success_false in Es0. auto.
Qed.

(** Decomposing a computation that returned, through its branches. *)
Ltac minv_deep H :=
  lazymatch type of H with
  | bind _ _ _ = Ok _ _ =>
      let a := fresh "a" in let h := fresh "h" in let E := fresh "E" in
      apply bind_inv in H as (a & h & E & H); minv_deep E; minv_deep H
  | ret _ _ = Ok _ _ => apply ret_inv in H as [? ?]; simplify_eq
  | load _ _ _ = Ok _ _ => apply load_inv in H as [H ?]; subst
  | field _ _ _ _ = Ok _ _ =>
      let x := fresh "x" in apply field_inv in H as (x & H & ? & ?); subst
  | fault _ = Ok _ _ => discriminate H
  | out_of_fuel _ = Ok _ _ => discriminate H
  | Fault = Ok _ _ => discriminate H
  | OutOfFuel = Ok _ _ => discriminate H
  | Ok _ _ = Ok _ _ => injection H as ? ?; simplify_eq
  | (if ?b then _ else _) _ = Ok _ _ => destruct b eqn:?; minv_deep H
  | (match ?x with _ => _ end) _ = Ok _ _ => destruct x eqn:?; minv_deep H
  | (match ?x with _ => _ end) = Ok _ _ => destruct x eqn:?; minv_deep H
  | _ => idtac
  end.

Lemma bytes_at_pure data off h r h1 : bytes_at data off h = Ok r h1 -> h1 = h.
Proof. unfold bytes_at. intros H. minv_deep H. reflexivity. Qed.

Lemma mem_copy_out_pure out data off n h r h1 :
  mem_copy_out out data off n h = Ok r h1 -> h1 = h.
Proof.
  unfold mem_copy_out. intros H. apply bind_inv in H as (src & h0 & E & H).
  apply bytes_at_pure in E as ->. minv_deep H. reflexivity.
Qed.

Lemma vector_check_index_pure v i h r h1 :
  vector_check_index v i h = Ok r h1 -> h1 = h.
Proof. unfold vector_check_index. intros H. minv_deep H; reflexivity. Qed.

Lemma vector_get_pure v i out h r h1 : vector_get v i out h = Ok r h1 -> h1 = h.
Proof.
  unfold vector_get. intros H. destruct v as [v|]; [|by minv_deep H].
  destruct out as [out|]; [|by minv_deep H].
  apply bind_inv in H as (s0 & h0 & E & H). apply vector_check_index_pure in E as ->.
  destruct (negb (is_success s0)); [by minv_deep H|].
  apply bind_inv in H as (vec & h0 & E & H). minv E.
  apply bind_inv in H as (o & h0 & E' & H). apply mem_copy_out_pure in E' as ->.
  by minv_deep H.
Qed.

Lemma element_ptr_pure d off h r h1 : element_ptr d off h = Ok r h1 -> h1 = h.
Proof. unfold element_ptr. intros H. minv_deep H. reflexivity. Qed.

Lemma vector_at_const_pure v i h r h1 : vector_at_const v i h = Ok r h1 -> h1 = h.
Proof.
  unfold vector_at_const. intros H. destruct v as [v|]; [|by minv_deep H].
  apply bind_inv in H as (vec & h0 & E & H). minv E.
  destruct (v_size vec <=? i); [by minv_deep H|]. by apply element_ptr_pure in H.
Qed.

Lemma vector_at_mutable_pure v i h r h1 : vector_at_mutable v i h = Ok r h1 -> h1 = h.
Proof.
  unfold vector_at_mutable. intros H. destruct v as [v|]; [|by minv_deep H].
  apply bind_inv in H as (vec & h0 & E & H). minv E.
  destruct (v_size vec <=? i); [by minv_deep H|]. by apply element_ptr_pure in H.
Qed.

Lemma vector_front_pure v h r h1 : vector_front v h = Ok r h1 -> h1 = h.
Proof. unfold vector_front. intros H. minv_deep H; reflexivity. Qed.

Lemma vector_back_pure v h r h1 : vector_back v h = Ok r h1 -> h1 = h.
Proof.
  unfold vector_back. intros H. destruct v as [v|]; [|by minv_deep H].
  apply bind_inv in H as (vec & h0 & E & H). minv E.
  destruct (v_size vec =? 0); [by minv_deep H|]. by apply element_ptr_pure in H.
Qed.

Lemma vector_size_pure v h r h1 : vector_size v h = Ok r h1 -> h1 = h.
Proof. unfold vector_size. intros H. minv_deep H; reflexivity. Qed.

Lemma vector_capacity_pure v h r h1 : vector_capacity v h = Ok r h1 -> h1 = h.
Proof. unfold vector_capacity. intros H. minv_deep H; reflexivity. Qed.

Lemma vector_empty_pure v h r h1 : vector_empty v h = Ok r h1 -> h1 = h.
Proof. unfold vector_empty. intros H. minv_deep H; reflexivity. Qed.

Lemma vector_find_loop_pure n i v e cmp h r h1 :
  vector_find_loop n i v e cmp h = Ok r h1 -> h1 = h.
Proof.
  revert i h. induction n as [|n IH]; intros i h H; cbn in H.
  - by minv_deep H.
  - apply bind_inv in H as (vec & h0 & E & H). minv E.
    apply bind_inv in H as (cur & h0 & E' & H). apply bytes_at_pure in E' as ->.
    destruct (cmp cur e =? 0); [by minv_deep H|]. by apply IH in H.
Qed.

Lemma vector_find_pure v e cmp h r h1 : vector_find v e cmp h = Ok r h1 -> h1 = h.
Proof.
  unfold vector_find. intros H.
  destruct v as [v|]; [|by minv_deep H]. destruct e as [e|]; [|by minv_deep H].
  destruct cmp as [cmp|]; [|by minv_deep H].
  apply bind_inv in H as (vec & h0 & E & H). minv E.
  by apply vector_find_loop_pure in H.
Qed.

Lemma vector_contains_pure v e cmp h r h1 :
  vector_contains v e cmp h = Ok r h1 -> h1 = h.
Proof.
  unfold vector_contains. intros H. apply bind_inv in H as (x & h0 & E & H).
  apply vector_find_pure in E as ->. by minv_deep H.
Qed.

Lemma vector_pop_back_effect v out h s out' h1 :
  vector_pop_back (Some v) out h = Ok (s, out') h1 ->
  (s <> SUCCESS -> s = ERROR_EMPTY_CONTAINER /\ h1 = h) /\
  vec_effect h h1 v.
Proof.
  unfold vector_pop_back. intros H.
  apply bind_inv in H as (vec & h0 & E & H). minv E.
  destruct (v_size vec =? 0).
  { minv H. split; [auto | apply vec_effect_refl]. }
  apply bind_inv in H as (o & h0 & Eo & H).
  assert (h0 = h) as ->.
  { destruct out as [out|]; [|by minv Eo].
    apply bind_inv in Eo as (o' & h2 & Eo & Er). apply mem_copy_out_pure in Eo as ->.
    by minv Er. }
  apply bind_inv in H as (u & h2 & Hm & H). apply modify_size_effect in Hm.
  minv H. split; [congruence | assumption].
Qed.

Lemma vector_insert_effect v index e h s h1 :
  vector_insert (Some v) index (Some e) h = Ok s h1 -> vec_effect h h1 v.
Proof.
  intros H. unfold vector_insert in H.
  apply bind_inv in H as (vec & h0 & E & H). minv E. rename E into Hv. cbn in Hv.
  destruct (v_size vec <? index).
  { minv H. apply vec_effect_refl. }
  apply bind_inv in H as (s0 & h0 & Hg & H).
  apply vector_check_grow_effect in Hg as [_ Heff].
  destruct (negb (is_success s0)).
  { minv H. exact Heff. }
  apply bind_inv in H as (vec0 & h0' & E & H). minv E. rename E into Hv0. cbn in Hv0.
  eapply vec_effect_trans; [exact Heff|].
  destruct (index =? v_size vec0).
  - by apply vector_push_back_effect in H as [_ H].
  - apply bind_inv in H as (u0 & h2 & Hmv & H).
    apply (mem_move_effect _ _ _ _ _ _ _ _ Hv0) in Hmv as [Hmv Hvs].
    apply bind_inv in H as (u1 & h3 & Hc & H).
    assert (vectors h2 !! v = Some vec0) as Hv2 by (rewrite Hvs; exact Hv0).
    apply (mem_copy_in_effect _ _ _ _ _ _ _ _ Hv2) in Hc as [Hc _].
    apply bind_inv in H as (u2 & h4 & Hm & H).
    apply modify_size_effect in Hm. minv H.
    eauto using vec_effect_trans.
Qed.

(** A failed [vector_insert] on a vector with [size <= capacity] leaves
    the store as it was. *)
Lemma vector_insert_failure v index e h s h1 :
  (forall vec, vectors h !! v = Some vec ->
               0 <= v_capacity vec <= SIZE_MAX /\ v_size vec <= v_capacity vec) ->
  vector_insert (Some v) index (Some e) h = Ok s h1 ->
  s <> SUCCESS ->
  (s = ERROR_MEMORY_ALLOCATION \/ s = ERROR_INDEX_OUT_OF_BOUNDS) /\
  contents h1 = contents h.
Proof.
  intros Hwf H Hs. unfold vector_insert in H.
  apply bind_inv in H as (vec & h0 & E & H). minv E. rename E into Hv. cbn in Hv.
  destruct (Hwf _ Hv) as [Hcap Hsz].
  destruct (v_size vec <? index).
  { minv H. auto. }
  apply bind_inv in H as (s0 & h0 & Hg & H).
  pose proof Hg as Hg'. apply vector_check_grow_effect in Hg' as [Hfail Heff].
  destruct (is_success s0) eqn:Es0; cbn [negb] in H.
  2:{ minv H. apply is_success_false in Es0. destruct (Hfail Es0). auto. }
  apply is_success_true in Es0. subst s0.
  destruct (vector_check_grow_again _ _ _ _ Hv Hcap Hsz Hg)
    as (Hg0 & vec0 & Hv0 & Hs0 & Hroom).
  apply bind_inv in H as (vec0' & h0' & E & H). minv E. cbn in E.
  assert (vec0' = vec0) by congruence. subst vec0'. clear E.
  destruct (index =? v_size vec0).
  - unfold vector_push_back in H. rewrite (bind_Ok _ _ _ _ _ Hg0) in H.
    change (negb (is_success SUCCESS)) with false in H. cbv iota in H.
    apply bind_inv in H as (? & ? & _ & H). apply bind_inv in H as (? & ? & _ & H).
    apply bind_inv in H as (? & ? & _ & H). minv H; try congruence.
  - apply bind_inv in H as (? & ? & _ & H). apply bind_inv in H as (? & ? & _ & H).
    apply bind_inv in H as (? & ? & _ & H). minv H; try congruence.
Qed.

Lemma vector_remove_effect v index h s h1 :
  vector_remove (Some v) index h = Ok s h1 ->
  (s <> SUCCESS ->
   (s = ERROR_INDEX_OUT_OF_BOUNDS \/ s = ERROR_EMPTY_CONTAINER) /\ h1 = h) /\
  vec_effect h h1 v.
Proof.
  unfold vector_remove. intros H.
  apply bind_inv in H as (s0 & h0 & E & H).
  pose proof E as E'. apply vector_check_index_pure in E' as ->.
  unfold vector_check_index in E. apply bind_inv in E as (vec & h0 & Ev & E). minv Ev.
  destruct (v_size vec <=? index).
  { minv E. change (negb (is_success ERROR_INDEX_OUT_OF_BOUNDS)) with true in H.
    cbv iota in H. minv H. split; [auto | apply vec_effect_refl]. }
  minv E. change (negb (is_success SUCCESS)) with false in H. cbv iota in H.
  apply bind_inv in H as (vec' & h0 & E & H). minv E.
  destruct (index =? to_size_t (v_size vec' - 1)).
  - apply bind_inv in H as ([s1 o1] & h2 & Hp & H). minv H. cbn.
    apply vector_pop_back_effect in Hp as [Hfail Heff]. split; [|exact Heff].
    intros Hs. destruct (Hfail Hs) as [-> ->]. auto.
  - apply bind_inv in H as (u0 & h2 & Hmv & H).
    apply (mem_move_effect _ _ _ _ _ _ _ _ E) in Hmv as [Hmv Hvs].
    apply bind_inv in H as (u2 & h4 & Hm & H).
    apply modify_size_effect in Hm. minv H.
    split; [congruence|]. eauto using vec_effect_trans.
Qed.

Lemma vector_clear_effect v h u h1 :
  vector_clear (Some v) h = Ok u h1 -> vec_effect h h1 v.
Proof.
  unfold vector_clear. intros H. apply modify_inv in H as (vec & Hv & ->).
  by apply (vec_effect_modify h v vec (set_v_size 0)).
Qed.

Lemma vector_set_effect v index e h s h1 :
  vector_set (Some v) index (Some e) h = Ok s h1 ->
  (s <> SUCCESS -> s = ERROR_INDEX_OUT_OF_BOUNDS /\ h1 = h) /\
  vec_effect h h1 v.
Proof.
  unfold vector_set. intros H.
  apply bind_inv in H as (s0 & h0 & E & H).
  pose proof E as E'. apply vector_check_index_pure in E' as ->.
  unfold vector_check_index in E. apply bind_inv in E as (vec & h0 & Ev & E). minv Ev.
  destruct (v_size vec <=? index).
  { minv E. change (negb (is_success ERROR_INDEX_OUT_OF_BOUNDS)) with true in H.
    cbv iota in H. minv H. split; [auto | apply vec_effect_refl]. }
  minv E. change (negb (is_success SUCCESS)) with false in H. cbv iota in H.
  apply bind_inv in H as (vec' & h0 & E & H). minv E.
  apply bind_inv in H as (u1 & h3 & Hc & H).
  apply (mem_copy_in_effect _ _ _ _ _ _ _ _ E) in Hc as [Hc _]. minv H.
  split; [congruence | assumption].
Qed.

(** The vector's buffer moves to [q] (its old address or an unused one)
    and the vector is rewritten to point to it. *)
Lemma touches_only_realloc h v vec q b' al vec1 :
  vectors h !! v = Some vec ->
  match v_data vec with
  | None => in_use h q = false
  | Some old => q = old \/ in_use h q = false
  end ->
  v_data vec1 = Some q ->
  touches_only h
    (rset Vectors (<[v := vec1]> (vectors h))
       (rset Buffers
          (<[q := b']> (match v_data vec with
                        | Some old => delete old (buffers h)
                        | None => buffers h
                        end))
          (set_allocator al h))) v.
Proof.
  intros Hv Hp Hd1. unfold touches_only. cbn. split_and!.
  - intros u Hu. by rewrite lookup_insert_ne.
  - intros a Ha Hne. specialize (Hne _ Hv).
    assert (q <> a).
    { intros ->. destruct Ha as [x Ha]. destruct (v_data vec) as [old|].
      - destruct Hp as [->|Hu]; [congruence|].
        apply in_use_false in Hu as (_ & Hu & _). congruence.
      - apply in_use_false in Hp as (_ & Hu & _). congruence. }
    rewrite lookup_insert_ne by assumption.
    destruct (v_data vec) as [old|]; [|reflexivity].
    rewrite lookup_delete_ne; [reflexivity | congruence].
  - intros vec' a Hv1 Ha. rewrite lookup_insert_eq in Hv1.
    injection Hv1 as <-. rewrite Hd1 in Ha. injection Ha as <-.
    destruct (v_data vec) as [old|] eqn:Ed.
    + destruct Hp as [->|Hu]; [left; eauto|].
      right. by apply in_use_false in Hu as (_ & Hu & _).
    + right. by apply in_use_false in Hp as (_ & Hu & _).
Qed.

Lemma touches_only_allocator h al v : touches_only h (set_allocator al h) v.
Proof. repeat split; eauto. Qed.


Lemma vector_shrink_to_fit_effect v h s h1 :
  vector_shrink_to_fit (Some v) h = Ok s h1 ->
  (s <> SUCCESS -> s = ERROR_MEMORY_ALLOCATION /\ contents h1 = contents h) /\
  touches_only h h1 v /\ lists_same h h1.
Proof.
  unfold vector_shrink_to_fit. intros H.
  apply bind_inv in H as (vec & h0 & E & H). minv E. rename E into Hv. cbn in Hv.
  destruct (v_size vec =? v_capacity vec).
  { minv H. split; [congruence|]. split; [apply touches_only_refl | by repeat split]. }
  destruct (v_size vec =? 0).
  - apply bind_inv in H as (u0 & h2 & Hf & H).
    apply bind_inv in H as (u1 & h3 & Hm1 & H). apply modify_inv in Hm1 as (x1 & L1 & ->).
    apply bind_inv in H as (u2 & h4 & Hm2 & H). apply modify_inv in Hm2 as (x2 & L2 & ->).
    minv H. split; [congruence|].
    destruct (v_data vec) as [d|] eqn:Ed; cbn in Hf.
    + apply free_inv in Hf as [Hd ->]. cbn in *. split; [|by repeat split].
      unfold touches_only. cbn. split_and!.
      * intros u Hu. by rewrite !lookup_insert_ne.
      * intros a Ha Hne. specialize (Hne _ Hv).
        rewrite lookup_delete_ne; [reflexivity | congruence].
      * intros vec1 a Hv1 Ha. rewrite lookup_insert_eq in Hv1. injection Hv1 as <-.
        rewrite lookup_insert_eq in L2. injection L2 as <-. discriminate Ha.
    + minv Hf. cbn in *. split; [|by repeat split].
      unfold touches_only. cbn. split_and!.
      * intros u Hu. by rewrite !lookup_insert_ne.
      * intros a Ha Hne. reflexivity.
      * intros vec1 a Hv1 Ha. rewrite lookup_insert_eq in Hv1. injection Hv1 as <-.
        rewrite lookup_insert_eq in L2. injection L2 as <-. discriminate Ha.
  - apply bind_inv in H as (nd & h2 & Er & H).
    apply mem_realloc_inv in Er as [al Er]. destruct nd as [q|].
    + destruct Er as (Hsz & Hq & b & junk & Hp & ->).
      apply bind_inv in H as (u1 & h3 & Hm1 & H). apply modify_inv in Hm1 as (x1 & L1 & ->).
      apply bind_inv in H as (u2 & h4 & Hm2 & H). apply modify_inv in Hm2 as (x2 & L2 & ->).
      minv H. split; [congruence|]. cbn in *. split; [|by repeat split].
      rewrite Hv in L1. injection L1 as <-.
      rewrite lookup_insert_eq in L2. injection L2 as <-. rewrite insert_insert_eq.
      apply (touches_only_realloc h v vec q _ al _ Hv); [|reflexivity].
      destruct (v_data vec); tauto.
    + subst h2. minv H. split; [auto|].
      split; [apply touches_only_allocator | by repeat split].
Qed.

Lemma vector_destroy_effect v h u h1 :
  vector_destroy (Some v) h = Ok u h1 ->
  touches_only h h1 v /\ lists_same h h1 /\
  exists vec, vectors h !! v = Some vec /\
              vectors h1 = delete v (vectors h) /\
              buffers h1 = match v_data vec with
                           | Some d => delete d (buffers h)
                           | None => buffers h
                           end.
Proof.
  unfold vector_destroy. intros H.
  apply bind_inv in H as (vec & h0 & E & H). minv E. rename E into Hv. cbn in Hv.
  apply bind_inv in H as (u0 & h2 & Hf & H).
  apply bind_inv in H as (u1 & h3 & Hm1 & H). apply modify_inv in Hm1 as (x1 & L1 & ->).
  cbn in H. apply free_inv in H as [_ ->].
  assert (exists bs, h2 = rset Buffers bs h /\
                     bs = match v_data vec with
                          | Some d => delete d (buffers h)
                          | None => buffers h
                          end) as (bs & -> & Hbs).
  { destruct (v_data vec) as [d|]; cbn in Hf.
    - apply free_inv in Hf as [_ ->]. eauto.
    - minv Hf. eexists. split; [|reflexivity]. by destruct h2. }
  cbn in *. split_and!.
  - unfold touches_only. cbn. split_and!.
    + intros w Hw. rewrite lookup_delete_ne by congruence. by rewrite lookup_insert_ne.
    + intros a Ha Hne. specialize (Hne _ Hv). subst bs.
      destruct (v_data vec) as [d|]; [|reflexivity].
      rewrite lookup_delete_ne; [reflexivity | congruence].
    + intros vec1 a Hv1. rewrite lookup_delete_eq in Hv1. discriminate.
  - by repeat split.
  - exists vec. split; [exact Hv|]. split; [|exact Hbs].
    by rewrite delete_insert_eq.
Qed.

Lemma vector_for_each_loop_effect n i v f h u h1 :
  vector_for_each_loop n i v f h = Ok u h1 -> vec_effect h h1 v.
Proof.
  revert i h. induction n as [|n IH]; intros i h H; cbn in H.
  - minv H. apply vec_effect_refl.
  - apply bind_inv in H as (vec & h0 & E & H). minv E. rename E into Hv. cbn in Hv.
    apply bind_inv in H as (el & h0 & Eb & H). apply bytes_at_pure in Eb as ->.
    apply bind_inv in H as (u0 & h2 & Ep & H).
    eapply vec_effect_trans; [|exact (IH _ _ H)].
    destruct (bool_decide _); [|discriminate Ep].
    unfold put_bytes_at in Ep. destruct (v_data vec) as [d|] eqn:Ed; [|discriminate Ep].
    apply bind_inv in Ep as (b & h0 & Eb & Ep). minv Eb.
    destruct (_ <=? _); [|discriminate Ep].
    unfold store in Ep. cbn in Ep. cbn in Eb. rewrite Eb in Ep.
    injection Ep as Ep. subst h2. by eapply vec_effect_buffer.
Qed.

Lemma vector_for_each_effect v f h u h1 :
  vector_for_each (Some v) f h = Ok u h1 -> vec_effect h h1 v.
Proof.
  unfold vector_for_each. intros H. destruct f as [f|].
  - apply bind_inv in H as (vec & h0 & E & H). minv E.
    by apply vector_for_each_loop_effect in H.
  - minv H. apply vec_effect_refl.
Qed.

(* ===================================================================== *)
(** * vector.c : creation, swap *)
(* ===================================================================== *)

Lemma vector_create_with_capacity_inv es cap h r h1 :
  vector_create_with_capacity es cap h = Ok r h1 ->
  match r with
  | None => contents h1 = contents h
  | Some p =>
      let cap' := if cap =? 0 then VECTOR_INITIAL_CAPACITY else cap in
      let sz := to_size_t (es * cap') in
      es <> 0 /\ sz <> 0 /\ in_use h p = false /\
      exists q junk al,
        in_use h q = false /\ q <> p /\
        h1 = rset Vectors (<[p := mk_vector (Some q) 0 cap' es]> (vectors h))
               (rset Buffers (<[q := resize (Z.to_nat sz) Byte.x00 junk]> (buffers h))
                  (set_allocator al h))
  end.
Proof.
  unfold vector_create_with_capacity. intros H.
  destruct (Z.eqb_spec es 0) as [->|Hes]; [by minv H|].
  apply bind_inv in H as (vp & h0 & Em & H).
  apply malloc_inv in Em as [al Em]. destruct vp as [p|].
  2:{ subst h0. by minv H. }
  destruct Em as (Hvp & Hup & junk0 & ->).
  apply bind_inv in H as (d & h2 & Ea & H).
  apply mem_alloc_inv in Ea as [al' Ea].
  apply bind_inv in H as (u0 & h3 & Hm0 & H). apply modify_inv in Hm0 as (x0 & L0 & ->).
  destruct d as [q|].
  - destruct Ea as (Hsz & Hvq & Huq & junk & ->).
    apply bind_inv in H as (u1 & h3 & Hm1 & H). apply modify_inv in Hm1 as (x1 & L1 & ->).
    apply bind_inv in H as (u2 & h4 & Hm2 & H). apply modify_inv in Hm2 as (x2 & L2 & ->).
    apply bind_inv in H as (u3 & h5 & Hm3 & H). apply modify_inv in Hm3 as (x3 & L3 & ->).
    minv H. cbn in *.
    rewrite lookup_insert_eq in L0. injection L0 as <-.
    rewrite lookup_insert_eq in L1. injection L1 as <-.
    rewrite lookup_insert_eq in L2. injection L2 as <-.
    rewrite lookup_insert_eq in L3. injection L3 as <-.
    split; [exact Hes|]. split; [exact Hsz|]. split; [exact Hup|].
    exists q, junk, al'.
    unfold in_use in Huq. cbn in Huq.
    rewrite !orb_false_iff, !bool_decide_eq_false in Huq.
    destruct Huq as [[[[[Hq1 Hq2] Hq3] Hq4] Hq5] Hq6].
    assert (q <> p) as Hqp.
    { intros ->. apply Hq1. rewrite lookup_insert_eq. eauto. }
    split_and!.
    + unfold in_use. rewrite !orb_false_iff, !bool_decide_eq_false.
      rewrite lookup_insert_ne in Hq1 by congruence. tauto.
    + exact Hqp.
    + rewrite !insert_insert_eq. reflexivity.
  - subst h2. cbn in H. apply bind_inv in H as (u1 & h3 & Hf & H).
    apply free_inv in Hf as [_ ->]. minv H. cbn in *.
    apply in_use_false in Hup as (Hup & _).
    unfold contents. cbn. rewrite delete_insert_eq, delete_insert_eq.
    rewrite delete_id by exact Hup. reflexivity.
Qed.

(** Decomposing a sequence of field reads and updates. *)
Ltac fields_inv H :=
  repeat
    lazymatch type of H with
    | bind _ _ _ = Ok _ _ =>
        let E := fresh "E" in
        apply bind_inv in H as (? & ? & E & H);
        lazymatch type of E with
        | field _ _ _ _ = Ok _ _ => apply field_inv in E as (? & _ & _ & ->)
        | modify _ _ _ _ = Ok _ _ => apply modify_inv in E as (? & _ & ->)
        | bind (field _ _ _) _ _ = Ok _ _ =>
            let Em := fresh "Em" in
            apply bind_inv in E as (? & ? & E & Em);
            apply field_inv in E as (? & _ & _ & ->);
            apply modify_inv in Em as (? & _ & ->)
        end
    end;
  lazymatch type of H with
  | modify _ _ _ _ = Ok _ _ => apply modify_inv in H as (? & _ & ->)
  | _ => idtac
  end.

Lemma vector_swap_frame a b h u h1 :
  vector_swap (Some a) (Some b) h = Ok u h1 ->
  buffers h1 = buffers h /\ lists_same h h1 /\
  forall w, w <> a -> w <> b -> vectors h1 !! w = vectors h !! w.
Proof.
  unfold vector_swap. intros H. fields_inv H.
  cbn. split; [reflexivity|]. split; [by repeat split|].
  intros w Ha Hb. by rewrite !lookup_insert_ne by congruence.
Qed.

Lemma contents_inv h h1 :
  contents h1 = contents h ->
  vectors h1 = vectors h /\ buffers h1 = buffers h /\
  slists h1 = slists h /\ snodes h1 = snodes h /\
  dlists h1 = dlists h /\ dnodes h1 = dnodes h.
Proof. unfold contents. intros H. by simplify_eq. Qed.

(* ===================================================================== *)
(** * vector.c : copy leaves the other vectors alone *)
(* ===================================================================== *)

Lemma vector_copy_loop_frame n i src d h r h1 :
  vector_copy_loop n i src d h = Ok r h1 ->
  lists_same h h1 /\ forall u, u <> d -> vectors h1 !! u = vectors h !! u.
Proof.
  revert i h. induction n as [|n IH]; intros i h H; cbn in H.
  - minv H. by repeat split.
  - apply bind_inv in H as (s & h0 & E & H). minv E.
    apply bind_inv in H as (el & h0 & E' & H). apply bytes_at_pure in E' as ->.
    apply bind_inv in H as (res & h2 & Hp & H).
    apply vector_push_back_effect in Hp as [_ Hp].
    destruct Hp as ((Hfr & _) & Hsl & Hsn & Hdl & Hdn & _).
    destruct (negb (is_success res)).
    + apply bind_inv in H as (u0 & h3 & Hd & H). minv H.
      apply vector_destroy_effect in Hd as ((Hfr' & _) & (? & ? & ? & ?) & _).
      split; [repeat split; congruence|].
      intros u Hu. rewrite Hfr' by exact Hu. by apply Hfr.
    + apply IH in H as [(? & ? & ? & ?) Hfr'].
      split; [repeat split; congruence|].
      intros u Hu. rewrite Hfr' by exact Hu. by apply Hfr.
Qed.

Lemma vector_copy_frame src h r h1 :
  vector_copy src h = Ok r h1 ->
  lists_same h h1 /\
  forall u, is_Some (vectors h !! u) -> vectors h1 !! u = vectors h !! u.
Proof.
  unfold vector_copy. intros H. destruct src as [s|].
  2:{ minv H. by repeat split. }
  apply bind_inv in H as (vec & h0 & E & H). minv E.
  apply bind_inv in H as (dest & h0 & Hc & H).
  apply vector_create_with_capacity_inv in Hc. destruct dest as [d|].
  - destruct Hc as (_ & _ & Hd & q & junk & al & Hq & Hqd & ->).
    apply vector_copy_loop_frame in H as [(? & ? & ? & ?) Hfr]. cbn in *.
    split; [by repeat split|].
    intros u Hu. apply in_use_false in Hd as (Hd & _).
    assert (u <> d) by (intros ->; rewrite Hd in Hu; by destruct Hu).
    rewrite Hfr by assumption. cbn. by rewrite lookup_insert_ne.
  - apply contents_inv in Hc as (? & ? & ? & ? & ? & ?). minv H.
    split; [by repeat split|]. intros u _. congruence.
Qed.

(* ===================================================================== *)
(** * vector.c : the capacity over sequences of calls *)
(* ===================================================================== *)

Lemma capacity_le_refl h v : capacity_le h h v.
Proof. intros vec Hv. exists vec. split; [exact Hv | lia]. Qed.

Lemma capacity_le_trans h h0 h1 v :
  capacity_le h h0 v -> capacity_le h0 h1 v -> capacity_le h h1 v.
Proof.
  intros H1 H2 vec Hv. destruct (H1 _ Hv) as (vec0 & Hv0 & ?).
  destruct (H2 _ Hv0) as (vec1 & Hv1 & ?). exists vec1. split; [exact Hv1 | lia].
Qed.

Lemma capacity_le_same h h1 v :
  vectors h1 !! v = vectors h !! v -> capacity_le h h1 v.
Proof. intros E vec Hv. exists vec. rewrite E. split; [exact Hv | lia]. Qed.

Lemma capacity_le_touches h h1 w v :
  touches_only h h1 w -> w <> v -> capacity_le h h1 v.
Proof. intros (H & _) Hne. apply capacity_le_same, H. congruence. Qed.

Lemma capacity_le_effect h h1 w v : vec_effect h h1 w -> capacity_le h h1 v.
Proof.
  intros H. destruct (decide (w = v)) as [->|Hne].
  - destruct H as (_ & _ & _ & _ & _ & H). intros vec Hv.
    destruct (H _ Hv) as (vec1 & ? & ? & _). eauto.
  - destruct H as (H & _). by eapply capacity_le_touches.
Qed.

Lemma capacity_le_contents h h1 v : contents h1 = contents h -> capacity_le h h1 v.
Proof.
  intros H. apply contents_inv in H as (? & _). apply capacity_le_same. congruence.
Qed.

Lemma capacity_le_insert_fresh h h1 p x v :
  vectors h !! p = None -> vectors h1 = <[p := x]> (vectors h) -> capacity_le h h1 v.
Proof.
  intros Hp E vec Hv. exists vec. split; [|lia].
  rewrite E, lookup_insert_ne; [exact Hv | congruence].
Qed.

Lemma vector_create_with_capacity_capacity es cap h r h1 v :
  vector_create_with_capacity es cap h = Ok r h1 -> capacity_le h h1 v.
Proof.
  intros H. apply vector_create_with_capacity_inv in H. destruct r as [p|].
  - destruct H as (_ & _ & Hp & q & junk & al & _ & _ & ->).
    apply in_use_false in Hp as (Hp & _).
    eapply capacity_le_insert_fresh; [exact Hp | reflexivity].
  - by apply capacity_le_contents.
Qed.

Lemma run_vector_call_capacity c v h r h1 :
  keeps_capacity v c -> run_vector_call c h = Ok r h1 -> capacity_le h h1 v.
Proof.
  intros Hk H. destruct c; cbn in Hk, H;
    apply bind_inv in H as (x & h0 & H & Hr); minv Hr.
  - (* create *)
    unfold vector_create in H.
    destruct (element_size =? 0); [cbn in H; minv H; apply capacity_le_refl|].
    by eapply vector_create_with_capacity_capacity.
  - by eapply vector_create_with_capacity_capacity.
  - (* destroy *)
    destruct vector as [w|]; [|cbn in H; minv H; apply capacity_le_refl].
    apply vector_destroy_effect in H as (Ht & _).
    eapply capacity_le_touches; [exact Ht | congruence].
  - (* copy *)
    apply vector_copy_frame in H as [_ H]. intros vec Hv. exists vec.
    rewrite H by eauto. split; [exact Hv | lia].
  - (* push_back *)
    destruct vector as [w|], element as [e|]; try (cbn in H; minv H; apply capacity_le_refl).
    apply vector_push_back_effect in H as [_ H]. by eapply capacity_le_effect.
  - (* pop_back *)
    destruct vector as [w|]; [|cbn in H; minv H; apply capacity_le_refl].
    destruct x as [s o]. apply vector_pop_back_effect in H as [_ H].
    by eapply capacity_le_effect.
  - (* insert *)
    destruct vector as [w|], element as [e|]; try (cbn in H; minv H; apply capacity_le_refl).
    apply vector_insert_effect in H. by eapply capacity_le_effect.
  - (* remove *)
    destruct vector as [w|]; [|cbn in H; minv H; apply capacity_le_refl].
    apply vector_remove_effect in H as [_ H]. by eapply capacity_le_effect.
  - (* clear *)
    destruct vector as [w|]; [|cbn in H; minv H; apply capacity_le_refl].
    apply vector_clear_effect in H. by eapply capacity_le_effect.
  - apply vector_get_pure in H as ->. apply capacity_le_refl.
  - (* set *)
    destruct vector as [w|], element as [e|]; try (cbn in H; minv H; apply capacity_le_refl).
    apply vector_set_effect in H as [_ H]. by eapply capacity_le_effect.
  - apply vector_at_const_pure in H as ->. apply capacity_le_refl.
  - apply vector_at_mutable_pure in H as ->. apply capacity_le_refl.
  - apply vector_front_pure in H as ->. apply capacity_le_refl.
  - apply vector_back_pure in H as ->. apply capacity_le_refl.
  - apply vector_size_pure in H as ->. apply capacity_le_refl.
  - apply vector_capacity_pure in H as ->. apply capacity_le_refl.
  - apply vector_empty_pure in H as ->. apply capacity_le_refl.
  - (* reserve *)
    destruct vector as [w|]; [|cbn in H; minv H; apply capacity_le_refl].
    apply vector_reserve_effect in H as [_ H]. by eapply capacity_le_effect.
  - destruct Hk.
  - apply vector_find_pure in H as ->. apply capacity_le_refl.
  - apply vector_contains_pure in H as ->. apply capacity_le_refl.
  - (* swap *)
    destruct a as [a|], b as [b|]; try (cbn in H; minv H; apply capacity_le_refl).
    destruct Hk as [Ha Hb]. apply vector_swap_frame in H as (_ & _ & H).
    apply capacity_le_same, H; congruence.
  - (* for_each *)
    destruct vector as [w|]; [|cbn in H; minv H; apply capacity_le_refl].
    apply vector_for_each_effect in H. by eapply capacity_le_effect.
Qed.

Lemma run_vector_calls_capacity cs v h u h1 :
  Forall (keeps_capacity v) cs -> run_vector_calls cs h = Ok u h1 ->
  capacity_le h h1 v.
Proof.
  intros Hk. revert h. induction Hk as [|c cs Hc _ IH]; intros h H; cbn in H.
  - minv H. apply capacity_le_refl.
  - apply bind_inv in H as (r & h0 & Hr & H).
    eapply capacity_le_trans; [by eapply run_vector_call_capacity | by apply IH].
Qed.

(** Over every sequence of vector calls with no
    [vector_shrink_to_fit], and none that swaps or destroys the vector at
    [v], the capacity of that vector does not decrease: it is still there
    afterwards, with a capacity at least the one it had. *)
Theorem vector_capacity_monotone cs v vec h u h1 :
  Forall (keeps_capacity v) cs ->
  vectors h !! v = Some vec ->
  run_vector_calls cs h = Ok u h1 ->
  exists vec1, vectors h1 !! v = Some vec1 /\ v_capacity vec <= v_capacity vec1.
Proof.
  intros Hk Hv H. by apply (run_vector_calls_capacity cs v h u h1 Hk H).
Qed.

Lemma vector_capacity_monotone_witness :
  exists h1 vec1,
    run_vector_calls demo_calls demo_two_heap = Ok tt h1 /\
    vectors h1 !! 100 = Some vec1 /\ 4 <= v_capacity vec1.
Proof.
  destruct (run_vector_calls demo_calls demo_two_heap) as [[] h1| |] eqn:E;
    try (vm_compute in E; discriminate E).
  destruct (vector_capacity_monotone demo_calls 100 demo_vec demo_two_heap tt h1)
    as (vec1 & Hv1 & Hc); [ | reflexivity | exact E | ].
  - unfold demo_calls. repeat constructor.
  - exists h1, vec1. split; [reflexivity|]. split; [exact Hv1 | exact Hc].
Defined.

(** Leaving out [vector_shrink_to_fit] is not enough: a sequence with no
    [shrink_to_fit] can lower a vector's capacity.  [vector_swap]
    exchanges all four fields, so swapping the vector at 100 (capacity 4)
    with the one at 110 (capacity 2) leaves it with capacity 2. *)
Lemma vector_swap_lowers_capacity :
  exists h1 vec1,
    run_vector_calls [VSwap (Some 100) (Some 110)] demo_two_heap = Ok tt h1 /\
    Forall (fun c => forall p, c <> VShrinkToFit p) [VSwap (Some 100) (Some 110)] /\
    vectors demo_two_heap !! 100 = Some demo_vec /\
    vectors h1 !! 100 = Some vec1 /\
    v_capacity vec1 < v_capacity demo_vec.
Proof.
  eexists _, _. split; [vm_compute; reflexivity|].
  split; [repeat constructor; discriminate|].
  split; [reflexivity|]. split; [vm_compute; reflexivity|]. cbn. lia.
Qed.

(* ===================================================================== *)
(** * Chains *)
(* ===================================================================== *)

Section Links.
Context {N : Type} (nxt : N -> ptr).
Implicit Types (m : gmap addr N) (ls : list addr) (p : ptr).

Lemma lseg_links m p ls :
  lseg nxt m p None ls <-> p = head ls /\ links nxt m ls.
Proof.
  revert p. induction ls as [|a ls IH]; intros p; cbn.
  - split; [intros ->; split; [reflexivity | intros i a Hi; discriminate Hi]|].
    by intros [-> _].
  - split.
    + intros (-> & nd & Hnd & Hl). apply IH in Hl as [Hh Hl].
      split; [reflexivity|]. intros [|i] b Hi; cbn in Hi.
      * injection Hi as <-. exists nd. split; [exact Hnd|].
        rewrite Hh. by rewrite head_lookup.
      * apply Hl in Hi. exact Hi.
    + intros [-> Hl]. split; [reflexivity|].
      destruct (Hl 0%nat a eq_refl) as (nd & Hnd & Hn). exists nd.
      split; [exact Hnd|]. apply IH. split.
      * rewrite Hn. by rewrite head_lookup.
      * intros i b Hi. exact (Hl (S i) b Hi).
Qed.

Lemma links_shift m ls i j a k :
  links nxt m ls -> ls !! i = Some a -> ls !! j = Some a ->
  ls !! (i + k)%nat = ls !! (j + k)%nat.
Proof.
  intros Hl Hi Hj. induction k as [|k IH].
  - rewrite !Nat.add_0_r. congruence.
  - destruct (ls !! (i + k)%nat) as [b|] eqn:Eb.
    + destruct (Hl _ _ Eb) as (nd & Hnd & Hn).
      symmetry in IH. destruct (Hl _ _ IH) as (nd' & Hnd' & Hn').
      rewrite !Nat.add_succ_r. rewrite <- Hn, <- Hn'. congruence.
    + symmetry in IH. apply lookup_ge_None in Eb, IH.
      rewrite !(proj2 (lookup_ge_None _ _)); [reflexivity | lia | lia].
Qed.

Lemma links_NoDup m ls : links nxt m ls -> NoDup ls.
Proof.
  intros Hl. apply NoDup_alt. intros i j a Hi Hj.
  destruct (Nat.lt_trichotomy i j) as [Hlt|[->|Hlt]]; [exfalso| reflexivity |exfalso].
  - pose proof (lookup_lt_Some _ _ _ Hj) as Hjl.
    pose proof (links_shift m ls i j a (length ls - j) Hl Hi Hj) as E.
    rewrite (proj2 (lookup_ge_None ls (j + (length ls - j)))) in E by lia.
    apply lookup_ge_None in E. lia.
  - pose proof (lookup_lt_Some _ _ _ Hi) as Hil.
    pose proof (links_shift m ls j i a (length ls - i) Hl Hj Hi) as E.
    rewrite (proj2 (lookup_ge_None ls (i + (length ls - i)))) in E by lia.
    apply lookup_ge_None in E. lia.
Qed.

Lemma links_nodes_from m ls n :
  links nxt m ls -> (length ls <= n)%nat -> nodes_from nxt m n (head ls) = ls.
Proof.
  revert n. induction ls as [|a ls IH]; intros n Hl Hn.
  - by destruct n.
  - destruct n as [|n]; [cbn in Hn; lia|]. cbn.
    destruct (Hl 0%nat a eq_refl) as (nd & -> & Hnx). f_equal.
    rewrite Hnx. change ((a :: ls) !! 1%nat) with (ls !! 0%nat).
    rewrite <- head_lookup. apply IH.
    + intros i b Hi. exact (Hl (S i) b Hi).
    + cbn in Hn. lia.
Qed.

(** A chain depends only on the nodes it visits. *)
Lemma links_ext m m' ls :
  (forall a, a ∈ ls -> m' !! a = m !! a) -> links nxt m ls -> links nxt m' ls.
Proof.
  intros E Hl i a Hi. rewrite E by (eapply list_elem_of_lookup_2; exact Hi).
  exact (Hl i a Hi).
Qed.

Lemma links_in_dom m ls a : links nxt m ls -> a ∈ ls -> is_Some (m !! a).
Proof.
  intros Hl Ha. apply list_elem_of_lookup in Ha as [i Hi].
  destruct (Hl i a Hi) as (nd & -> & _). eauto.
Qed.

End Links.

(** No more distinct valid addresses than [SIZE_MAX]. *)
Lemma NoDup_bounded (k : nat) (lo : Z) (l : list Z) :
  NoDup l -> (forall a, a ∈ l -> lo <= a < lo + Z.of_nat k) -> (length l <= k)%nat.
Proof.
  revert l. induction k as [|k IH]; intros l Hnd Hb.
  - destruct l as [|a l]; [cbn; lia|]. specialize (Hb a ltac:(left)). lia.
  - destruct (decide (lo + Z.of_nat k ∈ l)) as [Hin|Hnin].
    + apply list_elem_of_split in Hin as (l1 & l2 & ->).
      apply NoDup_app in Hnd as (Hn1 & Hn12 & Hn2).
      apply NoDup_cons in Hn2 as [Hn2a Hn2].
      assert (length (l1 ++ l2) <= k)%nat.
      { apply IH.
        - apply NoDup_app. split_and!; [exact Hn1 | | exact Hn2].
          intros x Hx1 Hx2. apply (Hn12 x Hx1). by right.
        - intros a Ha. assert (a <> lo + Z.of_nat k).
          { intros ->. apply elem_of_app in Ha as [Ha|Ha].
            - apply (Hn12 _ Ha). by left.
            - by apply Hn2a. }
          enough (lo <= a < lo + Z.of_nat (S k)) by lia.
          apply Hb. apply elem_of_app in Ha as [Ha|Ha]; apply elem_of_app;
            [by left | right; by right]. }
      rewrite length_app in *. cbn. lia.
    + enough (length l <= k)%nat by lia. apply IH; [exact Hnd|].
      intros a Ha. assert (a <> lo + Z.of_nat k) by (intros ->; by apply Hnin).
      specialize (Hb a Ha). lia.
Qed.

Lemma valid_nodes_bounded (l : list addr) :
  NoDup l -> (forall a, a ∈ l -> valid_addr a = true) -> Z.of_nat (length l) <= SIZE_MAX.
Proof.
  intros Hnd Hv.
  assert (0 <= SIZE_MAX) by (unfold SIZE_MAX, SIZE_BITS; lia).
  enough (length l <= Z.to_nat SIZE_MAX)%nat by lia.
  apply (NoDup_bounded _ 1); [exact Hnd|].
  intros a Ha. apply Hv in Ha. unfold valid_addr in Ha.
  apply andb_true_iff in Ha as [H1 H2]. lia.
Qed.

(* ===================================================================== *)
(** * The invariants, node by node *)
(* ===================================================================== *)

Lemma head_None_length {A} (l : list A) : head l = None <-> Z.of_nat (length l) = 0.
Proof. destruct l; cbn; split; intros; try discriminate; try reflexivity; lia. Qed.

Lemma last_None_length {A} (l : list A) : Z.of_nat (length l) = 0 <-> last l = None.
Proof.
  rewrite last_None. destruct l; cbn; split; intros; try discriminate;
    try reflexivity; lia.
Qed.

Lemma last_links_null {N} (nxt : N -> ptr) m ls t :
  links nxt m ls -> last ls = Some t -> exists nd, m !! t = Some nd /\ nxt nd = None.
Proof.
  intros Hl Ht. rewrite last_lookup in Ht. destruct (Hl _ _ Ht) as (nd & Hnd & Hn).
  exists nd. split; [exact Hnd|]. rewrite Hn. apply lookup_ge_None. lia.
Qed.

Lemma sl_inv_repr h lp : sl_inv h lp <-> exists ls, sl_repr h lp ls.
Proof.
  split.
  - intros (l & ls & Hl & Hseg & Hlen & Ht & _). exists ls, l.
    apply lseg_links in Hseg as [Hh Hlk]. split_and!; auto.
  - intros (ls & l & Hl & Hh & Ht & Hsz & Hlk). exists l, ls. split_and!; auto.
    + apply lseg_links. auto.
    + rewrite Hh, Hsz. apply head_None_length.
    + rewrite Ht, Hsz. apply last_None_length.
    + intros t E. rewrite Ht in E. by eapply last_links_null.
Qed.

Lemma sl_repr_nodes h lp ls : sl_repr h lp ls -> singly_list_nodes h lp = ls.
Proof.
  intros (l & Hl & Hh & _ & Hsz & Hlk). unfold singly_list_nodes.
  rewrite Hl, Hh. apply links_nodes_from; [exact Hlk | lia].
Qed.

Lemma sl_inv_nodes h lp : sl_inv h lp -> sl_repr h lp (singly_list_nodes h lp).
Proof.
  intros H. apply sl_inv_repr in H as [ls H].
  by rewrite (sl_repr_nodes _ _ _ H).
Qed.

Lemma back_links_of_next m ls :
  links dn_next m ls ->
  (forall n k nd, n ∈ ls -> m !! n = Some nd -> dn_next nd = Some k ->
                  exists kd, m !! k = Some kd /\ dn_prev kd = Some n) ->
  (forall hd, head ls = Some hd -> exists nd, m !! hd = Some nd /\ dn_prev nd = None) ->
  back_links m ls.
Proof.
  intros Hl Hb Hh [|i] a Hi; cbn.
  - apply Hh. by rewrite head_lookup.
  - destruct (ls !! i) as [b|] eqn:Eb.
    2:{ apply lookup_ge_None in Eb. apply lookup_lt_Some in Hi. lia. }
    destruct (Hl _ _ Eb) as (nd & Hnd & Hn). rewrite Hi in Hn.
    apply (Hb b a nd); [by eapply list_elem_of_lookup_2 | exact Hnd | exact Hn].
Qed.

Lemma dl_inv_repr h lp : dl_inv h lp <-> exists ls, dl_repr h lp ls.
Proof.
  split.
  - intros (l & ls & Hl & Hseg & Hlen & Ht & _ & _ & _ & Hb & Hhp). exists ls, l.
    apply lseg_links in Hseg as [Hh Hlk]. split_and!; auto.
    apply back_links_of_next; [exact Hlk | exact Hb | by rewrite <- Hh].
  - intros (ls & l & Hl & Hh & Ht & Hsz & Hlk & Hbk). exists l, ls.
    split_and!; auto.
    + apply lseg_links. auto.
    + rewrite Hh, Hsz. apply head_None_length.
    + rewrite Ht, Hsz. apply last_None_length.
    + intros t E. rewrite Ht in E. by eapply last_links_null.
    + intros n k nd Hn Hnd Hnx. apply list_elem_of_lookup in Hn as [i Hi].
      destruct (Hlk _ _ Hi) as (nd' & Hnd' & Hn'). assert (nd' = nd) by congruence.
      subst nd'. rewrite Hnx in Hn'. symmetry in Hn'.
      destruct (Hbk _ _ Hn') as (kd & Hkd & Hp). exists kd. split; [exact Hkd|].
      rewrite Hp. exact Hi.
    + intros hd E. rewrite Hh, head_lookup in E.
      destruct (Hbk _ _ E) as (nd & Hnd & Hp). eauto.
Qed.

Lemma dl_repr_nodes h lp ls : dl_repr h lp ls -> doubly_list_nodes h lp = ls.
Proof.
  intros (l & Hl & Hh & _ & Hsz & Hlk & _). unfold doubly_list_nodes.
  rewrite Hl, Hh. apply links_nodes_from; [exact Hlk | lia].
Qed.

Lemma dl_inv_nodes h lp : dl_inv h lp -> dl_repr h lp (doubly_list_nodes h lp).
Proof.
  intros H. apply dl_inv_repr in H as [ls H].
  by rewrite (dl_repr_nodes _ _ _ H).
Qed.

(* ===================================================================== *)
(** * Walking a list *)
(* ===================================================================== *)

Lemma sl_forward_links h ls n i :
  links sn_next (snodes h) ls ->
  sl_forward n (ls !! i) h = Ok (ls !! (i + n)%nat) h.
Proof.
  intros Hl. revert i. induction n as [|n IH]; intros i.
  - rewrite Nat.add_0_r. by destruct (ls !! i).
  - destruct (ls !! i) as [a|] eqn:Ea; cbn.
    + destruct (Hl _ _ Ea) as (nd & Hnd & Hn).
      rewrite (bind_Ok _ _ _ _ _ (load_Some SNodes a h nd Hnd)).
      rewrite Hn, IH. do 2 f_equal. lia.
    + apply lookup_ge_None in Ea. unfold ret. f_equal. symmetry.
      apply lookup_ge_None. lia.
Qed.

Lemma dl_forward_links h ls n i :
  links dn_next (dnodes h) ls ->
  dl_forward n (ls !! i) h = Ok (ls !! (i + n)%nat) h.
Proof.
  intros Hl. revert i. induction n as [|n IH]; intros i.
  - rewrite Nat.add_0_r. by destruct (ls !! i).
  - destruct (ls !! i) as [a|] eqn:Ea; cbn.
    + destruct (Hl _ _ Ea) as (nd & Hnd & Hn).
      rewrite (bind_Ok _ _ _ _ _ (load_Some DNodes a h nd Hnd)).
      rewrite Hn, IH. do 2 f_equal. lia.
    + apply lookup_ge_None in Ea. unfold ret. f_equal. symmetry.
      apply lookup_ge_None. lia.
Qed.

Lemma dl_backward_links h ls n i :
  back_links (dnodes h) ls -> (n <= i)%nat -> (i < length ls)%nat ->
  dl_backward n (ls !! i) h = Ok (ls !! (i - n)%nat) h.
Proof.
  intros Hl. revert i. induction n as [|n IH]; intros i Hn Hi.
  - rewrite Nat.sub_0_r. by destruct (ls !! i).
  - destruct (lookup_lt_is_Some_2 ls i Hi) as [a Ea]. rewrite Ea. cbn.
    destruct (Hl _ _ Ea) as (nd & Hnd & Hp).
    rewrite (bind_Ok _ _ _ _ _ (load_Some DNodes a h nd Hnd)).
    destruct i as [|i]; [lia|]. cbn in Hp. rewrite Hp, IH by lia.
    do 2 f_equal.
Qed.

(** [get_node_at] and [get_doubly_node_at] find the node at [index],
    whichever way the doubly linked list is walked. *)
Lemma get_node_at_repr h lp ls index :
  sl_repr h lp ls -> 0 <= index ->
  get_node_at (Some lp) index h = Ok (ls !! Z.to_nat index) h.
Proof.
  intros (l & Hl & Hh & _ & Hsz & Hlk) Hi. unfold get_node_at.
  rewrite (bind_Ok _ _ _ _ _ (load_Some SLists lp h l Hl)).
  destruct (Z.leb_spec (sl_size l) index).
  - unfold ret. f_equal. symmetry. apply lookup_ge_None. lia.
  - rewrite Hh, head_lookup. by rewrite sl_forward_links.
Qed.

Lemma get_doubly_node_at_repr h lp ls index :
  dl_repr h lp ls -> 0 <= index -> Z.of_nat (length ls) <= SIZE_MAX ->
  get_doubly_node_at (Some lp) index h = Ok (ls !! Z.to_nat index) h.
Proof.
  intros (l & Hl & Hh & Ht & Hsz & Hlk & Hbk) Hi Hmax. unfold get_doubly_node_at.
  rewrite (bind_Ok _ _ _ _ _ (load_Some DLists lp h l Hl)).
  destruct (Z.leb_spec (dl_size l) index).
  - unfold ret. f_equal. symmetry. apply lookup_ge_None. lia.
  - destruct (index <? dl_size l / 2).
    + rewrite Hh, head_lookup. by rewrite dl_forward_links.
    + rewrite Ht, last_lookup.
      rewrite (to_size_t_small (dl_size l - 1)) by lia.
      rewrite dl_backward_links by (try exact Hbk; lia).
      do 2 f_equal. lia.
Qed.

(* ===================================================================== *)
(** * The concrete lists are well formed *)
(* ===================================================================== *)

Ltac solve_links :=
  let i := fresh "i" in let a := fresh "a" in let Hi := fresh "Hi" in
  intros i a Hi;
  repeat (destruct i as [|i]; [injection Hi as <-; eexists; split; reflexivity|]);
  discriminate Hi.

Lemma demo_slist_repr : sl_repr demo_lists_heap 400 [410; 420; 430].
Proof.
  eexists. split; [reflexivity|]. split_and!; try reflexivity. solve_links.
Defined.

Lemma demo_dlist_repr : dl_repr demo_lists_heap 500 [510; 520; 530].
Proof.
  eexists. split; [reflexivity|]. split_and!; try reflexivity; solve_links.
Defined.

Lemma demo_empty_dlist_repr : dl_repr demo_lists_heap 600 [].
Proof.
  eexists. split; [reflexivity|]. split_and!; try reflexivity; solve_links.
Defined.

Lemma demo_slist_inv : sl_inv demo_lists_heap 400.
Proof. apply sl_inv_repr. eexists. exact demo_slist_repr. Defined.

Lemma demo_dlist_inv : dl_inv demo_lists_heap 500.
Proof. apply dl_inv_repr. eexists. exact demo_dlist_repr. Defined.

Lemma demo_empty_dlist_inv : dl_inv demo_lists_heap 600.
Proof. apply dl_inv_repr. eexists. exact demo_empty_dlist_repr. Defined.

(* ===================================================================== *)
(** * get: the two lists agree *)
(* ===================================================================== *)

Lemma singly_list_get_repr h lp l ls index out a nd :
  sl_repr h lp ls -> slists h !! lp = Some l -> 0 <= index ->
  ls !! Z.to_nat index = Some a -> snodes h !! a = Some nd ->
  singly_list_get (Some lp) index (Some out) h
  = match mem_copy out (sn_data nd) (sl_element_size l) with
    | Some out' => Ok (SUCCESS, Some out') h
    | None => Fault
    end.
Proof.
  intros Hr Hl Hi Ha Hnd. unfold singly_list_get.
  rewrite (bind_Ok _ _ _ _ _ (get_node_at_repr h lp ls index Hr Hi)). rewrite Ha.
  fwd. unfold copy_out. by destruct (mem_copy _ _ _).
Qed.

Lemma doubly_list_get_repr h lp l ls index out a nd :
  dl_repr h lp ls -> dlists h !! lp = Some l -> 0 <= index ->
  Z.of_nat (length ls) <= SIZE_MAX ->
  ls !! Z.to_nat index = Some a -> dnodes h !! a = Some nd ->
  doubly_list_get (Some lp) index (Some out) h
  = match mem_copy out (dn_data nd) (dl_element_size l) with
    | Some out' => Ok (SUCCESS, Some out') h
    | None => Fault
    end.
Proof.
  intros Hr Hl Hi Hmax Ha Hnd. unfold doubly_list_get.
  rewrite (bind_Ok _ _ _ _ _ (get_doubly_node_at_repr h lp ls index Hr Hi Hmax)).
  rewrite Ha. fwd. unfold copy_out. by destruct (mem_copy _ _ _).
Qed.

(** For two lists that hold the same element sequence, with the
    same element size, and every index [i < size]: [doubly_list_get] and
    [singly_list_get] come out the same (the same status and the same
    bytes in the caller's buffer), and that outcome is SUCCESS with the
    element at [i] copied out, whenever the copy is within bounds.  The
    nearest-end walk of [get_doubly_node_at] reaches the node the
    forward walk of [get_node_at] reaches. *)
Theorem list_get_equivalent h sp dp sl dl index output :
  sl_inv h sp -> dl_inv h dp ->
  slists h !! sp = Some sl -> dlists h !! dp = Some dl ->
  sl_element_size sl = dl_element_size dl ->
  dl_size dl <= SIZE_MAX ->
  singly_list_elements h sp = doubly_list_elements h dp ->
  0 <= index < sl_size sl ->
  doubly_list_get (Some dp) index output h = singly_list_get (Some sp) index output h /\
  forall out e out',
    output = Some out ->
    singly_list_elements h sp !! Z.to_nat index = Some e ->
    mem_copy out e (sl_element_size sl) = Some out' ->
    singly_list_get (Some sp) index output h = Ok (SUCCESS, Some out') h /\
    doubly_list_get (Some dp) index output h = Ok (SUCCESS, Some out') h.
Proof.
  intros Hs Hd Hsl Hdl Hes Hmax Hel Hi.
  apply sl_inv_nodes in Hs. apply dl_inv_nodes in Hd.
  unfold singly_list_elements, doubly_list_elements in *.
  set (ss := singly_list_nodes h sp) in *. set (ds := doubly_list_nodes h dp) in *.
  pose proof Hs as (sl' & Hsl' & _ & _ & Hssz & Hslk).
  pose proof Hd as (dl' & Hdl' & _ & _ & Hdsz & Hdlk & _).
  assert (sl' = sl) by congruence. assert (dl' = dl) by congruence. subst sl' dl'.
  assert (length ds = length ss) as Hlen.
  { apply (f_equal length) in Hel. by rewrite !length_fmap in Hel. }
  destruct (lookup_lt_is_Some_2 ss (Z.to_nat index)) as [a Ha]; [lia|].
  destruct (lookup_lt_is_Some_2 ds (Z.to_nat index)) as [b Hb]; [lia|].
  destruct (Hslk _ _ Ha) as (na & Hna & _). destruct (Hdlk _ _ Hb) as (nb & Hnb & _).
  assert (dn_data nb = sn_data na) as Hdata.
  { apply (f_equal (fun l => l !! Z.to_nat index)) in Hel.
    rewrite !list_lookup_fmap, Ha, Hb in Hel. cbn in Hel.
    unfold sn_data_at, dn_data_at in Hel. rewrite Hna, Hnb in Hel. congruence. }
  destruct output as [out|]; [|split; [reflexivity | intros; discriminate]].
  rewrite (singly_list_get_repr h sp sl ss index out a na) by (auto; lia).
  rewrite (doubly_list_get_repr h dp dl ds index out b nb) by (auto; lia).
  rewrite Hdata, Hes. split; [reflexivity|].
  intros out0 e out' [= <-] He Hc.
  rewrite list_lookup_fmap, Ha in He. cbn in He. unfold sn_data_at in He.
  rewrite Hna in He. injection He as <-. rewrite Hc. by split.
Qed.

Lemma list_get_equivalent_witness :
  doubly_list_get (Some 500) 2 (Some (elem4 Byte.x00)) demo_lists_heap
  = singly_list_get (Some 400) 2 (Some (elem4 Byte.x00)) demo_lists_heap /\
  singly_list_get (Some 400) 2 (Some (elem4 Byte.x00)) demo_lists_heap
  = Ok (SUCCESS, Some (elem4 Byte.x03)) demo_lists_heap.
Proof.
  destruct (list_get_equivalent demo_lists_heap 400 500
              (mk_slist (Some 410) (Some 430) 3 4) (mk_dlist (Some 510) (Some 530) 3 4)
              2 (Some (elem4 Byte.x00)) demo_slist_inv demo_dlist_inv eq_refl eq_refl
              eq_refl) as [H1 H2].
  - vm_compute. discriminate.
  - reflexivity.
  - cbn. lia.
  - split; [exact H1|].
    destruct (H2 (elem4 Byte.x00) (elem4 Byte.x03) (elem4 Byte.x03) eq_refl eq_refl eq_refl)
      as [H _]. exact H.
Defined.

(* ===================================================================== *)
(** * The reverse iterator of an empty list *)
(* ===================================================================== *)

(** A reverse iterator created on an empty doubly linked list has
    [position = size - 1] computed on [size_t], which wraps to
    [SIZE_MAX = 2^64 - 1], and a null [current]; [has_next] and
    [has_prev] are false all the same, and neither [iter_next] nor
    [iter_prev] yields an element. *)
Theorem reverse_iterator_on_empty_list h lp l :
  dl_inv h lp -> dlists h !! lp = Some l -> dl_size l = 0 ->
  exists it,
    doubly_list_iter_create_reverse (Some lp) h = Ok it h /\
    dli_position it = SIZE_MAX /\ dli_position it = 2 ^ SIZE_BITS - 1 /\
    dli_current it = NULL /\ dli_list it = Some lp /\
    doubly_list_iter_has_next (Some it) = false /\
    doubly_list_iter_has_prev (Some it) = false /\
    (forall output,
        doubly_list_iter_next (Some it) output h
        = Ok (ERROR_INVALID_INPUT, Some it, output) h) /\
    (forall output,
        doubly_list_iter_prev (Some it) output h
        = Ok (ERROR_INVALID_INPUT, Some it, output) h).
Proof.
  intros Hinv Hl Hsz.
  destruct Hinv as (l' & ls & Hl' & _ & _ & _ & _ & Hst & _).
  assert (l' = l) by congruence. subst l'.
  assert (dl_tail l = None) as Ht by (by apply Hst).
  exists (mk_dliter (Some lp) None SIZE_MAX). split_and!; try reflexivity.
  unfold doubly_list_iter_create_reverse. fwd. rewrite Ht, Hsz. reflexivity.
Qed.

Lemma reverse_iterator_on_empty_list_witness :
  exists it,
    doubly_list_iter_create_reverse (Some 600) demo_lists_heap = Ok it demo_lists_heap /\
    dli_position it = 18446744073709551615 /\
    doubly_list_iter_has_prev (Some it) = false.
Proof.
  destruct (reverse_iterator_on_empty_list demo_lists_heap 600 (mk_dlist None None 0 4)
              demo_empty_dlist_inv eq_refl eq_refl)
    as (it & Hc & Hp & _ & _ & _ & _ & Hhp & _).
  exists it. split; [exact Hc|]. split; [|exact Hhp]. rewrite Hp. reflexivity.
Defined.

(* ===================================================================== *)
(** * Splicing a node in and out of a chain *)
(* ===================================================================== *)

Section InsertAt.
Context {A : Type}.
Implicit Types (ls : list A) (x : A) (k i : nat).

Lemma insert_at_lookup_lt k x ls i :
  (i < k)%nat -> (k <= length ls)%nat -> insert_at k x ls !! i = ls !! i.
Proof.
  intros Hi Hk. unfold insert_at.
  rewrite lookup_app_l by (rewrite length_take; lia). by apply lookup_take_lt.
Qed.

Lemma insert_at_lookup_eq k x ls :
  (k <= length ls)%nat -> insert_at k x ls !! k = Some x.
Proof.
  intros Hk. unfold insert_at.
  rewrite lookup_app_r by (rewrite length_take; lia).
  rewrite length_take. by replace (k - k `min` length ls)%nat with 0%nat by lia.
Qed.

Lemma insert_at_lookup_gt k x ls i :
  (k <= i)%nat -> (k <= length ls)%nat -> insert_at k x ls !! S i = ls !! i.
Proof.
  intros Hi Hk. unfold insert_at.
  rewrite lookup_app_r by (rewrite length_take; lia).
  rewrite length_take.
  replace (S i - k `min` length ls)%nat with (S (i - k)) by lia.
  rewrite lookup_cons. cbv iota. rewrite lookup_drop. f_equal. lia.
Qed.

Lemma insert_at_length k x ls : length (insert_at k x ls) = S (length ls).
Proof.
  unfold insert_at. rewrite length_app. cbn. rewrite length_take, length_drop. lia.
Qed.

Lemma insert_at_0 x ls : insert_at 0 x ls = x :: ls.
Proof. unfold insert_at. by rewrite take_0, drop_0. Qed.

Lemma insert_at_end x ls : insert_at (length ls) x ls = ls ++ [x].
Proof. unfold insert_at. by rewrite firstn_all, drop_all. Qed.

Lemma insert_at_head k x ls :
  (k <= length ls)%nat ->
  head (insert_at k x ls) = match k with O => Some x | S _ => head ls end.
Proof.
  intros Hk. rewrite !head_lookup. destruct k as [|k].
  - by rewrite insert_at_lookup_eq by lia.
  - by rewrite insert_at_lookup_lt by lia.
Qed.

Lemma insert_at_last k x ls :
  (k <= length ls)%nat ->
  last (insert_at k x ls) = if decide (k = length ls) then Some x else last ls.
Proof.
  intros Hk. rewrite !last_lookup, insert_at_length. cbn.
  destruct (decide (k = length ls)) as [->|Hne].
  - by rewrite insert_at_lookup_eq.
  - destruct (length ls) as [|n] eqn:E; [lia|]. cbn.
    by rewrite insert_at_lookup_gt by lia.
Qed.

Lemma elem_of_insert_at k x ls y :
  (k <= length ls)%nat -> y ∈ insert_at k x ls <-> y = x \/ y ∈ ls.
Proof.
  intros Hk. unfold insert_at. rewrite elem_of_app, elem_of_cons.
  rewrite <- (take_drop k ls) at 3. rewrite elem_of_app. tauto.
Qed.

Lemma delete_head k ls :
  head (delete k ls) = match k with O => ls !! 1%nat | S _ => head ls end.
Proof.
  rewrite !head_lookup. destruct k as [|k].
  - by rewrite list_lookup_delete_ge by lia.
  - by rewrite list_lookup_delete_lt by lia.
Qed.

Lemma delete_last k ls :
  (k < length ls)%nat ->
  last (delete k ls)
  = if decide (S k = length ls)
    then match k with O => None | S j => ls !! j end
    else last ls.
Proof.
  intros Hk. rewrite !last_lookup, length_delete by (apply lookup_lt_is_Some_2; lia).
  destruct (decide (S k = length ls)) as [E|Hne].
  - rewrite <- E. cbn. destruct k as [|k]; cbn.
    + destruct ls as [|a [|b ls]]; cbn in *; try lia. reflexivity.
    + by rewrite list_lookup_delete_lt by lia.
  - destruct (length ls) as [|[|n]] eqn:E; try lia. cbn.
    by rewrite list_lookup_delete_ge by lia.
Qed.

Lemma elem_of_delete k ls y : y ∈ delete k ls -> y ∈ ls.
Proof.
  intros H. apply list_elem_of_lookup in H as [i Hi].
  destruct (decide (i < k)%nat).
  - rewrite list_lookup_delete_lt in Hi by lia. by eapply list_elem_of_lookup_2.
  - rewrite list_lookup_delete_ge in Hi by lia. by eapply list_elem_of_lookup_2.
Qed.

End InsertAt.

Lemma insert_at_fmap {A B} (f : A -> B) k x ls :
  f <$> insert_at k x ls = insert_at k (f x) (f <$> ls).
Proof. unfold insert_at. by rewrite fmap_app, fmap_cons, fmap_take, fmap_drop. Qed.

Lemma NoDup_lookup_ne {A} (ls : list A) i j a b :
  NoDup ls -> ls !! i = Some a -> ls !! j = Some b -> i <> j -> a <> b.
Proof. intros Hnd Hi Hj Hne ->. apply Hne. by eapply NoDup_lookup. Qed.

Section Splice.
Context {N : Type} (nxt : N -> ptr).
Implicit Types (m : gmap addr N) (ls : list addr).

(** After [n] is linked in at position [k]: the node before it now links
    to [n], every other node of the chain links as before. *)
Lemma links_insert m m' ls k n ndn :
  links nxt m ls -> (k <= length ls)%nat ->
  m' !! n = Some ndn -> nxt ndn = ls !! k ->
  (forall i a nd, ls !! i = Some a -> m !! a = Some nd ->
                  exists nd', m' !! a = Some nd' /\
                              nxt nd' = if decide (S i = k) then Some n else nxt nd) ->
  links nxt m' (insert_at k n ls).
Proof.
  intros Hl Hk Hn Hnn Hrest i a Hi.
  destruct (lt_eq_lt_dec i k) as [[Hlt| ->]|Hgt].
  - rewrite insert_at_lookup_lt in Hi by lia.
    destruct (Hl _ _ Hi) as (nd & Hnd & Hnx).
    destruct (Hrest _ _ _ Hi Hnd) as (nd' & Hnd' & Hnx'). exists nd'.
    split; [exact Hnd'|]. rewrite Hnx'. destruct (decide (S i = k)) as [<-|Hne].
    + by rewrite insert_at_lookup_eq.
    + rewrite insert_at_lookup_lt by lia. exact Hnx.
  - rewrite insert_at_lookup_eq in Hi by lia. injection Hi as <-.
    exists ndn. split; [exact Hn|]. rewrite insert_at_lookup_gt by lia. exact Hnn.
  - destruct i as [|i]; [lia|]. rewrite insert_at_lookup_gt in Hi by lia.
    destruct (Hl _ _ Hi) as (nd & Hnd & Hnx).
    destruct (Hrest _ _ _ Hi Hnd) as (nd' & Hnd' & Hnx'). exists nd'.
    split; [exact Hnd'|]. rewrite Hnx'. destruct (decide (S i = k)); [lia|].
    rewrite insert_at_lookup_gt by lia. exact Hnx.
Qed.

(** After the node at position [k] is unlinked: the node before it links
    to the node after it, every other node links as before. *)
Lemma links_delete m m' ls k :
  links nxt m ls -> (k < length ls)%nat ->
  (forall i a nd, ls !! i = Some a -> i <> k -> m !! a = Some nd ->
                  exists nd', m' !! a = Some nd' /\
                              nxt nd' = if decide (S i = k) then ls !! S k else nxt nd) ->
  links nxt m' (delete k ls).
Proof.
  intros Hl Hk Hrest i a Hi.
  destruct (decide (i < k)%nat) as [Hlt|Hge].
  - rewrite list_lookup_delete_lt in Hi by lia.
    destruct (Hl _ _ Hi) as (nd & Hnd & Hnx).
    destruct (Hrest _ _ _ Hi ltac:(lia) Hnd) as (nd' & Hnd' & Hnx'). exists nd'.
    split; [exact Hnd'|]. rewrite Hnx'. destruct (decide (S i = k)) as [<-|Hne].
    + by rewrite list_lookup_delete_ge by lia.
    + rewrite list_lookup_delete_lt by lia. exact Hnx.
  - rewrite list_lookup_delete_ge in Hi by lia.
    destruct (Hl _ _ Hi) as (nd & Hnd & Hnx).
    destruct (Hrest _ _ _ Hi ltac:(lia) Hnd) as (nd' & Hnd' & Hnx'). exists nd'.
    split; [exact Hnd'|]. rewrite Hnx'. destruct (decide (S (S i) = k)); [lia|].
    rewrite list_lookup_delete_ge by lia. exact Hnx.
Qed.

End Splice.

Lemma pred_of_insert_at_gt ls k n i :
  (k < i)%nat -> (k <= length ls)%nat ->
  pred_of (insert_at k n ls) (S i) = pred_of ls i.
Proof.
  intros Hi Hk. destruct i as [|i]; [lia|]. cbn.
  by rewrite insert_at_lookup_gt by lia.
Qed.

Lemma back_links_insert m m' ls k n ndn :
  back_links m ls -> (k <= length ls)%nat ->
  m' !! n = Some ndn -> dn_prev ndn = pred_of ls k ->
  (forall i a nd, ls !! i = Some a -> m !! a = Some nd ->
                  exists nd', m' !! a = Some nd' /\
                              dn_prev nd' = if decide (i = k) then Some n else dn_prev nd) ->
  back_links m' (insert_at k n ls).
Proof.
  intros Hl Hk Hn Hnp Hrest i a Hi.
  destruct (lt_eq_lt_dec i k) as [[Hlt| ->]|Hgt].
  - rewrite insert_at_lookup_lt in Hi by lia.
    destruct (Hl _ _ Hi) as (nd & Hnd & Hp).
    destruct (Hrest _ _ _ Hi Hnd) as (nd' & Hnd' & Hp'). exists nd'.
    split; [exact Hnd'|]. rewrite Hp'. destruct (decide (i = k)); [lia|].
    rewrite Hp. destruct i as [|i]; [reflexivity|]. cbn.
    by rewrite insert_at_lookup_lt by lia.
  - rewrite insert_at_lookup_eq in Hi by lia. injection Hi as <-.
    exists ndn. split; [exact Hn|]. rewrite Hnp. destruct k as [|k]; [reflexivity|].
    cbn. by rewrite insert_at_lookup_lt by lia.
  - destruct i as [|i]; [lia|]. rewrite insert_at_lookup_gt in Hi by lia.
    destruct (Hl _ _ Hi) as (nd & Hnd & Hp).
    destruct (Hrest _ _ _ Hi Hnd) as (nd' & Hnd' & Hp'). exists nd'.
    split; [exact Hnd'|]. rewrite Hp'. cbn [pred_of].
    destruct (decide (i = k)) as [->|Hne].
    + by rewrite insert_at_lookup_eq.
    + rewrite Hp. destruct i as [|i]; [lia|]. cbn.
      by rewrite insert_at_lookup_gt by lia.
Qed.

Lemma back_links_delete m m' ls k :
  back_links m ls -> (k < length ls)%nat ->
  (forall i a nd, ls !! i = Some a -> i <> k -> m !! a = Some nd ->
                  exists nd', m' !! a = Some nd' /\
                              dn_prev nd' = if decide (i = S k) then pred_of ls k
                                            else dn_prev nd) ->
  back_links m' (delete k ls).
Proof.
  intros Hl Hk Hrest i a Hi.
  destruct (decide (i < k)%nat) as [Hlt|Hge].
  - rewrite list_lookup_delete_lt in Hi by lia.
    destruct (Hl _ _ Hi) as (nd & Hnd & Hp).
    destruct (Hrest _ _ _ Hi ltac:(lia) Hnd) as (nd' & Hnd' & Hp'). exists nd'.
    split; [exact Hnd'|]. rewrite Hp'. destruct (decide (i = S k)); [lia|].
    rewrite Hp. destruct i as [|i]; [reflexivity|]. cbn.
    by rewrite list_lookup_delete_lt by lia.
  - rewrite list_lookup_delete_ge in Hi by lia.
    destruct (Hl _ _ Hi) as (nd & Hnd & Hp).
    destruct (Hrest _ _ _ Hi ltac:(lia) Hnd) as (nd' & Hnd' & Hp'). exists nd'.
    split; [exact Hnd'|]. rewrite Hp'. destruct (decide (S i = S k)) as [E|Hne].
    + injection E as ->. destruct k as [|k]; [reflexivity|]. cbn.
      by rewrite list_lookup_delete_lt by lia.
    + rewrite Hp. cbn. destruct i as [|i]; [lia|]. cbn.
      by rewrite list_lookup_delete_ge by lia.
Qed.

(* ===================================================================== *)
(** * Singly linked lists in a well-formed store *)
(* ===================================================================== *)

Lemma links_length_bound {N} (nxt : N -> ptr) (m : gmap addr N) ls :
  links nxt m ls -> valid_region m -> Z.of_nat (length ls) <= SIZE_MAX.
Proof.
  intros Hl Hv. apply valid_nodes_bounded; [by eapply links_NoDup|].
  intros a Ha. apply Hv. by eapply links_in_dom.
Qed.

Lemma singly_list_nodes_dead h lp : slists h !! lp = None -> singly_list_nodes h lp = [].
Proof. unfold singly_list_nodes. by intros ->. Qed.

Lemma slists_ok_repr h lp :
  slists_ok h -> is_Some (slists h !! lp) -> sl_repr h lp (singly_list_nodes h lp).
Proof. intros (_ & H & _) Hl. by apply sl_inv_nodes, H. Qed.

Lemma slists_ok_in_dom h lp a :
  slists_ok h -> a ∈ singly_list_nodes h lp -> is_Some (snodes h !! a).
Proof.
  intros Hok Ha. destruct (slists h !! lp) as [l|] eqn:El.
  - destruct (slists_ok_repr h lp Hok) as (_ & _ & _ & _ & _ & Hlk); [eauto|].
    by eapply links_in_dom.
  - rewrite singly_list_nodes_dead in Ha by exact El. by apply elem_of_nil in Ha.
Qed.

Lemma sl_repr_frame h h1 lp ls :
  sl_repr h lp ls -> slists h1 !! lp = slists h !! lp ->
  (forall a, a ∈ ls -> snodes h1 !! a = snodes h !! a) ->
  sl_repr h1 lp ls.
Proof.
  intros (l & Hl & Hh & Ht & Hsz & Hlk) E Hn. exists l. rewrite E.
  split_and!; auto. by eapply links_ext.
Qed.

Lemma singly_list_elements_frame h h1 lp :
  singly_list_nodes h1 lp = singly_list_nodes h lp ->
  (forall a, a ∈ singly_list_nodes h lp -> snodes h1 !! a = snodes h !! a) ->
  singly_list_elements h1 lp = singly_list_elements h lp.
Proof.
  intros En Hn. unfold singly_list_elements. rewrite En.
  apply list_fmap_ext. intros i a Hi. unfold sn_data_at.
  rewrite Hn; [reflexivity | by eapply list_elem_of_lookup_2].
Qed.

Lemma slists_ok_update h h1 lp :
  slists_ok h ->
  (is_Some (slists h1 !! lp) -> sl_inv h1 lp) ->
  (forall lp', lp' <> lp -> slists h1 !! lp' = slists h !! lp') ->
  (forall a, is_Some (snodes h !! a) -> a ∉ singly_list_nodes h lp ->
             snodes h1 !! a = snodes h !! a) ->
  (forall a, a ∈ singly_list_nodes h1 lp ->
             a ∈ singly_list_nodes h lp \/ snodes h !! a = None) ->
  valid_region (snodes h1) ->
  slists_ok h1 /\ sl_frame h h1 lp.
Proof.
  intros Hok Hinv Hother Hnodes Hnew Hvalid.
  pose proof Hok as (_ & Hall & Hdisj).
  assert (forall lp' a, lp' <> lp -> a ∈ singly_list_nodes h lp' ->
                        snodes h1 !! a = snodes h !! a) as Hkeep.
  { intros lp' a Hne Ha. apply Hnodes; [by eapply slists_ok_in_dom|].
    intros Ha'. exact (Hdisj lp' lp a Hne Ha Ha'). }
  assert (forall lp', lp' <> lp -> is_Some (slists h1 !! lp') ->
                      sl_repr h1 lp' (singly_list_nodes h lp')) as Hrepr.
  { intros lp' Hne Hl. rewrite Hother in Hl by exact Hne.
    eapply sl_repr_frame; [by apply slists_ok_repr | by apply Hother|].
    intros a Ha. by eapply Hkeep. }
  assert (forall lp', lp' <> lp ->
                      singly_list_nodes h1 lp' = singly_list_nodes h lp') as Hsame.
  { intros lp' Hne. destruct (slists h1 !! lp') as [l|] eqn:El.
    - apply sl_repr_nodes, Hrepr; [exact Hne | by rewrite El].
    - rewrite !singly_list_nodes_dead; [reflexivity | | exact El].
      by rewrite <- Hother. }
  split; [split_and!|].
  - exact Hvalid.
  - intros lp' Hl. destruct (decide (lp' = lp)) as [->|Hne]; [by apply Hinv|].
    apply sl_inv_repr. eexists. by apply Hrepr.
  - intros lpa lpb a Hne Ha Hb.
    destruct (decide (lpa = lp)) as [->|Hna]; [|destruct (decide (lpb = lp)) as [->|Hnb]].
    + rewrite Hsame in Hb by congruence. destruct (Hnew a Ha) as [Ha'|Ha'].
      * exact (Hdisj lp lpb a Hne Ha' Hb).
      * apply (slists_ok_in_dom h lpb a Hok) in Hb. rewrite Ha' in Hb. by destruct Hb.
    + rewrite Hsame in Ha by congruence. destruct (Hnew a Hb) as [Hb'|Hb'].
      * exact (Hdisj lpa lp a Hne Ha Hb').
      * apply (slists_ok_in_dom h lpa a Hok) in Ha. rewrite Hb' in Ha. by destruct Ha.
    + rewrite Hsame in Ha, Hb by congruence. exact (Hdisj lpa lpb a Hne Ha Hb).
  - intros lp' Hne. split_and!; [by apply Hother | by apply Hsame|].
    apply singly_list_elements_frame; [by apply Hsame|].
    intros a Ha. by eapply Hkeep.
Qed.

Lemma slists_ok_contents h h1 : contents h1 = contents h -> slists_ok h -> slists_ok h1.
Proof.
  intros E. apply contents_inv in E as (_ & _ & Es & En & _ & _).
  unfold slists_ok, sl_inv, singly_list_nodes. by rewrite Es, En.
Qed.

(* ===================================================================== *)
(** * singly_list.c : nodes *)
(* ===================================================================== *)

Lemma mem_alloc_data_inv size h r h1 :
  mem_alloc_data size h = Ok r h1 ->
  (exists al, h1 = set_allocator al h) /\
  match r with
  | Some blk => size <> 0 /\ length blk = Z.to_nat size
  | None => True
  end.
Proof.
  unfold mem_alloc_data. intros H. destruct (Z.eqb_spec size 0) as [->|Hne].
  - minv H. split; [|exact I]. exists (allocator h1). by rewrite set_allocator_id.
  - apply bind_inv in H as (a & h0 & Hn & H). apply next_answer_inv in Hn as [al ->].
    split; [|destruct a as [[q junk]|]; minv H; [|exact I]].
    + destruct a as [[q junk]|]; minv H; eauto.
    + split; [exact Hne|]. by rewrite length_resize.
Qed.

Lemma mem_copy_block blk data es blk' :
  length blk = Z.to_nat es -> mem_copy blk data es = Some blk' ->
  blk' = take (Z.to_nat es) data /\ (0 < es -> es <= Z.of_nat (length data)).
Proof.
  unfold mem_copy. intros Hlen H. destruct (Z.eqb_spec es 0) as [->|Hne].
  - injection H as <-. destruct blk; [|discriminate]. split; [by rewrite take_0 | lia].
  - destruct (Z.leb_spec es (Z.of_nat (length data))); cbn in H; [|discriminate].
    destruct (Z.leb_spec es (Z.of_nat (length blk))); cbn in H; [|discriminate].
    injection H as <-. rewrite drop_ge by lia. rewrite app_nil_r. split; [reflexivity | lia].
Qed.

Lemma create_node_inv data es h r h1 :
  create_node data es h = Ok r h1 ->
  match r with
  | None => contents h1 = contents h
  | Some n =>
      valid_addr n = true /\ in_use h n = false /\ es <> 0 /\
      (0 < es -> es <= Z.of_nat (length data)) /\
      exists al,
        h1 = rset SNodes (<[n := mk_snode (take (Z.to_nat es) data) NULL]> (snodes h))
               (set_allocator al h)
  end.
Proof.
  unfold create_node. intros H. apply bind_inv in H as (node & h0 & Hm & H).
  apply malloc_inv in Hm as (al & Hm). destruct node as [n|].
  2:{ minv H. subst. reflexivity. }
  destruct Hm as (Hv & Hu & junk & ->).
  apply bind_inv in H as (d & h2 & Hd & H).
  apply mem_alloc_data_inv in Hd as ((al2 & ->) & Hd). destruct d as [blk|].
  - destruct Hd as [Hes Hlen].
    destruct (mem_copy blk data es) as [blk'|] eqn:Ec; [|discriminate H].
    apply mem_copy_block in Ec as [-> Hle]; [|exact Hlen].
    fwd_in H. injection H as <- <-. split_and!; auto. exists al2. cbn.
    rewrite !insert_insert_eq. reflexivity.
  - fwd_in H. injection H as <- <-. unfold contents. cbn.
    rewrite delete_insert_eq. apply in_use_false in Hu as (_ & _ & _ & Hu & _).
    by rewrite delete_id.
Qed.

(* ===================================================================== *)
(** * singly_list.c : a node goes in, a node goes out *)
(* ===================================================================== *)

Lemma sl_insert_ok h h1 lp l l1 k n d :
  slists_ok h -> slists h !! lp = Some l ->
  (k <= length (singly_list_nodes h lp))%nat ->
  valid_addr n = true -> snodes h !! n = None ->
  slists h1 = <[lp := l1]> (slists h) ->
  sl_head l1 = match k with O => Some n | S _ => sl_head l end ->
  sl_tail l1 = (if decide (k = length (singly_list_nodes h lp)) then Some n
                else sl_tail l) ->
  sl_size l1 = to_size_t (sl_size l + 1) ->
  snodes h1 !! n = Some (mk_snode d (singly_list_nodes h lp !! k)) ->
  (forall i a nd, singly_list_nodes h lp !! i = Some a -> snodes h !! a = Some nd ->
                  snodes h1 !! a
                  = Some (if decide (S i = k) then set_sn_next (Some n) nd else nd)) ->
  (forall a, a <> n -> a ∉ singly_list_nodes h lp -> snodes h1 !! a = snodes h !! a) ->
  vectors h1 = vectors h -> buffers h1 = buffers h ->
  dlists h1 = dlists h -> dnodes h1 = dnodes h ->
  sl_effect h h1 lp /\
  singly_list_nodes h1 lp = insert_at k n (singly_list_nodes h lp) /\
  singly_list_elements h1 lp = insert_at k d (singly_list_elements h lp).
Proof.
  intros Hok Hl Hk Hvn Hfresh Hls Hhead Htail Hsize Hn Hrest Hother Hv Hb Hdl Hdn.
  set (ls := singly_list_nodes h lp) in *.
  destruct (slists_ok_repr h lp Hok) as (l' & Hl' & Hh & Ht & Hsz & Hlk); [eauto|].
  assert (l' = l) by congruence. subst l'. fold ls in Hh, Ht, Hsz, Hlk.
  assert (links sn_next (snodes h1) (insert_at k n ls)) as Hlk1.
  { eapply links_insert; [exact Hlk | exact Hk | exact Hn | reflexivity |].
    intros i a nd Hi Hnd. rewrite (Hrest i a nd Hi Hnd). eexists. split; [reflexivity|].
    by destruct (decide (S i = k)). }
  assert (valid_region (snodes h1)) as Hvalid.
  { intros a Ha. destruct (decide (a = n)) as [->|Hne]; [exact Hvn|].
    destruct Hok as (Hvr & _). apply Hvr.
    destruct (decide (a ∈ ls)) as [Hin|Hnin]; [by eapply links_in_dom|].
    by rewrite <- Hother. }
  pose proof (links_length_bound _ _ _ Hlk1 Hvalid) as Hbound.
  rewrite insert_at_length in Hbound.
  assert (sl_repr h1 lp (insert_at k n ls)) as Hrepr.
  { exists l1. rewrite Hls, lookup_insert_eq. split_and!; [reflexivity | | | | exact Hlk1].
    - rewrite insert_at_head by exact Hk. rewrite Hhead. destruct k; [reflexivity | exact Hh].
    - rewrite insert_at_last by exact Hk. rewrite Htail.
      destruct (decide (k = length ls)); [reflexivity | exact Ht].
    - rewrite Hsize, insert_at_length, to_size_t_small; lia. }
  pose proof (sl_repr_nodes _ _ _ Hrepr) as Hnodes.
  split_and!.
  - unfold sl_effect. split_and!; try assumption.
    all: eapply slists_ok_update; try eassumption.
    all: try (intros _; apply sl_inv_repr; eexists; exact Hrepr).
    all: try (intros lp' Hne; rewrite Hls; by apply lookup_insert_ne).
    all: try (intros a Ha Hnin; apply Hother; [|exact Hnin]; intros ->;
              rewrite Hfresh in Ha; by destruct Ha).
    all: intros a Ha; rewrite Hnodes in Ha;
      apply elem_of_insert_at in Ha as [->|Ha]; [right; exact Hfresh | by left | exact Hk].
  - exact Hnodes.
  - unfold singly_list_elements. rewrite Hnodes, insert_at_fmap. fold ls. f_equal.
    + unfold sn_data_at. by rewrite Hn.
    + apply list_fmap_ext. intros i a Hi. unfold sn_data_at.
      destruct (Hlk _ _ Hi) as (nd & Hnd & _). rewrite (Hrest i a nd Hi Hnd), Hnd.
      by destruct (decide (S i = k)).
Qed.

Lemma sl_remove_ok h h1 lp l l1 k c :
  slists_ok h -> slists h !! lp = Some l ->
  singly_list_nodes h lp !! k = Some c ->
  slists h1 = <[lp := l1]> (slists h) ->
  sl_head l1 = match k with O => singly_list_nodes h lp !! 1%nat | S _ => sl_head l end ->
  sl_tail l1 = (if decide (S k = length (singly_list_nodes h lp))
                then pred_of (singly_list_nodes h lp) k else sl_tail l) ->
  sl_size l1 = to_size_t (sl_size l - 1) ->
  snodes h1 !! c = None ->
  (forall i a nd, singly_list_nodes h lp !! i = Some a -> i <> k ->
                  snodes h !! a = Some nd ->
                  snodes h1 !! a
                  = Some (if decide (S i = k)
                          then set_sn_next (singly_list_nodes h lp !! S k) nd else nd)) ->
  (forall a, a ∉ singly_list_nodes h lp -> snodes h1 !! a = snodes h !! a) ->
  vectors h1 = vectors h -> buffers h1 = buffers h ->
  dlists h1 = dlists h -> dnodes h1 = dnodes h ->
  sl_effect h h1 lp /\
  singly_list_nodes h1 lp = delete k (singly_list_nodes h lp) /\
  singly_list_elements h1 lp = delete k (singly_list_elements h lp).
Proof.
  intros Hok Hl Hc Hls Hhead Htail Hsize Hgone Hrest Hother Hv Hb Hdl Hdn.
  set (ls := singly_list_nodes h lp) in *.
  destruct (slists_ok_repr h lp Hok) as (l' & Hl' & Hh & Ht & Hsz & Hlk); [eauto|].
  assert (l' = l) by congruence. subst l'. fold ls in Hh, Ht, Hsz, Hlk.
  pose proof (lookup_lt_Some _ _ _ Hc) as Hk.
  pose proof (links_NoDup _ _ _ Hlk) as Hnd.
  assert (links sn_next (snodes h1) (delete k ls)) as Hlk1.
  { eapply links_delete; [exact Hlk | exact Hk |].
    intros i a nd Hi Hne Hnd'. rewrite (Hrest i a nd Hi Hne Hnd'). eexists.
    split; [reflexivity|]. by destruct (decide (S i = k)). }
  assert (valid_region (snodes h1)) as Hvalid.
  { intros a Ha. destruct Hok as (Hvr & _). apply Hvr.
    destruct (decide (a ∈ ls)) as [Hin|Hnin]; [by eapply links_in_dom|].
    by rewrite <- Hother. }
  pose proof (links_length_bound _ _ _ Hlk (proj1 Hok)) as Hbound.
  assert (sl_repr h1 lp (delete k ls)) as Hrepr.
  { exists l1. rewrite Hls, lookup_insert_eq. split_and!; [reflexivity | | | | exact Hlk1].
    - rewrite delete_head. rewrite Hhead. destruct k; [reflexivity | exact Hh].
    - rewrite delete_last by exact Hk. rewrite Htail.
      destruct (decide (S k = length ls)); [reflexivity | exact Ht].
    - rewrite Hsize, length_delete by eauto. rewrite to_size_t_small; lia. }
  pose proof (sl_repr_nodes _ _ _ Hrepr) as Hnodes.
  split_and!.
  - unfold sl_effect. split_and!; try assumption.
    all: eapply slists_ok_update; try eassumption.
    all: try (intros _; apply sl_inv_repr; eexists; exact Hrepr).
    all: try (intros lp' Hne; rewrite Hls; by apply lookup_insert_ne).
    all: try (intros a Ha Hnin; by apply Hother).
    all: intros a Ha; rewrite Hnodes in Ha; left; by eapply elem_of_delete.
  - exact Hnodes.
  - unfold singly_list_elements. rewrite Hnodes, list_fmap_delete. fold ls.
    apply list_eq. intros i. destruct (decide (i < k)%nat).
    + rewrite !list_lookup_delete_lt by lia. rewrite !list_lookup_fmap.
      destruct (ls !! i) as [a|] eqn:Hi; [cbn|reflexivity]. f_equal. unfold sn_data_at.
      destruct (Hlk _ _ Hi) as (nd & Hnd' & _).
      rewrite (Hrest i a nd Hi ltac:(lia) Hnd'), Hnd'. by destruct (decide (S i = k)).
    + rewrite !list_lookup_delete_ge by lia. rewrite !list_lookup_fmap.
      destruct (ls !! S i) as [a|] eqn:Hi; [cbn|reflexivity]. f_equal. unfold sn_data_at.
      destruct (Hlk _ _ Hi) as (nd & Hnd' & _).
      rewrite (Hrest (S i) a nd Hi ltac:(lia) Hnd'), Hnd'. by destruct (decide (S (S i) = k)).
Qed.

(* ===================================================================== *)
(** * singly_list.c : the operations *)
(* ===================================================================== *)

Lemma sl_effect_contents h h1 lp :
  contents h1 = contents h -> slists_ok h -> sl_effect h h1 lp.
Proof.
  intros E Hok. pose proof (slists_ok_contents _ _ E Hok).
  apply contents_inv in E as (? & ? & Es & En & ? & ?).
  split_and!; try assumption. intros lp' _.
  unfold singly_list_elements, sn_data_at, singly_list_nodes. by rewrite Es, En.
Qed.

Lemma sl_effect_refl h lp : slists_ok h -> sl_effect h h lp.
Proof. by apply sl_effect_contents. Qed.

(** Running a computation forward and normalising the store. *)
Ltac heap_simpl :=
  cbn [rget rset Vectors Buffers SLists SNodes DLists DNodes
       vectors buffers slists snodes dlists dnodes allocator set_allocator
       set_sl_head set_sl_tail set_sl_size set_sl_element_size
       sl_head sl_tail sl_size sl_element_size
       set_sn_data set_sn_next sn_data sn_next
       set_dl_head set_dl_tail set_dl_size set_dl_element_size
       dl_head dl_tail dl_size dl_element_size
       set_dn_data set_dn_next set_dn_prev dn_data dn_next dn_prev
       is_null when fst snd];
  try unfold destroy_node; try unfold destroy_doubly_node.

Ltac run := heap_simpl; repeat (fwd1; cbv beta; heap_simpl).
Ltac run_in H := revert H; run; intros H.
Ltac heap_simpl_in H := revert H; heap_simpl; intros H.

Lemma singly_list_push_front_ok h lp e s h1 :
  slists_ok h ->
  singly_list_push_front (Some lp) (Some e) h = Ok s h1 ->
  sl_effect h h1 lp /\
  (s <> SUCCESS -> s = ERROR_MEMORY_ALLOCATION /\ contents h1 = contents h) /\
  (s = SUCCESS ->
   exists n l, slists h !! lp = Some l /\
     singly_list_nodes h1 lp = n :: singly_list_nodes h lp /\
     singly_list_elements h1 lp
     = take (Z.to_nat (sl_element_size l)) e :: singly_list_elements h lp).
Proof.
  intros Hok H. unfold singly_list_push_front in H.
  apply bind_inv in H as (es0 & h0 & E & H). minv E. rename E into Hl.
  destruct x as [hd tl sz es]. cbn in Hl. heap_simpl.
  apply bind_inv in H as (node & h0 & Hc & H).
  apply create_node_inv in Hc. destruct node as [n|].
  2:{ apply ret_inv in H as [<- <-].
      split_and!; [by apply sl_effect_contents | by intros _ | discriminate]. }
  destruct Hc as (Hvn & Hu & Hes & Hle & al & ->).
  apply in_use_false in Hu as (_ & _ & Hnl & Hfresh & _).
  destruct (slists_ok_repr h lp Hok) as (l' & Hl' & Hh & Ht & Hsz & Hlk); [eauto|].
  rewrite Hl in Hl'. injection Hl' as <-. cbn in Hh, Ht, Hsz.
  rewrite head_lookup in Hh. subst hd.
  assert (n <> lp) by congruence.
  assert (forall a nd, snodes h !! a = Some nd -> a <> n) as Hne by (intros; congruence).
  destruct tl as [t|]; run_in H; injection H as <- <-.
  all: match goal with |- sl_effect _ ?hf _ /\ _ =>
    assert (sl_effect h hf lp /\
            singly_list_nodes hf lp = insert_at 0 n (singly_list_nodes h lp) /\
            singly_list_elements hf lp
            = insert_at 0 (take (Z.to_nat es) e) (singly_list_elements h lp))
      as (Heff & Hnodes & Hel) end.
  1,3: eapply sl_insert_ok;
    [ exact Hok | exact Hl | lia | exact Hvn | exact Hfresh
    | cbn; rewrite ?insert_insert_eq; reflexivity
    | reflexivity | | reflexivity
    | cbn; rewrite ?insert_insert_eq, lookup_insert_eq; reflexivity
    | | | reflexivity | reflexivity | reflexivity | reflexivity ].
  all: try (intros a Hna _; cbn; by rewrite ?lookup_insert_ne by congruence).
  all: try (intros i a nd Hi Hnd; cbn; destruct (decide (S i = 0)%nat); [lia|];
            rewrite ?lookup_insert_ne by (symmetry; by eapply Hne); exact Hnd).
  all: try (cbn; destruct (singly_list_nodes h lp); [discriminate Ht|reflexivity]).
  all: try (cbn; symmetry in Ht; apply last_None in Ht; rewrite Ht; reflexivity).
  all: split_and!; [exact Heff | by intros [] |]; intros _; eexists n, _;
    rewrite insert_at_0 in Hnodes; rewrite insert_at_0 in Hel;
    split_and!; [exact Hl | exact Hnodes |].
  all: exact Hel.
Qed.

Lemma singly_list_push_back_ok h lp e s h1 :
  slists_ok h ->
  singly_list_push_back (Some lp) (Some e) h = Ok s h1 ->
  sl_effect h h1 lp /\
  (s <> SUCCESS -> s = ERROR_MEMORY_ALLOCATION /\ contents h1 = contents h) /\
  (s = SUCCESS ->
   exists n l, slists h !! lp = Some l /\
     singly_list_nodes h1 lp = singly_list_nodes h lp ++ [n] /\
     singly_list_elements h1 lp
     = singly_list_elements h lp ++ [take (Z.to_nat (sl_element_size l)) e]).
Proof.
  intros Hok H. unfold singly_list_push_back in H.
  apply bind_inv in H as (es0 & h0 & E & H). minv E. rename E into Hl.
  destruct x as [hd tl sz es]. cbn in Hl. heap_simpl.
  apply bind_inv in H as (node & h0 & Hc & H).
  apply create_node_inv in Hc. destruct node as [n|].
  2:{ apply ret_inv in H as [<- <-].
      split_and!; [by apply sl_effect_contents | by intros _ | discriminate]. }
  destruct Hc as (Hvn & Hu & Hes & Hle & al & ->).
  apply in_use_false in Hu as (_ & _ & Hnl & Hfresh & _).
  destruct (slists_ok_repr h lp Hok) as (l' & Hl' & Hh & Ht & Hsz & Hlk); [eauto|].
  rewrite Hl in Hl'. injection Hl' as <-. cbn in Hh, Ht, Hsz.
  set (ls := singly_list_nodes h lp) in *.
  assert (n <> lp) by congruence.
  assert (forall a nd, snodes h !! a = Some nd -> a <> n) as Hne by (intros; congruence).
  enough ((sl_effect h h1 lp /\
           singly_list_nodes h1 lp = insert_at (length ls) n ls /\
           singly_list_elements h1 lp
           = insert_at (length ls) (take (Z.to_nat es) e) (singly_list_elements h lp)) /\
          s = SUCCESS) as ((Heff & Hnodes & Hel) & ->).
  { split_and!; [exact Heff | by intros [] |]. intros _. exists n. eexists.
    split; [exact Hl|]. rewrite insert_at_end in Hnodes.
    replace (length ls) with (length (singly_list_elements h lp)) in Hel
      by (unfold singly_list_elements; by rewrite length_fmap).
    rewrite insert_at_end in Hel. by split. }
  destruct tl as [t|].
  - symmetry in Ht. destruct (last_links_null _ _ _ _ Hlk Ht) as (ndt & Hndt & Hnt).
    pose proof (Hne _ _ Hndt) as Htn.
    rewrite last_lookup in Ht. pose proof (lookup_lt_Some _ _ _ Ht) as Hlen.
    run_in H. injection H as <- <-.
    split; [|reflexivity].
    eapply sl_insert_ok;
      [ exact Hok | exact Hl | fold ls; lia | exact Hvn | exact Hfresh
      | cbn; rewrite ?insert_insert_eq; reflexivity
      | fold ls; destruct (length ls); [lia | reflexivity]
      | fold ls; by destruct (decide (length ls = length ls))
      | reflexivity
      | cbn; rewrite lookup_insert_ne, lookup_insert_eq by congruence;
        fold ls; by rewrite (proj2 (lookup_ge_None ls (length ls)))
      | | | reflexivity | reflexivity | reflexivity | reflexivity ].
    + intros i a nd Hi Hnd. cbn. fold ls in Hi |- *.
      destruct (decide (S i = length ls)) as [E|Hn'].
      * assert (a = t) as -> by (replace i with (Init.Nat.pred (length ls)) in Hi by lia;
                                 congruence).
        rewrite lookup_insert_eq. congruence.
      * assert (a <> t).
        { eapply NoDup_lookup_ne; [by eapply links_NoDup | exact Hi | exact Ht | lia]. }
        rewrite !lookup_insert_ne by (try congruence; symmetry; by eapply Hne).
        exact Hnd.
    + intros a Hna Hnin. cbn. fold ls in Hnin.
      assert (a <> t) by (intros ->; apply Hnin; by eapply list_elem_of_lookup_2).
      by rewrite !lookup_insert_ne by congruence.
  - symmetry in Ht. apply last_None in Ht. rewrite Ht in Hh. cbn in Hh. subst hd.
    run_in H. injection H as <- <-.
    split; [|reflexivity].
    eapply sl_insert_ok;
      [ exact Hok | exact Hl | fold ls; rewrite Ht; cbn; lia | exact Hvn | exact Hfresh
      | cbn; rewrite ?insert_insert_eq; reflexivity
      | fold ls; rewrite Ht; reflexivity
      | fold ls; rewrite Ht; reflexivity
      | reflexivity
      | cbn; rewrite lookup_insert_eq; fold ls; by rewrite Ht
      | | | reflexivity | reflexivity | reflexivity | reflexivity ].
    + intros i a nd Hi. fold ls in Hi. rewrite Ht in Hi. discriminate.
    + intros a Hna _. cbn. by rewrite lookup_insert_ne by congruence.
Qed.

Lemma copy_out_inv output d es h r h1 :
  copy_out output d es h = Ok r h1 ->
  h1 = h /\
  match output with
  | Some out => exists out', mem_copy out d es = Some out' /\ r = Some out'
  | None => r = None
  end.
Proof.
  unfold copy_out. destruct output as [out|]; [|intros H; by minv H].
  destruct (mem_copy out d es); intros H; minv H. eauto.
Qed.

Lemma singly_list_pop_front_ok h lp output s out' h1 :
  slists_ok h ->
  singly_list_pop_front (Some lp) output h = Ok (s, out') h1 ->
  sl_effect h h1 lp /\
  (s <> SUCCESS -> s = ERROR_EMPTY_CONTAINER /\ h1 = h /\ out' = output /\
                   singly_list_nodes h lp = []) /\
  (s = SUCCESS ->
   singly_list_nodes h1 lp = delete 0%nat (singly_list_nodes h lp) /\
   singly_list_elements h1 lp = delete 0%nat (singly_list_elements h lp)).
Proof.
  intros Hok H. unfold singly_list_pop_front in H.
  apply bind_inv in H as (hd0 & h0 & E & H). minv E. rename E into Hl.
  destruct x as [hd tl sz es]. cbn in Hl. heap_simpl_in H.
  destruct (slists_ok_repr h lp Hok) as (l' & Hl' & Hh & Ht & Hsz & Hlk); [eauto|].
  rewrite Hl in Hl'. injection Hl' as <-. cbn in Hh, Ht, Hsz.
  set (ls := singly_list_nodes h lp) in *.
  destruct hd as [c|].
  2:{ minv H. split_and!; [by apply sl_effect_refl | | discriminate].
      intros _. split_and!; try reflexivity. symmetry in Hh. by apply head_None in Hh. }
  rewrite head_lookup in Hh. symmetry in Hh.
  destruct (Hlk _ _ Hh) as ([dc nx] & Hc & Hnx). cbn in Hnx.
  apply bind_inv in H as (o & h0 & Ho & H). run_in Ho.
  apply copy_out_inv in Ho as [-> _].
  enough ((sl_effect h h1 lp /\
           singly_list_nodes h1 lp = delete 0%nat ls /\
           singly_list_elements h1 lp = delete 0%nat (singly_list_elements h lp)) /\
          s = SUCCESS) as ((Heff & Hnodes & Hel) & ->).
  { split_and!; [exact Heff | by intros [] | by intros _]. }
  assert (forall i a, ls !! i = Some a -> i <> 0%nat -> a <> c) as Hnc.
  { intros i a Hi Hne. eapply NoDup_lookup_ne; [by eapply links_NoDup | exact Hi | exact Hh | exact Hne]. }
  assert (forall a, a ∉ ls -> a <> c) as Hnc'.
  { intros a Hnin ->. apply Hnin. by eapply list_elem_of_lookup_2. }
  pose proof (lookup_lt_Some _ _ _ Hh) as Hlen.
  destruct nx as [x|]; run_in H; injection H as <- <- <-; (split; [|reflexivity]).
  - symmetry in Hnx. pose proof (lookup_lt_Some _ _ _ Hnx).
    eapply sl_remove_ok;
      [ exact Hok | exact Hl | exact Hh
      | cbn; rewrite ?insert_insert_eq; reflexivity
      | fold ls; by rewrite Hnx
      | fold ls; destruct (decide (1%nat = length ls)); [lia | reflexivity]
      | reflexivity
      | cbn; by rewrite lookup_delete_eq
      | | | reflexivity | reflexivity | reflexivity | reflexivity ].
    + intros i a nd Hi Hne Hnd. cbn. destruct (decide (S i = 0)%nat); [lia|].
      rewrite lookup_delete_ne by (symmetry; by eapply Hnc). exact Hnd.
    + intros a Hnin. cbn. rewrite lookup_delete_ne; [reflexivity|].
      symmetry. by apply Hnc'.
  - symmetry in Hnx. apply lookup_ge_None in Hnx.
    eapply sl_remove_ok;
      [ exact Hok | exact Hl | exact Hh
      | cbn; rewrite ?insert_insert_eq; reflexivity
      | fold ls; by rewrite (proj2 (lookup_ge_None ls 1%nat))
      | fold ls; destruct (decide (1%nat = length ls)); [reflexivity | lia]
      | reflexivity
      | cbn; by rewrite lookup_delete_eq
      | | | reflexivity | reflexivity | reflexivity | reflexivity ].
    + intros i a nd Hi Hne Hnd. cbn. destruct (decide (S i = 0)%nat); [lia|].
      rewrite lookup_delete_ne by (symmetry; by eapply Hnc). exact Hnd.
    + intros a Hnin. cbn. rewrite lookup_delete_ne; [reflexivity|].
      symmetry. by apply Hnc'.
Qed.

(** The walk of [singly_list_pop_back] to the node before the tail: from
    position [i] it needs [length - 2 - i] more steps. *)
Lemma singly_list_pop_back_loop_links h ls fuel i a t p :
  links sn_next (snodes h) ls ->
  ls !! i = Some a -> last ls = Some t -> (i + 2 <= length ls)%nat ->
  ls !! (length ls - 2)%nat = Some p ->
  singly_list_pop_back_loop fuel a (Some t) h
  = if decide (length ls - 2 - i <= fuel)%nat then Ok p h else OutOfFuel.
Proof.
  intros Hlk Hi Ht Hlen Hp. rewrite last_lookup in Ht.
  pose proof (links_NoDup _ _ _ Hlk) as Hnd.
  revert i a Hi Hlen. induction fuel as [|fuel IH]; intros i a Hi Hlen.
  - destruct (Hlk _ _ Hi) as (nd & Hnda & Hnx). cbn.
    rewrite (bind_Ok _ _ _ _ _ (field_Some SNodes a sn_next h nd Hnda)).
    destruct (lookup_lt_is_Some_2 ls (S i)) as [b Hb]; [lia|]. rewrite Hnx, Hb.
    destruct (decide (length ls - 2 - i <= 0)%nat) as [Hle|Hgt].
    + assert (b = t) as -> by (replace (S i) with (Init.Nat.pred (length ls)) in Hb by lia;
                               congruence).
      rewrite bool_decide_eq_true_2 by reflexivity.
      replace i with (length ls - 2)%nat in Hi by lia. unfold ret. congruence.
    + rewrite bool_decide_eq_false_2; [reflexivity|]. intros [= ->].
      assert (S i = Init.Nat.pred (length ls)) by (by eapply NoDup_lookup). lia.
  - destruct (Hlk _ _ Hi) as (nd & Hnda & Hnx). cbn.
    rewrite (bind_Ok _ _ _ _ _ (field_Some SNodes a sn_next h nd Hnda)).
    destruct (lookup_lt_is_Some_2 ls (S i)) as [b Hb]; [lia|]. rewrite Hnx, Hb.
    destruct (decide (S i = Init.Nat.pred (length ls))) as [E|Hne].
    + assert (b = t) as -> by congruence.
      rewrite bool_decide_eq_true_2 by reflexivity.
      rewrite decide_True by lia.
      replace i with (length ls - 2)%nat in Hi by lia. unfold ret. congruence.
    + rewrite bool_decide_eq_false_2.
      2:{ intros [= ->]. apply Hne. by eapply NoDup_lookup. }
      rewrite (IH (S i) b Hb) by lia.
      destruct (decide (length ls - 2 - S i <= fuel)%nat);
        destruct (decide (length ls - 2 - i <= S fuel)%nat); try reflexivity; lia.
Qed.

Lemma singly_list_pop_back_ok fuel h lp output s out' h1 :
  slists_ok h ->
  singly_list_pop_back fuel (Some lp) output h = Ok (s, out') h1 ->
  sl_effect h h1 lp /\
  (s <> SUCCESS -> s = ERROR_EMPTY_CONTAINER /\ h1 = h /\ out' = output /\
                   singly_list_nodes h lp = []) /\
  (s = SUCCESS ->
   singly_list_nodes h1 lp
   = delete (length (singly_list_nodes h lp) - 1)%nat (singly_list_nodes h lp) /\
   singly_list_elements h1 lp
   = delete (length (singly_list_nodes h lp) - 1)%nat (singly_list_elements h lp)).
Proof.
  intros Hok H. unfold singly_list_pop_back in H.
  apply bind_inv in H as (hd0 & h0 & E & H). minv E. rename E into Hl.
  destruct x as [hd tl sz es]. cbn in Hl. heap_simpl_in H.
  destruct (slists_ok_repr h lp Hok) as (l' & Hl' & Hh & Ht & Hsz & Hlk); [eauto|].
  rewrite Hl in Hl'. injection Hl' as <-. cbn in Hh, Ht, Hsz.
  set (ls := singly_list_nodes h lp) in *.
  destruct hd as [c|].
  2:{ minv H. split_and!; [by apply sl_effect_refl | | discriminate].
      intros _. split_and!; try reflexivity. symmetry in Hh. by apply head_None in Hh. }
  rewrite head_lookup in Hh. symmetry in Hh.
  pose proof (lookup_lt_Some _ _ _ Hh) as Hlen.
  destruct (lookup_lt_is_Some_2 ls (length ls - 1)) as [t Hlast]; [lia|].
  assert (tl = Some t) as -> by (rewrite Ht, last_lookup, <- Hlast; f_equal; lia).
  destruct (Hlk _ _ Hlast) as ([dt nt] & Hndt & Hnt). cbn in Hnt.
  run_in H. apply bind_inv in H as (o & h0 & Ho & H).
  assert (h0 = h) as ->.
  { destruct output as [out|]; [|by minv Ho]. run_in Ho.
    by apply copy_out_inv in Ho as [-> _]. }
  clear Ho.
  enough ((sl_effect h h1 lp /\
           singly_list_nodes h1 lp = delete (length ls - 1)%nat ls /\
           singly_list_elements h1 lp
           = delete (length ls - 1)%nat (singly_list_elements h lp)) /\
          s = SUCCESS) as ((Heff & Hnodes & Hel) & ->).
  { split_and!; [exact Heff | by intros [] | by intros _]. }
  pose proof (links_NoDup _ _ _ Hlk) as Hnd.
  assert (forall a, a ∉ ls -> a <> t) as Hnt'.
  { intros a Hnin ->. apply Hnin. by eapply list_elem_of_lookup_2. }
  destruct (bool_decide (Some c = Some t)) eqn:Ect.
  - apply bool_decide_eq_true in Ect. injection Ect as ->.
    assert (0 = length ls - 1)%nat as Hone by (by eapply NoDup_lookup).
    run_in H. injection H as <- <- <-. split; [|reflexivity].
    rewrite <- Hone in *.
    eapply sl_remove_ok;
      [ exact Hok | exact Hl | exact Hh
      | cbn; rewrite ?insert_insert_eq; reflexivity
      | fold ls; by rewrite (proj2 (lookup_ge_None ls 1%nat)) by lia
      | fold ls; destruct (decide (1%nat = length ls)); [reflexivity | lia]
      | reflexivity
      | cbn; by rewrite lookup_delete_eq
      | | | reflexivity | reflexivity | reflexivity | reflexivity ].
    + intros i a nd Hi Hne Hnd'. fold ls in Hi. apply lookup_lt_Some in Hi. lia.
    + intros a Hnin. cbn. rewrite lookup_delete_ne; [reflexivity|].
      symmetry. by apply Hnt'.
  - apply bool_decide_eq_false in Ect.
    assert (2 <= length ls)%nat as Hlen2.
    { destruct (decide (length ls = 1%nat)) as [E|]; [|lia].
      rewrite E in Hlast. cbn in Hlast. congruence. }
    destruct (lookup_lt_is_Some_2 ls (length ls - 2)) as [p Hp]; [lia|].
    apply bind_inv in H as (u & h0 & Hb & H).
    apply bind_inv in Hb as (cur & h2 & Hloop & Hb).
    rewrite (singly_list_pop_back_loop_links h ls fuel 0 c t p Hlk Hh) in Hloop
      by (rewrite ?last_lookup; try exact Hp; try lia; rewrite <- Hlast; f_equal; lia).
    destruct (decide (length ls - 2 - 0 <= fuel)%nat); [|discriminate Hloop].
    injection Hloop as <- <-.
    destruct (Hlk _ _ Hp) as (ndp & Hndp & Hnp).
    assert (p <> t) as Hpt.
    { eapply NoDup_lookup_ne; [exact Hnd | exact Hp | exact Hlast | lia]. }
    run_in Hb. injection Hb as <- <-. run_in H. injection H as <- <- <-.
    split; [|reflexivity].
    eapply sl_remove_ok;
      [ exact Hok | exact Hl | exact Hlast
      | cbn; rewrite ?insert_insert_eq; reflexivity
      | fold ls; destruct (length ls - 1)%nat eqn:E; [lia | reflexivity]
      | fold ls; destruct (decide (S (length ls - 1) = length ls)); [|lia];
        replace (length ls - 1)%nat with (S (length ls - 2)) by lia; cbn;
        by rewrite Hp
      | reflexivity
      | cbn; by rewrite lookup_insert_ne, lookup_delete_eq by congruence
      | | | reflexivity | reflexivity | reflexivity | reflexivity ].
    + intros i a nd Hi Hne Hnd'. cbn. fold ls in Hi |- *.
      assert (a <> t).
      { eapply NoDup_lookup_ne; [exact Hnd | exact Hi | exact Hlast | exact Hne]. }
      destruct (decide (S i = length ls - 1)%nat) as [E|Hn'].
      * assert (a = p) as -> by (replace i with (length ls - 2)%nat in Hi by lia;
                                 congruence).
        rewrite lookup_insert_eq. f_equal.
        rewrite (proj2 (lookup_ge_None ls (S (length ls - 1)))) by lia.
        congruence.
      * assert (a <> p).
        { eapply NoDup_lookup_ne; [exact Hnd | exact Hi | exact Hp | lia]. }
        by rewrite lookup_insert_ne, lookup_delete_ne by congruence.
    + intros a Hnin. cbn. fold ls in Hnin.
      assert (a <> p) by (intros ->; apply Hnin; by eapply list_elem_of_lookup_2).
      rewrite lookup_insert_ne, lookup_delete_ne; [reflexivity | | congruence].
      symmetry. by apply Hnt'.
Qed.

Lemma singly_list_insert_ok h lp index e s h1 :
  slists_ok h -> 0 <= index <= SIZE_MAX ->
  singly_list_insert (Some lp) index (Some e) h = Ok s h1 ->
  sl_effect h h1 lp /\
  (s <> SUCCESS ->
   (s = ERROR_INDEX_OUT_OF_BOUNDS \/ s = ERROR_MEMORY_ALLOCATION) /\
   contents h1 = contents h) /\
  (s = ERROR_INDEX_OUT_OF_BOUNDS <->
   Z.of_nat (length (singly_list_nodes h lp)) < index) /\
  (s = SUCCESS ->
   exists n l, slists h !! lp = Some l /\
     singly_list_nodes h1 lp = insert_at (Z.to_nat index) n (singly_list_nodes h lp) /\
     singly_list_elements h1 lp
     = insert_at (Z.to_nat index) (take (Z.to_nat (sl_element_size l)) e)
         (singly_list_elements h lp)).
Proof.
  intros Hok Hidx H. unfold singly_list_insert in H.
  apply bind_inv in H as (l & h0 & E & H). minv E. rename E into Hl.
  cbn in Hl.
  destruct (slists_ok_repr h lp Hok) as (l' & Hl' & Hh & Ht & Hsz & Hlk); [eauto|].
  rewrite Hl in Hl'. injection Hl' as <-.
  set (ls := singly_list_nodes h lp) in *.
  assert (length (singly_list_elements h lp) = length ls) as Hlen
    by (unfold singly_list_elements; by rewrite length_fmap).
  destruct (Z.ltb_spec (sl_size l) index) as [Hoob|Hin].
  { minv H. split_and!; [by apply sl_effect_refl | by intros _; split; [left|] | | discriminate].
    split; [lia | reflexivity]. }
  destruct (Z.eqb_spec index 0) as [->|Hn0].
  { apply singly_list_push_front_ok in H as (Heff & Hfail & Hsucc); [|exact Hok].
    split_and!; [exact Heff | | |].
    - intros Hs. destruct (Hfail Hs) as [-> ?]. auto.
    - split; [|lia]. intros ->. destruct Hfail as [? _]; discriminate.
    - intros Hs. destruct (Hsucc Hs) as (n & l0 & Hl0 & Hn & He). exists n, l0.
      fold ls in Hn. rewrite !insert_at_0. auto. }
  destruct (Z.eqb_spec index (sl_size l)) as [->|Hnlast].
  { apply singly_list_push_back_ok in H as (Heff & Hfail & Hsucc); [|exact Hok].
    split_and!; [exact Heff | | |].
    - intros Hs. destruct (Hfail Hs) as [-> ?]. auto.
    - split; [|lia]. intros ->. destruct Hfail as [? _]; discriminate.
    - intros Hs. destruct (Hsucc Hs) as (n & l0 & Hl0 & Hn & He). exists n, l0.
      fold ls in Hn. rewrite Hsz, Nat2Z.id. rewrite insert_at_end.
      rewrite <- Hlen, insert_at_end. auto. }
  pose proof (links_length_bound _ _ _ Hlk (proj1 Hok)) as Hbound.
  rewrite (to_size_t_small (index - 1)) in H by lia.
  rewrite (bind_Ok _ _ _ _ _ (get_node_at_repr h lp ls (index - 1)
             (ex_intro _ l (conj Hl (conj Hh (conj Ht (conj Hsz Hlk))))) ltac:(lia))) in H.
  destruct (lookup_lt_is_Some_2 ls (Z.to_nat (index - 1))) as [pv Hpv]; [lia|].
  rewrite Hpv in H.
  apply bind_inv in H as (node & h0 & Hc & H).
  apply create_node_inv in Hc. destruct node as [n|].
  2:{ apply ret_inv in H as [<- <-].
      split_and!; [by apply sl_effect_contents | by intros _; split; [right|] | | discriminate].
      split; [discriminate | lia]. }
  destruct Hc as (Hvn & Hu & Hes & Hle & al & ->).
  apply in_use_false in Hu as (_ & _ & Hnl & Hfresh & _).
  destruct (Hlk _ _ Hpv) as (ndpv & Hndpv & Hnxpv).
  assert (n <> lp) by congruence.
  assert (forall a nd, snodes h !! a = Some nd -> a <> n) as Hne by (intros; congruence).
  pose proof (Hne _ _ Hndpv).
  pose proof (links_NoDup _ _ _ Hlk) as Hnd.
  assert (S (Z.to_nat (index - 1)) = Z.to_nat index) as Hk by lia.
  run_in H. injection H as <- <-.
  match goal with |- sl_effect _ ?hf _ /\ _ =>
    assert (sl_effect h hf lp /\
            singly_list_nodes hf lp = insert_at (Z.to_nat index) n ls /\
            singly_list_elements hf lp
            = insert_at (Z.to_nat index) (take (Z.to_nat (sl_element_size l)) e)
                (singly_list_elements h lp))
      as (Heff & Hnodes & Hel) end.
  { eapply sl_insert_ok;
      [ exact Hok | exact Hl | fold ls; lia | exact Hvn | exact Hfresh
      | cbn; rewrite ?insert_insert_eq; reflexivity
      | destruct (Z.to_nat index) eqn:E; [lia | reflexivity]
      | fold ls; destruct (decide (Z.to_nat index = length ls)); [lia | reflexivity]
      | reflexivity
      | cbn; rewrite lookup_insert_ne, ?insert_insert_eq, lookup_insert_eq by congruence;
        fold ls; rewrite <- Hk; cbn; by rewrite Hnxpv
      | | | reflexivity | reflexivity | reflexivity | reflexivity ].
    - intros i a nd Hi Hnd'. cbn. fold ls in Hi.
      destruct (decide (S i = Z.to_nat index)) as [E|Hn'].
      + assert (a = pv) as -> by (replace i with (Z.to_nat (index - 1)) in Hi by lia;
                                  congruence).
        rewrite lookup_insert_eq. congruence.
      + assert (a <> pv).
        { eapply NoDup_lookup_ne; [exact Hnd | exact Hi | exact Hpv | lia]. }
        rewrite !lookup_insert_ne by (try congruence; symmetry; by eapply Hne).
        exact Hnd'.
    - intros a Hna Hnin. cbn. fold ls in Hnin.
      assert (a <> pv) by (intros ->; apply Hnin; by eapply list_elem_of_lookup_2).
      by rewrite !lookup_insert_ne by congruence. }
  split_and!; [exact Heff | by intros [] | split; [discriminate | lia] |].
  intros _. exists n, l. auto.
Qed.

Lemma singly_list_remove_ok h lp index s h1 :
  slists_ok h -> 0 <= index <= SIZE_MAX ->
  singly_list_remove (Some lp) index h = Ok s h1 ->
  sl_effect h h1 lp /\
  (s <> SUCCESS -> s = ERROR_INDEX_OUT_OF_BOUNDS /\ h1 = h) /\
  (s = ERROR_INDEX_OUT_OF_BOUNDS <->
   Z.of_nat (length (singly_list_nodes h lp)) <= index) /\
  (s = SUCCESS ->
   singly_list_nodes h1 lp = delete (Z.to_nat index) (singly_list_nodes h lp) /\
   singly_list_elements h1 lp = delete (Z.to_nat index) (singly_list_elements h lp)).
Proof.
  intros Hok Hidx H. unfold singly_list_remove in H.
  apply bind_inv in H as (l & h0 & E & H). minv E. rename E into Hl.
  cbn in Hl.
  destruct (slists_ok_repr h lp Hok) as (l' & Hl' & Hh & Ht & Hsz & Hlk); [eauto|].
  rewrite Hl in Hl'. injection Hl' as <-.
  set (ls := singly_list_nodes h lp) in *.
  destruct (Z.leb_spec (sl_size l) index) as [Hoob|Hin].
  { minv H. split_and!; [by apply sl_effect_refl | by intros _ | | discriminate].
    split; [lia | reflexivity]. }
  destruct (Z.eqb_spec index 0) as [->|Hn0].
  { apply bind_inv in H as ([s0 o] & h0 & H & Hr). minv Hr. cbn.
    apply singly_list_pop_front_ok in H as (Heff & Hfail & Hsucc); [|exact Hok].
    assert (s0 = SUCCESS) as ->.
    { destruct (decide (s0 = SUCCESS)) as [|Hs]; [assumption|].
      destruct (Hfail Hs) as (_ & _ & _ & E). fold ls in E. rewrite Hsz, E in Hin.
      cbn in Hin. lia. }
    split_and!; [exact Heff | by intros [] | split; [discriminate | lia] | exact Hsucc]. }
  pose proof (links_length_bound _ _ _ Hlk (proj1 Hok)) as Hbound.
  rewrite (to_size_t_small (index - 1)) in H by lia.
  rewrite (bind_Ok _ _ _ _ _ (get_node_at_repr h lp ls (index - 1)
             (ex_intro _ l (conj Hl (conj Hh (conj Ht (conj Hsz Hlk))))) ltac:(lia))) in H.
  destruct (lookup_lt_is_Some_2 ls (Z.to_nat (index - 1))) as [pv Hpv]; [lia|].
  destruct (lookup_lt_is_Some_2 ls (Z.to_nat index)) as [rm Hrm]; [lia|].
  rewrite Hpv in H.
  assert (S (Z.to_nat (index - 1)) = Z.to_nat index) as Hk by lia.
  destruct (Hlk _ _ Hpv) as ([dpv npv] & Hndpv & Hnxpv). cbn in Hnxpv.
  rewrite Hk, Hrm in Hnxpv. subst npv.
  destruct (Hlk _ _ Hrm) as ([drm nrm] & Hndrm & Hnxrm). cbn in Hnxrm.
  pose proof (links_NoDup _ _ _ Hlk) as Hnd.
  assert (pv <> rm) as Hpr.
  { eapply NoDup_lookup_ne; [exact Hnd | exact Hpv | exact Hrm | lia]. }
  assert (Some rm = sl_tail l <-> S (Z.to_nat index) = length ls) as Htl.
  { rewrite Ht, last_lookup. split.
    - intros E. symmetry in E.
      pose proof (NoDup_lookup _ _ _ _ Hnd Hrm E). lia.
    - intros E. rewrite <- Hrm. f_equal. lia. }
  run_in H.
  destruct (bool_decide (Some rm = sl_tail l)) eqn:Et;
    [apply bool_decide_eq_true in Et | apply bool_decide_eq_false in Et];
    run_in H; injection H as <- <-.
  all: match goal with |- sl_effect _ ?hf _ /\ _ =>
    assert (sl_effect h hf lp /\
            singly_list_nodes hf lp = delete (Z.to_nat index) ls /\
            singly_list_elements hf lp
            = delete (Z.to_nat index) (singly_list_elements h lp))
      as (Heff & Hnodes & Hel) end.
  1,3: eapply sl_remove_ok;
      [ exact Hok | exact Hl | exact Hrm
      | cbn; rewrite ?insert_insert_eq; reflexivity
      | destruct (Z.to_nat index) eqn:E; [lia | reflexivity]
      | fold ls; destruct (decide (S (Z.to_nat index) = length ls)) as [E|E];
        [ first [ rewrite <- Hk; cbn; by rewrite Hpv | by apply Htl in E ]
        | first [ reflexivity | by apply Htl in Et ] ]
      | reflexivity
      | cbn; by rewrite lookup_delete_eq
      | | | reflexivity | reflexivity | reflexivity | reflexivity ].
  all: try (split_and!; [exact Heff | by intros [] | split; [discriminate | lia]
                        | intros _; by split]).
  all: try (intros a Hnin; cbn; fold ls in Hnin;
            assert (a <> pv) by (intros ->; apply Hnin; by eapply list_elem_of_lookup_2);
            assert (a <> rm) by (intros ->; apply Hnin; by eapply list_elem_of_lookup_2);
            by rewrite lookup_delete_ne, lookup_insert_ne by congruence).
  all: intros i a nd Hi Hne Hnd'; cbn; fold ls in Hi |- *;
    (assert (a <> rm) by
        (eapply NoDup_lookup_ne; [exact Hnd | exact Hi | exact Hrm | exact Hne]));
    rewrite lookup_delete_ne by congruence;
    (destruct (decide (S i = Z.to_nat index)) as [E|Hn'];
     [ assert (a = pv) as -> by (replace i with (Z.to_nat (index - 1)) in Hi by lia;
                                 congruence);
       rewrite lookup_insert_eq, Hnxrm; congruence
     | assert (a <> pv) by
         (eapply NoDup_lookup_ne; [exact Hnd | exact Hi | exact Hpv | lia]);
       by rewrite lookup_insert_ne by congruence ]).
Qed.

(* ===================================================================== *)
(** * singly_list.c : create, clear, destroy *)
(* ===================================================================== *)

Lemma drop_nodes_lookup {N} (ls : list addr) (m : gmap addr N) a :
  drop_nodes ls m !! a = if decide (a ∈ ls) then None else m !! a.
Proof.
  unfold drop_nodes. revert m. induction ls as [|c ls IH]; intros m; cbn.
  - destruct (decide (a ∈ [])) as [Hin|]; [by apply elem_of_nil in Hin | reflexivity].
  - rewrite IH. destruct (decide (a ∈ ls)) as [Hin|Hnin].
    + rewrite decide_True by (by right). reflexivity.
    + destruct (decide (a = c)) as [->|Hne].
      * rewrite decide_True by (by left). by rewrite lookup_delete_eq.
      * rewrite decide_False by (rewrite elem_of_cons; tauto).
        by rewrite lookup_delete_ne.
Qed.

Lemma sl_empty_repr h lp l :
  slists h !! lp = Some l -> sl_head l = None -> sl_tail l = None -> sl_size l = 0 ->
  sl_repr h lp [].
Proof.
  intros Hl Hh Ht Hs. exists l. split_and!; auto. intros i a Hi. discriminate.
Qed.

Lemma singly_list_create_inv es h r h1 :
  singly_list_create es h = Ok r h1 ->
  match r with
  | None => contents h1 = contents h
  | Some lp =>
      es <> 0 /\ valid_addr lp = true /\ in_use h lp = false /\
      exists al, h1 = rset SLists (<[lp := mk_slist NULL NULL 0 es]> (slists h))
                        (set_allocator al h)
  end.
Proof.
  unfold singly_list_create. intros H. destruct (Z.eqb_spec es 0) as [->|Hes].
  { by minv H. }
  apply bind_inv in H as (list & h0 & Hm & H).
  apply malloc_inv in Hm as (al & Hm). destruct list as [lp|].
  2:{ minv H. subst. reflexivity. }
  destruct Hm as (Hv & Hu & junk & ->). run_in H. injection H as <- <-.
  split_and!; auto. exists al. cbn. by rewrite !insert_insert_eq.
Qed.

Lemma singly_list_create_ok es h r h1 :
  slists_ok h -> singly_list_create es h = Ok r h1 ->
  match r with
  | None => contents h1 = contents h
  | Some lp => slists h !! lp = None /\ sl_effect h h1 lp /\
               singly_list_nodes h1 lp = [] /\
               exists l, slists h1 !! lp = Some l /\ sl_element_size l = es
  end.
Proof.
  intros Hok H. apply singly_list_create_inv in H. destruct r as [lp|]; [|exact H].
  destruct H as (Hes & Hv & Hu & al & ->).
  apply in_use_false in Hu as (_ & _ & Hl & Hn & _).
  assert (sl_repr (rset SLists (<[lp:=mk_slist NULL NULL 0 es]> (slists h))
                     (set_allocator al h)) lp []) as Hrepr.
  { eapply sl_empty_repr; [cbn; apply lookup_insert_eq | reflexivity ..]. }
  split_and!; [exact Hl | | by apply sl_repr_nodes | eexists; split; [apply lookup_insert_eq | reflexivity]].
  unfold sl_effect. split_and!; try reflexivity.
  all: eapply slists_ok_update; [exact Hok | | | | | exact (proj1 Hok)].
  all: try (intros _; apply sl_inv_repr; eexists; exact Hrepr).
  all: try (intros lp' Hne; cbn; by apply lookup_insert_ne).
  all: try (intros a _ _; reflexivity).
  all: intros a Ha; rewrite (sl_repr_nodes _ _ _ Hrepr) in Ha; by apply elem_of_nil in Ha.
Qed.

Lemma singly_list_clear_loop_links fuel h ls :
  links sn_next (snodes h) ls ->
  singly_list_clear_loop fuel (head ls) h
  = if decide (length ls <= fuel)%nat
    then Ok tt (rset SNodes (drop_nodes ls (snodes h)) h)
    else OutOfFuel.
Proof.
  revert fuel h. induction ls as [|c ls IH]; intros fuel h Hlk.
  - destruct fuel; cbn; unfold ret; f_equal; by destruct h.
  - pose proof (links_NoDup _ _ _ Hlk) as Hnd. apply NoDup_cons in Hnd as [Hc Hnd].
    destruct (Hlk 0%nat c eq_refl) as (nd & Hndc & Hnx).
    change ((c :: ls) !! 1%nat) with (ls !! 0%nat) in Hnx. rewrite <- head_lookup in Hnx.
    destruct fuel as [|fuel]; [reflexivity|]. cbn [head singly_list_clear_loop].
    run. rewrite Hnx.
    rewrite IH.
    + cbn [length]. destruct (decide (length ls <= fuel)%nat);
        destruct (decide (S (length ls) <= S fuel)%nat); try lia; reflexivity.
    + cbn. intros i a Hi. destruct (Hlk (S i) a Hi) as (nd' & Hnd' & Hnx').
      exists nd'. split; [|exact Hnx']. rewrite lookup_delete_ne; [exact Hnd'|].
      intros ->. apply Hc. by eapply list_elem_of_lookup_2.
Qed.

Lemma singly_list_clear_ok fuel h lp u h1 :
  slists_ok h -> singly_list_clear fuel (Some lp) h = Ok u h1 ->
  sl_effect h h1 lp /\ singly_list_nodes h1 lp = [] /\
  exists l, slists h !! lp = Some l /\
            h1 = rset SLists (<[lp := mk_slist NULL NULL 0 (sl_element_size l)]> (slists h))
                   (rset SNodes (drop_nodes (singly_list_nodes h lp) (snodes h)) h).
Proof.
  intros Hok H. unfold singly_list_clear in H.
  apply bind_inv in H as (hd0 & h0 & E & H). minv E. rename E into Hl.
  destruct x as [hd tl sz es]. cbn in Hl. heap_simpl_in H.
  destruct (slists_ok_repr h lp Hok) as (l' & Hl' & Hh & Ht & Hsz & Hlk); [eauto|].
  rewrite Hl in Hl'. injection Hl' as <-. cbn in Hh, Ht, Hsz.
  set (ls := singly_list_nodes h lp) in *.
  apply bind_inv in H as (u0 & h0 & Hloop & H).
  rewrite Hh, singly_list_clear_loop_links in Hloop by exact Hlk.
  destruct (decide (length ls <= fuel)%nat); [|discriminate Hloop].
  injection Hloop as <- <-. run_in H. injection H as <- <-.
  match goal with |- sl_effect _ ?hf _ /\ _ => set (h1 := hf) end.
  assert (sl_repr h1 lp []) as Hrepr.
  { eapply sl_empty_repr; [subst h1; cbn; apply lookup_insert_eq | reflexivity ..]. }
  split_and!; [ | by apply sl_repr_nodes | ].
  - unfold sl_effect. split_and!; try reflexivity.
    all: eapply slists_ok_update; [exact Hok | | | | |].
    all: try (intros _; apply sl_inv_repr; eexists; exact Hrepr).
    all: try (intros lp' Hne; subst h1; cbn; by rewrite !lookup_insert_ne).
    all: try (intros a _ Hnin; subst h1; cbn; rewrite drop_nodes_lookup;
              fold ls in Hnin; by rewrite decide_False).
    all: try (intros a Ha; rewrite (sl_repr_nodes _ _ _ Hrepr) in Ha;
              by apply elem_of_nil in Ha).
    all: intros a Ha; subst h1; cbn in Ha; rewrite drop_nodes_lookup in Ha;
      destruct (decide (a ∈ ls)); [by destruct Ha | by apply (proj1 Hok)].
  - eexists. split; [exact Hl|]. subst h1. cbn. by rewrite !insert_insert_eq.
Qed.

Lemma singly_list_destroy_ok fuel h lp u h1 :
  slists_ok h -> singly_list_destroy fuel (Some lp) h = Ok u h1 ->
  sl_effect h h1 lp /\ slists h1 !! lp = None.
Proof.
  intros Hok H. unfold singly_list_destroy in H.
  apply bind_inv in H as (u0 & h0 & Hc & H).
  apply singly_list_clear_ok in Hc as (_ & _ & l & Hl & ->); [|exact Hok].
  set (ls := singly_list_nodes h lp) in *.
  run_in H. injection H as <- <-.
  match goal with |- sl_effect _ ?hf _ /\ _ => set (h1 := hf) end.
  assert (slists h1 !! lp = None) as Hdead by (subst h1; cbn; apply lookup_delete_eq).
  split; [|exact Hdead].
  unfold sl_effect. split_and!; try reflexivity.
  all: eapply slists_ok_update; [exact Hok | | | | |].
  all: try (intros Hs; rewrite Hdead in Hs; by destruct Hs).
  all: try (intros lp' Hne; subst h1; cbn; by rewrite lookup_delete_ne, lookup_insert_ne).
  all: try (intros a _ Hnin; subst h1; cbn; rewrite drop_nodes_lookup;
            fold ls in Hnin; by rewrite decide_False).
  all: try (intros a Ha; rewrite singly_list_nodes_dead in Ha by exact Hdead;
            by apply elem_of_nil in Ha).
  all: intros a Ha; subst h1; cbn in Ha; rewrite drop_nodes_lookup in Ha;
    destruct (decide (a ∈ ls)); [by destruct Ha | by apply (proj1 Hok)].
Qed.

(* ===================================================================== *)
(** * singly_list.c : the functions that only read *)
(* ===================================================================== *)

Lemma sl_forward_pure n cur h r h1 : sl_forward n cur h = Ok r h1 -> h1 = h.
Proof.
  revert cur h. induction n as [|n IH]; intros cur h H; destruct cur as [c|]; cbn in H;
    try (by minv H).
  apply bind_inv in H as (nd & h0 & E & H). minv E. by apply IH in H.
Qed.

Lemma get_node_at_pure list index h r h1 : get_node_at list index h = Ok r h1 -> h1 = h.
Proof.
  unfold get_node_at. intros H. destruct list as [lp|]; [|by minv H].
  apply bind_inv in H as (l & h0 & E & H). minv E.
  destruct (sl_size l <=? index); [by minv H|]. by apply sl_forward_pure in H.
Qed.

Lemma singly_list_get_pure list index output h r h1 :
  singly_list_get list index output h = Ok r h1 -> h1 = h.
Proof.
  unfold singly_list_get. intros H.
  destruct list as [lp|], output as [out|]; try (by minv H).
  apply bind_inv in H as (node & h0 & E & H). apply get_node_at_pure in E as ->.
  destruct node as [n|]; [|by minv H].
  apply bind_inv in H as (d & h0 & E & H). minv E.
  apply bind_inv in H as (es & h0 & E' & H). minv E'.
  apply bind_inv in H as (o & h0 & E'' & H). apply copy_out_inv in E'' as [-> _].
  by minv H.
Qed.

Lemma singly_list_find_loop_pure n i cur e cmp h r h1 :
  singly_list_find_loop n i cur e cmp h = Ok r h1 -> h1 = h.
Proof.
  revert i cur h. induction n as [|n IH]; intros i cur h H; destruct cur as [c|];
    cbn in H; try (by minv H).
  apply bind_inv in H as (nd & h0 & E & H). minv E.
  destruct (cmp (sn_data nd) e =? 0); [by minv H|]. by apply IH in H.
Qed.

Lemma singly_list_find_pure list e cmp h r h1 :
  singly_list_find list e cmp h = Ok r h1 -> h1 = h.
Proof.
  unfold singly_list_find. intros H.
  destruct list as [lp|], e as [e|], cmp as [c|]; try (by minv H).
  apply bind_inv in H as (l & h0 & E & H). minv E.
  by apply singly_list_find_loop_pure in H.
Qed.

Lemma singly_list_contains_pure list e cmp h r h1 :
  singly_list_contains list e cmp h = Ok r h1 -> h1 = h.
Proof.
  unfold singly_list_contains. intros H.
  apply bind_inv in H as (x & h0 & E & H). apply singly_list_find_pure in E as ->.
  by minv H.
Qed.

Lemma singly_list_get_ref_pure list index h r h1 :
  singly_list_get_ref list index h = Ok r h1 -> h1 = h.
Proof.
  unfold singly_list_get_ref. intros H.
  apply bind_inv in H as (nd & h0 & E & H). apply get_node_at_pure in E as ->.
  destruct nd as [n|]; [|by minv H].
  apply bind_inv in H as (x0 & h0 & E2 & H). minv E2. by minv H.
Qed.

Lemma singly_list_front_pure list h r h1 : singly_list_front list h = Ok r h1 -> h1 = h.
Proof.
  unfold singly_list_front. intros H. destruct list as [lp|]; [|by minv H].
  apply bind_inv in H as (nd & h0 & E & H). minv E.
  destruct (sl_head _) as [n|]; [|by minv H].
  apply bind_inv in H as (x0 & h0 & E2 & H). minv E2. by minv H.
Qed.

Lemma singly_list_back_pure list h r h1 : singly_list_back list h = Ok r h1 -> h1 = h.
Proof.
  unfold singly_list_back. intros H. destruct list as [lp|]; [|by minv H].
  apply bind_inv in H as (nd & h0 & E & H). minv E.
  destruct (sl_tail _) as [n|]; [|by minv H].
  apply bind_inv in H as (x0 & h0 & E2 & H). minv E2. by minv H.
Qed.

Lemma singly_list_size_pure list h r h1 : singly_list_size list h = Ok r h1 -> h1 = h.
Proof. unfold singly_list_size. intros H. destruct list; by minv H. Qed.

Lemma singly_list_empty_pure list h r h1 : singly_list_empty list h = Ok r h1 -> h1 = h.
Proof.
  unfold singly_list_empty. intros H. destruct list; [|by minv H].
  apply bind_inv in H as (x & h0 & E & H). minv E. by minv H.
Qed.

Lemma singly_list_iter_create_pure list h r h1 :
  singly_list_iter_create list h = Ok r h1 -> h1 = h.
Proof.
  unfold singly_list_iter_create. intros H.
  apply bind_inv in H as (x & h0 & E & H). minv H. destruct list; by minv E.
Qed.

Lemma singly_list_iter_next_pure iter output h r h1 :
  singly_list_iter_next iter output h = Ok r h1 -> h1 = h.
Proof.
  unfold singly_list_iter_next. intros H. destruct iter as [it|]; [|by minv H].
  destruct (sli_current it) as [c|]; [|by minv H].
  apply bind_inv in H as (o & h0 & E & H).
  assert (h0 = h) as ->.
  { unfold sl_iter_copy_out in E. destruct output as [out|]; [|by minv E].
    apply bind_inv in E as (d & h2 & E1 & E). minv E1.
    apply bind_inv in E as (es & h2 & E2 & E).
    assert (h2 = h) as -> by (destruct (sli_list it); [by minv E2 | discriminate E2]).
    by apply copy_out_inv in E as [-> _]. }
  apply bind_inv in H as (nx & h0 & E' & H). minv E'. by minv H.
Qed.

(* ===================================================================== *)
(** * singly_list.c : set, reverse, swap *)
(* ===================================================================== *)

Lemma links_update {N} (nxt : N -> ptr) (m m' : gmap addr N) ls :
  links nxt m ls ->
  (forall a nd, a ∈ ls -> m !! a = Some nd ->
                exists nd', m' !! a = Some nd' /\ nxt nd' = nxt nd) ->
  links nxt m' ls.
Proof.
  intros Hlk Hupd i a Hi. destruct (Hlk _ _ Hi) as (nd & Hnd & Hnx).
  destruct (Hupd a nd) as (nd' & Hnd' & Hnx'); [by eapply list_elem_of_lookup_2 | exact Hnd|].
  exists nd'. split; [exact Hnd' | congruence].
Qed.

Lemma singly_list_set_ok h lp index e s h1 :
  slists_ok h -> 0 <= index ->
  singly_list_set (Some lp) index (Some e) h = Ok s h1 ->
  sl_effect h h1 lp /\
  (s <> SUCCESS -> s = ERROR_INDEX_OUT_OF_BOUNDS /\ h1 = h) /\
  (s = ERROR_INDEX_OUT_OF_BOUNDS <->
   Z.of_nat (length (singly_list_nodes h lp)) <= index) /\
  (s = SUCCESS -> singly_list_nodes h1 lp = singly_list_nodes h lp).
Proof.
  intros Hok Hidx H. unfold singly_list_set in H.
  pose proof (slists_ok_repr h lp Hok) as Hrepr.
  destruct (slists h !! lp) as [l|] eqn:Hl.
  2:{ unfold get_node_at, bind, load in H. cbn in H. rewrite Hl in H. discriminate H. }
  specialize (Hrepr ltac:(eauto)). set (ls := singly_list_nodes h lp) in *.
  rewrite (bind_Ok _ _ _ _ _ (get_node_at_repr h lp ls index Hrepr Hidx)) in H.
  destruct Hrepr as (l' & Hl' & Hh & Ht & Hsz & Hlk). assert (l' = l) by congruence.
  subst l'.
  destruct (ls !! Z.to_nat index) as [n|] eqn:Hn.
  2:{ minv H. apply lookup_ge_None in Hn.
      split_and!; [by apply sl_effect_refl | by intros _ | | discriminate].
      split; [lia | reflexivity]. }
  pose proof (lookup_lt_Some _ _ _ Hn) as Hlt.
  destruct (Hlk _ _ Hn) as (nd & Hnd & Hnx). run_in H.
  destruct (mem_copy (sn_data nd) e (sl_element_size l)) as [d'|]; [|discriminate H].
  run_in H. injection H as <- <-.
  match goal with |- sl_effect _ ?hf _ /\ _ => set (h1 := hf) end.
  assert (sl_repr h1 lp ls) as Hrepr.
  { exists l. split_and!; auto. eapply links_update; [exact Hlk|].
    intros a nda Ha Hnda. subst h1. cbn. destruct (decide (a = n)) as [->|Hne].
    - rewrite lookup_insert_eq. eexists. split; [reflexivity|]. cbn. congruence.
    - rewrite lookup_insert_ne by congruence. eauto. }
  split_and!; [ | by intros [] | split; [discriminate | lia]
              | intros _; by apply sl_repr_nodes ].
  unfold sl_effect. split_and!; try reflexivity.
  all: eapply slists_ok_update; [exact Hok | | | | |].
  all: try (intros _; apply sl_inv_repr; eexists; exact Hrepr).
  all: try (intros lp' Hne; reflexivity).
  all: try (intros a _ Hnin; subst h1; cbn; fold ls in Hnin;
            rewrite lookup_insert_ne; [reflexivity|]; intros <-; apply Hnin;
            by eapply list_elem_of_lookup_2).
  all: try (intros a Ha; rewrite (sl_repr_nodes _ _ _ Hrepr) in Ha; by left).
  all: intros a Ha; apply (proj1 Hok); subst h1; cbn in Ha;
    destruct (decide (a = n)) as [->|Hne];
    [eauto | by rewrite lookup_insert_ne in Ha by congruence].
Qed.

Lemma rev_links_lookup p ls m a :
  NoDup ls ->
  (forall i, ls !! i = Some a ->
             rev_links p ls m !! a
             = set_sn_next (match i with O => p | S j => ls !! j end) <$> m !! a) /\
  (a ∉ ls -> rev_links p ls m !! a = m !! a).
Proof.
  revert p m. induction ls as [|c ls IH]; intros p m Hnd.
  { split; [intros i Hi; discriminate | reflexivity]. }
  apply NoDup_cons in Hnd as [Hc Hnd]. cbn [rev_links].
  destruct (IH (Some c) (alter (set_sn_next p) c m) Hnd) as [IH1 IH2]. split.
  - intros [|i] Hi; cbn in Hi.
    + injection Hi as <-. rewrite IH2 by exact Hc. by rewrite lookup_alter_eq.
    + assert (c <> a) by (intros ->; apply Hc; by eapply list_elem_of_lookup_2).
      rewrite (IH1 i Hi), lookup_alter_ne by assumption. by destruct i.
  - intros Hnin. apply not_elem_of_cons in Hnin as [Hne Hnin].
    rewrite IH2 by exact Hnin. by rewrite lookup_alter_ne.
Qed.

Lemma singly_list_reverse_loop_links fuel h p ls :
  links sn_next (snodes h) ls ->
  singly_list_reverse_loop fuel p (head ls) h
  = if decide (length ls <= fuel)%nat
    then Ok (match last ls with Some t => Some t | None => p end)
            (rset SNodes (rev_links p ls (snodes h)) h)
    else OutOfFuel.
Proof.
  revert fuel p h. induction ls as [|c ls IH]; intros fuel p h Hlk.
  - destruct fuel; cbn; unfold ret; f_equal; by destruct h.
  - pose proof (links_NoDup _ _ _ Hlk) as Hnd. apply NoDup_cons in Hnd as [Hc Hnd].
    destruct (Hlk 0%nat c eq_refl) as (nd & Hndc & Hnx).
    change ((c :: ls) !! 1%nat) with (ls !! 0%nat) in Hnx. rewrite <- head_lookup in Hnx.
    destruct fuel as [|fuel]; [reflexivity|]. cbn [head singly_list_reverse_loop].
    run. rewrite Hnx. rewrite IH.
    + cbn [length rev_links]. rewrite (alter_alt_Some _ _ _ _ Hndc).
      destruct (decide (length ls <= fuel)%nat);
        destruct (decide (S (length ls) <= S fuel)%nat); try lia; [|reflexivity].
      f_equal. rewrite last_cons. by destruct (last ls).
    + cbn. intros i a Hi. destruct (Hlk (S i) a Hi) as (nd' & Hnd' & Hnx').
      exists nd'. split; [|exact Hnx']. rewrite lookup_insert_ne; [exact Hnd'|].
      intros ->. apply Hc. by eapply list_elem_of_lookup_2.
Qed.

Lemma reverse_links_sn m m' ls :
  links sn_next m ls -> NoDup ls ->
  (forall i a nd, ls !! i = Some a -> m !! a = Some nd ->
                  exists nd', m' !! a = Some nd' /\ sn_next nd' = pred_of ls i) ->
  links sn_next m' (reverse ls).
Proof.
  intros Hlk Hnd Hrev j a Hj. apply reverse_lookup_Some in Hj as [Hj Hlt].
  destruct (Hlk _ _ Hj) as (nd & Hndm & _).
  destruct (Hrev _ _ _ Hj Hndm) as (nd' & Hnd' & Hnx). exists nd'.
  split; [exact Hnd'|]. rewrite Hnx.
  destruct (decide (S j < length ls)%nat) as [Hlt'|Hge].
  - rewrite reverse_lookup by exact Hlt'.
    replace (length ls - S j)%nat with (S (length ls - S (S j))) by lia. reflexivity.
  - replace (length ls - S j)%nat with 0%nat by lia. cbn. symmetry.
    apply lookup_ge_None. rewrite length_reverse. lia.
Qed.

Lemma singly_list_reverse_ok fuel h lp s h1 :
  slists_ok h -> singly_list_reverse fuel (Some lp) h = Ok s h1 ->
  s = SUCCESS /\ sl_effect h h1 lp /\
  singly_list_nodes h1 lp = reverse (singly_list_nodes h lp) /\
  singly_list_elements h1 lp = reverse (singly_list_elements h lp).
Proof.
  intros Hok H. unfold singly_list_reverse in H.
  apply bind_inv in H as (l & h0 & E & H). minv E. rename E into Hl. cbn in Hl.
  destruct (slists_ok_repr h lp Hok) as (l' & Hl' & Hh & Ht & Hsz & Hlk); [eauto|].
  rewrite Hl in Hl'. injection Hl' as <-.
  set (ls := singly_list_nodes h lp) in *.
  destruct (Z.leb_spec (sl_size l) 1) as [Hsmall|Hbig].
  { minv H. assert (reverse ls = ls) as Hrev.
    { destruct ls as [|a [|b ls']]; cbn in *; try reflexivity; lia. }
    split_and!; [reflexivity | by apply sl_effect_refl | by rewrite Hrev |].
    unfold singly_list_elements. fold ls. by rewrite <- fmap_reverse, Hrev. }
  destruct l as [hd tl sz es]. cbn in Hh, Ht, Hsz, Hbig. run_in H.
  apply bind_inv in H as (prev & h0 & Hloop & H). rewrite Hh in Hloop.
  rewrite singly_list_reverse_loop_links in Hloop by exact Hlk.
  destruct (decide (length ls <= fuel)%nat); [|discriminate Hloop].
  injection Hloop as <- <-. run_in H. injection H as <- <-.
  pose proof (links_NoDup _ _ _ Hlk) as Hnd.
  match goal with |- _ /\ sl_effect _ ?hf _ /\ _ => set (h1 := hf) end.
  assert (forall i a nd, ls !! i = Some a -> snodes h !! a = Some nd ->
            snodes h1 !! a = Some (set_sn_next (pred_of ls i) nd)) as Hrev.
  { intros i a nd Hi Hndm. subst h1. cbn.
    destruct (rev_links_lookup NULL ls (snodes h) a Hnd) as [Hx _].
    rewrite (Hx i Hi), Hndm. cbn. by destruct i. }
  assert (forall a, a ∉ ls -> snodes h1 !! a = snodes h !! a) as Hkeep.
  { intros a Ha. subst h1. cbn.
    destruct (rev_links_lookup NULL ls (snodes h) a Hnd) as [_ Hx]. by apply Hx. }
  assert (sl_repr h1 lp (reverse ls)) as Hrepr.
  { eexists. split; [subst h1; cbn; rewrite insert_insert_eq; apply lookup_insert_eq|].
    cbn. split_and!.
    - rewrite head_reverse. by destruct (last ls).
    - by rewrite last_reverse.
    - by rewrite length_reverse.
    - eapply reverse_links_sn; [exact Hlk | exact Hnd|].
      intros i a nd Hi Hndm. exists (set_sn_next (pred_of ls i) nd).
      split; [exact (Hrev i a nd Hi Hndm) | reflexivity]. }
  pose proof (sl_repr_nodes _ _ _ Hrepr) as Hnodes.
  split_and!; [reflexivity | | exact Hnodes |].
  - unfold sl_effect. split_and!; try reflexivity.
    all: eapply slists_ok_update; [exact Hok | | | | |].
    all: try (intros _; apply sl_inv_repr; eexists; exact Hrepr).
    all: try (intros lp' Hne; subst h1; cbn; by rewrite !lookup_insert_ne).
    all: try (intros a _ Hnin; by apply Hkeep).
    all: try (intros a Ha; rewrite Hnodes in Ha; left; by apply elem_of_reverse).
    all: intros a Ha; apply (proj1 Hok); destruct (decide (a ∈ ls)) as [Hin|Hnin];
      [by eapply links_in_dom | by rewrite <- Hkeep].
  - unfold singly_list_elements. rewrite Hnodes. fold ls. rewrite fmap_reverse. f_equal.
    apply list_fmap_ext. intros i a Hi. unfold sn_data_at.
    destruct (Hlk _ _ Hi) as (nd & Hndm & _). by rewrite (Hrev i a nd Hi Hndm), Hndm.
Qed.

(** With fuel for every node, [singly_list_reverse] returns. *)
Lemma singly_list_reverse_run fuel h lp :
  slists_ok h -> is_Some (slists h !! lp) ->
  (length (singly_list_nodes h lp) <= fuel)%nat ->
  exists h1, singly_list_reverse fuel (Some lp) h = Ok SUCCESS h1.
Proof.
  intros Hok Hl Hfuel. destruct (slists_ok_repr h lp Hok Hl) as (l & Hl' & Hh & _ & _ & Hlk).
  enough (forall o, singly_list_reverse fuel (Some lp) h = o ->
                    exists h1, o = Ok SUCCESS h1) as X by (by eapply X).
  intros o E. unfold singly_list_reverse in E. run_in E.
  destruct (sl_size l <=? 1); [subst o; by eexists|].
  run_in E. rewrite Hh in E.
  erewrite (bind_Ok (singly_list_reverse_loop _ _ _)) in E.
  2:{ rewrite singly_list_reverse_loop_links by exact Hlk.
      rewrite decide_True by exact Hfuel. reflexivity. }
  run_in E. subst o. by eexists.
Qed.

Lemma sl_effect_trans h h0 h1 lp :
  sl_effect h h0 lp -> sl_effect h0 h1 lp -> sl_effect h h1 lp.
Proof.
  intros (_ & Hf1 & ? & ? & ? & ?) (Hok & Hf2 & ? & ? & ? & ?).
  split_and!; try congruence. intros lp' Hne.
  destruct (Hf1 lp' Hne) as (? & ? & ?). destruct (Hf2 lp' Hne) as (? & ? & ?).
  split_and!; congruence.
Qed.

(** Renaming the lists of a store keeps it well formed. *)
Lemma slists_ok_permute h h1 (f : addr -> addr) :
  slists_ok h -> snodes h1 = snodes h ->
  (forall lp, slists h1 !! lp = slists h !! f lp) ->
  (forall lp lp', f lp = f lp' -> lp = lp') ->
  slists_ok h1 /\ forall lp, singly_list_nodes h1 lp = singly_list_nodes h (f lp) /\
                             singly_list_elements h1 lp = singly_list_elements h (f lp).
Proof.
  intros (Hv & Hall & Hdisj) En El Hinj.
  assert (forall lp, singly_list_nodes h1 lp = singly_list_nodes h (f lp)) as Hn.
  { intros lp. unfold singly_list_nodes. by rewrite El, En. }
  split; [split_and!|].
  - by rewrite En.
  - intros lp Hl. rewrite El in Hl. specialize (Hall _ Hl).
    unfold sl_inv in *. by rewrite El, En.
  - intros lp lp' a Hne. rewrite !Hn. apply Hdisj. intros E. by apply Hne, Hinj.
  - intros lp. split; [apply Hn|].
    unfold singly_list_elements, sn_data_at. by rewrite Hn, En.
Qed.

Ltac lookup_simpl :=
  repeat first [ rewrite lookup_insert_eq | rewrite lookup_insert_ne by congruence ].

Lemma singly_list_swap_ok h a b u h1 :
  slists_ok h -> singly_list_swap (Some a) (Some b) h = Ok u h1 ->
  slists_ok h1 /\
  vectors h1 = vectors h /\ buffers h1 = buffers h /\
  dlists h1 = dlists h /\ dnodes h1 = dnodes h /\
  forall lp, singly_list_elements h1 lp
             = singly_list_elements h (if decide (lp = a) then b
                                       else if decide (lp = b) then a else lp).
Proof.
  intros Hok H. unfold singly_list_swap in H.
  destruct (slists h !! a) as [[ha ta sa ea]|] eqn:Hla.
  2:{ unfold bind, field, bind, load in H. cbn in H. rewrite Hla in H. discriminate H. }
  destruct (slists h !! b) as [[hb tb sb eb]|] eqn:Hlb.
  2:{ run_in H. unfold bind, field, bind, load in H. cbn in H. rewrite Hlb in H.
      discriminate H. }
  set (f := fun lp => if decide (lp = a) then b else if decide (lp = b) then a else lp).
  assert (forall lp lp', f lp = f lp' -> lp = lp') as Hinj.
  { intros lp lp'. unfold f. repeat destruct (decide _); congruence. }
  destruct (decide (a = b)) as [->|Hne].
  - assert (ha = hb /\ ta = tb /\ sa = sb /\ ea = eb) as (-> & -> & -> & ->)
      by (split_and!; congruence).
    run_in H. injection H as <- <-.
    match goal with |- slists_ok ?hf /\ _ => set (h1 := hf) end.
    destruct (slists_ok_permute h h1 f Hok) as [Hok1 Hel]; [reflexivity | | exact Hinj |].
    { intros lp. subst h1 f. cbn. rewrite !insert_insert_eq.
      destruct (decide (lp = b)) as [->|]; [by rewrite lookup_insert_eq|].
      by rewrite lookup_insert_ne. }
    split_and!; try reflexivity; [exact Hok1|]. intros lp. apply Hel.
  - run_in H. injection H as <- <-.
    match goal with |- slists_ok ?hf /\ _ => set (h1 := hf) end.
    destruct (slists_ok_permute h h1 f Hok) as [Hok1 Hel]; [reflexivity | | exact Hinj |].
    { intros lp. subst h1 f. cbn.
      destruct (decide (lp = a)) as [->|]; [|destruct (decide (lp = b)) as [->|]];
        lookup_simpl; first [by rewrite Hla | by rewrite Hlb | reflexivity]. }
    split_and!; try reflexivity; [exact Hok1|]. intros lp. apply Hel.
Qed.

Lemma singly_list_copy_loop_ok fuel fuel0 cur dest h r h1 :
  slists_ok h -> singly_list_copy_loop fuel fuel0 cur dest h = Ok r h1 ->
  sl_effect h h1 dest /\ (r = NULL \/ r = Some dest).
Proof.
  revert cur h. induction fuel as [|fuel IH]; intros cur h Hok H;
    destruct cur as [c|]; cbn in H; try discriminate H.
  1,3: minv H; split; [by apply sl_effect_refl | by right].
  apply bind_inv in H as (d & h0 & E & H). minv E.
  apply bind_inv in H as (res & h0 & Hp & H).
  apply singly_list_push_back_ok in Hp as (Heff & _); [|exact Hok].
  destruct (negb (is_success res)).
  - apply bind_inv in H as (u & h2 & Hd & H). minv H.
    apply singly_list_destroy_ok in Hd as [Heff' _]; [|exact (proj1 Heff)].
    split; [by eapply sl_effect_trans | by left].
  - apply bind_inv in H as (nx & h2 & E' & H). minv E'.
    apply IH in H as [Heff' Hr]; [|exact (proj1 Heff)].
    split; [by eapply sl_effect_trans | exact Hr].
Qed.

Lemma singly_list_copy_ok fuel src h r h1 :
  slists_ok h -> singly_list_copy fuel src h = Ok r h1 ->
  slists_ok h1 /\
  vectors h1 = vectors h /\ buffers h1 = buffers h /\
  dlists h1 = dlists h /\ dnodes h1 = dnodes h /\
  forall lp, is_Some (slists h !! lp) ->
             slists h1 !! lp = slists h !! lp /\
             singly_list_elements h1 lp = singly_list_elements h lp.
Proof.
  intros Hok H. unfold singly_list_copy in H. destruct src as [sp|].
  2:{ minv H. split_and!; try reflexivity; [exact Hok | by intros]. }
  apply bind_inv in H as (es & h0 & E & H). minv E.
  apply bind_inv in H as (dest & h0 & Hc & H).
  apply singly_list_create_ok in Hc; [|exact Hok]. destruct dest as [dp|].
  2:{ apply ret_inv in H as [<- <-]. split; [by eapply slists_ok_contents|].
      apply contents_inv in Hc as (? & ? & Es & En & ? & ?). split_and!; try assumption.
      intros lp _. unfold singly_list_elements, singly_list_nodes, sn_data_at.
      by rewrite Es, En. }
  destruct Hc as (Hfresh & Heff & _).
  apply bind_inv in H as (cur & h2 & E' & H). minv E'.
  apply singly_list_copy_loop_ok in H as [Heff' _]; [|exact (proj1 Heff)].
  destruct (sl_effect_trans _ _ _ _ Heff Heff') as (Hok1 & Hfr & ? & ? & ? & ?).
  split_and!; try assumption. intros lp Hl.
  assert (lp <> dp) by (intros ->; rewrite Hfresh in Hl; by destruct Hl).
  destruct (Hfr lp) as (? & _ & ?); auto.
Qed.

Lemma singly_list_iter_remove_ok h it lp s h1 :
  slists_ok h -> sli_list it = Some lp ->
  singly_list_iter_remove (Some it) h = Ok s h1 ->
  sl_effect h h1 lp /\
  (s <> SUCCESS ->
   (s = ERROR_INVALID_INPUT \/ s = ERROR_INDEX_OUT_OF_BOUNDS) /\ h1 = h).
Proof.
  intros Hok Hlp H. unfold singly_list_iter_remove in H. rewrite Hlp in H.
  destruct (sli_position it =? 0).
  { minv H. split; [by apply sl_effect_refl | by intros _; split; [left|]]. }
  apply singly_list_remove_ok in H as (Heff & Hfail & _);
    [ | exact Hok | apply to_size_t_range ].
  split; [exact Heff|]. intros Hs. destruct (Hfail Hs) as [-> ->]. by split; [right|].
Qed.

(* ===================================================================== *)
(** * Running out of fuel *)
(* ===================================================================== *)

(** Only the unbounded loops consume fuel: every other computation
    returns or faults. *)
Lemma bind_noof {A B} (m : M A) (k : A -> M B) h :
  m h <> OutOfFuel -> (forall a h', m h = Ok a h' -> k a h' <> OutOfFuel) ->
  bind m k h <> OutOfFuel.
Proof. unfold bind. intros Hm Hk. destruct (m h); [by apply Hk | discriminate | done]. Qed.

Lemma ret_noof {A} (a : A) h : ret a h <> OutOfFuel.
Proof. discriminate. Qed.

Lemma fault_noof {A} h : @fault A h <> OutOfFuel.
Proof. discriminate. Qed.

Lemma load_noof {T} (R : region T) p h : load R p h <> OutOfFuel.
Proof. unfold load. by destruct (rget R h !! p). Qed.

Lemma store_noof {T} (R : region T) p x h : store R p x h <> OutOfFuel.
Proof. unfold store. by destruct (rget R h !! p). Qed.

Lemma free_noof {T} (R : region T) p h : free R p h <> OutOfFuel.
Proof. unfold free. by destruct (rget R h !! p). Qed.

Lemma mem_free_noof {T} (R : region T) p h : mem_free R p h <> OutOfFuel.
Proof. destruct p; [apply free_noof | discriminate]. Qed.

Lemma field_noof {T A} (R : region T) p (f : T -> A) h : field R p f h <> OutOfFuel.
Proof. unfold field, bind, load. by destruct (rget R h !! p). Qed.

Lemma modify_noof {T} (R : region T) p f h : modify R p f h <> OutOfFuel.
Proof.
  unfold modify. apply bind_noof; [apply load_noof|]. intros. apply store_noof.
Qed.

Lemma next_answer_noof h : next_answer h <> OutOfFuel.
Proof. unfold next_answer. by destruct (allocator h). Qed.

Lemma malloc_noof {T} (R : region T) init h : malloc R init h <> OutOfFuel.
Proof.
  unfold malloc. apply bind_noof; [apply next_answer_noof|].
  intros [[p junk]|] h' _; [|discriminate].
  by destruct (valid_addr p && negb (in_use h' p)).
Qed.

Lemma mem_alloc_data_noof size h : mem_alloc_data size h <> OutOfFuel.
Proof.
  unfold mem_alloc_data. destruct (size =? 0); [discriminate|].
  apply bind_noof; [apply next_answer_noof|]. by intros [[p junk]|] h' _.
Qed.

Lemma copy_out_noof output d es h : copy_out output d es h <> OutOfFuel.
Proof.
  unfold copy_out. destruct output; [|discriminate]. by destruct (mem_copy _ _ _).
Qed.

Lemma when_noof b m h : m h <> OutOfFuel -> when b m h <> OutOfFuel.
Proof. destruct b; [done | discriminate]. Qed.

(** Taking a straight-line computation apart. *)
Ltac noof_step :=
  lazymatch goal with
  | |- bind _ _ _ <> OutOfFuel => apply bind_noof; [|intros ? ? _]
  | |- ret _ _ <> OutOfFuel => apply ret_noof
  | |- fault _ <> OutOfFuel => apply fault_noof
  | |- load _ _ _ <> OutOfFuel => apply load_noof
  | |- store _ _ _ _ <> OutOfFuel => apply store_noof
  | |- free _ _ _ <> OutOfFuel => apply free_noof
  | |- mem_free _ _ _ <> OutOfFuel => apply mem_free_noof
  | |- field _ _ _ _ <> OutOfFuel => apply field_noof
  | |- modify _ _ _ _ <> OutOfFuel => apply modify_noof
  | |- malloc _ _ _ <> OutOfFuel => apply malloc_noof
  | |- mem_alloc_data _ _ <> OutOfFuel => apply mem_alloc_data_noof
  | |- copy_out _ _ _ _ <> OutOfFuel => apply copy_out_noof
  | |- when _ _ _ <> OutOfFuel => apply when_noof
  | |- destroy_node _ _ <> OutOfFuel => apply mem_free_noof
  | |- destroy_doubly_node _ _ <> OutOfFuel => apply mem_free_noof
  | |- (if ?b then _ else _) _ <> OutOfFuel => destruct b
  | |- (match ?x with _ => _ end) _ <> OutOfFuel => destruct x
  | |- Ok _ _ <> OutOfFuel => discriminate
  | |- Fault <> OutOfFuel => discriminate
  end.

Ltac noof := repeat noof_step.

(* ===================================================================== *)
(** * singly_list.c never runs out of fuel outside its loops *)
(* ===================================================================== *)

Lemma create_node_noof data es h : create_node data es h <> OutOfFuel.
Proof. unfold create_node. noof. Qed.

Lemma sl_forward_noof n cur h : sl_forward n cur h <> OutOfFuel.
Proof.
  revert cur h. induction n as [|n IH]; intros cur h; destruct cur; cbn; noof.
  apply IH.
Qed.

Lemma get_node_at_noof list index h : get_node_at list index h <> OutOfFuel.
Proof. unfold get_node_at. noof. apply sl_forward_noof. Qed.

Lemma singly_list_create_noof es h : singly_list_create es h <> OutOfFuel.
Proof. unfold singly_list_create. noof. Qed.

Lemma singly_list_push_front_noof list e h : singly_list_push_front list e h <> OutOfFuel.
Proof. unfold singly_list_push_front. noof. apply create_node_noof. Qed.

Lemma singly_list_push_back_noof list e h : singly_list_push_back list e h <> OutOfFuel.
Proof. unfold singly_list_push_back. noof. apply create_node_noof. Qed.

Lemma singly_list_pop_front_noof list out h : singly_list_pop_front list out h <> OutOfFuel.
Proof. unfold singly_list_pop_front. noof. Qed.

Lemma singly_list_insert_noof list i e h : singly_list_insert list i e h <> OutOfFuel.
Proof.
  unfold singly_list_insert. noof;
    first [ apply singly_list_push_front_noof | apply singly_list_push_back_noof
          | apply get_node_at_noof | apply create_node_noof ].
Qed.

Lemma singly_list_remove_noof list i h : singly_list_remove list i h <> OutOfFuel.
Proof.
  unfold singly_list_remove. noof;
    first [ apply singly_list_pop_front_noof | apply get_node_at_noof ].
Qed.

Lemma singly_list_get_noof list i out h : singly_list_get list i out h <> OutOfFuel.
Proof. unfold singly_list_get. noof. apply get_node_at_noof. Qed.

Lemma singly_list_set_noof list i e h : singly_list_set list i e h <> OutOfFuel.
Proof. unfold singly_list_set. noof. apply get_node_at_noof. Qed.

Lemma singly_list_get_ref_noof list index h : singly_list_get_ref list index h <> OutOfFuel.
Proof.
  unfold singly_list_get_ref. apply bind_noof; [apply get_node_at_noof|].
  intros [n|] ? _; noof.
Qed.

Lemma singly_list_front_noof list h : singly_list_front list h <> OutOfFuel.
Proof. unfold singly_list_front. noof. Qed.

Lemma singly_list_back_noof list h : singly_list_back list h <> OutOfFuel.
Proof. unfold singly_list_back. noof. Qed.

Lemma singly_list_size_noof list h : singly_list_size list h <> OutOfFuel.
Proof. unfold singly_list_size. noof. Qed.

Lemma singly_list_empty_noof list h : singly_list_empty list h <> OutOfFuel.
Proof. unfold singly_list_empty. noof. Qed.

Lemma singly_list_find_loop_noof n i cur e cmp h :
  singly_list_find_loop n i cur e cmp h <> OutOfFuel.
Proof.
  revert i cur h. induction n as [|n IH]; intros i cur h; destruct cur; cbn; noof.
  apply IH.
Qed.

Lemma singly_list_find_noof list e cmp h : singly_list_find list e cmp h <> OutOfFuel.
Proof. unfold singly_list_find. noof. apply singly_list_find_loop_noof. Qed.

Lemma singly_list_contains_noof list e cmp h :
  singly_list_contains list e cmp h <> OutOfFuel.
Proof. unfold singly_list_contains. noof. apply singly_list_find_noof. Qed.

Lemma singly_list_swap_noof a b h : singly_list_swap a b h <> OutOfFuel.
Proof. unfold singly_list_swap. noof. Qed.

Lemma singly_list_iter_create_noof list h : singly_list_iter_create list h <> OutOfFuel.
Proof. unfold singly_list_iter_create. noof. Qed.

Lemma singly_list_iter_next_noof it out h : singly_list_iter_next it out h <> OutOfFuel.
Proof. unfold singly_list_iter_next, sl_iter_copy_out. noof. Qed.

Lemma singly_list_iter_remove_noof it h : singly_list_iter_remove it h <> OutOfFuel.
Proof. unfold singly_list_iter_remove. noof. apply singly_list_remove_noof. Qed.

(* ===================================================================== *)
(** * singly_list.c : fuel for every node is enough *)
(* ===================================================================== *)

Lemma singly_list_clear_noof fuel list h :
  slists_ok h ->
  (forall lp, list = Some lp -> (length (singly_list_nodes h lp) <= fuel)%nat) ->
  singly_list_clear fuel list h <> OutOfFuel.
Proof.
  intros Hok Hfuel. destruct list as [lp|]; [|discriminate]. specialize (Hfuel lp eq_refl).
  unfold singly_list_clear. apply bind_noof; [apply field_noof|].
  intros hd h' E. apply field_inv in E as (l & Hl & -> & ->). cbn in Hl.
  destruct (slists_ok_repr h lp Hok) as (l' & Hl' & Hh & _ & _ & Hlk); [eauto|].
  assert (l' = l) by congruence. subst l'.
  apply bind_noof; [|intros; noof].
  rewrite Hh, singly_list_clear_loop_links by exact Hlk.
  rewrite decide_True by exact Hfuel. discriminate.
Qed.

Lemma singly_list_destroy_noof fuel list h :
  slists_ok h ->
  (forall lp, list = Some lp -> (length (singly_list_nodes h lp) <= fuel)%nat) ->
  singly_list_destroy fuel list h <> OutOfFuel.
Proof.
  intros Hok Hfuel. destruct list as [lp|]; [|discriminate].
  unfold singly_list_destroy. apply bind_noof; [by apply singly_list_clear_noof|].
  intros. noof.
Qed.

Lemma singly_list_pop_back_noof fuel list output h :
  slists_ok h ->
  (forall lp, list = Some lp -> (length (singly_list_nodes h lp) <= fuel)%nat) ->
  singly_list_pop_back fuel list output h <> OutOfFuel.
Proof.
  intros Hok Hfuel. destruct list as [lp|]; [|discriminate]. specialize (Hfuel lp eq_refl).
  unfold singly_list_pop_back. apply bind_noof; [apply field_noof|].
  intros hd h' E. apply field_inv in E as (l & Hl & -> & ->). cbn in Hl.
  destruct (slists_ok_repr h lp Hok) as (l' & Hl' & Hh & Ht & _ & Hlk); [eauto|].
  assert (l' = l) by congruence. subst l'.
  set (ls := singly_list_nodes h lp) in *.
  destruct (sl_head l) as [c|] eqn:Ehd; [|discriminate].
  apply bind_noof; [apply field_noof|].
  intros tl h' E. apply field_inv in E as (l' & Hl'' & -> & ->). cbn in Hl''.
  assert (l' = l) by congruence. subst l'.
  apply bind_noof; [destruct output, (sl_tail l); noof|].
  intros o h' Ho.
  assert (h' = h) as ->.
  { destruct output as [out|], (sl_tail l) as [t|]; try (by minv Ho).
    apply bind_inv in Ho as (d & h2 & E1 & Ho). minv E1.
    apply bind_inv in Ho as (es & h2 & E2 & Ho). minv E2.
    by apply copy_out_inv in Ho as [-> _]. }
  apply bind_noof; [|intros; noof].
  destruct (bool_decide (Some c = sl_tail l)) eqn:Ect; [noof|].
  apply bool_decide_eq_false in Ect.
  apply bind_noof; [|intros; noof].
  rewrite head_lookup in Hh. symmetry in Hh.
  pose proof (lookup_lt_Some _ _ _ Hh) as Hlen.
  destruct (lookup_lt_is_Some_2 ls (length ls - 1)) as [t Hlast]; [lia|].
  assert (last ls = Some t) as Hlt by (rewrite last_lookup, <- Hlast; f_equal; lia).
  assert (2 <= length ls)%nat as Hlen2.
  { destruct (decide (length ls = 1%nat)) as [E|]; [|lia].
    rewrite E in Hlast. cbn in Hlast. congruence. }
  destruct (lookup_lt_is_Some_2 ls (length ls - 2)) as [p Hp]; [lia|].
  rewrite Ht, Hlt.
  rewrite (singly_list_pop_back_loop_links h ls fuel 0 c t p Hlk Hh Hlt) by (exact Hp || lia).
  rewrite decide_True by lia. discriminate.
Qed.

Lemma singly_list_reverse_noof fuel list h :
  slists_ok h ->
  (forall lp, list = Some lp -> (length (singly_list_nodes h lp) <= fuel)%nat) ->
  singly_list_reverse fuel list h <> OutOfFuel.
Proof.
  intros Hok Hfuel. destruct list as [lp|]; [|discriminate]. specialize (Hfuel lp eq_refl).
  destruct (slists h !! lp) as [l|] eqn:Hl.
  - destruct (singly_list_reverse_run fuel h lp Hok) as [h1 E]; eauto.
    rewrite E. discriminate.
  - unfold singly_list_reverse, bind, load. cbn. rewrite Hl. discriminate.
Qed.

Lemma singly_list_copy_loop_noof fuel fuel0 src dest h i :
  slists_ok h -> src <> dest ->
  (length (singly_list_nodes h src) - i <= fuel)%nat ->
  (length (singly_list_nodes h src) <= fuel0)%nat ->
  (length (singly_list_nodes h dest) <= i)%nat ->
  (i <= length (singly_list_nodes h src))%nat ->
  singly_list_copy_loop fuel fuel0 (singly_list_nodes h src !! i) dest h <> OutOfFuel.
Proof.
  revert h i. induction fuel as [|fuel IH]; intros h i Hok Hne Hfuel Hfuel0 Hdest Hi.
  - rewrite (proj2 (lookup_ge_None _ _)) by lia. discriminate.
  - destruct (singly_list_nodes h src !! i) as [c|] eqn:Hc; [|discriminate].
    cbn [singly_list_copy_loop]. apply bind_noof; [apply field_noof|].
    intros d h' E. apply field_inv in E as (ndc & Hndc & -> & ->). cbn in Hndc.
    apply bind_noof; [apply singly_list_push_back_noof|].
    intros res h2 Hp.
    apply singly_list_push_back_ok in Hp as (Heff & Hfail & Hsucc); [|exact Hok].
    destruct Heff as (Hok2 & Hfr & _). destruct (Hfr src Hne) as (Hsl & Hsn & _).
    destruct (decide (res = SUCCESS)) as [->|Hres].
    + cbn. destruct (Hsucc eq_refl) as (n & l & _ & Hdn & _).
      assert (is_Some (slists h2 !! src)) as Hlive.
      { rewrite Hsl. destruct (slists h !! src) eqn:E; [eauto|].
        rewrite singly_list_nodes_dead in Hc by exact E. discriminate. }
      destruct (slists_ok_repr h2 src Hok2 Hlive) as (_ & _ & _ & _ & _ & Hlk).
      rewrite Hsn in Hlk. destruct (Hlk _ _ Hc) as (nd2 & Hnd2 & Hnx).
      apply bind_noof; [apply field_noof|].
      intros nx h' E. apply field_inv in E as (nd' & Hnd' & -> & ->). cbn in Hnd'.
      assert (nd' = nd2) by congruence. subst nd'. rewrite Hnx, <- Hsn.
      apply lookup_lt_Some in Hc.
      apply IH; rewrite ?Hsn, ?Hdn, ?length_app; cbn; try assumption; lia.
    + replace (negb (is_success res)) with true
        by (symmetry; apply negb_true_iff, bool_decide_eq_false; exact Hres).
      apply bind_noof; [|intros; noof].
      apply singly_list_destroy_noof; [exact Hok2|]. intros lp [= <-].
      destruct (Hfail Hres) as [_ Hcont].
      apply contents_inv in Hcont as (_ & _ & Es & En & _).
      unfold singly_list_nodes. rewrite Es, En. fold (singly_list_nodes h dest). lia.
Qed.

Lemma singly_list_copy_noof fuel src h :
  slists_ok h ->
  (forall lp, src = Some lp -> (length (singly_list_nodes h lp) <= fuel)%nat) ->
  singly_list_copy fuel src h <> OutOfFuel.
Proof.
  intros Hok Hfuel. destruct src as [sp|]; [|discriminate]. specialize (Hfuel sp eq_refl).
  unfold singly_list_copy. apply bind_noof; [apply field_noof|].
  intros es h' E. apply field_inv in E as (l & Hl & -> & ->). cbn in Hl.
  apply bind_noof; [apply singly_list_create_noof|].
  intros dest h0 Hc. apply singly_list_create_ok in Hc; [|exact Hok].
  destruct dest as [dp|]; [|discriminate].
  destruct Hc as (Hfresh & (Hok0 & Hfr & _) & Hdn & _).
  assert (sp <> dp) as Hne by congruence.
  destruct (Hfr sp Hne) as (Hsl & Hsn & _).
  apply bind_noof; [apply field_noof|].
  intros cur h' E. apply field_inv in E as (l0 & Hl0 & -> & ->). cbn in Hl0.
  destruct (slists_ok_repr h0 sp Hok0) as (l' & Hl' & Hh & _); [eauto|].
  assert (l' = l0) by congruence. subst l'. rewrite Hh, head_lookup.
  apply singly_list_copy_loop_noof; rewrite ?Hsn, ?Hdn; cbn; try assumption; lia.
Qed.

(* ===================================================================== *)
(** * Doubly linked lists in a well-formed store *)
(* ===================================================================== *)

Lemma doubly_list_nodes_dead h lp : dlists h !! lp = None -> doubly_list_nodes h lp = [].
Proof. unfold doubly_list_nodes. by intros ->. Qed.

Lemma dlists_ok_repr h lp :
  dlists_ok h -> is_Some (dlists h !! lp) -> dl_repr h lp (doubly_list_nodes h lp).
Proof. intros (_ & H & _) Hl. by apply dl_inv_nodes, H. Qed.

Lemma dlists_ok_in_dom h lp a :
  dlists_ok h -> a ∈ doubly_list_nodes h lp -> is_Some (dnodes h !! a).
Proof.
  intros Hok Ha. destruct (dlists h !! lp) as [l|] eqn:El.
  - destruct (dlists_ok_repr h lp Hok) as (_ & _ & _ & _ & _ & Hlk & _); [eauto|].
    by eapply links_in_dom.
  - rewrite doubly_list_nodes_dead in Ha by exact El. by apply elem_of_nil in Ha.
Qed.

Lemma dl_repr_frame h h1 lp ls :
  dl_repr h lp ls -> dlists h1 !! lp = dlists h !! lp ->
  (forall a, a ∈ ls -> dnodes h1 !! a = dnodes h !! a) ->
  dl_repr h1 lp ls.
Proof.
  intros (l & Hl & Hh & Ht & Hsz & Hlk & Hbk) E Hn. exists l. rewrite E.
  split_and!; auto; [by eapply links_ext|].
  intros i a Hi. rewrite Hn by (by eapply list_elem_of_lookup_2). by apply Hbk.
Qed.

Lemma doubly_list_elements_frame h h1 lp :
  doubly_list_nodes h1 lp = doubly_list_nodes h lp ->
  (forall a, a ∈ doubly_list_nodes h lp -> dnodes h1 !! a = dnodes h !! a) ->
  doubly_list_elements h1 lp = doubly_list_elements h lp.
Proof.
  intros En Hn. unfold doubly_list_elements. rewrite En.
  apply list_fmap_ext. intros i a Hi. unfold dn_data_at.
  rewrite Hn; [reflexivity | by eapply list_elem_of_lookup_2].
Qed.

Lemma dlists_ok_update h h1 lp :
  dlists_ok h ->
  (is_Some (dlists h1 !! lp) -> dl_inv h1 lp) ->
  (forall lp', lp' <> lp -> dlists h1 !! lp' = dlists h !! lp') ->
  (forall a, is_Some (dnodes h !! a) -> a ∉ doubly_list_nodes h lp ->
             dnodes h1 !! a = dnodes h !! a) ->
  (forall a, a ∈ doubly_list_nodes h1 lp ->
             a ∈ doubly_list_nodes h lp \/ dnodes h !! a = None) ->
  valid_region (dnodes h1) ->
  dlists_ok h1 /\ dl_frame h h1 lp.
Proof.
  intros Hok Hinv Hother Hnodes Hnew Hvalid.
  pose proof Hok as (_ & Hall & Hdisj).
  assert (forall lp' a, lp' <> lp -> a ∈ doubly_list_nodes h lp' ->
                        dnodes h1 !! a = dnodes h !! a) as Hkeep.
  { intros lp' a Hne Ha. apply Hnodes; [by eapply dlists_ok_in_dom|].
    intros Ha'. exact (Hdisj lp' lp a Hne Ha Ha'). }
  assert (forall lp', lp' <> lp -> is_Some (dlists h1 !! lp') ->
                      dl_repr h1 lp' (doubly_list_nodes h lp')) as Hrepr.
  { intros lp' Hne Hl. rewrite Hother in Hl by exact Hne.
    eapply dl_repr_frame; [by apply dlists_ok_repr | by apply Hother|].
    intros a Ha. by eapply Hkeep. }
  assert (forall lp', lp' <> lp ->
                      doubly_list_nodes h1 lp' = doubly_list_nodes h lp') as Hsame.
  { intros lp' Hne. destruct (dlists h1 !! lp') as [l|] eqn:El.
    - apply dl_repr_nodes, Hrepr; [exact Hne | by rewrite El].
    - rewrite !doubly_list_nodes_dead; [reflexivity | | exact El].
      by rewrite <- Hother. }
  split; [split_and!|].
  - exact Hvalid.
  - intros lp' Hl. destruct (decide (lp' = lp)) as [->|Hne]; [by apply Hinv|].
    apply dl_inv_repr. eexists. by apply Hrepr.
  - intros lpa lpb a Hne Ha Hb.
    destruct (decide (lpa = lp)) as [->|Hna]; [|destruct (decide (lpb = lp)) as [->|Hnb]].
    + rewrite Hsame in Hb by congruence. destruct (Hnew a Ha) as [Ha'|Ha'].
      * exact (Hdisj lp lpb a Hne Ha' Hb).
      * apply (dlists_ok_in_dom h lpb a Hok) in Hb. rewrite Ha' in Hb. by destruct Hb.
    + rewrite Hsame in Ha by congruence. destruct (Hnew a Hb) as [Hb'|Hb'].
      * exact (Hdisj lpa lp a Hne Ha Hb').
      * apply (dlists_ok_in_dom h lpa a Hok) in Ha. rewrite Hb' in Ha. by destruct Ha.
    + rewrite Hsame in Ha, Hb by congruence. exact (Hdisj lpa lpb a Hne Ha Hb).
  - intros lp' Hne. split_and!; [by apply Hother | by apply Hsame|].
    apply doubly_list_elements_frame; [by apply Hsame|].
    intros a Ha. by eapply Hkeep.
Qed.

Lemma dlists_ok_contents h h1 : contents h1 = contents h -> dlists_ok h -> dlists_ok h1.
Proof.
  intros E. apply contents_inv in E as (_ & _ & _ & _ & Es & En).
  unfold dlists_ok, dl_inv, doubly_list_nodes. by rewrite Es, En.
Qed.


(* ===================================================================== *)
(** * doubly_list.c : nodes *)
(* ===================================================================== *)

Lemma create_doubly_node_inv data es h r h1 :
  create_doubly_node data es h = Ok r h1 ->
  match r with
  | None => contents h1 = contents h
  | Some n =>
      valid_addr n = true /\ in_use h n = false /\ es <> 0 /\
      (0 < es -> es <= Z.of_nat (length data)) /\
      exists al,
        h1 = rset DNodes
               (<[n := mk_dnode (take (Z.to_nat es) data) NULL NULL]> (dnodes h))
               (set_allocator al h)
  end.
Proof.
  unfold create_doubly_node. intros H. apply bind_inv in H as (node & h0 & Hm & H).
  apply malloc_inv in Hm as (al & Hm). destruct node as [n|].
  2:{ minv H. subst. reflexivity. }
  destruct Hm as (Hv & Hu & junk & ->).
  apply bind_inv in H as (d & h2 & Hd & H).
  apply mem_alloc_data_inv in Hd as ((al2 & ->) & Hd). destruct d as [blk|].
  - destruct Hd as [Hes Hlen].
    destruct (mem_copy blk data es) as [blk'|] eqn:Ec; [|discriminate H].
    apply mem_copy_block in Ec as [-> Hle]; [|exact Hlen].
    fwd_in H. injection H as <- <-. split_and!; auto. exists al2. cbn.
    rewrite !insert_insert_eq. reflexivity.
  - fwd_in H. injection H as <- <-. unfold contents. cbn.
    rewrite delete_insert_eq. apply in_use_false in Hu as (_ & _ & _ & _ & _ & Hu).
    by rewrite delete_id.
Qed.

(* ===================================================================== *)
(** * doubly_list.c : a node goes in, a node goes out *)
(* ===================================================================== *)

Lemma dl_insert_ok h h1 lp l l1 k n d :
  dlists_ok h -> dlists h !! lp = Some l ->
  (k <= length (doubly_list_nodes h lp))%nat ->
  valid_addr n = true -> dnodes h !! n = None ->
  dlists h1 = <[lp := l1]> (dlists h) ->
  dl_head l1 = match k with O => Some n | S _ => dl_head l end ->
  dl_tail l1 = (if decide (k = length (doubly_list_nodes h lp)) then Some n
                else dl_tail l) ->
  dl_size l1 = to_size_t (dl_size l + 1) ->
  dnodes h1 !! n
  = Some (mk_dnode d (doubly_list_nodes h lp !! k) (pred_of (doubly_list_nodes h lp) k)) ->
  (forall i a nd, doubly_list_nodes h lp !! i = Some a -> dnodes h !! a = Some nd ->
                  dnodes h1 !! a
                  = Some (mk_dnode (dn_data nd)
                            (if decide (S i = k) then Some n else dn_next nd)
                            (if decide (i = k) then Some n else dn_prev nd))) ->
  (forall a, a <> n -> a ∉ doubly_list_nodes h lp -> dnodes h1 !! a = dnodes h !! a) ->
  vectors h1 = vectors h -> buffers h1 = buffers h ->
  slists h1 = slists h -> snodes h1 = snodes h ->
  dl_effect h h1 lp /\
  doubly_list_nodes h1 lp = insert_at k n (doubly_list_nodes h lp) /\
  doubly_list_elements h1 lp = insert_at k d (doubly_list_elements h lp).
Proof.
  intros Hok Hl Hk Hvn Hfresh Hls Hhead Htail Hsize Hn Hrest Hother Hv Hb Hsl Hsn.
  set (ls := doubly_list_nodes h lp) in *.
  destruct (dlists_ok_repr h lp Hok) as (l' & Hl' & Hh & Ht & Hsz & Hlk & Hbk); [eauto|].
  assert (l' = l) by congruence. subst l'. fold ls in Hh, Ht, Hsz, Hlk, Hbk.
  assert (links dn_next (dnodes h1) (insert_at k n ls)) as Hlk1.
  { eapply links_insert; [exact Hlk | exact Hk | exact Hn | reflexivity |].
    intros i a nd Hi Hnd. rewrite (Hrest i a nd Hi Hnd). eexists. split; reflexivity. }
  assert (back_links (dnodes h1) (insert_at k n ls)) as Hbk1.
  { eapply back_links_insert; [exact Hbk | exact Hk | exact Hn | reflexivity |].
    intros i a nd Hi Hnd. rewrite (Hrest i a nd Hi Hnd). eexists. split; reflexivity. }
  assert (valid_region (dnodes h1)) as Hvalid.
  { intros a Ha. destruct (decide (a = n)) as [->|Hne]; [exact Hvn|].
    destruct Hok as (Hvr & _). apply Hvr.
    destruct (decide (a ∈ ls)) as [Hin|Hnin]; [by eapply links_in_dom|].
    by rewrite <- Hother. }
  pose proof (links_length_bound _ _ _ Hlk1 Hvalid) as Hbound.
  rewrite insert_at_length in Hbound.
  assert (dl_repr h1 lp (insert_at k n ls)) as Hrepr.
  { exists l1. rewrite Hls, lookup_insert_eq.
    split_and!; [reflexivity | | | | exact Hlk1 | exact Hbk1].
    - rewrite insert_at_head by exact Hk. rewrite Hhead. destruct k; [reflexivity | exact Hh].
    - rewrite insert_at_last by exact Hk. rewrite Htail.
      destruct (decide (k = length ls)); [reflexivity | exact Ht].
    - rewrite Hsize, insert_at_length, to_size_t_small; lia. }
  pose proof (dl_repr_nodes _ _ _ Hrepr) as Hnodes.
  split_and!.
  - unfold dl_effect. split_and!; try assumption.
    all: eapply dlists_ok_update; try eassumption.
    all: try (intros _; apply dl_inv_repr; eexists; exact Hrepr).
    all: try (intros lp' Hne; rewrite Hls; by apply lookup_insert_ne).
    all: try (intros a Ha Hnin; apply Hother; [|exact Hnin]; intros ->;
              rewrite Hfresh in Ha; by destruct Ha).
    all: intros a Ha; rewrite Hnodes in Ha;
      apply elem_of_insert_at in Ha as [->|Ha]; [right; exact Hfresh | by left | exact Hk].
  - exact Hnodes.
  - unfold doubly_list_elements. rewrite Hnodes, insert_at_fmap. fold ls. f_equal.
    + unfold dn_data_at. by rewrite Hn.
    + apply list_fmap_ext. intros i a Hi. unfold dn_data_at.
      destruct (Hlk _ _ Hi) as (nd & Hnd & _). by rewrite (Hrest i a nd Hi Hnd), Hnd.
Qed.

Lemma dl_remove_ok h h1 lp l l1 k c :
  dlists_ok h -> dlists h !! lp = Some l ->
  doubly_list_nodes h lp !! k = Some c ->
  dlists h1 = <[lp := l1]> (dlists h) ->
  dl_head l1 = match k with O => doubly_list_nodes h lp !! 1%nat | S _ => dl_head l end ->
  dl_tail l1 = (if decide (S k = length (doubly_list_nodes h lp))
                then pred_of (doubly_list_nodes h lp) k else dl_tail l) ->
  dl_size l1 = to_size_t (dl_size l - 1) ->
  dnodes h1 !! c = None ->
  (forall i a nd, doubly_list_nodes h lp !! i = Some a -> i <> k ->
                  dnodes h !! a = Some nd ->
                  dnodes h1 !! a
                  = Some (mk_dnode (dn_data nd)
                            (if decide (S i = k) then doubly_list_nodes h lp !! S k
                             else dn_next nd)
                            (if decide (i = S k) then pred_of (doubly_list_nodes h lp) k
                             else dn_prev nd))) ->
  (forall a, a ∉ doubly_list_nodes h lp -> dnodes h1 !! a = dnodes h !! a) ->
  vectors h1 = vectors h -> buffers h1 = buffers h ->
  slists h1 = slists h -> snodes h1 = snodes h ->
  dl_effect h h1 lp /\
  doubly_list_nodes h1 lp = delete k (doubly_list_nodes h lp) /\
  doubly_list_elements h1 lp = delete k (doubly_list_elements h lp).
Proof.
  intros Hok Hl Hc Hls Hhead Htail Hsize Hgone Hrest Hother Hv Hb Hsl Hsn.
  set (ls := doubly_list_nodes h lp) in *.
  destruct (dlists_ok_repr h lp Hok) as (l' & Hl' & Hh & Ht & Hsz & Hlk & Hbk); [eauto|].
  assert (l' = l) by congruence. subst l'. fold ls in Hh, Ht, Hsz, Hlk, Hbk.
  pose proof (lookup_lt_Some _ _ _ Hc) as Hk.
  pose proof (links_NoDup _ _ _ Hlk) as Hnd.
  assert (links dn_next (dnodes h1) (delete k ls)) as Hlk1.
  { eapply links_delete; [exact Hlk | exact Hk |].
    intros i a nd Hi Hne Hnd'. rewrite (Hrest i a nd Hi Hne Hnd'). eexists.
    split; reflexivity. }
  assert (back_links (dnodes h1) (delete k ls)) as Hbk1.
  { eapply back_links_delete; [exact Hbk | exact Hk |].
    intros i a nd Hi Hne Hnd'. rewrite (Hrest i a nd Hi Hne Hnd'). eexists.
    split; reflexivity. }
  assert (valid_region (dnodes h1)) as Hvalid.
  { intros a Ha. destruct Hok as (Hvr & _). apply Hvr.
    destruct (decide (a ∈ ls)) as [Hin|Hnin]; [by eapply links_in_dom|].
    by rewrite <- Hother. }
  pose proof (links_length_bound _ _ _ Hlk (proj1 Hok)) as Hbound.
  assert (dl_repr h1 lp (delete k ls)) as Hrepr.
  { exists l1. rewrite Hls, lookup_insert_eq.
    split_and!; [reflexivity | | | | exact Hlk1 | exact Hbk1].
    - rewrite delete_head. rewrite Hhead. destruct k; [reflexivity | exact Hh].
    - rewrite delete_last by exact Hk. rewrite Htail.
      destruct (decide (S k = length ls)); [reflexivity | exact Ht].
    - rewrite Hsize, length_delete by eauto. rewrite to_size_t_small; lia. }
  pose proof (dl_repr_nodes _ _ _ Hrepr) as Hnodes.
  split_and!.
  - unfold dl_effect. split_and!; try assumption.
    all: eapply dlists_ok_update; try eassumption.
    all: try (intros _; apply dl_inv_repr; eexists; exact Hrepr).
    all: try (intros lp' Hne; rewrite Hls; by apply lookup_insert_ne).
    all: try (intros a Ha Hnin; by apply Hother).
    all: intros a Ha; rewrite Hnodes in Ha; left; by eapply elem_of_delete.
  - exact Hnodes.
  - unfold doubly_list_elements. rewrite Hnodes, list_fmap_delete. fold ls.
    apply list_eq. intros i. destruct (decide (i < k)%nat).
    + rewrite !list_lookup_delete_lt by lia. rewrite !list_lookup_fmap.
      destruct (ls !! i) as [a|] eqn:Hi; [cbn|reflexivity]. f_equal. unfold dn_data_at.
      destruct (Hlk _ _ Hi) as (nd & Hnd' & _).
      by rewrite (Hrest i a nd Hi ltac:(lia) Hnd'), Hnd'.
    + rewrite !list_lookup_delete_ge by lia. rewrite !list_lookup_fmap.
      destruct (ls !! S i) as [a|] eqn:Hi; [cbn|reflexivity]. f_equal. unfold dn_data_at.
      destruct (Hlk _ _ Hi) as (nd & Hnd' & _).
      by rewrite (Hrest (S i) a nd Hi ltac:(lia) Hnd'), Hnd'.
Qed.

Lemma dl_effect_contents h h1 lp :
  contents h1 = contents h -> dlists_ok h -> dl_effect h h1 lp.
Proof.
  intros E Hok. pose proof (dlists_ok_contents _ _ E Hok).
  apply contents_inv in E as (? & ? & ? & ? & Es & En).
  split_and!; try assumption. intros lp' _.
  unfold doubly_list_elements, dn_data_at, doubly_list_nodes. by rewrite Es, En.
Qed.

Lemma dl_effect_refl h lp : dlists_ok h -> dl_effect h h lp.
Proof. by apply dl_effect_contents. Qed.

Lemma dl_effect_trans h h0 h1 lp :
  dl_effect h h0 lp -> dl_effect h0 h1 lp -> dl_effect h h1 lp.
Proof.
  intros (_ & Hf1 & ? & ? & ? & ?) (Hok & Hf2 & ? & ? & ? & ?).
  split_and!; try congruence. intros lp' Hne.
  destruct (Hf1 lp' Hne) as (? & ? & ?). destruct (Hf2 lp' Hne) as (? & ? & ?).
  split_and!; congruence.
Qed.

(* ===================================================================== *)
(** * doubly_list.c : the operations *)
(* ===================================================================== *)

Lemma last_cons_Some {A} (a : A) ls : exists t, last (a :: ls) = Some t.
Proof.
  destruct (last (a :: ls)) eqn:E; [eauto|]. apply last_None in E. discriminate.
Qed.

Lemma doubly_list_push_front_ok h lp e s h1 :
  dlists_ok h ->
  doubly_list_push_front (Some lp) (Some e) h = Ok s h1 ->
  dl_effect h h1 lp /\
  (s <> SUCCESS -> s = ERROR_MEMORY_ALLOCATION /\ contents h1 = contents h) /\
  (s = SUCCESS ->
   exists n l, dlists h !! lp = Some l /\
     doubly_list_nodes h1 lp = n :: doubly_list_nodes h lp /\
     doubly_list_elements h1 lp
     = take (Z.to_nat (dl_element_size l)) e :: doubly_list_elements h lp).
Proof.
  intros Hok H. unfold doubly_list_push_front in H.
  apply bind_inv in H as (es0 & h0 & E & H). minv E. rename E into Hl.
  destruct x as [hd tl sz es]. cbn in Hl. heap_simpl_in H.
  apply bind_inv in H as (node & h0 & Hc & H).
  apply create_doubly_node_inv in Hc. destruct node as [n|].
  2:{ apply ret_inv in H as [<- <-].
      split_and!; [by apply dl_effect_contents | by intros _ | discriminate]. }
  destruct Hc as (Hvn & Hu & Hes & Hle & al & ->).
  apply in_use_false in Hu as (_ & _ & _ & _ & Hnl & Hfresh).
  destruct (dlists_ok_repr h lp Hok) as (l' & Hl' & Hh & Ht & Hsz & Hlk & Hbk); [eauto|].
  rewrite Hl in Hl'. injection Hl' as <-. cbn in Hh, Ht, Hsz.
  set (ls := doubly_list_nodes h lp) in *.
  assert (n <> lp) by congruence.
  assert (forall a nd, dnodes h !! a = Some nd -> a <> n) as Hne by (intros; congruence).
  pose proof (links_NoDup _ _ _ Hlk) as Hnd.
  enough ((dl_effect h h1 lp /\
           doubly_list_nodes h1 lp = insert_at 0 n ls /\
           doubly_list_elements h1 lp
           = insert_at 0 (take (Z.to_nat es) e) (doubly_list_elements h lp)) /\
          s = SUCCESS) as ((Heff & Hnodes & Hel) & ->).
  { split_and!; [exact Heff | by intros [] |]. intros _. exists n. eexists.
    split; [exact Hl|]. rewrite insert_at_0 in Hnodes. rewrite insert_at_0 in Hel.
    by split. }
  assert (ls = [] \/ exists a ls', ls = a :: ls') as [Els|(a & ls' & Els)]
    by (destruct ls; eauto).
  - rewrite Els in Hh, Ht. cbn in Hh, Ht. subst hd tl. run_in H. injection H as <- <-.
    split; [|reflexivity].
    eapply dl_insert_ok;
      [ exact Hok | exact Hl | lia | exact Hvn | exact Hfresh
      | cbn; rewrite ?insert_insert_eq; reflexivity
      | reflexivity | fold ls; rewrite Els; reflexivity | reflexivity
      | cbn; rewrite ?insert_insert_eq, lookup_insert_eq; fold ls; by rewrite Els
      | | | reflexivity | reflexivity | reflexivity | reflexivity ].
    + intros i x nd Hi. fold ls in Hi. rewrite Els in Hi. discriminate.
    + intros x Hna _. cbn. by rewrite !lookup_insert_ne by congruence.
  - rewrite Els in Hh, Ht. cbn in Hh. subst hd. destruct (last_cons_Some a ls') as [t Hlt].
    rewrite Hlt in Ht. subst tl.
    assert (ls !! 0%nat = Some a) as Ha0 by (by rewrite Els).
    destruct (Hlk 0%nat a Ha0) as (nda & Hnda & _).
    destruct (Hbk 0%nat a Ha0) as (nda' & Hnda' & Hpa). cbn in Hpa.
    assert (nda' = nda) by congruence. subst nda'.
    pose proof (Hne _ _ Hnda).
    run_in H. injection H as <- <-. split; [|reflexivity].
    eapply dl_insert_ok;
      [ exact Hok | exact Hl | lia | exact Hvn | exact Hfresh
      | cbn; rewrite ?insert_insert_eq; reflexivity
      | reflexivity | fold ls; rewrite Els; reflexivity | reflexivity
      | cbn; rewrite lookup_insert_ne, ?insert_insert_eq, lookup_insert_eq by congruence;
        fold ls; by rewrite Els
      | | | reflexivity | reflexivity | reflexivity | reflexivity ].
    + intros i x nd Hi Hndx. fold ls in Hi. rewrite Els in Hi. cbn.
      destruct (decide (S i = 0)%nat); [lia|]. destruct (decide (i = 0%nat)) as [->|Hi0].
      * cbn in Hi. injection Hi as <-. rewrite lookup_insert_eq.
        assert (nd = nda) by congruence. subst nd. reflexivity.
      * assert (x <> a).
        { eapply NoDup_lookup_ne; [exact Hnd | rewrite Els; exact Hi | exact Ha0 | exact Hi0]. }
        rewrite !lookup_insert_ne by (try congruence; symmetry; by eapply Hne).
        rewrite Hndx. by destruct nd.
    + intros x Hna Hnin. fold ls in Hnin. rewrite Els in Hnin. cbn.
      assert (x <> a) by (intros ->; apply Hnin; by left).
      by rewrite !lookup_insert_ne by congruence.
Qed.

Lemma pred_of_length ls : pred_of ls (length ls) = last ls.
Proof. rewrite last_lookup. by destruct ls. Qed.

Lemma doubly_list_push_back_ok h lp e s h1 :
  dlists_ok h ->
  doubly_list_push_back (Some lp) (Some e) h = Ok s h1 ->
  dl_effect h h1 lp /\
  (s <> SUCCESS -> s = ERROR_MEMORY_ALLOCATION /\ contents h1 = contents h) /\
  (s = SUCCESS ->
   exists n l, dlists h !! lp = Some l /\
     doubly_list_nodes h1 lp = doubly_list_nodes h lp ++ [n] /\
     doubly_list_elements h1 lp
     = doubly_list_elements h lp ++ [take (Z.to_nat (dl_element_size l)) e]).
Proof.
  intros Hok H. unfold doubly_list_push_back in H.
  apply bind_inv in H as (es0 & h0 & E & H). minv E. rename E into Hl.
  destruct x as [hd tl sz es]. cbn in Hl. heap_simpl_in H.
  apply bind_inv in H as (node & h0 & Hc & H).
  apply create_doubly_node_inv in Hc. destruct node as [n|].
  2:{ apply ret_inv in H as [<- <-].
      split_and!; [by apply dl_effect_contents | by intros _ | discriminate]. }
  destruct Hc as (Hvn & Hu & Hes & Hle & al & ->).
  apply in_use_false in Hu as (_ & _ & _ & _ & Hnl & Hfresh).
  destruct (dlists_ok_repr h lp Hok) as (l' & Hl' & Hh & Ht & Hsz & Hlk & Hbk); [eauto|].
  rewrite Hl in Hl'. injection Hl' as <-. cbn in Hh, Ht, Hsz.
  set (ls := doubly_list_nodes h lp) in *.
  assert (n <> lp) by congruence.
  assert (forall a nd, dnodes h !! a = Some nd -> a <> n) as Hne by (intros; congruence).
  pose proof (links_NoDup _ _ _ Hlk) as Hnd.
  enough ((dl_effect h h1 lp /\
           doubly_list_nodes h1 lp = insert_at (length ls) n ls /\
           doubly_list_elements h1 lp
           = insert_at (length ls) (take (Z.to_nat es) e) (doubly_list_elements h lp)) /\
          s = SUCCESS) as ((Heff & Hnodes & Hel) & ->).
  { split_and!; [exact Heff | by intros [] |]. intros _. exists n. eexists.
    split; [exact Hl|]. rewrite insert_at_end in Hnodes.
    replace (length ls) with (length (doubly_list_elements h lp)) in Hel
      by (unfold doubly_list_elements; by rewrite length_fmap).
    rewrite insert_at_end in Hel. by split. }
  assert (ls = [] \/ exists a ls', ls = a :: ls') as [Els|(a & ls' & Els)]
    by (destruct ls; eauto).
  - rewrite Els in Hh, Ht. cbn in Hh, Ht. subst hd tl. run_in H. injection H as <- <-.
    split; [|reflexivity].
    eapply dl_insert_ok;
      [ exact Hok | exact Hl | fold ls; lia | exact Hvn | exact Hfresh
      | cbn; rewrite ?insert_insert_eq; reflexivity
      | fold ls; rewrite Els; reflexivity
      | fold ls; rewrite Els; reflexivity | reflexivity
      | cbn; rewrite ?insert_insert_eq, lookup_insert_eq; fold ls; by rewrite Els
      | | | reflexivity | reflexivity | reflexivity | reflexivity ].
    + intros i x nd Hi. fold ls in Hi. rewrite Els in Hi. discriminate.
    + intros x Hna _. cbn. by rewrite !lookup_insert_ne by congruence.
  - rewrite Els in Hh. cbn in Hh. subst hd.
    destruct (last_cons_Some a ls') as [t Hlt]. rewrite <- Els in Hlt.
    rewrite Hlt in Ht. subst tl. rewrite last_lookup in Hlt.
    pose proof (lookup_lt_Some _ _ _ Hlt) as Hlen.
    destruct (Hlk _ _ Hlt) as (ndt & Hndt & Hnt).
    pose proof (Hne _ _ Hndt).
    run_in H. injection H as <- <-. split; [|reflexivity].
    eapply dl_insert_ok;
      [ exact Hok | exact Hl | fold ls; lia | exact Hvn | exact Hfresh
      | cbn; rewrite ?insert_insert_eq; reflexivity
      | fold ls; destruct (length ls); [lia | reflexivity]
      | fold ls; by destruct (decide (length ls = length ls)) | reflexivity
      | cbn; rewrite lookup_insert_ne, ?insert_insert_eq, lookup_insert_eq by congruence;
        fold ls; rewrite pred_of_length, last_lookup, Hlt;
        by rewrite (proj2 (lookup_ge_None ls (length ls)))
      | | | reflexivity | reflexivity | reflexivity | reflexivity ].
    + intros i x nd Hi Hndx. fold ls in Hi |- *. cbn.
      destruct (decide (i = length ls)) as [->|_];
        [apply lookup_lt_Some in Hi; lia|].
      destruct (decide (S i = length ls)) as [E|Hn'].
      * assert (x = t) as -> by (replace i with (Init.Nat.pred (length ls)) in Hi by lia;
                                 congruence).
        rewrite lookup_insert_eq. assert (nd = ndt) by congruence. subst nd. reflexivity.
      * assert (x <> t).
        { eapply NoDup_lookup_ne; [exact Hnd | exact Hi | exact Hlt | lia]. }
        rewrite !lookup_insert_ne by (try congruence; symmetry; by eapply Hne).
        rewrite Hndx. by destruct nd.
    + intros x Hna Hnin. fold ls in Hnin. cbn.
      assert (x <> t) by (intros ->; apply Hnin; by eapply list_elem_of_lookup_2).
      by rewrite !lookup_insert_ne by congruence.
Qed.

Lemma pred_of_Some ls k p : pred_of ls k = Some p -> exists j, k = S j /\ ls !! j = Some p.
Proof. destruct k as [|j]; [discriminate|]. cbn. eauto. Qed.

Lemma dl_unlink_lookup m ls k c a :
  links dn_next m ls -> ls !! k = Some c ->
  dl_unlink ls k m !! a
  = if decide (a = c) then None
    else if decide (Some a = pred_of ls k) then set_dn_next (ls !! S k) <$> m !! a
    else if decide (Some a = ls !! S k) then set_dn_prev (pred_of ls k) <$> m !! a
    else m !! a.
Proof.
  intros Hlk Hc. pose proof (links_NoDup _ _ _ Hlk) as Hnd.
  unfold dl_unlink. rewrite Hc.
  destruct (decide (a = c)) as [->|Hac]; [by rewrite lookup_delete_eq|].
  rewrite lookup_delete_ne by congruence.
  assert (forall p x, pred_of ls k = Some p -> ls !! S k = Some x -> p <> x) as Hpx.
  { intros p x Hp Hx. apply pred_of_Some in Hp as (j & -> & Hj).
    eapply NoDup_lookup_ne; [exact Hnd | exact Hj | exact Hx | lia]. }
  destruct (ls !! S k) as [x|] eqn:Hx, (pred_of ls k) as [p|] eqn:Hp.
  - specialize (Hpx p x eq_refl eq_refl).
    destruct (decide (Some a = Some p)) as [[= ->]|Hap].
    + by rewrite lookup_alter_ne, lookup_alter_eq by congruence.
    + destruct (decide (Some a = Some x)) as [[= ->]|Hax].
      * by rewrite lookup_alter_eq, lookup_alter_ne by congruence.
      * by rewrite !lookup_alter_ne by congruence.
  - destruct (decide (Some a = None)); [discriminate|].
    destruct (decide (Some a = Some x)) as [[= ->]|Hax].
    + by rewrite lookup_alter_eq.
    + by rewrite lookup_alter_ne by congruence.
  - destruct (decide (Some a = Some p)) as [[= ->]|Hap].
    + by rewrite lookup_alter_eq.
    + destruct (decide (Some a = None)); [discriminate|].
      by rewrite lookup_alter_ne by congruence.
  - destruct (decide (Some a = None)); [discriminate | reflexivity].
Qed.

(** Unlinking the node at position [k] of the list at [lp]. *)
Lemma dl_unlink_ok h h1 lp l l1 k c :
  dlists_ok h -> dlists h !! lp = Some l ->
  doubly_list_nodes h lp !! k = Some c ->
  dlists h1 = <[lp := l1]> (dlists h) ->
  dl_head l1 = match k with O => doubly_list_nodes h lp !! 1%nat | S _ => dl_head l end ->
  dl_tail l1 = (if decide (S k = length (doubly_list_nodes h lp))
                then pred_of (doubly_list_nodes h lp) k else dl_tail l) ->
  dl_size l1 = to_size_t (dl_size l - 1) ->
  dnodes h1 = dl_unlink (doubly_list_nodes h lp) k (dnodes h) ->
  vectors h1 = vectors h -> buffers h1 = buffers h ->
  slists h1 = slists h -> snodes h1 = snodes h ->
  dl_effect h h1 lp /\
  doubly_list_nodes h1 lp = delete k (doubly_list_nodes h lp) /\
  doubly_list_elements h1 lp = delete k (doubly_list_elements h lp).
Proof.
  intros Hok Hl Hc Hls Hhead Htail Hsize Hdn Hv Hb Hsl Hsn.
  set (ls := doubly_list_nodes h lp) in *.
  destruct (dlists_ok_repr h lp Hok) as (l' & Hl' & Hh & Ht & Hsz & Hlk & Hbk); [eauto|].
  assert (l' = l) by congruence. subst l'. fold ls in Hh, Ht, Hsz, Hlk, Hbk.
  pose proof (links_NoDup _ _ _ Hlk) as Hnd.
  eapply dl_remove_ok; try eassumption.
  - rewrite Hdn, (dl_unlink_lookup _ _ _ c) by assumption. by rewrite decide_True.
  - intros i a nd Hi Hne Hnda. fold ls in Hi |- *.
    rewrite Hdn, (dl_unlink_lookup _ _ _ c) by assumption.
    assert (a <> c) by (eapply NoDup_lookup_ne; [exact Hnd | exact Hi | exact Hc | exact Hne]).
    rewrite decide_False by assumption. rewrite Hnda.
    destruct (decide (S i = k)) as [<-|Hn1].
    + cbn [pred_of]. rewrite decide_True by (by rewrite Hi).
      rewrite decide_False by lia. reflexivity.
    + rewrite decide_False.
      2:{ intros E. symmetry in E. apply pred_of_Some in E as (j & -> & Hj).
          apply Hn1. f_equal. by eapply NoDup_lookup. }
      destruct (decide (i = S k)) as [->|Hn2].
      * rewrite decide_True by (by rewrite Hi). reflexivity.
      * rewrite decide_False; [by destruct nd|].
        intros E. symmetry in E. apply Hn2. by eapply NoDup_lookup.
  - intros a Hnin. fold ls in Hnin. rewrite Hdn, (dl_unlink_lookup _ _ _ c) by assumption.
    rewrite decide_False by (intros ->; apply Hnin; by eapply list_elem_of_lookup_2).
    rewrite decide_False.
    2:{ intros E. symmetry in E. apply pred_of_Some in E as (j & -> & Hj).
        apply Hnin. by eapply list_elem_of_lookup_2. }
    rewrite decide_False; [reflexivity|].
    intros E. symmetry in E. apply Hnin. by eapply list_elem_of_lookup_2.
Qed.

(** The node at position [k] and its two neighbours. *)
Lemma dl_neighbours m ls k c :
  links dn_next m ls -> back_links m ls -> ls !! k = Some c ->
  (exists d, m !! c = Some (mk_dnode d (ls !! S k) (pred_of ls k))) /\
  (forall x, ls !! S k = Some x -> x <> c /\ exists ndx, m !! x = Some ndx) /\
  (forall p, pred_of ls k = Some p ->
             p <> c /\ (exists ndp, m !! p = Some ndp) /\
             forall x, ls !! S k = Some x -> p <> x).
Proof.
  intros Hlk Hbk Hc. pose proof (links_NoDup _ _ _ Hlk) as Hnd. split_and!.
  - destruct (Hlk _ _ Hc) as ([d nx pv] & Hndc & Hnx).
    destruct (Hbk _ _ Hc) as (nd' & Hnd' & Hpv). rewrite Hndc in Hnd'.
    injection Hnd' as <-. cbn in Hnx, Hpv. subst nx pv. eauto.
  - intros x Hx. split.
    + eapply NoDup_lookup_ne; [exact Hnd | exact Hx | exact Hc | lia].
    + destruct (Hlk _ _ Hx) as (ndx & Hndx & _). eauto.
  - intros p Hp. apply pred_of_Some in Hp as (j & -> & Hj). split_and!.
    + eapply NoDup_lookup_ne; [exact Hnd | exact Hj | exact Hc | lia].
    + destruct (Hlk _ _ Hj) as (ndp & Hndp & _). eauto.
    + intros x Hx. eapply NoDup_lookup_ne; [exact Hnd | exact Hj | exact Hx | lia].
Qed.

Lemma doubly_list_pop_front_ok h lp output s out' h1 :
  dlists_ok h ->
  doubly_list_pop_front (Some lp) output h = Ok (s, out') h1 ->
  dl_effect h h1 lp /\
  (s <> SUCCESS -> s = ERROR_EMPTY_CONTAINER /\ h1 = h /\ out' = output /\
                   doubly_list_nodes h lp = []) /\
  (s = SUCCESS ->
   doubly_list_nodes h1 lp = delete 0%nat (doubly_list_nodes h lp) /\
   doubly_list_elements h1 lp = delete 0%nat (doubly_list_elements h lp)).
Proof.
  intros Hok H. unfold doubly_list_pop_front in H.
  apply bind_inv in H as (hd0 & h0 & E & H). minv E. rename E into Hl.
  destruct x as [hd tl sz es]. cbn in Hl. heap_simpl_in H.
  destruct (dlists_ok_repr h lp Hok) as (l' & Hl' & Hh & Ht & Hsz & Hlk & Hbk); [eauto|].
  rewrite Hl in Hl'. injection Hl' as <-. cbn in Hh, Ht, Hsz.
  set (ls := doubly_list_nodes h lp) in *.
  destruct hd as [c|].
  2:{ minv H. split_and!; [by apply dl_effect_refl | | discriminate].
      intros _. split_and!; try reflexivity. symmetry in Hh. by apply head_None in Hh. }
  rewrite head_lookup in Hh. symmetry in Hh.
  destruct (dl_neighbours _ _ _ _ Hlk Hbk Hh) as ((dc & Hndc) & Hnx & _).
  apply bind_inv in H as (o & h0 & Ho & H). run_in Ho.
  apply copy_out_inv in Ho as [-> _].
  enough ((dl_effect h h1 lp /\
           doubly_list_nodes h1 lp = delete 0%nat ls /\
           doubly_list_elements h1 lp = delete 0%nat (doubly_list_elements h lp)) /\
          s = SUCCESS) as ((Heff & Hnodes & Hel) & ->).
  { split_and!; [exact Heff | by intros [] | by intros _]. }
  pose proof (lookup_lt_Some _ _ _ Hh) as Hlen.
  destruct (ls !! 1%nat) as [x|] eqn:Hx.
  - destruct (Hnx x eq_refl) as (Hxc & ndx & Hndx).
    run_in H. injection H as <- <- <-. split; [|reflexivity].
    pose proof (lookup_lt_Some _ _ _ Hx).
    eapply dl_unlink_ok;
      [ exact Hok | exact Hl | exact Hh
      | cbn; rewrite ?insert_insert_eq; reflexivity
      | fold ls; by rewrite Hx
      | fold ls; destruct (decide (1%nat = length ls)); [lia | reflexivity]
      | reflexivity
      | | reflexivity | reflexivity | reflexivity | reflexivity ].
    cbn. unfold dl_unlink. fold ls. rewrite Hh, Hx. cbn [pred_of].
    by rewrite (alter_alt_Some _ _ _ _ Hndx).
  - apply lookup_ge_None in Hx.
    run_in H. injection H as <- <- <-. split; [|reflexivity].
    eapply dl_unlink_ok;
      [ exact Hok | exact Hl | exact Hh
      | cbn; rewrite ?insert_insert_eq; reflexivity
      | fold ls; by rewrite (proj2 (lookup_ge_None ls 1%nat))
      | fold ls; destruct (decide (1%nat = length ls)); [reflexivity | lia]
      | reflexivity
      | | reflexivity | reflexivity | reflexivity | reflexivity ].
    cbn. unfold dl_unlink. fold ls.
    by rewrite Hh, (proj2 (lookup_ge_None ls 1%nat)).
Qed.

Lemma doubly_list_pop_back_ok h lp output s out' h1 :
  dlists_ok h ->
  doubly_list_pop_back (Some lp) output h = Ok (s, out') h1 ->
  dl_effect h h1 lp /\
  (s <> SUCCESS -> s = ERROR_EMPTY_CONTAINER /\ h1 = h /\ out' = output /\
                   doubly_list_nodes h lp = []) /\
  (s = SUCCESS ->
   doubly_list_nodes h1 lp
   = delete (length (doubly_list_nodes h lp) - 1)%nat (doubly_list_nodes h lp) /\
   doubly_list_elements h1 lp
   = delete (length (doubly_list_nodes h lp) - 1)%nat (doubly_list_elements h lp)).
Proof.
  intros Hok H. unfold doubly_list_pop_back in H.
  apply bind_inv in H as (tl0 & h0 & E & H). minv E. rename E into Hl.
  destruct x as [hd tl sz es]. cbn in Hl. heap_simpl_in H.
  destruct (dlists_ok_repr h lp Hok) as (l' & Hl' & Hh & Ht & Hsz & Hlk & Hbk); [eauto|].
  rewrite Hl in Hl'. injection Hl' as <-. cbn in Hh, Ht, Hsz.
  set (ls := doubly_list_nodes h lp) in *.
  destruct tl as [c|].
  2:{ minv H. split_and!; [by apply dl_effect_refl | | discriminate].
      intros _. split_and!; try reflexivity. symmetry in Ht. by apply last_None in Ht. }
  rewrite last_lookup in Ht. symmetry in Ht.
  pose proof (lookup_lt_Some _ _ _ Ht) as Hlen.
  replace (Init.Nat.pred (length ls)) with (length ls - 1)%nat in Ht by lia.
  destruct (dl_neighbours _ _ _ _ Hlk Hbk Ht) as ((dc & Hndc) & _ & Hpv).
  rewrite (proj2 (lookup_ge_None ls (S (length ls - 1)))) in Hndc by lia.
  apply bind_inv in H as (o & h0 & Ho & H). run_in Ho.
  apply copy_out_inv in Ho as [-> _].
  enough ((dl_effect h h1 lp /\
           doubly_list_nodes h1 lp = delete (length ls - 1)%nat ls /\
           doubly_list_elements h1 lp
           = delete (length ls - 1)%nat (doubly_list_elements h lp)) /\
          s = SUCCESS) as ((Heff & Hnodes & Hel) & ->).
  { split_and!; [exact Heff | by intros [] | by intros _]. }
  destruct (pred_of ls (length ls - 1)) as [p|] eqn:Hp.
  - destruct (Hpv p eq_refl) as (Hpc & (ndp & Hndp) & _).
    run_in H. injection H as <- <- <-. split; [|reflexivity].
    pose proof Hp as Hp'. apply pred_of_Some in Hp' as (j & Hj & _).
    eapply dl_unlink_ok;
      [ exact Hok | exact Hl | exact Ht
      | cbn; rewrite ?insert_insert_eq; reflexivity
      | fold ls; rewrite Hj; reflexivity
      | fold ls; destruct (decide (S (length ls - 1) = length ls)); [by rewrite Hp | lia]
      | reflexivity
      | | reflexivity | reflexivity | reflexivity | reflexivity ].
    cbn. unfold dl_unlink. fold ls.
    rewrite Ht, Hp, (proj2 (lookup_ge_None ls (S (length ls - 1)))) by lia.
    by rewrite (alter_alt_Some _ _ _ _ Hndp).
  - assert (length ls - 1 = 0)%nat as Hk0.
    { destruct (length ls - 1)%nat as [|j] eqn:E; [reflexivity|]. cbn in Hp.
      apply lookup_ge_None in Hp. lia. }
    run_in H. injection H as <- <- <-. split; [|reflexivity].
    eapply dl_unlink_ok;
      [ exact Hok | exact Hl | exact Ht
      | cbn; rewrite ?insert_insert_eq; reflexivity
      | fold ls; rewrite Hk0; by rewrite (proj2 (lookup_ge_None ls 1%nat)) by lia
      | fold ls; destruct (decide (S (length ls - 1) = length ls)); [by rewrite Hp | lia]
      | reflexivity
      | | reflexivity | reflexivity | reflexivity | reflexivity ].
    cbn. unfold dl_unlink. fold ls.
    by rewrite Ht, Hp, (proj2 (lookup_ge_None ls (S (length ls - 1)))) by lia.
Qed.

Lemma dlists_ok_bound h lp :
  dlists_ok h -> Z.of_nat (length (doubly_list_nodes h lp)) <= SIZE_MAX.
Proof.
  intros Hok. destruct (dlists h !! lp) as [l|] eqn:El.
  - destruct (dlists_ok_repr h lp Hok) as (_ & _ & _ & _ & _ & Hlk & _); [eauto|].
    eapply links_length_bound; [exact Hlk | exact (proj1 Hok)].
  - rewrite doubly_list_nodes_dead by exact El. cbn. unfold SIZE_MAX, SIZE_BITS. lia.
Qed.

(** Linking a fresh node [n] in before the node [cur] at position [k]:
    the store [doubly_list_insert] and [doubly_list_insert_before] leave
    behind. *)
Lemma dl_link_before_ok h h1 lp l l1 k cur n d ndc :
  dlists_ok h -> dlists h !! lp = Some l ->
  doubly_list_nodes h lp !! k = Some cur ->
  valid_addr n = true -> dnodes h !! n = None ->
  dnodes h !! cur = Some ndc ->
  dlists h1 = <[lp := l1]> (dlists h) ->
  dl_head l1 = match k with O => Some n | S _ => dl_head l end ->
  dl_tail l1 = dl_tail l ->
  dl_size l1 = to_size_t (dl_size l + 1) ->
  dnodes h1
  = <[cur := set_dn_prev (Some n) ndc]>
      (match dn_prev ndc with
       | Some pv => alter (set_dn_next (Some n)) pv
       | None => fun m => m
       end (<[n := mk_dnode d (Some cur) (dn_prev ndc)]> (dnodes h))) ->
  vectors h1 = vectors h -> buffers h1 = buffers h ->
  slists h1 = slists h -> snodes h1 = snodes h ->
  dl_effect h h1 lp /\
  doubly_list_nodes h1 lp = insert_at k n (doubly_list_nodes h lp) /\
  doubly_list_elements h1 lp = insert_at k d (doubly_list_elements h lp).
Proof.
  intros Hok Hl Hcur Hvn Hfresh Hndc Hls Hhead Htail Hsize Hdn Hv Hb Hsl Hsn.
  destruct (dlists_ok_repr h lp Hok) as (l' & Hl' & Hh & Ht & Hsz & Hlk & Hbk); [eauto|].
  assert (l' = l) by congruence. subst l'.
  set (ls := doubly_list_nodes h lp) in *.
  pose proof (links_NoDup _ _ _ Hlk) as Hnd.
  pose proof (lookup_lt_Some _ _ _ Hcur) as Hlen.
  destruct (dl_neighbours _ _ _ _ Hlk Hbk Hcur) as ((dc & Hndc') & _ & Hpv).
  rewrite Hndc in Hndc'. injection Hndc' as ->. cbn [dn_prev] in *.
  assert (forall a nd, dnodes h !! a = Some nd -> a <> n) as Hne by (intros; congruence).
  pose proof (Hne _ _ Hndc) as Hcn.
  eapply dl_insert_ok;
    [ exact Hok | exact Hl | fold ls; lia | exact Hvn | exact Hfresh
    | exact Hls | exact Hhead
    | fold ls; destruct (decide (k = length ls)); [lia | exact Htail]
    | exact Hsize | | | | assumption | assumption | assumption | assumption ].
  - rewrite Hdn. fold ls. rewrite lookup_insert_ne by congruence.
    destruct (pred_of ls k) as [p|] eqn:Hp.
    + destruct (Hpv p eq_refl) as (Hpc & (ndp & Hndp) & _). pose proof (Hne _ _ Hndp).
      rewrite lookup_alter_ne, lookup_insert_eq by congruence. by rewrite Hcur.
    + rewrite lookup_insert_eq. by rewrite Hcur.
  - intros i x nd Hi Hndx. fold ls in Hi |- *. rewrite Hdn.
    pose proof (Hne _ _ Hndx) as Hxn.
    destruct (decide (i = k)) as [->|Hik].
    + assert (x = cur) as -> by congruence. rewrite lookup_insert_eq.
      rewrite decide_False by lia. assert (nd = mk_dnode dc (ls !! S k) (pred_of ls k))
        by congruence. subst nd. reflexivity.
    + assert (x <> cur).
      { eapply NoDup_lookup_ne; [exact Hnd | exact Hi | exact Hcur | exact Hik]. }
      rewrite lookup_insert_ne by congruence.
      destruct (pred_of ls k) as [p|] eqn:Hp.
      * apply pred_of_Some in Hp as (j & -> & Hj).
        destruct (decide (S i = S j)) as [E|Hn'].
        -- injection E as ->. assert (x = p) as -> by congruence.
           rewrite lookup_alter_eq, lookup_insert_ne, Hndx by congruence. reflexivity.
        -- assert (x <> p).
           { eapply NoDup_lookup_ne; [exact Hnd | exact Hi | exact Hj | congruence]. }
           rewrite lookup_alter_ne, lookup_insert_ne, Hndx by congruence. by destruct nd.
      * destruct k as [|j]; [|cbn in Hp; apply lookup_ge_None in Hp; lia].
        rewrite decide_False by lia.
        rewrite lookup_insert_ne by congruence. rewrite Hndx. by destruct nd.
  - intros x Hxn Hnin. fold ls in Hnin. rewrite Hdn.
    assert (x <> cur) by (intros ->; apply Hnin; by eapply list_elem_of_lookup_2).
    rewrite lookup_insert_ne by congruence.
    destruct (pred_of ls k) as [p|] eqn:Hp.
    + apply pred_of_Some in Hp as (j & -> & Hj).
      assert (x <> p) by (intros ->; apply Hnin; by eapply list_elem_of_lookup_2).
      by rewrite lookup_alter_ne, lookup_insert_ne by congruence.
    + by rewrite lookup_insert_ne by congruence.
Qed.

Lemma doubly_list_insert_ok h lp index e s h1 :
  dlists_ok h -> 0 <= index <= SIZE_MAX ->
  doubly_list_insert (Some lp) index (Some e) h = Ok s h1 ->
  dl_effect h h1 lp /\
  (s <> SUCCESS ->
   (s = ERROR_INDEX_OUT_OF_BOUNDS \/ s = ERROR_MEMORY_ALLOCATION) /\
   contents h1 = contents h) /\
  (s = ERROR_INDEX_OUT_OF_BOUNDS <->
   Z.of_nat (length (doubly_list_nodes h lp)) < index) /\
  (s = SUCCESS ->
   exists n l, dlists h !! lp = Some l /\
     doubly_list_nodes h1 lp = insert_at (Z.to_nat index) n (doubly_list_nodes h lp) /\
     doubly_list_elements h1 lp
     = insert_at (Z.to_nat index) (take (Z.to_nat (dl_element_size l)) e)
         (doubly_list_elements h lp)).
Proof.
  intros Hok Hidx H. unfold doubly_list_insert in H.
  apply bind_inv in H as (l & h0 & E & H). minv E. rename E into Hl.
  cbn in Hl.
  pose proof (dlists_ok_repr h lp Hok ltac:(eauto)) as Hrepr.
  pose proof Hrepr as (l' & Hl' & Hh & Ht & Hsz & Hlk & Hbk).
  rewrite Hl in Hl'. injection Hl' as <-.
  set (ls := doubly_list_nodes h lp) in *.
  assert (length (doubly_list_elements h lp) = length ls) as Hlen
    by (unfold doubly_list_elements; by rewrite length_fmap).
  destruct (Z.ltb_spec (dl_size l) index) as [Hoob|Hin].
  { minv H. split_and!; [by apply dl_effect_refl | by intros _; split; [left|] | | discriminate].
    split; [lia | reflexivity]. }
  destruct (Z.eqb_spec index 0) as [->|Hn0].
  { apply doubly_list_push_front_ok in H as (Heff & Hfail & Hsucc); [|exact Hok].
    split_and!; [exact Heff | | |].
    - intros Hs. destruct (Hfail Hs) as [-> ?]. auto.
    - split; [|lia]. intros ->. destruct Hfail as [? _]; discriminate.
    - intros Hs. destruct (Hsucc Hs) as (n & l0 & Hl0 & Hn & He). exists n, l0.
      fold ls in Hn. rewrite !insert_at_0. auto. }
  destruct (Z.eqb_spec index (dl_size l)) as [->|Hnlast].
  { apply doubly_list_push_back_ok in H as (Heff & Hfail & Hsucc); [|exact Hok].
    split_and!; [exact Heff | | |].
    - intros Hs. destruct (Hfail Hs) as [-> ?]. auto.
    - split; [|lia]. intros ->. destruct Hfail as [? _]; discriminate.
    - intros Hs. destruct (Hsucc Hs) as (n & l0 & Hl0 & Hn & He). exists n, l0.
      fold ls in Hn. rewrite Hsz, Nat2Z.id. rewrite insert_at_end.
      rewrite <- Hlen, insert_at_end. auto. }
  pose proof (dlists_ok_bound h lp Hok) as Hbound. fold ls in Hbound.
  rewrite (bind_Ok _ _ _ _ _ (get_doubly_node_at_repr h lp ls index Hrepr
             ltac:(lia) Hbound)) in H.
  destruct (lookup_lt_is_Some_2 ls (Z.to_nat index)) as [cur Hcur]; [lia|].
  rewrite Hcur in H.
  apply bind_inv in H as (node & h0 & Hc & H).
  apply create_doubly_node_inv in Hc. destruct node as [n|].
  2:{ apply ret_inv in H as [<- <-].
      split_and!; [by apply dl_effect_contents | by intros _; split; [right|] | | discriminate].
      split; [discriminate | lia]. }
  destruct Hc as (Hvn & Hu & Hes & Hle & al & ->).
  apply in_use_false in Hu as (_ & _ & _ & _ & Hnl & Hfresh).
  destruct (dl_neighbours _ _ _ _ Hlk Hbk Hcur) as ((dc & Hndc) & _ & Hpv).
  assert (n <> lp) by congruence.
  assert (forall a nd, dnodes h !! a = Some nd -> a <> n) as Hne by (intros; congruence).
  pose proof (Hne _ _ Hndc).
  destruct (pred_of ls (Z.to_nat index)) as [p|] eqn:Hp.
  2:{ destruct (Z.to_nat index) eqn:E; [lia|]. cbn in Hp. apply lookup_ge_None in Hp. lia. }
  destruct (Hpv p eq_refl) as (Hpc & (ndp & Hndp) & _). pose proof (Hne _ _ Hndp).
  run_in H. injection H as <- <-.
  match goal with |- dl_effect _ ?hf _ /\ _ =>
    assert (dl_effect h hf lp /\
            doubly_list_nodes hf lp = insert_at (Z.to_nat index) n ls /\
            doubly_list_elements hf lp
            = insert_at (Z.to_nat index) (take (Z.to_nat (dl_element_size l)) e)
                (doubly_list_elements h lp))
      as (Heff & Hnodes & Hel) end.
  { eapply dl_link_before_ok;
      [ exact Hok | exact Hl | exact Hcur | exact Hvn | exact Hfresh | exact Hndc
      | cbn; rewrite ?insert_insert_eq; reflexivity
      | destruct (Z.to_nat index) eqn:E; [lia | reflexivity]
      | reflexivity | reflexivity
      | | reflexivity | reflexivity | reflexivity | reflexivity ].
    cbn. rewrite !insert_insert_eq.
    erewrite alter_alt_Some by (rewrite lookup_insert_ne by congruence; exact Hndp).
    reflexivity. }
  split_and!; [exact Heff | by intros [] | split; [discriminate | lia] |].
  intros _. exists n, l. auto.
Qed.

Lemma doubly_list_remove_ok h lp index s h1 :
  dlists_ok h -> 0 <= index <= SIZE_MAX ->
  doubly_list_remove (Some lp) index h = Ok s h1 ->
  dl_effect h h1 lp /\
  (s <> SUCCESS -> s = ERROR_INDEX_OUT_OF_BOUNDS /\ h1 = h) /\
  (s = ERROR_INDEX_OUT_OF_BOUNDS <->
   Z.of_nat (length (doubly_list_nodes h lp)) <= index) /\
  (s = SUCCESS ->
   doubly_list_nodes h1 lp = delete (Z.to_nat index) (doubly_list_nodes h lp) /\
   doubly_list_elements h1 lp = delete (Z.to_nat index) (doubly_list_elements h lp)).
Proof.
  intros Hok Hidx H. unfold doubly_list_remove in H.
  apply bind_inv in H as (l & h0 & E & H). minv E. rename E into Hl.
  cbn in Hl.
  pose proof (dlists_ok_repr h lp Hok ltac:(eauto)) as Hrepr.
  pose proof Hrepr as (l' & Hl' & Hh & Ht & Hsz & Hlk & Hbk).
  rewrite Hl in Hl'. injection Hl' as <-.
  set (ls := doubly_list_nodes h lp) in *.
  pose proof (dlists_ok_bound h lp Hok) as Hbound. fold ls in Hbound.
  destruct (Z.leb_spec (dl_size l) index) as [Hoob|Hin].
  { minv H. split_and!; [by apply dl_effect_refl | by intros _ | | discriminate].
    split; [lia | reflexivity]. }
  destruct (Z.eqb_spec index 0) as [->|Hn0].
  { apply bind_inv in H as ([s0 o] & h0 & H & Hr). minv Hr. cbn.
    apply doubly_list_pop_front_ok in H as (Heff & Hfail & Hsucc); [|exact Hok].
    assert (s0 = SUCCESS) as ->.
    { destruct (decide (s0 = SUCCESS)) as [|Hs]; [assumption|].
      destruct (Hfail Hs) as (_ & _ & _ & E). fold ls in E. rewrite Hsz, E in Hin.
      cbn in Hin. lia. }
    split_and!; [exact Heff | by intros [] | split; [discriminate | lia] | exact Hsucc]. }
  rewrite (to_size_t_small (dl_size l - 1)) in H by lia.
  destruct (Z.eqb_spec index (dl_size l - 1)) as [->|Hnlast].
  { apply bind_inv in H as ([s0 o] & h0 & H & Hr). minv Hr. cbn.
    apply doubly_list_pop_back_ok in H as (Heff & Hfail & Hsucc); [|exact Hok].
    assert (s0 = SUCCESS) as ->.
    { destruct (decide (s0 = SUCCESS)) as [|Hs]; [assumption|].
      destruct (Hfail Hs) as (_ & _ & _ & E). fold ls in E. rewrite Hsz, E in Hidx.
      cbn in Hidx. lia. }
    fold ls in Hsucc.
    replace (Z.to_nat (dl_size l - 1)) with (length ls - 1)%nat by lia.
    split_and!; [exact Heff | by intros [] | split; [discriminate | lia] | exact Hsucc]. }
  rewrite (bind_Ok _ _ _ _ _ (get_doubly_node_at_repr h lp ls index Hrepr
             ltac:(lia) Hbound)) in H.
  destruct (lookup_lt_is_Some_2 ls (Z.to_nat index)) as [rm Hrm]; [lia|].
  rewrite Hrm in H.
  destruct (dl_neighbours _ _ _ _ Hlk Hbk Hrm) as ((dc & Hndc) & Hnx & Hpv).
  destruct (pred_of ls (Z.to_nat index)) as [p|] eqn:Hp.
  2:{ destruct (Z.to_nat index) eqn:E; [lia|]. cbn in Hp. apply lookup_ge_None in Hp. lia. }
  destruct (lookup_lt_is_Some_2 ls (S (Z.to_nat index))) as [x Hx]; [lia|].
  rewrite Hx in *.
  destruct (Hpv p eq_refl) as (Hpc & (ndp & Hndp) & Hpx). specialize (Hpx x eq_refl).
  destruct (Hnx x eq_refl) as (Hxc & ndx & Hndx).
  run_in H. injection H as <- <-.
  match goal with |- dl_effect _ ?hf _ /\ _ =>
    assert (dl_effect h hf lp /\
            doubly_list_nodes hf lp = delete (Z.to_nat index) ls /\
            doubly_list_elements hf lp
            = delete (Z.to_nat index) (doubly_list_elements h lp))
      as (Heff & Hnodes & Hel) end.
  { eapply dl_unlink_ok;
      [ exact Hok | exact Hl | exact Hrm
      | cbn; rewrite ?insert_insert_eq; reflexivity
      | destruct (Z.to_nat index) eqn:E; [lia | reflexivity]
      | fold ls; destruct (decide (S (Z.to_nat index) = length ls)); [lia | reflexivity]
      | reflexivity
      | | reflexivity | reflexivity | reflexivity | reflexivity ].
    cbn. unfold dl_unlink. fold ls. rewrite Hrm, Hx, Hp.
    rewrite (alter_alt_Some _ _ _ _ Hndp).
    erewrite alter_alt_Some by (rewrite lookup_insert_ne by congruence; exact Hndx).
    reflexivity. }
  split_and!; [exact Heff | by intros [] | split; [discriminate | lia] | by intros _].
Qed.

Lemma doubly_list_insert_before_ok h lp nd k e s h1 :
  dlists_ok h -> doubly_list_nodes h lp !! k = Some nd ->
  doubly_list_insert_before (Some lp) (Some nd) (Some e) h = Ok s h1 ->
  dl_effect h h1 lp /\
  (s <> SUCCESS -> s = ERROR_MEMORY_ALLOCATION /\ contents h1 = contents h) /\
  (s = SUCCESS ->
   exists n l, dlists h !! lp = Some l /\
     doubly_list_nodes h1 lp = insert_at k n (doubly_list_nodes h lp) /\
     doubly_list_elements h1 lp
     = insert_at k (take (Z.to_nat (dl_element_size l)) e) (doubly_list_elements h lp)).
Proof.
  intros Hok Hcur H. unfold doubly_list_insert_before in H.
  apply bind_inv in H as (es0 & h0 & E & H). minv E. rename E into Hl, x into l.
  cbn in Hl.
  apply bind_inv in H as (node & h0 & Hc & H).
  apply create_doubly_node_inv in Hc. destruct node as [n|].
  2:{ apply ret_inv in H as [<- <-].
      split_and!; [by apply dl_effect_contents | by intros _ | discriminate]. }
  destruct Hc as (Hvn & Hu & Hes & Hle & al & ->).
  apply in_use_false in Hu as (_ & _ & _ & _ & Hnl & Hfresh).
  destruct (dlists_ok_repr h lp Hok) as (l' & Hl' & Hh & Ht & Hsz & Hlk & Hbk); [eauto|].
  rewrite Hl in Hl'. injection Hl' as <-.
  set (ls := doubly_list_nodes h lp) in *.
  destruct (dl_neighbours _ _ _ _ Hlk Hbk Hcur) as ((dc & Hndc) & _ & Hpv).
  assert (n <> lp) by congruence.
  assert (forall a nd, dnodes h !! a = Some nd -> a <> n) as Hne by (intros; congruence).
  pose proof (Hne _ _ Hndc).
  enough ((dl_effect h h1 lp /\
           doubly_list_nodes h1 lp = insert_at k n ls /\
           doubly_list_elements h1 lp
           = insert_at k (take (Z.to_nat (dl_element_size l)) e)
               (doubly_list_elements h lp)) /\
          s = SUCCESS) as ((Heff & Hnodes & Hel) & ->).
  { split_and!; [exact Heff | by intros [] |]. intros _. exists n, l. auto. }
  destruct (pred_of ls k) as [p|] eqn:Hp.
  - destruct (Hpv p eq_refl) as (Hpc & (ndp & Hndp) & _). pose proof (Hne _ _ Hndp).
    pose proof Hp as Hp'. apply pred_of_Some in Hp' as (j & -> & _).
    run_in H. injection H as <- <-. split; [|reflexivity].
    eapply dl_link_before_ok;
      [ exact Hok | exact Hl | exact Hcur | exact Hvn | exact Hfresh | exact Hndc
      | cbn; rewrite ?insert_insert_eq; reflexivity
      | reflexivity | reflexivity | reflexivity
      | | reflexivity | reflexivity | reflexivity | reflexivity ].
    cbn. rewrite !insert_insert_eq.
    erewrite alter_alt_Some by (rewrite lookup_insert_ne by congruence; exact Hndp).
    reflexivity.
  - assert (k = 0%nat) as ->.
    { destruct k; [reflexivity|]. cbn in Hp. apply lookup_ge_None in Hp.
      apply lookup_lt_Some in Hcur. lia. }
    run_in H. injection H as <- <-. split; [|reflexivity].
    eapply dl_link_before_ok;
      [ exact Hok | exact Hl | exact Hcur | exact Hvn | exact Hfresh | exact Hndc
      | cbn; rewrite ?insert_insert_eq; reflexivity
      | reflexivity | reflexivity | reflexivity
      | | reflexivity | reflexivity | reflexivity | reflexivity ].
    cbn. rewrite !insert_insert_eq. reflexivity.
Qed.

Lemma doubly_list_insert_after_ok h lp nd j e s h1 :
  dlists_ok h -> doubly_list_nodes h lp !! j = Some nd ->
  doubly_list_insert_after (Some lp) (Some nd) (Some e) h = Ok s h1 ->
  dl_effect h h1 lp /\
  (s <> SUCCESS -> s = ERROR_MEMORY_ALLOCATION /\ contents h1 = contents h) /\
  (s = SUCCESS ->
   exists n l, dlists h !! lp = Some l /\
     doubly_list_nodes h1 lp = insert_at (S j) n (doubly_list_nodes h lp) /\
     doubly_list_elements h1 lp
     = insert_at (S j) (take (Z.to_nat (dl_element_size l)) e)
         (doubly_list_elements h lp)).
Proof.
  intros Hok Hcur H. unfold doubly_list_insert_after in H.
  apply bind_inv in H as (es0 & h0 & E & H). minv E. rename E into Hl, x into l.
  cbn in Hl.
  apply bind_inv in H as (node & h0 & Hc & H).
  apply create_doubly_node_inv in Hc. destruct node as [n|].
  2:{ apply ret_inv in H as [<- <-].
      split_and!; [by apply dl_effect_contents | by intros _ | discriminate]. }
  destruct Hc as (Hvn & Hu & Hes & Hle & al & ->).
  apply in_use_false in Hu as (_ & _ & _ & _ & Hnl & Hfresh).
  destruct (dlists_ok_repr h lp Hok) as (l' & Hl' & Hh & Ht & Hsz & Hlk & Hbk); [eauto|].
  rewrite Hl in Hl'. injection Hl' as <-.
  set (ls := doubly_list_nodes h lp) in *.
  pose proof (links_NoDup _ _ _ Hlk) as Hnd.
  pose proof (lookup_lt_Some _ _ _ Hcur) as Hlen.
  destruct (dl_neighbours _ _ _ _ Hlk Hbk Hcur) as ((dc & Hndc) & Hnx & _).
  assert (n <> lp) by congruence.
  assert (forall a nd, dnodes h !! a = Some nd -> a <> n) as Hne by (intros; congruence).
  pose proof (Hne _ _ Hndc).
  enough ((dl_effect h h1 lp /\
           doubly_list_nodes h1 lp = insert_at (S j) n ls /\
           doubly_list_elements h1 lp
           = insert_at (S j) (take (Z.to_nat (dl_element_size l)) e)
               (doubly_list_elements h lp)) /\
          s = SUCCESS) as ((Heff & Hnodes & Hel) & ->).
  { split_and!; [exact Heff | by intros [] |]. intros _. exists n, l. auto. }
  destruct (ls !! S j) as [x|] eqn:Hx.
  - destruct (Hnx x eq_refl) as (Hxc & ndx & Hndx). pose proof (Hne _ _ Hndx).
    pose proof (lookup_lt_Some _ _ _ Hx).
    run_in H. injection H as <- <-. split; [|reflexivity].
    eapply dl_insert_ok;
      [ exact Hok | exact Hl | fold ls; lia | exact Hvn | exact Hfresh
      | cbn; rewrite ?insert_insert_eq; reflexivity
      | reflexivity
      | fold ls; destruct (decide (S j = length ls)); [lia | reflexivity]
      | reflexivity
      | cbn; rewrite !lookup_insert_ne, ?insert_insert_eq, lookup_insert_eq by congruence;
        fold ls; cbn [pred_of]; by rewrite Hx, Hcur
      | | | reflexivity | reflexivity | reflexivity | reflexivity ].
    + intros i a nda Hi Hnda. fold ls in Hi |- *. cbn.
      pose proof (Hne _ _ Hnda).
      destruct (decide (i = j)) as [->|Hij].
      * assert (a = nd) as -> by congruence. rewrite lookup_insert_eq.
        rewrite decide_True by reflexivity. rewrite decide_False by lia.
        assert (nda = mk_dnode dc (Some x) (pred_of ls j)) by congruence. subst nda.
        reflexivity.
      * assert (a <> nd).
        { eapply NoDup_lookup_ne; [exact Hnd | exact Hi | exact Hcur | exact Hij]. }
        rewrite lookup_insert_ne by congruence. rewrite decide_False by congruence.
        destruct (decide (i = S j)) as [->|Hij'].
        -- assert (a = x) as -> by congruence. rewrite lookup_insert_eq.
           assert (nda = ndx) by congruence. subst nda. reflexivity.
        -- assert (a <> x).
           { eapply NoDup_lookup_ne; [exact Hnd | exact Hi | exact Hx | exact Hij']. }
           rewrite !lookup_insert_ne by congruence. rewrite Hnda. by destruct nda.
    + intros a Han Hnin. fold ls in Hnin. cbn.
      assert (a <> nd) by (intros ->; apply Hnin; by eapply list_elem_of_lookup_2).
      assert (a <> x) by (intros ->; apply Hnin; by eapply list_elem_of_lookup_2).
      by rewrite !lookup_insert_ne by congruence.
  - apply lookup_ge_None in Hx.
    run_in H. injection H as <- <-. split; [|reflexivity].
    eapply dl_insert_ok;
      [ exact Hok | exact Hl | fold ls; lia | exact Hvn | exact Hfresh
      | cbn; rewrite ?insert_insert_eq; reflexivity
      | reflexivity
      | fold ls; destruct (decide (S j = length ls)); [reflexivity | lia]
      | reflexivity
      | cbn; rewrite !lookup_insert_ne, ?insert_insert_eq, lookup_insert_eq by congruence;
        fold ls; cbn [pred_of]; by rewrite (proj2 (lookup_ge_None ls (S j))), Hcur
      | | | reflexivity | reflexivity | reflexivity | reflexivity ].
    + intros i a nda Hi Hnda. fold ls in Hi |- *. cbn.
      pose proof (Hne _ _ Hnda). pose proof (lookup_lt_Some _ _ _ Hi).
      rewrite (decide_False (P := i = S j)) by lia.
      destruct (decide (i = j)) as [->|Hij].
      * assert (a = nd) as -> by congruence. rewrite lookup_insert_eq.
        rewrite decide_True by reflexivity.
        assert (nda = mk_dnode dc NULL (pred_of ls j)) by congruence. subst nda.
        reflexivity.
      * assert (a <> nd).
        { eapply NoDup_lookup_ne; [exact Hnd | exact Hi | exact Hcur | exact Hij]. }
        rewrite decide_False by congruence.
        rewrite !lookup_insert_ne by congruence. rewrite Hnda. by destruct nda.
    + intros a Han Hnin. fold ls in Hnin. cbn.
      assert (a <> nd) by (intros ->; apply Hnin; by eapply list_elem_of_lookup_2).
      by rewrite !lookup_insert_ne by congruence.
Qed.

(** [doubly_list_iter_remove] on an iterator whose [current] is the node
    at position [k]: it returns SUCCESS, that node is unlinked and
    released, and [current] moves on to the node that followed it. *)
Lemma doubly_list_iter_remove_run h it lp c k :
  dlists_ok h -> dli_list it = Some lp -> dli_current it = Some c ->
  doubly_list_nodes h lp !! k = Some c ->
  exists h1,
    doubly_list_iter_remove (Some it) h
    = Ok (SUCCESS, Some (set_dli_current (doubly_list_nodes h lp !! S k) it)) h1 /\
    dl_element_size <$> dlists h1 !! lp = dl_element_size <$> dlists h !! lp /\
    dl_effect h h1 lp /\
    doubly_list_nodes h1 lp = delete k (doubly_list_nodes h lp) /\
    doubly_list_elements h1 lp = delete k (doubly_list_elements h lp).
Proof.
  intros Hok Hlp Hcur Hc.
  destruct (dlists h !! lp) as [l|] eqn:Hl.
  2:{ rewrite doubly_list_nodes_dead in Hc by exact Hl. discriminate. }
  destruct (dlists_ok_repr h lp Hok) as (l' & Hl' & Hh & Ht & Hsz & Hlk & Hbk); [eauto|].
  rewrite Hl in Hl'. injection Hl' as <-.
  set (ls := doubly_list_nodes h lp) in *.
  pose proof (lookup_lt_Some _ _ _ Hc) as Hlen.
  destruct (dl_neighbours _ _ _ _ Hlk Hbk Hc) as ((dc & Hndc) & Hnx & Hpv).
  enough (forall o, doubly_list_iter_remove (Some it) h = o ->
            exists h1, o = Ok (SUCCESS, Some (set_dli_current (ls !! S k) it)) h1 /\
                       dl_element_size <$> dlists h1 !! lp
                       = dl_element_size <$> Some l /\
                       dl_effect h h1 lp /\
                       doubly_list_nodes h1 lp = delete k ls /\
                       doubly_list_elements h1 lp = delete k (doubly_list_elements h lp))
    as X by (by eapply X).
  intros o H. unfold doubly_list_iter_remove in H. rewrite Hlp, Hcur in H.
  destruct l as [hd tl sz es]. cbn in Hh, Ht, Hsz.
  destruct (pred_of ls k) as [p|] eqn:Hp; destruct (ls !! S k) as [x|] eqn:Hx.
  - destruct (Hpv p eq_refl) as (Hpc & (ndp & Hndp) & Hpx). specialize (Hpx x eq_refl).
    destruct (Hnx x eq_refl) as (Hxc & ndx & Hndx).
    pose proof Hp as Hp'. apply pred_of_Some in Hp' as (j & -> & _).
    pose proof (lookup_lt_Some _ _ _ Hx).
    run_in H. subst o. eexists. split; [reflexivity|].
    split; [cbn; rewrite ?insert_insert_eq, lookup_insert_eq; reflexivity|].
    eapply dl_unlink_ok;
      [ exact Hok | exact Hl | exact Hc
      | cbn; rewrite ?insert_insert_eq; reflexivity
      | reflexivity
      | fold ls; destruct (decide (S (S j) = length ls)); [lia | reflexivity]
      | reflexivity
      | | reflexivity | reflexivity | reflexivity | reflexivity ].
    cbn. unfold dl_unlink. fold ls. rewrite Hc, Hx, Hp.
    rewrite (alter_alt_Some _ _ _ _ Hndp).
    erewrite alter_alt_Some by (rewrite lookup_insert_ne by congruence; exact Hndx).
    reflexivity.
  - destruct (Hpv p eq_refl) as (Hpc & (ndp & Hndp) & _).
    pose proof Hp as Hp'. apply pred_of_Some in Hp' as (j & -> & _).
    apply lookup_ge_None in Hx.
    run_in H. subst o. eexists. split; [reflexivity|].
    split; [cbn; rewrite ?insert_insert_eq, lookup_insert_eq; reflexivity|].
    eapply dl_unlink_ok;
      [ exact Hok | exact Hl | exact Hc
      | cbn; rewrite ?insert_insert_eq; reflexivity
      | reflexivity
      | fold ls; destruct (decide (S (S j) = length ls)); [by rewrite Hp | lia]
      | reflexivity
      | | reflexivity | reflexivity | reflexivity | reflexivity ].
    cbn. unfold dl_unlink. fold ls.
    rewrite Hc, (proj2 (lookup_ge_None ls (S (S j)))), Hp by lia.
    by rewrite (alter_alt_Some _ _ _ _ Hndp).
  - destruct (Hnx x eq_refl) as (Hxc & ndx & Hndx).
    assert (k = 0%nat) as ->.
    { destruct k; [reflexivity|]. cbn in Hp. apply lookup_ge_None in Hp. lia. }
    pose proof (lookup_lt_Some _ _ _ Hx).
    run_in H. subst o. eexists. split; [reflexivity|].
    split; [cbn; rewrite ?insert_insert_eq, lookup_insert_eq; reflexivity|].
    eapply dl_unlink_ok;
      [ exact Hok | exact Hl | exact Hc
      | cbn; rewrite ?insert_insert_eq; reflexivity
      | fold ls; by rewrite Hx
      | fold ls; destruct (decide (1%nat = length ls)); [lia | reflexivity]
      | reflexivity
      | | reflexivity | reflexivity | reflexivity | reflexivity ].
    cbn. unfold dl_unlink. fold ls. rewrite Hc, Hx. cbn [pred_of].
    by rewrite (alter_alt_Some _ _ _ _ Hndx).
  - assert (k = 0%nat) as ->.
    { destruct k; [reflexivity|]. cbn in Hp. apply lookup_ge_None in Hp. lia. }
    apply lookup_ge_None in Hx.
    run_in H. subst o. eexists. split; [reflexivity|].
    split; [cbn; rewrite ?insert_insert_eq, lookup_insert_eq; reflexivity|].
    eapply dl_unlink_ok;
      [ exact Hok | exact Hl | exact Hc
      | cbn; rewrite ?insert_insert_eq; reflexivity
      | fold ls; by rewrite (proj2 (lookup_ge_None ls 1%nat))
      | fold ls; destruct (decide (1%nat = length ls)); [reflexivity | lia]
      | reflexivity
      | | reflexivity | reflexivity | reflexivity | reflexivity ].
    cbn. unfold dl_unlink. fold ls.
    by rewrite Hc, (proj2 (lookup_ge_None ls 1%nat)).
Qed.

Lemma doubly_list_iter_remove_failure iter h s it' h1 :
  doubly_list_iter_remove iter h = Ok (s, it') h1 -> s <> SUCCESS ->
  s = ERROR_INVALID_INPUT /\ h1 = h /\ it' = iter /\
  (iter = None \/ exists it, iter = Some it /\
                             (dli_list it = None \/ dli_current it = None)).
Proof.
  unfold doubly_list_iter_remove. intros H Hs. destruct iter as [it|].
  2:{ minv H. by split_and!; [| | |left]. }
  destruct (dli_list it) as [lp|] eqn:El, (dli_current it) as [c|] eqn:Ec.
  2-4: minv H; split_and!; try reflexivity; right; exists it; split; [reflexivity|];
    rewrite ?El, ?Ec; auto.
  exfalso. apply Hs.
  repeat (apply bind_inv in H as (? & ? & _ & H)). by minv H.
Qed.

(* ===================================================================== *)
(** * doubly_list.c : create, clear, destroy, the functions that only
      read, set, swap, copy *)
(* ===================================================================== *)

Lemma dl_forward_pure n cur h r h1 : dl_forward n cur h = Ok r h1 -> h1 = h.
Proof.
  revert cur h. induction n as [|n IH]; intros cur h H; destruct cur as [c|]; cbn in H;
    try (by minv H).
  apply bind_inv in H as (nd & h0 & E & H). minv E. by apply IH in H.
Qed.

Lemma dl_backward_pure n cur h r h1 : dl_backward n cur h = Ok r h1 -> h1 = h.
Proof.
  revert cur h. induction n as [|n IH]; intros cur h H; destruct cur as [c|]; cbn in H;
    try (by minv H).
  apply bind_inv in H as (nd & h0 & E & H). minv E. by apply IH in H.
Qed.

Lemma get_doubly_node_at_pure list index h r h1 :
  get_doubly_node_at list index h = Ok r h1 -> h1 = h.
Proof.
  unfold get_doubly_node_at. intros H. destruct list as [lp|]; [|by minv H].
  apply bind_inv in H as (l & h0 & E & H). minv E.
  destruct (dl_size l <=? index); [by minv H|].
  destruct (index <? dl_size l / 2); [by apply dl_forward_pure in H|].
  by apply dl_backward_pure in H.
Qed.

Lemma doubly_list_get_pure list index output h r h1 :
  doubly_list_get list index output h = Ok r h1 -> h1 = h.
Proof.
  unfold doubly_list_get. intros H.
  destruct list as [lp|], output as [out|]; try (by minv H).
  apply bind_inv in H as (node & h0 & E & H). apply get_doubly_node_at_pure in E as ->.
  destruct node as [n|]; [|by minv H].
  apply bind_inv in H as (d & h0 & E & H). minv E.
  apply bind_inv in H as (es & h0 & E' & H). minv E'.
  apply bind_inv in H as (o & h0 & E'' & H). apply copy_out_inv in E'' as [-> _].
  by minv H.
Qed.

Lemma doubly_list_iter_create_reverse_pure list h r h1 :
  doubly_list_iter_create_reverse list h = Ok r h1 -> h1 = h.
Proof.
  unfold doubly_list_iter_create_reverse. intros H.
  apply bind_inv in H as (x & h0 & E & H).
  assert (h0 = h) as -> by (destruct list; by minv E).
  apply bind_inv in H as (p & h0 & E' & H). minv H. destruct list; [|by minv E'].
  apply bind_inv in E' as (sz & h2 & E1 & E'). minv E1. by minv E'.
Qed.

Lemma doubly_list_iter_prev_pure iter output h r h1 :
  doubly_list_iter_prev iter output h = Ok r h1 -> h1 = h.
Proof.
  unfold doubly_list_iter_prev. intros H. destruct iter as [it|]; [|by minv H].
  destruct (dli_current it) as [c|]; [|by minv H].
  apply bind_inv in H as (o & h0 & E & H).
  assert (h0 = h) as ->.
  { unfold dl_iter_copy_out in E. destruct output as [out|]; [|by minv E].
    apply bind_inv in E as (d & h2 & E1 & E). minv E1.
    apply bind_inv in E as (es & h2 & E2 & E).
    assert (h2 = h) as -> by (destruct (dli_list it); [by minv E2 | discriminate E2]).
    by apply copy_out_inv in E as [-> _]. }
  apply bind_inv in H as (nx & h0 & E' & H). minv E'. by minv H.
Qed.

Lemma dl_empty_repr h lp l :
  dlists h !! lp = Some l -> dl_head l = None -> dl_tail l = None -> dl_size l = 0 ->
  dl_repr h lp [].
Proof.
  intros Hl Hh Ht Hs. exists l. split_and!; auto; intros i a Hi; discriminate.
Qed.

Lemma doubly_list_create_inv es h r h1 :
  doubly_list_create es h = Ok r h1 ->
  match r with
  | None => contents h1 = contents h
  | Some lp =>
      es <> 0 /\ valid_addr lp = true /\ in_use h lp = false /\
      exists al, h1 = rset DLists (<[lp := mk_dlist NULL NULL 0 es]> (dlists h))
                        (set_allocator al h)
  end.
Proof.
  unfold doubly_list_create. intros H. destruct (Z.eqb_spec es 0) as [->|Hes].
  { by minv H. }
  apply bind_inv in H as (list & h0 & Hm & H).
  apply malloc_inv in Hm as (al & Hm). destruct list as [lp|].
  2:{ minv H. subst. reflexivity. }
  destruct Hm as (Hv & Hu & junk & ->). run_in H. injection H as <- <-.
  split_and!; auto. exists al. cbn. by rewrite !insert_insert_eq.
Qed.

Lemma doubly_list_create_ok es h r h1 :
  dlists_ok h -> doubly_list_create es h = Ok r h1 ->
  match r with
  | None => contents h1 = contents h
  | Some lp => dlists h !! lp = None /\ dl_effect h h1 lp /\
               doubly_list_nodes h1 lp = [] /\
               exists l, dlists h1 !! lp = Some l /\ dl_element_size l = es
  end.
Proof.
  intros Hok H. apply doubly_list_create_inv in H. destruct r as [lp|]; [|exact H].
  destruct H as (Hes & Hv & Hu & al & ->).
  apply in_use_false in Hu as (_ & _ & _ & _ & Hl & Hn).
  assert (dl_repr (rset DLists (<[lp:=mk_dlist NULL NULL 0 es]> (dlists h))
                     (set_allocator al h)) lp []) as Hrepr.
  { eapply dl_empty_repr; [cbn; apply lookup_insert_eq | reflexivity ..]. }
  split_and!; [exact Hl | | by apply dl_repr_nodes | eexists; split; [apply lookup_insert_eq | reflexivity]].
  unfold dl_effect. split_and!; try reflexivity.
  all: eapply dlists_ok_update; [exact Hok | | | | | exact (proj1 Hok)].
  all: try (intros _; apply dl_inv_repr; eexists; exact Hrepr).
  all: try (intros lp' Hne; cbn; by apply lookup_insert_ne).
  all: try (intros a _ _; reflexivity).
  all: intros a Ha; rewrite (dl_repr_nodes _ _ _ Hrepr) in Ha; by apply elem_of_nil in Ha.
Qed.

Lemma doubly_list_clear_loop_links fuel h ls :
  links dn_next (dnodes h) ls ->
  doubly_list_clear_loop fuel (head ls) h
  = if decide (length ls <= fuel)%nat
    then Ok tt (rset DNodes (drop_nodes ls (dnodes h)) h)
    else OutOfFuel.
Proof.
  revert fuel h. induction ls as [|c ls IH]; intros fuel h Hlk.
  - destruct fuel; cbn; unfold ret; f_equal; by destruct h.
  - pose proof (links_NoDup _ _ _ Hlk) as Hnd. apply NoDup_cons in Hnd as [Hc Hnd].
    destruct (Hlk 0%nat c eq_refl) as (nd & Hndc & Hnx).
    change ((c :: ls) !! 1%nat) with (ls !! 0%nat) in Hnx. rewrite <- head_lookup in Hnx.
    destruct fuel as [|fuel]; [reflexivity|]. cbn [head doubly_list_clear_loop].
    run. rewrite Hnx.
    rewrite IH.
    + cbn [length]. destruct (decide (length ls <= fuel)%nat);
        destruct (decide (S (length ls) <= S fuel)%nat); try lia; reflexivity.
    + cbn. intros i a Hi. destruct (Hlk (S i) a Hi) as (nd' & Hnd' & Hnx').
      exists nd'. split; [|exact Hnx']. rewrite lookup_delete_ne; [exact Hnd'|].
      intros ->. apply Hc. by eapply list_elem_of_lookup_2.
Qed.

Lemma doubly_list_clear_ok fuel h lp u h1 :
  dlists_ok h -> doubly_list_clear fuel (Some lp) h = Ok u h1 ->
  dl_effect h h1 lp /\ doubly_list_nodes h1 lp = [] /\
  exists l, dlists h !! lp = Some l /\
            h1 = rset DLists (<[lp := mk_dlist NULL NULL 0 (dl_element_size l)]> (dlists h))
                   (rset DNodes (drop_nodes (doubly_list_nodes h lp) (dnodes h)) h).
Proof.
  intros Hok H. unfold doubly_list_clear in H.
  apply bind_inv in H as (hd0 & h0 & E & H). minv E. rename E into Hl.
  destruct x as [hd tl sz es]. cbn in Hl. heap_simpl_in H.
  destruct (dlists_ok_repr h lp Hok) as (l' & Hl' & Hh & Ht & Hsz & Hlk & Hbk); [eauto|].
  rewrite Hl in Hl'. injection Hl' as <-. cbn in Hh, Ht, Hsz.
  set (ls := doubly_list_nodes h lp) in *.
  apply bind_inv in H as (u0 & h0 & Hloop & H).
  rewrite Hh, doubly_list_clear_loop_links in Hloop by exact Hlk.
  destruct (decide (length ls <= fuel)%nat); [|discriminate Hloop].
  injection Hloop as <- <-. run_in H. injection H as <- <-.
  match goal with |- dl_effect _ ?hf _ /\ _ => set (h1 := hf) end.
  assert (dl_repr h1 lp []) as Hrepr.
  { eapply dl_empty_repr; [subst h1; cbn; apply lookup_insert_eq | reflexivity ..]. }
  split_and!; [ | by apply dl_repr_nodes | ].
  - unfold dl_effect. split_and!; try reflexivity.
    all: eapply dlists_ok_update; [exact Hok | | | | |].
    all: try (intros _; apply dl_inv_repr; eexists; exact Hrepr).
    all: try (intros lp' Hne; subst h1; cbn; by rewrite !lookup_insert_ne).
    all: try (intros a _ Hnin; subst h1; cbn; rewrite drop_nodes_lookup;
              fold ls in Hnin; by rewrite decide_False).
    all: try (intros a Ha; rewrite (dl_repr_nodes _ _ _ Hrepr) in Ha;
              by apply elem_of_nil in Ha).
    all: intros a Ha; subst h1; cbn in Ha; rewrite drop_nodes_lookup in Ha;
      destruct (decide (a ∈ ls)); [by destruct Ha | by apply (proj1 Hok)].
  - eexists. split; [exact Hl|]. subst h1. cbn. by rewrite !insert_insert_eq.
Qed.

Lemma doubly_list_destroy_ok fuel h lp u h1 :
  dlists_ok h -> doubly_list_destroy fuel (Some lp) h = Ok u h1 ->
  dl_effect h h1 lp /\ dlists h1 !! lp = None.
Proof.
  intros Hok H. unfold doubly_list_destroy in H.
  apply bind_inv in H as (u0 & h0 & Hc & H).
  apply doubly_list_clear_ok in Hc as (_ & _ & l & Hl & ->); [|exact Hok].
  set (ls := doubly_list_nodes h lp) in *.
  run_in H. injection H as <- <-.
  match goal with |- dl_effect _ ?hf _ /\ _ => set (h1 := hf) end.
  assert (dlists h1 !! lp = None) as Hdead by (subst h1; cbn; apply lookup_delete_eq).
  split; [|exact Hdead].
  unfold dl_effect. split_and!; try reflexivity.
  all: eapply dlists_ok_update; [exact Hok | | | | |].
  all: try (intros Hs; rewrite Hdead in Hs; by destruct Hs).
  all: try (intros lp' Hne; subst h1; cbn; by rewrite lookup_delete_ne, lookup_insert_ne).
  all: try (intros a _ Hnin; subst h1; cbn; rewrite drop_nodes_lookup;
            fold ls in Hnin; by rewrite decide_False).
  all: try (intros a Ha; rewrite doubly_list_nodes_dead in Ha by exact Hdead;
            by apply elem_of_nil in Ha).
  all: intros a Ha; subst h1; cbn in Ha; rewrite drop_nodes_lookup in Ha;
    destruct (decide (a ∈ ls)); [by destruct Ha | by apply (proj1 Hok)].
Qed.

Lemma doubly_list_find_loop_pure n i cur e cmp h r h1 :
  doubly_list_find_loop n i cur e cmp h = Ok r h1 -> h1 = h.
Proof.
  revert i cur h. induction n as [|n IH]; intros i cur h H; destruct cur as [c|];
    cbn in H; try (by minv H).
  apply bind_inv in H as (nd & h0 & E & H). minv E.
  destruct (cmp (dn_data nd) e =? 0); [by minv H|]. by apply IH in H.
Qed.

Lemma doubly_list_find_pure list e cmp h r h1 :
  doubly_list_find list e cmp h = Ok r h1 -> h1 = h.
Proof.
  unfold doubly_list_find. intros H.
  destruct list as [lp|], e as [e|], cmp as [c|]; try (by minv H).
  apply bind_inv in H as (l & h0 & E & H). minv E.
  by apply doubly_list_find_loop_pure in H.
Qed.

Lemma doubly_list_contains_pure list e cmp h r h1 :
  doubly_list_contains list e cmp h = Ok r h1 -> h1 = h.
Proof.
  unfold doubly_list_contains. intros H.
  apply bind_inv in H as (x & h0 & E & H). apply doubly_list_find_pure in E as ->.
  by minv H.
Qed.

Lemma doubly_list_get_ref_pure list index h r h1 :
  doubly_list_get_ref list index h = Ok r h1 -> h1 = h.
Proof.
  unfold doubly_list_get_ref. intros H.
  apply bind_inv in H as (nd & h0 & E & H). apply get_doubly_node_at_pure in E as ->.
  destruct nd as [n|]; [|by minv H].
  apply bind_inv in H as (x0 & h0 & E2 & H). minv E2. by minv H.
Qed.

Lemma doubly_list_front_pure list h r h1 : doubly_list_front list h = Ok r h1 -> h1 = h.
Proof.
  unfold doubly_list_front. intros H. destruct list as [lp|]; [|by minv H].
  apply bind_inv in H as (nd & h0 & E & H). minv E.
  destruct (dl_head _) as [n|]; [|by minv H].
  apply bind_inv in H as (x0 & h0 & E2 & H). minv E2. by minv H.
Qed.

Lemma doubly_list_back_pure list h r h1 : doubly_list_back list h = Ok r h1 -> h1 = h.
Proof.
  unfold doubly_list_back. intros H. destruct list as [lp|]; [|by minv H].
  apply bind_inv in H as (nd & h0 & E & H). minv E.
  destruct (dl_tail _) as [n|]; [|by minv H].
  apply bind_inv in H as (x0 & h0 & E2 & H). minv E2. by minv H.
Qed.

Lemma doubly_list_size_pure list h r h1 : doubly_list_size list h = Ok r h1 -> h1 = h.
Proof. unfold doubly_list_size. intros H. destruct list; by minv H. Qed.

Lemma doubly_list_empty_pure list h r h1 : doubly_list_empty list h = Ok r h1 -> h1 = h.
Proof.
  unfold doubly_list_empty. intros H. destruct list; [|by minv H].
  apply bind_inv in H as (x & h0 & E & H). minv E. by minv H.
Qed.

Lemma doubly_list_iter_create_pure list h r h1 :
  doubly_list_iter_create list h = Ok r h1 -> h1 = h.
Proof.
  unfold doubly_list_iter_create. intros H.
  apply bind_inv in H as (x & h0 & E & H). minv H. destruct list; by minv E.
Qed.

Lemma doubly_list_iter_next_pure iter output h r h1 :
  doubly_list_iter_next iter output h = Ok r h1 -> h1 = h.
Proof.
  unfold doubly_list_iter_next. intros H. destruct iter as [it|]; [|by minv H].
  destruct (dli_current it) as [c|]; [|by minv H].
  apply bind_inv in H as (o & h0 & E & H).
  assert (h0 = h) as ->.
  { unfold dl_iter_copy_out in E. destruct output as [out|]; [|by minv E].
    apply bind_inv in E as (d & h2 & E1 & E). minv E1.
    apply bind_inv in E as (es & h2 & E2 & E).
    assert (h2 = h) as -> by (destruct (dli_list it); [by minv E2 | discriminate E2]).
    by apply copy_out_inv in E as [-> _]. }
  apply bind_inv in H as (nx & h0 & E' & H). minv E'. by minv H.
Qed.

Lemma doubly_list_set_ok h lp index e s h1 :
  dlists_ok h -> 0 <= index ->
  doubly_list_set (Some lp) index (Some e) h = Ok s h1 ->
  dl_effect h h1 lp /\
  (s <> SUCCESS -> s = ERROR_INDEX_OUT_OF_BOUNDS /\ h1 = h) /\
  (s = ERROR_INDEX_OUT_OF_BOUNDS <->
   Z.of_nat (length (doubly_list_nodes h lp)) <= index) /\
  (s = SUCCESS -> doubly_list_nodes h1 lp = doubly_list_nodes h lp).
Proof.
  intros Hok Hidx H. unfold doubly_list_set in H.
  pose proof (dlists_ok_repr h lp Hok) as Hrepr.
  destruct (dlists h !! lp) as [l|] eqn:Hl.
  2:{ unfold get_doubly_node_at, bind, load in H. cbn in H. rewrite Hl in H. discriminate H. }
  specialize (Hrepr ltac:(eauto)). set (ls := doubly_list_nodes h lp) in *.
  rewrite (bind_Ok _ _ _ _ _ (get_doubly_node_at_repr h lp ls index Hrepr Hidx (dlists_ok_bound h lp Hok))) in H.
  destruct Hrepr as (l' & Hl' & Hh & Ht & Hsz & Hlk & Hbk). assert (l' = l) by congruence.
  subst l'.
  destruct (ls !! Z.to_nat index) as [n|] eqn:Hn.
  2:{ minv H. apply lookup_ge_None in Hn.
      split_and!; [by apply dl_effect_refl | by intros _ | | discriminate].
      split; [lia | reflexivity]. }
  pose proof (lookup_lt_Some _ _ _ Hn) as Hlt.
  destruct (Hlk _ _ Hn) as (nd & Hnd & Hnx). run_in H.
  destruct (mem_copy (dn_data nd) e (dl_element_size l)) as [d'|]; [|discriminate H].
  run_in H. injection H as <- <-.
  match goal with |- dl_effect _ ?hf _ /\ _ => set (h1 := hf) end.
  assert (dl_repr h1 lp ls) as Hrepr.
  { exists l. split_and!; auto.
    - eapply links_update; [exact Hlk|].
      intros a nda Ha Hnda. subst h1. cbn. destruct (decide (a = n)) as [->|Hne].
      + rewrite lookup_insert_eq. eexists. split; [reflexivity|]. cbn. congruence.
      + rewrite lookup_insert_ne by congruence. eauto.
    - intros i a Hi. destruct (Hbk _ _ Hi) as (nda & Hnda & Hp). subst h1. cbn.
      destruct (decide (a = n)) as [->|Hne].
      + rewrite lookup_insert_eq. eexists. split; [reflexivity|]. cbn. congruence.
      + rewrite lookup_insert_ne by congruence. eauto. }
  split_and!; [ | by intros [] | split; [discriminate | lia]
              | intros _; by apply dl_repr_nodes ].
  unfold dl_effect. split_and!; try reflexivity.
  all: eapply dlists_ok_update; [exact Hok | | | | |].
  all: try (intros _; apply dl_inv_repr; eexists; exact Hrepr).
  all: try (intros lp' Hne; reflexivity).
  all: try (intros a _ Hnin; subst h1; cbn; fold ls in Hnin;
            rewrite lookup_insert_ne; [reflexivity|]; intros <-; apply Hnin;
            by eapply list_elem_of_lookup_2).
  all: try (intros a Ha; rewrite (dl_repr_nodes _ _ _ Hrepr) in Ha; by left).
  all: intros a Ha; apply (proj1 Hok); subst h1; cbn in Ha;
    destruct (decide (a = n)) as [->|Hne];
    [eauto | by rewrite lookup_insert_ne in Ha by congruence].
Qed.

Lemma dlists_ok_permute h h1 (f : addr -> addr) :
  dlists_ok h -> dnodes h1 = dnodes h ->
  (forall lp, dlists h1 !! lp = dlists h !! f lp) ->
  (forall lp lp', f lp = f lp' -> lp = lp') ->
  dlists_ok h1 /\ forall lp, doubly_list_nodes h1 lp = doubly_list_nodes h (f lp) /\
                             doubly_list_elements h1 lp = doubly_list_elements h (f lp).
Proof.
  intros (Hv & Hall & Hdisj) En El Hinj.
  assert (forall lp, doubly_list_nodes h1 lp = doubly_list_nodes h (f lp)) as Hn.
  { intros lp. unfold doubly_list_nodes. by rewrite El, En. }
  split; [split_and!|].
  - by rewrite En.
  - intros lp Hl. rewrite El in Hl. specialize (Hall _ Hl).
    unfold dl_inv in *. by rewrite El, En.
  - intros lp lp' a Hne. rewrite !Hn. apply Hdisj. intros E. by apply Hne, Hinj.
  - intros lp. split; [apply Hn|].
    unfold doubly_list_elements, dn_data_at. by rewrite Hn, En.
Qed.

Lemma doubly_list_swap_ok h a b u h1 :
  dlists_ok h -> doubly_list_swap (Some a) (Some b) h = Ok u h1 ->
  dlists_ok h1 /\
  vectors h1 = vectors h /\ buffers h1 = buffers h /\
  slists h1 = slists h /\ snodes h1 = snodes h /\
  forall lp, doubly_list_elements h1 lp
             = doubly_list_elements h (if decide (lp = a) then b
                                       else if decide (lp = b) then a else lp).
Proof.
  intros Hok H. unfold doubly_list_swap in H.
  destruct (dlists h !! a) as [[ha ta sa ea]|] eqn:Hla.
  2:{ unfold bind, field, bind, load in H. cbn in H. rewrite Hla in H. discriminate H. }
  destruct (dlists h !! b) as [[hb tb sb eb]|] eqn:Hlb.
  2:{ run_in H. unfold bind, field, bind, load in H. cbn in H. rewrite Hlb in H.
      discriminate H. }
  set (f := fun lp => if decide (lp = a) then b else if decide (lp = b) then a else lp).
  assert (forall lp lp', f lp = f lp' -> lp = lp') as Hinj.
  { intros lp lp'. unfold f. repeat destruct (decide _); congruence. }
  destruct (decide (a = b)) as [->|Hne].
  - assert (ha = hb /\ ta = tb /\ sa = sb /\ ea = eb) as (-> & -> & -> & ->)
      by (split_and!; congruence).
    run_in H. injection H as <- <-.
    match goal with |- dlists_ok ?hf /\ _ => set (h1 := hf) end.
    destruct (dlists_ok_permute h h1 f Hok) as [Hok1 Hel]; [reflexivity | | exact Hinj |].
    { intros lp. subst h1 f. cbn. rewrite !insert_insert_eq.
      destruct (decide (lp = b)) as [->|]; [by rewrite lookup_insert_eq|].
      by rewrite lookup_insert_ne. }
    split_and!; try reflexivity; [exact Hok1|]. intros lp. apply Hel.
  - run_in H. injection H as <- <-.
    match goal with |- dlists_ok ?hf /\ _ => set (h1 := hf) end.
    destruct (dlists_ok_permute h h1 f Hok) as [Hok1 Hel]; [reflexivity | | exact Hinj |].
    { intros lp. subst h1 f. cbn.
      destruct (decide (lp = a)) as [->|]; [|destruct (decide (lp = b)) as [->|]];
        lookup_simpl; first [by rewrite Hla | by rewrite Hlb | reflexivity]. }
    split_and!; try reflexivity; [exact Hok1|]. intros lp. apply Hel.
Qed.

Lemma doubly_list_copy_loop_ok fuel fuel0 cur dest h r h1 :
  dlists_ok h -> doubly_list_copy_loop fuel fuel0 cur dest h = Ok r h1 ->
  dl_effect h h1 dest /\ (r = NULL \/ r = Some dest).
Proof.
  revert cur h. induction fuel as [|fuel IH]; intros cur h Hok H;
    destruct cur as [c|]; cbn in H; try discriminate H.
  1,3: minv H; split; [by apply dl_effect_refl | by right].
  apply bind_inv in H as (d & h0 & E & H). minv E.
  apply bind_inv in H as (res & h0 & Hp & H).
  apply doubly_list_push_back_ok in Hp as (Heff & _); [|exact Hok].
  destruct (negb (is_success res)).
  - apply bind_inv in H as (u & h2 & Hd & H). minv H.
    apply doubly_list_destroy_ok in Hd as [Heff' _]; [|exact (proj1 Heff)].
    split; [by eapply dl_effect_trans | by left].
  - apply bind_inv in H as (nx & h2 & E' & H). minv E'.
    apply IH in H as [Heff' Hr]; [|exact (proj1 Heff)].
    split; [by eapply dl_effect_trans | exact Hr].
Qed.

Lemma doubly_list_copy_ok fuel src h r h1 :
  dlists_ok h -> doubly_list_copy fuel src h = Ok r h1 ->
  dlists_ok h1 /\
  vectors h1 = vectors h /\ buffers h1 = buffers h /\
  slists h1 = slists h /\ snodes h1 = snodes h /\
  forall lp, is_Some (dlists h !! lp) ->
             dlists h1 !! lp = dlists h !! lp /\
             doubly_list_elements h1 lp = doubly_list_elements h lp.
Proof.
  intros Hok H. unfold doubly_list_copy in H. destruct src as [sp|].
  2:{ minv H. split_and!; try reflexivity; [exact Hok | by intros]. }
  apply bind_inv in H as (es & h0 & E & H). minv E.
  apply bind_inv in H as (dest & h0 & Hc & H).
  apply doubly_list_create_ok in Hc; [|exact Hok]. destruct dest as [dp|].
  2:{ apply ret_inv in H as [<- <-]. split; [by eapply dlists_ok_contents|].
      apply contents_inv in Hc as (? & ? & ? & ? & Es & En). split_and!; try assumption.
      intros lp _. unfold doubly_list_elements, doubly_list_nodes, dn_data_at.
      by rewrite Es, En. }
  destruct Hc as (Hfresh & Heff & _).
  apply bind_inv in H as (cur & h2 & E' & H). minv E'.
  apply doubly_list_copy_loop_ok in H as [Heff' _]; [|exact (proj1 Heff)].
  destruct (dl_effect_trans _ _ _ _ Heff Heff') as (Hok1 & Hfr & ? & ? & ? & ?).
  split_and!; try assumption. intros lp Hl.
  assert (lp <> dp) by (intros ->; rewrite Hfresh in Hl; by destruct Hl).
  destruct (Hfr lp) as (? & _ & ?); auto.
Qed.

(* ===================================================================== *)
(** * doubly_list.c : reverse *)
(* ===================================================================== *)

Lemma flip_links_lookup ls m a :
  NoDup ls ->
  flip_links ls m !! a
  = if decide (a ∈ ls)
    then (fun nd => mk_dnode (dn_data nd) (dn_prev nd) (dn_next nd)) <$> m !! a
    else m !! a.
Proof.
  unfold flip_links. revert m.
  induction ls as [|c ls IH]; intros m Hnd; [reflexivity|].
  apply NoDup_cons in Hnd as [Hc Hnd]. cbn [foldl]. rewrite IH by exact Hnd.
  destruct (decide (a = c)) as [->|Hne].
  - rewrite decide_False by exact Hc. rewrite decide_True by apply list_elem_of_here.
    by rewrite lookup_alter_eq.
  - rewrite lookup_alter_ne by congruence.
    destruct (decide (a ∈ ls)) as [Hin|Hnin].
    + rewrite decide_True by (by apply list_elem_of_further). reflexivity.
    + rewrite decide_False; [reflexivity|]. intros Hin. apply elem_of_cons in Hin as [?|?]; auto.
Qed.

Lemma doubly_list_reverse_loop_links fuel h ls :
  links dn_next (dnodes h) ls ->
  doubly_list_reverse_loop fuel (head ls) h
  = if decide (length ls <= fuel)%nat
    then Ok tt (rset DNodes (flip_links ls (dnodes h)) h)
    else OutOfFuel.
Proof.
  revert fuel h. induction ls as [|c ls IH]; intros fuel h Hlk.
  - destruct fuel; cbn; unfold ret; f_equal; by destruct h.
  - pose proof (links_NoDup _ _ _ Hlk) as Hnd. apply NoDup_cons in Hnd as [Hc Hnd].
    destruct (Hlk 0%nat c eq_refl) as (nd & Hndc & Hnx).
    change ((c :: ls) !! 1%nat) with (ls !! 0%nat) in Hnx. rewrite <- head_lookup in Hnx.
    destruct fuel as [|fuel]; [reflexivity|]. cbn [head doubly_list_reverse_loop].
    destruct nd as [d nx pv]. cbn in Hnx. subst nx.
    run. rewrite insert_insert_eq. cbn [set_dn_next set_dn_prev dn_data dn_next dn_prev].
    rewrite IH.
    + cbn [length]. unfold flip_links. cbn [foldl]. rewrite (alter_alt_Some _ _ _ _ Hndc).
      destruct (decide (length ls <= fuel)%nat);
        destruct (decide (S (length ls) <= S fuel)%nat); try lia; reflexivity.
    + cbn. intros i a Hi. destruct (Hlk (S i) a Hi) as (nd' & Hnd' & Hnx').
      exists nd'. split; [|exact Hnx']. rewrite lookup_insert_ne; [exact Hnd'|].
      intros ->. apply Hc. by eapply list_elem_of_lookup_2.
Qed.

Lemma reverse_links {N} (nxt : N -> ptr) (m' : gmap addr N) ls :
  (forall i a, ls !! i = Some a ->
               exists nd', m' !! a = Some nd' /\ nxt nd' = pred_of ls i) ->
  links nxt m' (reverse ls).
Proof.
  intros Hrev j a Hj. apply reverse_lookup_Some in Hj as [Hj Hlt].
  destruct (Hrev _ _ Hj) as (nd' & Hnd' & Hnx). exists nd'.
  split; [exact Hnd'|]. rewrite Hnx.
  destruct (decide (S j < length ls)%nat) as [Hlt'|Hge].
  - rewrite reverse_lookup by exact Hlt'.
    replace (length ls - S j)%nat with (S (length ls - S (S j))) by lia. reflexivity.
  - replace (length ls - S j)%nat with 0%nat by lia. cbn. symmetry.
    apply lookup_ge_None. rewrite length_reverse. lia.
Qed.

Lemma reverse_back_links (m' : gmap addr doubly_node_t) ls :
  (forall i a, ls !! i = Some a ->
               exists nd', m' !! a = Some nd' /\ dn_prev nd' = ls !! S i) ->
  back_links m' (reverse ls).
Proof.
  intros Hrev j a Hj. apply reverse_lookup_Some in Hj as [Hj Hlt].
  destruct (Hrev _ _ Hj) as (nd' & Hnd' & Hpv). exists nd'.
  split; [exact Hnd'|]. rewrite Hpv. destruct j as [|j]; cbn [pred_of].
  - apply lookup_ge_None. lia.
  - rewrite reverse_lookup by lia. f_equal. lia.
Qed.

Lemma doubly_list_reverse_ok fuel h lp s h1 :
  dlists_ok h -> doubly_list_reverse fuel (Some lp) h = Ok s h1 ->
  s = SUCCESS /\ dl_effect h h1 lp /\
  doubly_list_nodes h1 lp = reverse (doubly_list_nodes h lp) /\
  doubly_list_elements h1 lp = reverse (doubly_list_elements h lp).
Proof.
  intros Hok H. unfold doubly_list_reverse in H.
  apply bind_inv in H as (l & h0 & E & H). minv E. rename E into Hl. cbn in Hl.
  destruct (dlists_ok_repr h lp Hok) as (l' & Hl' & Hh & Ht & Hsz & Hlk & Hbk); [eauto|].
  rewrite Hl in Hl'. injection Hl' as <-.
  set (ls := doubly_list_nodes h lp) in *.
  destruct (Z.leb_spec (dl_size l) 1) as [Hsmall|Hbig].
  { minv H. assert (reverse ls = ls) as Hrev.
    { destruct ls as [|a [|b ls']]; cbn in *; try reflexivity; lia. }
    split_and!; [reflexivity | by apply dl_effect_refl | by rewrite Hrev |].
    unfold doubly_list_elements. fold ls. by rewrite <- fmap_reverse, Hrev. }
  destruct l as [hd tl sz es]. cbn in Hh, Ht, Hsz, Hbig. run_in H.
  apply bind_inv in H as (u & h0 & Hloop & H). rewrite Hh in Hloop.
  rewrite doubly_list_reverse_loop_links in Hloop by exact Hlk.
  destruct (decide (length ls <= fuel)%nat); [|discriminate Hloop].
  injection Hloop as <- <-. run_in H. injection H as <- <-.
  pose proof (links_NoDup _ _ _ Hlk) as Hnd.
  match goal with |- _ /\ dl_effect _ ?hf _ /\ _ => set (h1 := hf) end.
  assert (forall i a nd, ls !! i = Some a -> dnodes h !! a = Some nd ->
            dnodes h1 !! a = Some (mk_dnode (dn_data nd) (dn_prev nd) (dn_next nd))) as Hrev.
  { intros i a nd Hi Hndm. subst h1. cbn.
    rewrite flip_links_lookup by exact Hnd.
    rewrite decide_True by (by eapply list_elem_of_lookup_2). by rewrite Hndm. }
  assert (forall a, a ∉ ls -> dnodes h1 !! a = dnodes h !! a) as Hkeep.
  { intros a Ha. subst h1. cbn. rewrite flip_links_lookup by exact Hnd.
    by rewrite decide_False. }
  assert (dl_repr h1 lp (reverse ls)) as Hrepr.
  { eexists. split; [subst h1; cbn; rewrite insert_insert_eq; apply lookup_insert_eq|].
    cbn. split_and!.
    - by rewrite head_reverse.
    - by rewrite last_reverse.
    - by rewrite length_reverse.
    - apply reverse_links. intros i a Hi.
      destruct (Hbk _ _ Hi) as (nd & Hndm & Hpv). eexists.
      split; [exact (Hrev i a nd Hi Hndm) | exact Hpv].
    - apply reverse_back_links. intros i a Hi.
      destruct (Hlk _ _ Hi) as (nd & Hndm & Hnx). eexists.
      split; [exact (Hrev i a nd Hi Hndm) | exact Hnx]. }
  pose proof (dl_repr_nodes _ _ _ Hrepr) as Hnodes.
  split_and!; [reflexivity | | exact Hnodes |].
  - unfold dl_effect. split_and!; try reflexivity.
    all: eapply dlists_ok_update; [exact Hok | | | | |].
    all: try (intros _; apply dl_inv_repr; eexists; exact Hrepr).
    all: try (intros lp' Hne; subst h1; cbn; by rewrite !lookup_insert_ne).
    all: try (intros a _ Hnin; by apply Hkeep).
    all: try (intros a Ha; rewrite Hnodes in Ha; left; by apply elem_of_reverse).
    all: intros a Ha; apply (proj1 Hok); destruct (decide (a ∈ ls)) as [Hin|Hnin];
      [by eapply links_in_dom | by rewrite <- Hkeep].
  - unfold doubly_list_elements. rewrite Hnodes. fold ls. rewrite fmap_reverse. f_equal.
    apply list_fmap_ext. intros i a Hi. unfold dn_data_at.
    destruct (Hlk _ _ Hi) as (nd & Hndm & _). by rewrite (Hrev i a nd Hi Hndm), Hndm.
Qed.

(** With fuel for every node, [doubly_list_reverse] returns. *)
Lemma doubly_list_reverse_run fuel h lp :
  dlists_ok h -> is_Some (dlists h !! lp) ->
  (length (doubly_list_nodes h lp) <= fuel)%nat ->
  exists h1, doubly_list_reverse fuel (Some lp) h = Ok SUCCESS h1.
Proof.
  intros Hok Hl Hfuel.
  destruct (dlists_ok_repr h lp Hok Hl) as (l & Hl' & Hh & _ & _ & Hlk & _).
  enough (forall o, doubly_list_reverse fuel (Some lp) h = o ->
                    exists h1, o = Ok SUCCESS h1) as X by (by eapply X).
  intros o E. unfold doubly_list_reverse in E. run_in E.
  destruct (dl_size l <=? 1); [subst o; by eexists|].
  run_in E. rewrite Hh in E.
  erewrite (bind_Ok (doubly_list_reverse_loop _ _)) in E.
  2:{ rewrite doubly_list_reverse_loop_links by exact Hlk.
      rewrite decide_True by exact Hfuel. reflexivity. }
  run_in E. subst o. by eexists.
Qed.
(* ===================================================================== *)
(** * doubly_list.c never runs out of fuel outside its loops *)
(* ===================================================================== *)

Lemma create_doubly_node_noof data es h : create_doubly_node data es h <> OutOfFuel.
Proof. unfold create_doubly_node. noof. Qed.

Lemma dl_forward_noof n cur h : dl_forward n cur h <> OutOfFuel.
Proof.
  revert cur h. induction n as [|n IH]; intros cur h; destruct cur; cbn; noof.
  apply IH.
Qed.

Lemma dl_backward_noof n cur h : dl_backward n cur h <> OutOfFuel.
Proof.
  revert cur h. induction n as [|n IH]; intros cur h; destruct cur; cbn; noof.
  apply IH.
Qed.

Lemma get_doubly_node_at_noof list index h : get_doubly_node_at list index h <> OutOfFuel.
Proof.
  unfold get_doubly_node_at. noof; [apply dl_forward_noof | apply dl_backward_noof].
Qed.

Lemma doubly_list_create_noof es h : doubly_list_create es h <> OutOfFuel.
Proof. unfold doubly_list_create. noof. Qed.

Lemma doubly_list_push_front_noof list e h : doubly_list_push_front list e h <> OutOfFuel.
Proof. unfold doubly_list_push_front. noof. apply create_doubly_node_noof. Qed.

Lemma doubly_list_push_back_noof list e h : doubly_list_push_back list e h <> OutOfFuel.
Proof. unfold doubly_list_push_back. noof. apply create_doubly_node_noof. Qed.

Lemma doubly_list_pop_front_noof list out h : doubly_list_pop_front list out h <> OutOfFuel.
Proof. unfold doubly_list_pop_front. noof. Qed.

Lemma doubly_list_pop_back_noof list out h : doubly_list_pop_back list out h <> OutOfFuel.
Proof. unfold doubly_list_pop_back. noof. Qed.

Lemma doubly_list_insert_before_noof list node e h :
  doubly_list_insert_before list node e h <> OutOfFuel.
Proof. unfold doubly_list_insert_before. noof. apply create_doubly_node_noof. Qed.

Lemma doubly_list_insert_after_noof list node e h :
  doubly_list_insert_after list node e h <> OutOfFuel.
Proof. unfold doubly_list_insert_after. noof. apply create_doubly_node_noof. Qed.

Lemma doubly_list_iter_create_reverse_noof list h :
  doubly_list_iter_create_reverse list h <> OutOfFuel.
Proof. unfold doubly_list_iter_create_reverse. noof. Qed.

Lemma doubly_list_iter_prev_noof it out h : doubly_list_iter_prev it out h <> OutOfFuel.
Proof. unfold doubly_list_iter_prev, dl_iter_copy_out. noof. Qed.

Lemma doubly_list_insert_noof list i e h : doubly_list_insert list i e h <> OutOfFuel.
Proof.
  unfold doubly_list_insert. noof;
    first [ apply doubly_list_push_front_noof | apply doubly_list_push_back_noof
          | apply get_doubly_node_at_noof | apply create_doubly_node_noof ].
Qed.

Lemma doubly_list_remove_noof list i h : doubly_list_remove list i h <> OutOfFuel.
Proof.
  unfold doubly_list_remove. noof;
    first [ apply doubly_list_pop_front_noof | apply doubly_list_pop_back_noof
          | apply get_doubly_node_at_noof ].
Qed.

Lemma doubly_list_get_noof list i out h : doubly_list_get list i out h <> OutOfFuel.
Proof. unfold doubly_list_get. noof. apply get_doubly_node_at_noof. Qed.

Lemma doubly_list_set_noof list i e h : doubly_list_set list i e h <> OutOfFuel.
Proof. unfold doubly_list_set. noof. apply get_doubly_node_at_noof. Qed.

Lemma doubly_list_get_ref_noof list index h : doubly_list_get_ref list index h <> OutOfFuel.
Proof.
  unfold doubly_list_get_ref. apply bind_noof; [apply get_doubly_node_at_noof|].
  intros [n|] ? _; noof.
Qed.

Lemma doubly_list_front_noof list h : doubly_list_front list h <> OutOfFuel.
Proof. unfold doubly_list_front. noof. Qed.

Lemma doubly_list_back_noof list h : doubly_list_back list h <> OutOfFuel.
Proof. unfold doubly_list_back. noof. Qed.

Lemma doubly_list_size_noof list h : doubly_list_size list h <> OutOfFuel.
Proof. unfold doubly_list_size. noof. Qed.

Lemma doubly_list_empty_noof list h : doubly_list_empty list h <> OutOfFuel.
Proof. unfold doubly_list_empty. noof. Qed.

Lemma doubly_list_find_loop_noof n i cur e cmp h :
  doubly_list_find_loop n i cur e cmp h <> OutOfFuel.
Proof.
  revert i cur h. induction n as [|n IH]; intros i cur h; destruct cur; cbn; noof.
  apply IH.
Qed.

Lemma doubly_list_find_noof list e cmp h : doubly_list_find list e cmp h <> OutOfFuel.
Proof. unfold doubly_list_find. noof. apply doubly_list_find_loop_noof. Qed.

Lemma doubly_list_contains_noof list e cmp h :
  doubly_list_contains list e cmp h <> OutOfFuel.
Proof. unfold doubly_list_contains. noof. apply doubly_list_find_noof. Qed.

Lemma doubly_list_swap_noof a b h : doubly_list_swap a b h <> OutOfFuel.
Proof. unfold doubly_list_swap. noof. Qed.

Lemma doubly_list_iter_create_noof list h : doubly_list_iter_create list h <> OutOfFuel.
Proof. unfold doubly_list_iter_create. noof. Qed.

Lemma doubly_list_iter_next_noof it out h : doubly_list_iter_next it out h <> OutOfFuel.
Proof. unfold doubly_list_iter_next, dl_iter_copy_out. noof. Qed.

Lemma doubly_list_iter_remove_noof it h : doubly_list_iter_remove it h <> OutOfFuel.
Proof. unfold doubly_list_iter_remove. noof. Qed.

(* ===================================================================== *)
(** * doubly_list.c : fuel for every node is enough *)
(* ===================================================================== *)

Lemma doubly_list_clear_noof fuel list h :
  dlists_ok h ->
  (forall lp, list = Some lp -> (length (doubly_list_nodes h lp) <= fuel)%nat) ->
  doubly_list_clear fuel list h <> OutOfFuel.
Proof.
  intros Hok Hfuel. destruct list as [lp|]; [|discriminate]. specialize (Hfuel lp eq_refl).
  unfold doubly_list_clear. apply bind_noof; [apply field_noof|].
  intros hd h' E. apply field_inv in E as (l & Hl & -> & ->). cbn in Hl.
  destruct (dlists_ok_repr h lp Hok) as (l' & Hl' & Hh & _ & _ & Hlk & _); [eauto|].
  assert (l' = l) by congruence. subst l'.
  apply bind_noof; [|intros; noof].
  rewrite Hh, doubly_list_clear_loop_links by exact Hlk.
  rewrite decide_True by exact Hfuel. discriminate.
Qed.

Lemma doubly_list_destroy_noof fuel list h :
  dlists_ok h ->
  (forall lp, list = Some lp -> (length (doubly_list_nodes h lp) <= fuel)%nat) ->
  doubly_list_destroy fuel list h <> OutOfFuel.
Proof.
  intros Hok Hfuel. destruct list as [lp|]; [|discriminate].
  unfold doubly_list_destroy. apply bind_noof; [by apply doubly_list_clear_noof|].
  intros. noof.
Qed.

Lemma doubly_list_reverse_noof fuel list h :
  dlists_ok h ->
  (forall lp, list = Some lp -> (length (doubly_list_nodes h lp) <= fuel)%nat) ->
  doubly_list_reverse fuel list h <> OutOfFuel.
Proof.
  intros Hok Hfuel. destruct list as [lp|]; [|discriminate]. specialize (Hfuel lp eq_refl).
  destruct (dlists h !! lp) as [l|] eqn:Hl.
  - destruct (doubly_list_reverse_run fuel h lp Hok) as [h1 E]; eauto.
    rewrite E. discriminate.
  - unfold doubly_list_reverse, bind, load. cbn. rewrite Hl. discriminate.
Qed.

Lemma doubly_list_copy_loop_noof fuel fuel0 src dest h i :
  dlists_ok h -> src <> dest ->
  (length (doubly_list_nodes h src) - i <= fuel)%nat ->
  (length (doubly_list_nodes h src) <= fuel0)%nat ->
  (length (doubly_list_nodes h dest) <= i)%nat ->
  (i <= length (doubly_list_nodes h src))%nat ->
  doubly_list_copy_loop fuel fuel0 (doubly_list_nodes h src !! i) dest h <> OutOfFuel.
Proof.
  revert h i. induction fuel as [|fuel IH]; intros h i Hok Hne Hfuel Hfuel0 Hdest Hi.
  - rewrite (proj2 (lookup_ge_None _ _)) by lia. discriminate.
  - destruct (doubly_list_nodes h src !! i) as [c|] eqn:Hc; [|discriminate].
    cbn [doubly_list_copy_loop]. apply bind_noof; [apply field_noof|].
    intros d h' E. apply field_inv in E as (ndc & Hndc & -> & ->). cbn in Hndc.
    apply bind_noof; [apply doubly_list_push_back_noof|].
    intros res h2 Hp.
    apply doubly_list_push_back_ok in Hp as (Heff & Hfail & Hsucc); [|exact Hok].
    destruct Heff as (Hok2 & Hfr & _). destruct (Hfr src Hne) as (Hsl & Hsn & _).
    destruct (decide (res = SUCCESS)) as [->|Hres].
    + cbn. destruct (Hsucc eq_refl) as (n & l & _ & Hdn & _).
      assert (is_Some (dlists h2 !! src)) as Hlive.
      { rewrite Hsl. destruct (dlists h !! src) eqn:E; [eauto|].
        rewrite doubly_list_nodes_dead in Hc by exact E. discriminate. }
      destruct (dlists_ok_repr h2 src Hok2 Hlive) as (_ & _ & _ & _ & _ & Hlk & _).
      rewrite Hsn in Hlk. destruct (Hlk _ _ Hc) as (nd2 & Hnd2 & Hnx).
      apply bind_noof; [apply field_noof|].
      intros nx h' E. apply field_inv in E as (nd' & Hnd' & -> & ->). cbn in Hnd'.
      assert (nd' = nd2) by congruence. subst nd'. rewrite Hnx, <- Hsn.
      apply lookup_lt_Some in Hc.
      apply IH; rewrite ?Hsn, ?Hdn, ?length_app; cbn; try assumption; lia.
    + replace (negb (is_success res)) with true
        by (symmetry; apply negb_true_iff, bool_decide_eq_false; exact Hres).
      apply bind_noof; [|intros; noof].
      apply doubly_list_destroy_noof; [exact Hok2|]. intros lp [= <-].
      destruct (Hfail Hres) as [_ Hcont].
      apply contents_inv in Hcont as (_ & _ & _ & _ & Es & En).
      unfold doubly_list_nodes. rewrite Es, En. fold (doubly_list_nodes h dest). lia.
Qed.

Lemma doubly_list_copy_noof fuel src h :
  dlists_ok h ->
  (forall lp, src = Some lp -> (length (doubly_list_nodes h lp) <= fuel)%nat) ->
  doubly_list_copy fuel src h <> OutOfFuel.
Proof.
  intros Hok Hfuel. destruct src as [sp|]; [|discriminate]. specialize (Hfuel sp eq_refl).
  unfold doubly_list_copy. apply bind_noof; [apply field_noof|].
  intros es h' E. apply field_inv in E as (l & Hl & -> & ->). cbn in Hl.
  apply bind_noof; [apply doubly_list_create_noof|].
  intros dest h0 Hc. apply doubly_list_create_ok in Hc; [|exact Hok].
  destruct dest as [dp|]; [|discriminate].
  destruct Hc as (Hfresh & (Hok0 & Hfr & _) & Hdn & _).
  assert (sp <> dp) as Hne by congruence.
  destruct (Hfr sp Hne) as (Hsl & Hsn & _).
  apply bind_noof; [apply field_noof|].
  intros cur h' E. apply field_inv in E as (l0 & Hl0 & -> & ->). cbn in Hl0.
  destruct (dlists_ok_repr h0 sp Hok0) as (l' & Hl' & Hh & _); [eauto|].
  assert (l' = l0) by congruence. subst l'. rewrite Hh, head_lookup.
  apply doubly_list_copy_loop_noof; rewrite ?Hsn, ?Hdn; cbn; try assumption; lia.
Qed.

(* ===================================================================== *)
(** * Every list function keeps the store well formed *)
(* ===================================================================== *)

Lemma slists_ok_same h h1 :
  slists h1 = slists h -> snodes h1 = snodes h -> slists_ok h -> slists_ok h1.
Proof. intros Es En. unfold slists_ok, sl_inv, singly_list_nodes. by rewrite Es, En. Qed.

Lemma dlists_ok_same h h1 :
  dlists h1 = dlists h -> dnodes h1 = dnodes h -> dlists_ok h -> dlists_ok h1.
Proof. intros Es En. unfold dlists_ok, dl_inv, doubly_list_nodes. by rewrite Es, En. Qed.

Lemma sl_effect_lists_ok h h1 lp : lists_ok h -> sl_effect h h1 lp -> lists_ok h1.
Proof.
  intros [_ Hd] (Hs & _ & _ & _ & El & En). split; [exact Hs|]. by eapply dlists_ok_same.
Qed.

Lemma dl_effect_lists_ok h h1 lp : lists_ok h -> dl_effect h h1 lp -> lists_ok h1.
Proof.
  intros [Hs _] (Hd & _ & _ & _ & El & En). split; [|exact Hd]. by eapply slists_ok_same.
Qed.

Lemma lists_ok_contents h h1 : contents h1 = contents h -> lists_ok h -> lists_ok h1.
Proof.
  intros E [Hs Hd]. split; [by eapply slists_ok_contents | by eapply dlists_ok_contents].
Qed.

(** The cases of a call that returns at once, or only reads. *)
Ltac call_same E :=
  first [ apply ret_inv in E as [_ <-]; assumption
        | cbn in E; apply ret_inv in E as [_ <-]; assumption ].

Lemma run_slist_call_ok fuel c h r h1 :
  lists_ok h -> slist_call_ok c -> run_slist_call fuel c h = Ok r h1 -> lists_ok h1.
Proof.
  intros Hok Hc H. pose proof Hok as [Hs Hd].
  destruct c; cbn [run_slist_call] in H;
    try (apply bind_inv in H as (x & h0 & E & H)); apply ret_inv in H as [_ <-].
  - apply singly_list_create_ok in E; [|exact Hs]. destruct x as [lp|].
    + destruct E as (_ & Heff & _). by eapply sl_effect_lists_ok.
    + by eapply lists_ok_contents.
  - destruct list as [lp|]; [|call_same E].
    apply singly_list_destroy_ok in E as [Heff _]; [|exact Hs]. by eapply sl_effect_lists_ok.
  - apply singly_list_copy_ok in E as (Hs1 & _ & _ & El & En & _); [|exact Hs].
    split; [exact Hs1 | by eapply dlists_ok_same].
  - destruct list as [lp|], element as [e|]; try call_same E.
    apply singly_list_push_front_ok in E as [Heff _]; [|exact Hs].
    by eapply sl_effect_lists_ok.
  - destruct list as [lp|], element as [e|]; try call_same E.
    apply singly_list_push_back_ok in E as [Heff _]; [|exact Hs].
    by eapply sl_effect_lists_ok.
  - destruct list as [lp|]; [|call_same E]. destruct x as [s o].
    apply singly_list_pop_front_ok in E as [Heff _]; [|exact Hs].
    by eapply sl_effect_lists_ok.
  - destruct list as [lp|]; [|call_same E]. destruct x as [s o].
    apply singly_list_pop_back_ok in E as [Heff _]; [|exact Hs].
    by eapply sl_effect_lists_ok.
  - destruct list as [lp|], element as [e|]; try call_same E.
    apply singly_list_insert_ok in E as [Heff _]; [|exact Hs|exact Hc].
    by eapply sl_effect_lists_ok.
  - destruct list as [lp|]; [|call_same E].
    apply singly_list_remove_ok in E as [Heff _]; [|exact Hs|exact Hc].
    by eapply sl_effect_lists_ok.
  - destruct list as [lp|]; [|call_same E].
    apply singly_list_clear_ok in E as [Heff _]; [|exact Hs]. by eapply sl_effect_lists_ok.
  - by apply singly_list_get_pure in E as ->.
  - destruct list as [lp|], element as [e|]; try call_same E.
    apply singly_list_set_ok in E as [Heff _]; [|exact Hs|apply Hc].
    by eapply sl_effect_lists_ok.
  - by apply singly_list_get_ref_pure in E as ->.
  - by apply singly_list_front_pure in E as ->.
  - by apply singly_list_back_pure in E as ->.
  - by apply singly_list_size_pure in E as ->.
  - by apply singly_list_empty_pure in E as ->.
  - by apply singly_list_find_pure in E as ->.
  - by apply singly_list_contains_pure in E as ->.
  - destruct list as [lp|]; [|call_same E].
    apply singly_list_reverse_ok in E as (_ & Heff & _); [|exact Hs].
    by eapply sl_effect_lists_ok.
  - destruct a as [a|], b as [b|]; try call_same E.
    apply singly_list_swap_ok in E as (Hs1 & _ & _ & El & En & _); [|exact Hs].
    split; [exact Hs1 | by eapply dlists_ok_same].
  - by apply singly_list_iter_create_pure in E as ->.
  - exact Hok.
  - by apply singly_list_iter_next_pure in E as ->.
  - destruct iter as [it|]; [|call_same E].
    destruct (sli_list it) as [lp|] eqn:El.
    + apply (singly_list_iter_remove_ok _ _ lp) in E as [Heff _]; [|exact Hs|exact El].
      by eapply sl_effect_lists_ok.
    + unfold singly_list_iter_remove in E. rewrite El in E. call_same E.
Qed.

Lemma run_dlist_call_ok fuel c h r h1 :
  lists_ok h -> dlist_call_ok h c -> run_dlist_call fuel c h = Ok r h1 -> lists_ok h1.
Proof.
  intros Hok Hc H. pose proof Hok as [Hs Hd].
  destruct c; cbn [run_dlist_call] in H;
    try (apply bind_inv in H as (x & h0 & E & H)); apply ret_inv in H as [_ <-].
  - apply doubly_list_create_ok in E; [|exact Hd]. destruct x as [lp|].
    + destruct E as (_ & Heff & _). by eapply dl_effect_lists_ok.
    + by eapply lists_ok_contents.
  - destruct list as [lp|]; [|call_same E].
    apply doubly_list_destroy_ok in E as [Heff _]; [|exact Hd]. by eapply dl_effect_lists_ok.
  - apply doubly_list_copy_ok in E as (Hd1 & _ & _ & El & En & _); [|exact Hd].
    split; [by eapply slists_ok_same | exact Hd1].
  - destruct list as [lp|], element as [e|]; try call_same E.
    apply doubly_list_push_front_ok in E as [Heff _]; [|exact Hd].
    by eapply dl_effect_lists_ok.
  - destruct list as [lp|], element as [e|]; try call_same E.
    apply doubly_list_push_back_ok in E as [Heff _]; [|exact Hd].
    by eapply dl_effect_lists_ok.
  - destruct list as [lp|]; [|call_same E]. destruct x as [s o].
    apply doubly_list_pop_front_ok in E as [Heff _]; [|exact Hd].
    by eapply dl_effect_lists_ok.
  - destruct list as [lp|]; [|call_same E]. destruct x as [s o].
    apply doubly_list_pop_back_ok in E as [Heff _]; [|exact Hd].
    by eapply dl_effect_lists_ok.
  - destruct list as [lp|], element as [e|]; try call_same E.
    apply doubly_list_insert_ok in E as [Heff _]; [|exact Hd|exact Hc].
    by eapply dl_effect_lists_ok.
  - destruct list as [lp|]; [|call_same E].
    apply doubly_list_remove_ok in E as [Heff _]; [|exact Hd|exact Hc].
    by eapply dl_effect_lists_ok.
  - destruct list as [lp|]; [|call_same E].
    apply doubly_list_clear_ok in E as [Heff _]; [|exact Hd]. by eapply dl_effect_lists_ok.
  - by apply doubly_list_get_pure in E as ->.
  - destruct list as [lp|], element as [e|]; try call_same E.
    apply doubly_list_set_ok in E as [Heff _]; [|exact Hd|apply Hc].
    by eapply dl_effect_lists_ok.
  - by apply doubly_list_get_ref_pure in E as ->.
  - by apply doubly_list_front_pure in E as ->.
  - by apply doubly_list_back_pure in E as ->.
  - by apply doubly_list_size_pure in E as ->.
  - by apply doubly_list_empty_pure in E as ->.
  - by apply doubly_list_find_pure in E as ->.
  - by apply doubly_list_contains_pure in E as ->.
  - destruct list as [lp|], node as [nd|], element as [e|]; try call_same E.
    cbn in Hc. apply list_elem_of_lookup in Hc as [k Hk].
    apply (doubly_list_insert_before_ok _ _ _ k) in E as [Heff _]; [|exact Hd|exact Hk].
    by eapply dl_effect_lists_ok.
  - destruct list as [lp|], node as [nd|], element as [e|]; try call_same E.
    cbn in Hc. apply list_elem_of_lookup in Hc as [k Hk].
    apply (doubly_list_insert_after_ok _ _ _ k) in E as [Heff _]; [|exact Hd|exact Hk].
    by eapply dl_effect_lists_ok.
  - destruct list as [lp|]; [|call_same E].
    apply doubly_list_reverse_ok in E as (_ & Heff & _); [|exact Hd].
    by eapply dl_effect_lists_ok.
  - destruct a as [a|], b as [b|]; try call_same E.
    apply doubly_list_swap_ok in E as (Hd1 & _ & _ & El & En & _); [|exact Hd].
    split; [by eapply slists_ok_same | exact Hd1].
  - by apply doubly_list_iter_create_pure in E as ->.
  - by apply doubly_list_iter_create_reverse_pure in E as ->.
  - exact Hok.
  - exact Hok.
  - by apply doubly_list_iter_next_pure in E as ->.
  - by apply doubly_list_iter_prev_pure in E as ->.
  - destruct iter as [it|]; [|call_same E]. cbn in Hc.
    destruct (dli_list it) as [lp|] eqn:El, (dli_current it) as [cur|] eqn:Ec.
    2-4: unfold doubly_list_iter_remove in E; rewrite El in E; rewrite ?Ec in E; call_same E.
    apply list_elem_of_lookup in Hc as [k Hk].
    destruct (doubly_list_iter_remove_run h it lp cur k Hd El Ec Hk) as (h' & E' & _ & Heff & _).
    rewrite E' in E. injection E as _ <-. by eapply dl_effect_lists_ok.
Qed.

(** With fuel for the nodes of the list it is given, a call does not run
    out of fuel. *)
Lemma run_slist_call_noof fuel c h :
  slists_ok h -> (slist_call_fuel h c <= fuel)%nat -> run_slist_call fuel c h <> OutOfFuel.
Proof.
  intros Hs Hf.
  destruct c; cbn [run_slist_call]; try (apply bind_noof; [|intros; apply ret_noof]);
    try apply ret_noof.
  - apply singly_list_create_noof.
  - apply singly_list_destroy_noof; [exact Hs|]. by intros lp ->.
  - apply singly_list_copy_noof; [exact Hs|]. by intros lp ->.
  - apply singly_list_push_front_noof.
  - apply singly_list_push_back_noof.
  - apply singly_list_pop_front_noof.
  - apply singly_list_pop_back_noof; [exact Hs|]. by intros lp ->.
  - apply singly_list_insert_noof.
  - apply singly_list_remove_noof.
  - apply singly_list_clear_noof; [exact Hs|]. by intros lp ->.
  - apply singly_list_get_noof.
  - apply singly_list_set_noof.
  - apply singly_list_get_ref_noof.
  - apply singly_list_front_noof.
  - apply singly_list_back_noof.
  - apply singly_list_size_noof.
  - apply singly_list_empty_noof.
  - apply singly_list_find_noof.
  - apply singly_list_contains_noof.
  - apply singly_list_reverse_noof; [exact Hs|]. by intros lp ->.
  - apply singly_list_swap_noof.
  - apply singly_list_iter_create_noof.
  - apply singly_list_iter_next_noof.
  - apply singly_list_iter_remove_noof.
Qed.

Lemma run_dlist_call_noof fuel c h :
  dlists_ok h -> (dlist_call_fuel h c <= fuel)%nat -> run_dlist_call fuel c h <> OutOfFuel.
Proof.
  intros Hd Hf.
  destruct c; cbn [run_dlist_call]; try (apply bind_noof; [|intros; apply ret_noof]);
    try apply ret_noof.
  - apply doubly_list_create_noof.
  - apply doubly_list_destroy_noof; [exact Hd|]. by intros lp ->.
  - apply doubly_list_copy_noof; [exact Hd|]. by intros lp ->.
  - apply doubly_list_push_front_noof.
  - apply doubly_list_push_back_noof.
  - apply doubly_list_pop_front_noof.
  - apply doubly_list_pop_back_noof.
  - apply doubly_list_insert_noof.
  - apply doubly_list_remove_noof.
  - apply doubly_list_clear_noof; [exact Hd|]. by intros lp ->.
  - apply doubly_list_get_noof.
  - apply doubly_list_set_noof.
  - apply doubly_list_get_ref_noof.
  - apply doubly_list_front_noof.
  - apply doubly_list_back_noof.
  - apply doubly_list_size_noof.
  - apply doubly_list_empty_noof.
  - apply doubly_list_find_noof.
  - apply doubly_list_contains_noof.
  - apply doubly_list_insert_before_noof.
  - apply doubly_list_insert_after_noof.
  - apply doubly_list_reverse_noof; [exact Hd|]. by intros lp ->.
  - apply doubly_list_swap_noof.
  - apply doubly_list_iter_create_noof.
  - apply doubly_list_iter_create_reverse_noof.
  - apply doubly_list_iter_next_noof.
  - apply doubly_list_iter_prev_noof.
  - apply doubly_list_iter_remove_noof.
Qed.

(** The lists of the example store are well formed. *)
Lemma demo_lists_ok : lists_ok demo_lists_heap.
Proof.
  assert (forall lp, lp <> 400 -> singly_list_nodes demo_lists_heap lp = []) as Hsn.
  { intros lp Hne. apply singly_list_nodes_dead. cbn. by apply lookup_singleton_ne. }
  assert (forall lp, lp <> 500 -> doubly_list_nodes demo_lists_heap lp = []) as Hdn.
  { intros lp Hne. destruct (decide (lp = 600)) as [->|Hne']; [reflexivity|].
    apply doubly_list_nodes_dead. cbn. rewrite lookup_insert_ne by congruence.
    by apply lookup_singleton_ne. }
  split; split_and!.
  - intros a [nd Ha]. cbn in Ha.
    repeat (apply lookup_insert_Some in Ha as [[<- _]|[_ Ha]]; [reflexivity|]).
    by apply lookup_singleton_Some in Ha as [<- _].
  - intros lp [l Hl]. cbn in Hl. apply lookup_singleton_Some in Hl as [<- _].
    exact demo_slist_inv.
  - intros lp lp' a Hne Ha Ha'. destruct (decide (lp = 400)) as [->|Hlp].
    + rewrite (Hsn lp') in Ha' by congruence. by apply elem_of_nil in Ha'.
    + rewrite (Hsn lp) in Ha by congruence. by apply elem_of_nil in Ha.
  - intros a [nd Ha]. cbn in Ha.
    repeat (apply lookup_insert_Some in Ha as [[<- _]|[_ Ha]]; [reflexivity|]).
    by apply lookup_singleton_Some in Ha as [<- _].
  - intros lp [l Hl]. cbn in Hl.
    apply lookup_insert_Some in Hl as [[<- _]|[_ Hl]]; [exact demo_dlist_inv|].
    apply lookup_singleton_Some in Hl as [<- _]. exact demo_empty_dlist_inv.
  - intros lp lp' a Hne Ha Ha'. destruct (decide (lp = 500)) as [->|Hlp].
    + rewrite (Hdn lp') in Ha' by congruence. by apply elem_of_nil in Ha'.
    + rewrite (Hdn lp) in Ha by congruence. by apply elem_of_nil in Ha.
Qed.

(** Every function of singly_list.h and of doubly_list.h keeps the
    lists of the store well formed: when the store is well formed and the
    arguments are what the header asks for, then in the store the call
    returns in, every list of either kind satisfies its structural
    invariant ([head], [tail] and [size] agree on emptiness, the chain
    from [head] along [next] has [size] nodes, ends at [tail] and
    terminates there, and in a doubly linked list the [prev] links mirror
    the [next] links, with [head->prev] null), and no node belongs to two
    lists.  With fuel for the nodes of its list, the call does not stop
    for lack of fuel. *)
Theorem list_operations_preserve_invariant fuel c h :
  lists_ok h -> list_call_ok h c ->
  ((list_call_fuel h c <= fuel)%nat -> run_list_call fuel c h <> OutOfFuel) /\
  forall r h1, run_list_call fuel c h = Ok r h1 ->
    lists_ok h1 /\
    (forall lp, is_Some (slists h1 !! lp) -> sl_inv h1 lp) /\
    (forall lp, is_Some (dlists h1 !! lp) -> dl_inv h1 lp).
Proof.
  intros Hok Hc. split.
  - intros Hf. destruct c as [c|c]; cbn in *;
      [apply run_slist_call_noof | apply run_dlist_call_noof]; try exact Hf; apply Hok.
  - intros r h1 H.
    assert (lists_ok h1) as Hok1.
    { destruct c as [c|c]; cbn in *;
        [by eapply run_slist_call_ok | by eapply run_dlist_call_ok]. }
    split; [exact Hok1|]. destruct Hok1 as [(_ & Hs & _) (_ & Hd & _)]. by split.
Qed.

Lemma list_operations_preserve_invariant_witness :
  exists h1,
    run_list_call 3 (OnDoubly (DInsert (Some 500) 1 (Some (elem4 Byte.x09))))
      demo_lists_heap = Ok (Some SUCCESS) h1 /\
    lists_ok h1 /\ dl_inv h1 500.
Proof.
  destruct (run_list_call 3 (OnDoubly (DInsert (Some 500) 1 (Some (elem4 Byte.x09))))
              demo_lists_heap) as [r h1| |] eqn:E; try (vm_compute in E; discriminate E).
  assert (r = Some SUCCESS) as -> by (vm_compute in E; congruence).
  destruct (list_operations_preserve_invariant 3
              (OnDoubly (DInsert (Some 500) 1 (Some (elem4 Byte.x09)))) demo_lists_heap
              demo_lists_ok ltac:(cbn; unfold is_size_t, SIZE_MAX, SIZE_BITS; lia))
    as [_ H].
  destruct (H _ _ E) as (Hok & _ & Hd).
  exists h1. split; [reflexivity|]. split; [exact Hok|]. apply Hd.
  vm_compute in E. injection E as <-. vm_compute. eauto.
Defined.

(* ===================================================================== *)
(** * Reversing twice *)
(* ===================================================================== *)

Lemma singly_list_reverse_small fuel h lp l :
  slists h !! lp = Some l -> sl_size l <= 1 ->
  singly_list_reverse fuel (Some lp) h = Ok SUCCESS h.
Proof.
  intros Hl Hs. unfold singly_list_reverse.
  rewrite (bind_Ok _ _ _ _ _ (load_Some SLists lp h l Hl)).
  by rewrite (proj2 (Z.leb_le _ _) Hs).
Qed.

Lemma doubly_list_reverse_small fuel h lp l :
  dlists h !! lp = Some l -> dl_size l <= 1 ->
  doubly_list_reverse fuel (Some lp) h = Ok SUCCESS h.
Proof.
  intros Hl Hs. unfold doubly_list_reverse.
  rewrite (bind_Ok _ _ _ _ _ (load_Some DLists lp h l Hl)).
  by rewrite (proj2 (Z.leb_le _ _) Hs).
Qed.

Lemma singly_list_reverse_twice fuel h lp :
  slists_ok h -> is_Some (slists h !! lp) ->
  (length (singly_list_elements h lp) <= fuel)%nat ->
  exists h1 h2,
    singly_list_reverse fuel (Some lp) h = Ok SUCCESS h1 /\
    singly_list_reverse fuel (Some lp) h1 = Ok SUCCESS h2 /\
    singly_list_elements h1 lp = reverse (singly_list_elements h lp) /\
    singly_list_elements h2 lp = singly_list_elements h lp /\
    sl_effect h h2 lp /\
    ((length (singly_list_elements h lp) <= 1)%nat -> h1 = h /\ h2 = h).
Proof.
  intros Hok [l Hl] Hfuel.
  assert (length (singly_list_elements h lp) = length (singly_list_nodes h lp)) as Hlen
    by (unfold singly_list_elements; by rewrite length_fmap).
  rewrite Hlen in Hfuel |- *.
  destruct (slists_ok_repr h lp Hok) as (l' & Hl' & _ & _ & Hsz & _); [eauto|].
  assert (l' = l) by congruence. subst l'.
  destruct (decide (length (singly_list_nodes h lp) <= 1)%nat) as [Hsmall|Hbig].
  { exists h, h. pose proof (singly_list_reverse_small fuel h lp l Hl ltac:(lia)) as E.
    destruct (singly_list_reverse_ok _ _ _ _ _ Hok E) as (_ & Heff & _ & Hel).
    split_and!; [exact E | exact E | exact Hel | reflexivity | exact Heff | done]. }
  destruct (singly_list_reverse_run fuel h lp Hok ltac:(eauto) Hfuel) as [h1 E1].
  destruct (singly_list_reverse_ok _ _ _ _ _ Hok E1) as (_ & Heff1 & Hn1 & Hel1).
  assert (is_Some (slists h1 !! lp)) as Hlive.
  { destruct (slists h1 !! lp) eqn:E; [eauto|]. apply singly_list_nodes_dead in E.
    rewrite Hn1 in E. apply (f_equal length) in E. rewrite length_reverse in E.
    cbn in E. lia. }
  destruct (singly_list_reverse_run fuel h1 lp (proj1 Heff1) Hlive) as [h2 E2].
  { by rewrite Hn1, length_reverse. }
  destruct (singly_list_reverse_ok _ _ _ _ _ (proj1 Heff1) E2) as (_ & Heff2 & _ & Hel2).
  exists h1, h2. split_and!; try assumption.
  - by rewrite Hel2, Hel1, reverse_involutive.
  - by eapply sl_effect_trans.
  - intros. lia.
Qed.

Lemma doubly_list_reverse_twice fuel h lp :
  dlists_ok h -> is_Some (dlists h !! lp) ->
  (length (doubly_list_elements h lp) <= fuel)%nat ->
  exists h1 h2,
    doubly_list_reverse fuel (Some lp) h = Ok SUCCESS h1 /\
    doubly_list_reverse fuel (Some lp) h1 = Ok SUCCESS h2 /\
    doubly_list_elements h1 lp = reverse (doubly_list_elements h lp) /\
    doubly_list_elements h2 lp = doubly_list_elements h lp /\
    dl_effect h h2 lp /\
    ((length (doubly_list_elements h lp) <= 1)%nat -> h1 = h /\ h2 = h).
Proof.
  intros Hok [l Hl] Hfuel.
  assert (length (doubly_list_elements h lp) = length (doubly_list_nodes h lp)) as Hlen
    by (unfold doubly_list_elements; by rewrite length_fmap).
  rewrite Hlen in Hfuel |- *.
  destruct (dlists_ok_repr h lp Hok) as (l' & Hl' & _ & _ & Hsz & _); [eauto|].
  assert (l' = l) by congruence. subst l'.
  destruct (decide (length (doubly_list_nodes h lp) <= 1)%nat) as [Hsmall|Hbig].
  { exists h, h. pose proof (doubly_list_reverse_small fuel h lp l Hl ltac:(lia)) as E.
    destruct (doubly_list_reverse_ok _ _ _ _ _ Hok E) as (_ & Heff & _ & Hel).
    split_and!; [exact E | exact E | exact Hel | reflexivity | exact Heff | done]. }
  destruct (doubly_list_reverse_run fuel h lp Hok ltac:(eauto) Hfuel) as [h1 E1].
  destruct (doubly_list_reverse_ok _ _ _ _ _ Hok E1) as (_ & Heff1 & Hn1 & Hel1).
  assert (is_Some (dlists h1 !! lp)) as Hlive.
  { destruct (dlists h1 !! lp) eqn:E; [eauto|]. apply doubly_list_nodes_dead in E.
    rewrite Hn1 in E. apply (f_equal length) in E. rewrite length_reverse in E.
    cbn in E. lia. }
  destruct (doubly_list_reverse_run fuel h1 lp (proj1 Heff1) Hlive) as [h2 E2].
  { by rewrite Hn1, length_reverse. }
  destruct (doubly_list_reverse_ok _ _ _ _ _ (proj1 Heff1) E2) as (_ & Heff2 & _ & Hel2).
  exists h1, h2. split_and!; try assumption.
  - by rewrite Hel2, Hel1, reverse_involutive.
  - by eapply dl_effect_trans.
  - intros. lia.
Qed.

(** Reversing a list twice gives back its element sequence, for a
    singly and for a doubly linked list: in a well-formed store, with
    fuel for the nodes of the list, both calls of [reverse] return
    [SUCCESS]; after the first the elements are those of the list in
    reverse order, after the second they are those of the list again,
    the store is well formed and no other list has changed.  A list of
    at most one element is not touched at all. *)
Theorem reverse_involution fuel h :
  lists_ok h ->
  (forall lp, is_Some (slists h !! lp) ->
     (length (singly_list_elements h lp) <= fuel)%nat ->
     exists h1 h2,
       singly_list_reverse fuel (Some lp) h = Ok SUCCESS h1 /\
       singly_list_reverse fuel (Some lp) h1 = Ok SUCCESS h2 /\
       singly_list_elements h1 lp = reverse (singly_list_elements h lp) /\
       singly_list_elements h2 lp = singly_list_elements h lp /\
       sl_effect h h2 lp /\
       ((length (singly_list_elements h lp) <= 1)%nat -> h1 = h /\ h2 = h)) /\
  (forall lp, is_Some (dlists h !! lp) ->
     (length (doubly_list_elements h lp) <= fuel)%nat ->
     exists h1 h2,
       doubly_list_reverse fuel (Some lp) h = Ok SUCCESS h1 /\
       doubly_list_reverse fuel (Some lp) h1 = Ok SUCCESS h2 /\
       doubly_list_elements h1 lp = reverse (doubly_list_elements h lp) /\
       doubly_list_elements h2 lp = doubly_list_elements h lp /\
       dl_effect h h2 lp /\
       ((length (doubly_list_elements h lp) <= 1)%nat -> h1 = h /\ h2 = h)).
Proof.
  intros [Hs Hd]. split; intros lp Hl Hf.
  - by apply singly_list_reverse_twice.
  - by apply doubly_list_reverse_twice.
Qed.

Lemma reverse_involution_witness :
  (exists h1 h2,
     singly_list_reverse 3 (Some 400) demo_lists_heap = Ok SUCCESS h1 /\
     singly_list_reverse 3 (Some 400) h1 = Ok SUCCESS h2 /\
     singly_list_elements h1 400 = [elem4 Byte.x03; elem4 Byte.x02; elem4 Byte.x01] /\
     singly_list_elements h2 400 = [elem4 Byte.x01; elem4 Byte.x02; elem4 Byte.x03]) /\
  (exists h1 h2,
     doubly_list_reverse 3 (Some 500) demo_lists_heap = Ok SUCCESS h1 /\
     doubly_list_reverse 3 (Some 500) h1 = Ok SUCCESS h2 /\
     doubly_list_elements h1 500 = [elem4 Byte.x03; elem4 Byte.x02; elem4 Byte.x01] /\
     doubly_list_elements h2 500 = [elem4 Byte.x01; elem4 Byte.x02; elem4 Byte.x03]) /\
  (exists h1 h2,
     doubly_list_reverse 3 (Some 600) demo_lists_heap = Ok SUCCESS h1 /\
     doubly_list_reverse 3 (Some 600) h1 = Ok SUCCESS h2 /\
     doubly_list_elements h2 600 = []).
Proof.
  destruct (reverse_involution 3 demo_lists_heap demo_lists_ok) as [Hs Hd].
  split; [|split].
  - destruct (Hs 400) as (h1 & h2 & E1 & E2 & El1 & El2 & _).
    { vm_compute. eauto. }
    { vm_compute. lia. }
    exists h1, h2. split; [exact E1|]. split; [exact E2|].
    split; [rewrite El1 | rewrite El2]; reflexivity.
  - destruct (Hd 500) as (h1 & h2 & E1 & E2 & El1 & El2 & _).
    { vm_compute. eauto. }
    { vm_compute. lia. }
    exists h1, h2. split; [exact E1|]. split; [exact E2|].
    split; [rewrite El1 | rewrite El2]; reflexivity.
  - destruct (Hd 600) as (h1 & h2 & E1 & E2 & El1 & El2 & _).
    { vm_compute. eauto. }
    { vm_compute. lia. }
    exists h1, h2. split; [exact E1|]. split; [exact E2|]. rewrite El2. reflexivity.
Defined.

(* ===================================================================== *)
(** * Removing through an iterator of a doubly linked list *)
(* ===================================================================== *)

Lemma doubly_list_iter_next_run h it lp l c nd out out' :
  dli_list it = Some lp -> dli_current it = Some c -> dlists h !! lp = Some l ->
  dnodes h !! c = Some nd -> mem_copy out (dn_data nd) (dl_element_size l) = Some out' ->
  doubly_list_iter_next (Some it) (Some out) h
  = Ok (SUCCESS,
        Some (set_dli_position (to_size_t (dli_position it + 1))
                (set_dli_current (dn_next nd) it)),
        Some out') h.
Proof.
  intros Hlp Hc Hl Hnd Hcp. unfold doubly_list_iter_next, dl_iter_copy_out.
  rewrite Hc, Hlp. run. unfold copy_out. rewrite Hcp. run. reflexivity.
Qed.

(** [doubly_list_iter_remove] removes the element the iterator
    stands on, its [current] node: for a well-formed store and an
    iterator whose [current] is the node at position [k] of its list, the
    call returns [SUCCESS]; the elements of the list are the former ones
    without the one at position [k], the size is one less, no other list
    has changed, and the iterator stands on the node that followed the
    removed one: its next [iter_next] yields the element formerly at
    position [k + 1], or, if there was none, the iterator is exhausted. *)
Theorem doubly_list_iter_remove_current h it lp l c k :
  dlists_ok h -> dlists h !! lp = Some l ->
  dli_list it = Some lp -> dli_current it = Some c ->
  doubly_list_nodes h lp !! k = Some c ->
  exists h1 it1 l1,
    doubly_list_iter_remove (Some it) h = Ok (SUCCESS, Some it1) h1 /\
    dl_effect h h1 lp /\
    doubly_list_elements h1 lp = delete k (doubly_list_elements h lp) /\
    dlists h1 !! lp = Some l1 /\ dl_size l1 = dl_size l - 1 /\
    match doubly_list_elements h lp !! S k with
    | Some e =>
        doubly_list_iter_has_next (Some it1) = true /\
        forall out out', mem_copy out e (dl_element_size l) = Some out' ->
          exists it2, doubly_list_iter_next (Some it1) (Some out) h1
                      = Ok (SUCCESS, Some it2, Some out') h1
    | None =>
        doubly_list_iter_has_next (Some it1) = false /\
        forall output, doubly_list_iter_next (Some it1) output h1
                       = Ok (ERROR_INVALID_INPUT, Some it1, output) h1
    end.
Proof.
  intros Hok Hl Hlp Hcur Hk.
  destruct (doubly_list_iter_remove_run h it lp c k Hok Hlp Hcur Hk)
    as (h1 & E & Hes & Heff & Hn & Hel).
  rewrite Hl in Hes. destruct (dlists h1 !! lp) as [l1|] eqn:Hl1; [|discriminate Hes].
  injection Hes as Hes.
  destruct (dlists_ok_repr h lp Hok) as (l' & Hl' & _ & _ & Hsz & _); [eauto|].
  assert (l' = l) by congruence. subst l'.
  destruct (dlists_ok_repr h1 lp (proj1 Heff)) as (l'' & Hl'' & _ & _ & Hsz1 & _); [eauto|].
  assert (l'' = l1) by congruence. subst l''.
  pose proof (lookup_lt_Some _ _ _ Hk) as Hlen.
  exists h1, (set_dli_current (doubly_list_nodes h lp !! S k) it), l1.
  split_and!; try assumption.
  { rewrite Hsz1, Hn, length_delete, Hsz by eauto. lia. }
  unfold doubly_list_elements at 1. rewrite list_lookup_fmap.
  destruct (doubly_list_nodes h lp !! S k) as [x|] eqn:Hx;
    cbn [fmap option_fmap option_map].
  - split; [reflexivity|]. intros out out' Hcp.
    assert (doubly_list_nodes h1 lp !! k = Some x) as Hx1.
    { rewrite Hn, list_lookup_delete_ge by lia. exact Hx. }
    destruct (dlists_ok_in_dom h1 lp x (proj1 Heff)) as [nd1 Hnd1];
      [by eapply list_elem_of_lookup_2|].
    assert (dn_data nd1 = dn_data_at h x) as Hd.
    { pose proof (f_equal (fun es => es !! k) Hel) as Hk'. cbn in Hk'.
      rewrite list_lookup_delete_ge in Hk' by lia.
      unfold doubly_list_elements in Hk'. rewrite !list_lookup_fmap, Hx1, Hx in Hk'.
      cbn in Hk'. injection Hk' as Hk'. rewrite <- Hk'. unfold dn_data_at.
      by rewrite Hnd1. }
    eexists. eapply doubly_list_iter_next_run; [exact Hlp | reflexivity | exact Hl1 | exact Hnd1|].
    by rewrite Hd, Hes.
  - split; [reflexivity|]. intros output. reflexivity.
Qed.

Lemma doubly_list_iter_remove_current_witness :
  exists h1 it1,
    doubly_list_iter_remove (Some (mk_dliter (Some 500) (Some 520) 1)) demo_lists_heap
    = Ok (SUCCESS, Some it1) h1 /\
    doubly_list_elements h1 500 = [elem4 Byte.x01; elem4 Byte.x03] /\
    exists it2, doubly_list_iter_next (Some it1) (Some (elem4 Byte.x00)) h1
                = Ok (SUCCESS, Some it2, Some (elem4 Byte.x03)) h1.
Proof.
  destruct (doubly_list_iter_remove_current demo_lists_heap
              (mk_dliter (Some 500) (Some 520) 1) 500 (mk_dlist (Some 510) (Some 530) 3 4)
              520 1 (proj2 demo_lists_ok) eq_refl eq_refl eq_refl eq_refl)
    as (h1 & it1 & l1 & E & _ & Hel & _ & _ & Hnext).
  exists h1, it1. split; [exact E|]. split; [rewrite Hel; reflexivity|].
  destruct Hnext as [_ Hnext]. apply Hnext. reflexivity.
Defined.

(** The element removed is not the one the iterator yielded last.  On
    the list [1, 2, 3] an
    iterator that has yielded the first element stands on the second;
    [iter_remove] then removes the second element, and the element
    yielded last stays in the list. *)
Lemma doubly_list_iter_remove_after_next :
  exists it0 it1 it2 h1,
    doubly_list_iter_create (Some 500) demo_lists_heap = Ok it0 demo_lists_heap /\
    doubly_list_iter_next (Some it0) (Some (elem4 Byte.x00)) demo_lists_heap
    = Ok (SUCCESS, Some it1, Some (elem4 Byte.x01)) demo_lists_heap /\
    doubly_list_iter_remove (Some it1) demo_lists_heap = Ok (SUCCESS, Some it2) h1 /\
    doubly_list_elements demo_lists_heap 500
    = [elem4 Byte.x01; elem4 Byte.x02; elem4 Byte.x03] /\
    doubly_list_elements h1 500 = [elem4 Byte.x01; elem4 Byte.x03] /\
    doubly_list_elements h1 500 <> [elem4 Byte.x02; elem4 Byte.x03].
Proof.
  eexists _, _, _, _. split; [vm_compute; reflexivity|].
  split; [vm_compute; reflexivity|]. split; [vm_compute; reflexivity|].
  split; [reflexivity|]. split; [vm_compute; reflexivity|]. vm_compute. discriminate.
Qed.

(* ===================================================================== *)
(** * Failing calls *)
(* ===================================================================== *)

Lemma validate_Some null bad e r :
  validate null bad e = Some r ->
  (null = true /\ r = ERROR_INVALID_INPUT) \/ (null = false /\ bad = Some true /\ r = e).
Proof.
  unfold validate. destruct null; [intros [= <-]; by left|].
  destruct bad as [[]|]; try discriminate. intros [= <-]. by right.
Qed.

Lemma validate_None null bad e :
  validate null bad e = None -> null = false /\ bad <> Some true.
Proof. unfold validate. destruct null; [discriminate|]. by destruct bad as [[]|]. Qed.

(** ** vector.c *)

(** A call whose arguments do not pass the validation returns the error
    for it, in the store it was called in. *)
Lemma vector_validation_run c h e :
  vector_validation h c = Some e ->
  e <> SUCCESS /\ run_vector_call c h = Ok (Some e) h.
Proof.
  intros H. destruct c; cbn [vector_validation] in H; try discriminate H;
    apply validate_Some in H as [[Hnull ->]|(Hnull & Hbad & ->)];
    try discriminate Hbad; (split; [discriminate|]).
  all: try (destruct vector as [v|]; try destruct element as [e|];
            try destruct output as [out|]; try discriminate Hnull; reflexivity).
  all: destruct vector as [v|]; [|discriminate Hnull].
  all: unfold vector_len in Hbad; cbn in Hbad;
    destruct (vectors h !! v) as [vec|] eqn:Hv; [|discriminate Hbad];
    cbn in Hbad; injection Hbad as Hbad.
  - cbn [run_vector_call]. unfold vector_pop_back. run. by rewrite Hbad.
  - destruct element as [e|]; [|discriminate Hnull].
    cbn [run_vector_call]. unfold vector_insert. run. by rewrite Hbad.
  - cbn [run_vector_call]. unfold vector_remove, vector_check_index. run.
    by rewrite Hbad.
  - destruct output as [out|]; [|discriminate Hnull].
    cbn [run_vector_call]. unfold vector_get, vector_check_index. run. by rewrite Hbad.
  - destruct element as [e|]; [|discriminate Hnull].
    cbn [run_vector_call]. unfold vector_set, vector_check_index. run. by rewrite Hbad.
Qed.

Lemma vector_len_Some h v vec : vectors h !! v = Some vec -> vector_len h (Some v) = Some (v_size vec).
Proof. intros Hv. unfold vector_len. cbn. by rewrite Hv. Qed.

Lemma bad_false {A} (f : A -> bool) (x : A) : f <$> Some x <> Some true -> f x = false.
Proof. cbn. destruct (f x); congruence. Qed.

(** A call whose arguments pass the validation fails only for want of
    memory, and then nothing has changed. *)
Lemma vector_failure_alloc c h s h1 :
  vectors_ok h -> vector_call_ok c -> vector_validation h c = None ->
  run_vector_call c h = Ok (Some s) h1 -> s <> SUCCESS ->
  s = ERROR_MEMORY_ALLOCATION /\ contents h1 = contents h.
Proof.
  intros Hok Hc Hval H Hs.
  destruct c; cbn [run_vector_call] in H;
    apply bind_inv in H as (r & h0 & E & H); apply ret_inv in H as [H <-];
    try discriminate H; injection H as H; cbn [vector_validation] in Hval;
    apply validate_None in Hval as [Hnull Hbad].
  - (* push_back *)
    destruct vector as [v|], element as [e|]; try discriminate Hnull. subst r.
    apply vector_push_back_effect in E as [Hf _]. by apply Hf.
  - (* pop_back *)
    destruct vector as [v|]; [|discriminate Hnull]. destruct r as [s' o]. cbn in H. subst s'.
    exfalso. unfold vector_pop_back in E.
    apply bind_inv in E as (vec & h' & Ev & E). minv Ev. cbn in Ev.
    rewrite (vector_len_Some _ _ _ Ev) in Hbad. apply bad_false in Hbad. rewrite Hbad in E.
    apply bind_inv in E as (? & ? & _ & E). apply bind_inv in E as (? & ? & _ & E).
    apply ret_inv in E as [E _]. congruence.
  - (* insert *)
    destruct vector as [v|], element as [e|]; try discriminate Hnull. subst r.
    pose proof E as E'. apply vector_insert_failure in E' as [[ -> | -> ] Hcont]; [by split | | | exact Hs].
    + exfalso. unfold vector_insert in E.
      apply bind_inv in E as (vec & h' & Ev & E). minv Ev. cbn in Ev.
      rewrite (vector_len_Some _ _ _ Ev) in Hbad. apply bad_false in Hbad. rewrite Hbad in E.
      apply bind_inv in E as (s0 & h' & Hg & E).
      pose proof Hg as Hg'. apply vector_check_grow_effect in Hg' as [Hfail _].
      destruct (is_success s0) eqn:Es0; cbn [negb] in E.
      2:{ apply ret_inv in E as [-> _]. by destruct (Hfail Hs). }
      apply bind_inv in E as (vec0 & h0' & E0 & E). minv E0.
      destruct (index =? v_size vec0).
      * apply vector_push_back_effect in E as [Hf _]. by destruct Hf.
      * apply bind_inv in E as (? & ? & _ & E). apply bind_inv in E as (? & ? & _ & E).
        apply bind_inv in E as (? & ? & _ & E). apply ret_inv in E as [E _]. congruence.
    + intros vec Hv. destruct (Hok v ltac:(eauto)) as (vec' & Hv' & _ & Hsz & Hcap & _).
      assert (vec' = vec) by congruence. subst vec'. lia.
  - (* remove *)
    destruct vector as [v|]; [|discriminate Hnull]. subst r. exfalso.
    unfold vector_remove, vector_check_index in E.
    apply bind_inv in E as (s0 & h' & E0 & E).
    apply bind_inv in E0 as (vec & h'' & Ev & E0). minv Ev. cbn in Ev.
    rewrite (vector_len_Some _ _ _ Ev) in Hbad. apply bad_false in Hbad. rewrite Hbad in E0.
    apply ret_inv in E0 as [<- <-]. change (negb (is_success SUCCESS)) with false in E.
    cbv iota in E. apply bind_inv in E as (vec' & h0' & E1 & E). minv E1. cbn in E1.
    assert (vec' = vec) by congruence. subst vec'.
    destruct (index =? to_size_t (v_size vec - 1)).
    + apply bind_inv in E as ([s1 o1] & h2 & Hp & E). apply ret_inv in E as [E _].
      cbn in E. subst s1. cbn in Hc. unfold is_size_t in Hc. apply Z.leb_gt in Hbad.
      unfold vector_pop_back in Hp.
      apply bind_inv in Hp as (vec' & h3 & E3 & Hp). minv E3. cbn in E3.
      assert (vec' = vec) by congruence. subst vec'.
      rewrite (proj2 (Z.eqb_neq (v_size vec) 0)) in Hp by lia.
      apply bind_inv in Hp as (? & ? & _ & Hp). apply bind_inv in Hp as (? & ? & _ & Hp).
      apply ret_inv in Hp as [Hp _]. congruence.
    + apply bind_inv in E as (? & ? & _ & E). apply bind_inv in E as (? & ? & _ & E).
      apply ret_inv in E as [E _]. congruence.
  - (* get *)
    destruct vector as [v|], output as [out|]; try discriminate Hnull.
    destruct r as [s' o]. cbn in H. subst s'. exfalso.
    unfold vector_get, vector_check_index in E.
    apply bind_inv in E as (s0 & h' & E0 & E).
    apply bind_inv in E0 as (vec & h'' & Ev & E0). minv Ev. cbn in Ev.
    rewrite (vector_len_Some _ _ _ Ev) in Hbad. apply bad_false in Hbad. rewrite Hbad in E0.
    apply ret_inv in E0 as [<- <-]. change (negb (is_success SUCCESS)) with false in E.
    cbv iota in E. apply bind_inv in E as (? & ? & _ & E).
    apply bind_inv in E as (? & ? & _ & E). apply ret_inv in E as [E _]. congruence.
  - (* set *)
    destruct vector as [v|], element as [e|]; try discriminate Hnull. subst r. exfalso.
    unfold vector_set, vector_check_index in E.
    apply bind_inv in E as (s0 & h' & E0 & E).
    apply bind_inv in E0 as (vec & h'' & Ev & E0). minv Ev. cbn in Ev.
    rewrite (vector_len_Some _ _ _ Ev) in Hbad. apply bad_false in Hbad. rewrite Hbad in E0.
    apply ret_inv in E0 as [<- <-]. change (negb (is_success SUCCESS)) with false in E.
    cbv iota in E. apply bind_inv in E as (? & ? & _ & E).
    apply bind_inv in E as (? & ? & _ & E). apply ret_inv in E as [E _]. congruence.
  - (* reserve *)
    destruct vector as [v|]; [|discriminate Hnull]. subst r.
    apply vector_reserve_effect in E as [Hf _]. by apply Hf.
  - (* shrink_to_fit *)
    destruct vector as [v|]; [|discriminate Hnull]. subst r.
    apply vector_shrink_to_fit_effect in E as [Hf _]. by apply Hf.
Qed.

(** ** singly_list.c *)

Lemma singly_list_elements_length h lp :
  length (singly_list_elements h lp) = length (singly_list_nodes h lp).
Proof. unfold singly_list_elements. by rewrite length_fmap. Qed.

Lemma slist_len_live h lp l :
  slists_ok h -> slists h !! lp = Some l ->
  slist_len h (Some lp) = Some (sl_size l) /\
  sl_size l = Z.of_nat (length (singly_list_nodes h lp)) /\
  sl_head l = head (singly_list_nodes h lp).
Proof.
  intros Hok Hl. destruct (slists_ok_repr h lp Hok) as (l' & Hl' & Hh & _ & Hsz & _); [eauto|].
  assert (l' = l) by congruence. subst l'. split_and!; [|exact Hsz|exact Hh].
  unfold slist_len. cbn. rewrite Hl. cbn. by rewrite singly_list_elements_length, Hsz.
Qed.

(** The first thing a function does with its list is to read it. *)
Ltac first_load E :=
  lazymatch type of E with
  | bind _ _ _ = Ok _ _ =>
      let E0 := fresh "E0" in apply bind_inv in E as (? & ? & E0 & _); first_load E0
  | field _ _ _ _ = Ok _ _ => apply field_inv in E as (? & E & _ & _); cbn in E
  | load _ _ _ = Ok _ _ => apply load_inv in E as [E _]; cbn in E
  end.

Lemma size_t_pred z : is_size_t z -> z <> 0 -> to_size_t (z - 1) = z - 1.
Proof.
  unfold is_size_t, to_size_t, SIZE_MAX, SIZE_BITS. intros. apply Z.mod_small. lia.
Qed.

Lemma slist_validation_run fuel c h e :
  slists_ok h -> slist_call_ok c -> slist_validation h c = Some e ->
  e <> SUCCESS /\ run_slist_call fuel c h = Ok (Some e) h.
Proof.
  intros Hok Hc H. destruct c; cbn [slist_validation] in H; try discriminate H;
    apply validate_Some in H as [[Hnull ->]|(Hnull & Hbad & ->)];
    try discriminate Hbad; (split; [discriminate|]).
  all: try (destruct list as [lp|]; try destruct element as [e|];
            try destruct output as [out|]; try discriminate Hnull; reflexivity).
  all: cbn [run_slist_call].
  1-6: destruct list as [lp|]; [|discriminate Hnull];
    (destruct (slists h !! lp) as [l0|] eqn:Hl;
     [|unfold slist_len in Hbad; cbn in Hbad; rewrite Hl in Hbad; discriminate Hbad]);
    destruct (slist_len_live h lp l0 Hok Hl) as (Hlen & Hsz & Hh);
    rewrite Hlen in Hbad; cbn in Hbad; injection Hbad as Hbad.
  - (* pop_front *)
    apply Z.eqb_eq in Hbad. unfold singly_list_pop_front.
    destruct (singly_list_nodes h lp); [|cbn in Hsz; lia].
    destruct l0 as [hd tl sz es]. cbn in Hh. subst hd. by run.
  - (* pop_back *)
    apply Z.eqb_eq in Hbad. unfold singly_list_pop_back.
    destruct (singly_list_nodes h lp); [|cbn in Hsz; lia].
    destruct l0 as [hd tl sz es]. cbn in Hh. subst hd. by run.
  - (* insert *)
    destruct element as [e|]; [|discriminate Hnull].
    unfold singly_list_insert. run. by rewrite Hbad.
  - (* remove *)
    unfold singly_list_remove. run. by rewrite Hbad.
  - (* get *)
    destruct output as [out|]; [|discriminate Hnull].
    unfold singly_list_get, get_node_at. run. by rewrite Hbad.
  - (* set *)
    destruct element as [e|]; [|discriminate Hnull].
    unfold singly_list_set, get_node_at. run. by rewrite Hbad.
  - (* iter_next *)
    destruct iter as [[l c p]|]; [|reflexivity]. destruct c; [discriminate Hnull|reflexivity].
  - (* iter_remove, invalid *)
    destruct iter as [[l c p]|]; [|reflexivity]. destruct l as [lp|]; [|reflexivity].
    cbn in Hnull. unfold singly_list_iter_remove. cbn [sli_list sli_position].
    by rewrite Hnull.
  - (* iter_remove, out of bounds *)
    destruct iter as [[l c p]|]; [|discriminate Hnull].
    destruct l as [lp|]; [|discriminate Hnull]. cbn in Hnull, Hc.
    cbn [mbind option_bind sli_list sli_position] in Hbad.
    destruct (slists h !! lp) as [l0|] eqn:Hl;
      [|unfold slist_len in Hbad; cbn in Hbad; rewrite Hl in Hbad; discriminate Hbad].
    destruct (slist_len_live h lp l0 Hok Hl) as (Hlen & Hsz & Hh).
    rewrite Hlen in Hbad. cbn in Hbad. injection Hbad as Hbad.
    apply Z.eqb_neq in Hnull. apply Z.ltb_lt in Hbad.
    unfold singly_list_iter_remove. cbn [sli_list sli_position].
    rewrite (proj2 (Z.eqb_neq p 0)) by exact Hnull.
    rewrite size_t_pred by assumption. unfold singly_list_remove. run.
    by rewrite (proj2 (Z.leb_le (sl_size l0) (p - 1))) by lia.
Qed.

Lemma slist_bad_false h lp l (f : Z -> bool) :
  slists_ok h -> slists h !! lp = Some l ->
  f <$> slist_len h (Some lp) <> Some true ->
  f (Z.of_nat (length (singly_list_nodes h lp))) = false.
Proof.
  intros Hok Hl Hbad. destruct (slist_len_live h lp l Hok Hl) as (Hlen & Hsz & _).
  rewrite Hlen, Hsz in Hbad. by apply bad_false in Hbad.
Qed.

Lemma singly_list_get_failure h lp index out s o h1 :
  slists_ok h -> 0 <= index ->
  singly_list_get (Some lp) index (Some out) h = Ok (s, o) h1 -> s <> SUCCESS ->
  Z.of_nat (length (singly_list_nodes h lp)) <= index.
Proof.
  intros Hok Hi E Hs. unfold singly_list_get in E.
  assert (is_Some (slists h !! lp)) as Hlive.
  { pose proof E as E'. unfold get_node_at in E'. first_load E'. eauto. }
  pose proof (slists_ok_repr h lp Hok Hlive) as Hrepr.
  rewrite (bind_Ok _ _ _ _ _ (get_node_at_repr h lp _ index Hrepr Hi)) in E.
  destruct (singly_list_nodes h lp !! Z.to_nat index) eqn:En.
  - apply bind_inv in E as (? & ? & _ & E). apply bind_inv in E as (? & ? & _ & E).
    apply bind_inv in E as (? & ? & _ & E). apply ret_inv in E as [E _]. congruence.
  - apply lookup_ge_None in En. lia.
Qed.

Lemma slist_failure_alloc fuel c h s h1 :
  slists_ok h -> slist_call_ok c -> slist_validation h c = None ->
  run_slist_call fuel c h = Ok (Some s) h1 -> s <> SUCCESS ->
  s = ERROR_MEMORY_ALLOCATION /\ contents h1 = contents h.
Proof.
  intros Hok Hc Hval H Hs.
  destruct c; cbn [run_slist_call] in H;
    try (apply bind_inv in H as (r & h0 & E & H)); apply ret_inv in H as [H <-];
    try discriminate H; injection H as H; cbn [slist_validation] in Hval;
    apply validate_None in Hval as [Hnull Hbad].
  - (* push_front *)
    destruct list as [lp|], element as [e|]; try discriminate Hnull. subst r.
    apply singly_list_push_front_ok in E as (_ & Hf & _); [|exact Hok]. by apply Hf.
  - (* push_back *)
    destruct list as [lp|], element as [e|]; try discriminate Hnull. subst r.
    apply singly_list_push_back_ok in E as (_ & Hf & _); [|exact Hok]. by apply Hf.
  - (* pop_front *)
    destruct list as [lp|]; [|discriminate Hnull]. destruct r as [s' o]. cbn in H. subst s'.
    exfalso. assert (is_Some (slists h !! lp)) as [l Hl].
    { pose proof E as E'. unfold singly_list_pop_front in E'. first_load E'. eauto. }
    apply singly_list_pop_front_ok in E as (_ & Hf & _); [|exact Hok].
    destruct (Hf Hs) as (_ & _ & _ & Hn).
    apply (slist_bad_false _ _ _ _ Hok Hl) in Hbad. by rewrite Hn in Hbad.
  - (* pop_back *)
    destruct list as [lp|]; [|discriminate Hnull]. destruct r as [s' o]. cbn in H. subst s'.
    exfalso. assert (is_Some (slists h !! lp)) as [l Hl].
    { pose proof E as E'. unfold singly_list_pop_back in E'. first_load E'. eauto. }
    apply singly_list_pop_back_ok in E as (_ & Hf & _); [|exact Hok].
    destruct (Hf Hs) as (_ & _ & _ & Hn).
    apply (slist_bad_false _ _ _ _ Hok Hl) in Hbad. by rewrite Hn in Hbad.
  - (* insert *)
    destruct list as [lp|], element as [e|]; try discriminate Hnull. subst r.
    assert (is_Some (slists h !! lp)) as [l Hl].
    { pose proof E as E'. unfold singly_list_insert in E'. first_load E'. eauto. }
    apply singly_list_insert_ok in E as (_ & Hf & Hoob & _); [|exact Hok|exact Hc].
    destruct (Hf Hs) as [[->| ->] Hcont]; [|by split]. exfalso.
    apply (slist_bad_false _ _ _ _ Hok Hl) in Hbad. apply Z.ltb_ge in Hbad.
    pose proof (proj1 Hoob eq_refl). lia.
  - (* remove *)
    destruct list as [lp|]; [|discriminate Hnull]. subst r. exfalso.
    assert (is_Some (slists h !! lp)) as [l Hl].
    { pose proof E as E'. unfold singly_list_remove in E'. first_load E'. eauto. }
    apply singly_list_remove_ok in E as (_ & Hf & Hoob & _); [|exact Hok|exact Hc].
    destruct (Hf Hs) as [-> _].
    apply (slist_bad_false _ _ _ _ Hok Hl) in Hbad. apply Z.leb_gt in Hbad.
    pose proof (proj1 Hoob eq_refl). lia.
  - (* get *)
    destruct list as [lp|], output as [out|]; try discriminate Hnull.
    destruct r as [s' o]. cbn in H. subst s'. exfalso.
    assert (is_Some (slists h !! lp)) as [l Hl].
    { pose proof E as E'. unfold singly_list_get, get_node_at in E'. first_load E'. eauto. }
    apply singly_list_get_failure in E; [|exact Hok|apply Hc|exact Hs].
    apply (slist_bad_false _ _ _ _ Hok Hl) in Hbad. apply Z.leb_gt in Hbad. lia.
  - (* set *)
    destruct list as [lp|], element as [e|]; try discriminate Hnull. subst r. exfalso.
    assert (is_Some (slists h !! lp)) as [l Hl].
    { pose proof E as E'. unfold singly_list_set, get_node_at in E'. first_load E'. eauto. }
    apply singly_list_set_ok in E as (_ & Hf & Hoob & _); [|exact Hok|apply Hc].
    destruct (Hf Hs) as [-> _].
    apply (slist_bad_false _ _ _ _ Hok Hl) in Hbad. apply Z.leb_gt in Hbad.
    pose proof (proj1 Hoob eq_refl). lia.
  - (* reverse *)
    destruct list as [lp|]; [|discriminate Hnull]. subst r.
    apply singly_list_reverse_ok in E as [-> _]; [|exact Hok]. done.
  - (* iter_next *)
    destruct iter as [[l c p]|]; [|discriminate Hnull].
    destruct c as [c|]; [|discriminate Hnull]. destruct r as [[s' it'] o]. cbn in H. subst s'.
    exfalso. unfold singly_list_iter_next in E. cbn [sli_current] in E.
    apply bind_inv in E as (? & ? & _ & E). apply bind_inv in E as (? & ? & _ & E).
    apply ret_inv in E as [E _]. congruence.
  - (* iter_remove *)
    destruct iter as [[l c p]|]; [|discriminate Hnull].
    destruct l as [lp|]; [|discriminate Hnull]. subst r. exfalso.
    cbn in Hnull, Hc. cbn [mbind option_bind sli_list sli_position] in Hbad.
    unfold singly_list_iter_remove in E. cbn [sli_list sli_position] in E.
    rewrite Hnull in E. apply Z.eqb_neq in Hnull.
    rewrite size_t_pred in E by assumption.
    assert (is_Some (slists h !! lp)) as [l Hl].
    { pose proof E as E'. unfold singly_list_remove in E'. first_load E'. eauto. }
    apply singly_list_remove_ok in E as (_ & Hf & Hoob & _);
      [|exact Hok|unfold is_size_t in Hc; lia].
    destruct (Hf Hs) as [-> _].
    apply (slist_bad_false _ _ _ _ Hok Hl) in Hbad. apply Z.ltb_ge in Hbad.
    pose proof (proj1 Hoob eq_refl). lia.
Qed.

(** ** doubly_list.c *)

Lemma doubly_list_elements_length h lp :
  length (doubly_list_elements h lp) = length (doubly_list_nodes h lp).
Proof. unfold doubly_list_elements. by rewrite length_fmap. Qed.

Lemma dlist_len_live h lp l :
  dlists_ok h -> dlists h !! lp = Some l ->
  dlist_len h (Some lp) = Some (dl_size l) /\
  dl_size l = Z.of_nat (length (doubly_list_nodes h lp)) /\
  dl_head l = head (doubly_list_nodes h lp) /\
  dl_tail l = last (doubly_list_nodes h lp).
Proof.
  intros Hok Hl. destruct (dlists_ok_repr h lp Hok) as (l' & Hl' & Hh & Ht & Hsz & _); [eauto|].
  assert (l' = l) by congruence. subst l'. split_and!; [|exact Hsz|exact Hh|exact Ht].
  unfold dlist_len. cbn. rewrite Hl. cbn. by rewrite doubly_list_elements_length, Hsz.
Qed.

Lemma dlist_validation_run fuel c h e :
  dlists_ok h -> dlist_call_ok h c -> dlist_validation h c = Some e ->
  e <> SUCCESS /\ run_dlist_call fuel c h = Ok (Some e) h.
Proof.
  intros Hok Hc H. destruct c; cbn [dlist_validation] in H; try discriminate H;
    apply validate_Some in H as [[Hnull ->]|(Hnull & Hbad & ->)];
    try discriminate Hbad; (split; [discriminate|]).
  all: try (destruct list as [lp|]; try destruct node as [nd|];
            try destruct element as [e|];
            try destruct output as [out|]; try discriminate Hnull; reflexivity).
  all: cbn [run_dlist_call].
  1-6: destruct list as [lp|]; [|discriminate Hnull];
    (destruct (dlists h !! lp) as [l0|] eqn:Hl;
     [|unfold dlist_len in Hbad; cbn in Hbad; rewrite Hl in Hbad; discriminate Hbad]);
    destruct (dlist_len_live h lp l0 Hok Hl) as (Hlen & Hsz & Hh & Ht);
    rewrite Hlen in Hbad; cbn in Hbad; injection Hbad as Hbad.
  - (* pop_front *)
    apply Z.eqb_eq in Hbad. unfold doubly_list_pop_front.
    destruct (doubly_list_nodes h lp); [|cbn in Hsz; lia].
    destruct l0 as [hd tl sz es]. cbn in Hh. subst hd. by run.
  - (* pop_back *)
    apply Z.eqb_eq in Hbad. unfold doubly_list_pop_back.
    destruct (doubly_list_nodes h lp); [|cbn in Hsz; lia].
    destruct l0 as [hd tl sz es]. cbn in Ht. subst tl. by run.
  - (* insert *)
    destruct element as [e|]; [|discriminate Hnull].
    unfold doubly_list_insert. run. by rewrite Hbad.
  - (* remove *)
    unfold doubly_list_remove. run. by rewrite Hbad.
  - (* get *)
    destruct output as [out|]; [|discriminate Hnull].
    unfold doubly_list_get, get_doubly_node_at. run. by rewrite Hbad.
  - (* set *)
    destruct element as [e|]; [|discriminate Hnull].
    unfold doubly_list_set, get_doubly_node_at. run. by rewrite Hbad.
  - (* iter_next *)
    destruct iter as [[l c p]|]; [|reflexivity]. destruct c; [discriminate Hnull|reflexivity].
  - (* iter_prev *)
    destruct iter as [[l c p]|]; [|reflexivity]. destruct c; [discriminate Hnull|reflexivity].
  - (* iter_remove *)
    destruct iter as [[l c p]|]; [|reflexivity].
    destruct l, c; try discriminate Hnull; reflexivity.
Qed.

Lemma dlist_bad_false h lp l (f : Z -> bool) :
  dlists_ok h -> dlists h !! lp = Some l ->
  f <$> dlist_len h (Some lp) <> Some true ->
  f (Z.of_nat (length (doubly_list_nodes h lp))) = false.
Proof.
  intros Hok Hl Hbad. destruct (dlist_len_live h lp l Hok Hl) as (Hlen & Hsz & _).
  rewrite Hlen, Hsz in Hbad. by apply bad_false in Hbad.
Qed.

Lemma doubly_list_get_failure h lp index out s o h1 :
  dlists_ok h -> 0 <= index ->
  doubly_list_get (Some lp) index (Some out) h = Ok (s, o) h1 -> s <> SUCCESS ->
  Z.of_nat (length (doubly_list_nodes h lp)) <= index.
Proof.
  intros Hok Hi E Hs. unfold doubly_list_get in E.
  assert (is_Some (dlists h !! lp)) as Hlive.
  { pose proof E as E'. unfold get_doubly_node_at in E'. first_load E'. eauto. }
  pose proof (dlists_ok_repr h lp Hok Hlive) as Hrepr.
  rewrite (bind_Ok _ _ _ _ _ (get_doubly_node_at_repr h lp _ index Hrepr Hi
                                (dlists_ok_bound h lp Hok))) in E.
  destruct (doubly_list_nodes h lp !! Z.to_nat index) eqn:En.
  - apply bind_inv in E as (? & ? & _ & E). apply bind_inv in E as (? & ? & _ & E).
    apply bind_inv in E as (? & ? & _ & E). apply ret_inv in E as [E _]. congruence.
  - apply lookup_ge_None in En. lia.
Qed.

Lemma dlist_failure_alloc fuel c h s h1 :
  dlists_ok h -> dlist_call_ok h c -> dlist_validation h c = None ->
  run_dlist_call fuel c h = Ok (Some s) h1 -> s <> SUCCESS ->
  s = ERROR_MEMORY_ALLOCATION /\ contents h1 = contents h.
Proof.
  intros Hok Hc Hval H Hs.
  destruct c; cbn [run_dlist_call] in H;
    try (apply bind_inv in H as (r & h0 & E & H)); apply ret_inv in H as [H <-];
    try discriminate H; injection H as H; cbn [dlist_validation] in Hval;
    apply validate_None in Hval as [Hnull Hbad].
  - (* push_front *)
    destruct list as [lp|], element as [e|]; try discriminate Hnull. subst r.
    apply doubly_list_push_front_ok in E as (_ & Hf & _); [|exact Hok]. by apply Hf.
  - (* push_back *)
    destruct list as [lp|], element as [e|]; try discriminate Hnull. subst r.
    apply doubly_list_push_back_ok in E as (_ & Hf & _); [|exact Hok]. by apply Hf.
  - (* pop_front *)
    destruct list as [lp|]; [|discriminate Hnull]. destruct r as [s' o]. cbn in H. subst s'.
    exfalso. assert (is_Some (dlists h !! lp)) as [l Hl].
    { pose proof E as E'. unfold doubly_list_pop_front in E'. first_load E'. eauto. }
    apply doubly_list_pop_front_ok in E as (_ & Hf & _); [|exact Hok].
    destruct (Hf Hs) as (_ & _ & _ & Hn).
    apply (dlist_bad_false _ _ _ _ Hok Hl) in Hbad. by rewrite Hn in Hbad.
  - (* pop_back *)
    destruct list as [lp|]; [|discriminate Hnull]. destruct r as [s' o]. cbn in H. subst s'.
    exfalso. assert (is_Some (dlists h !! lp)) as [l Hl].
    { pose proof E as E'. unfold doubly_list_pop_back in E'. first_load E'. eauto. }
    apply doubly_list_pop_back_ok in E as (_ & Hf & _); [|exact Hok].
    destruct (Hf Hs) as (_ & _ & _ & Hn).
    apply (dlist_bad_false _ _ _ _ Hok Hl) in Hbad. by rewrite Hn in Hbad.
  - (* insert *)
    destruct list as [lp|], element as [e|]; try discriminate Hnull. subst r.
    assert (is_Some (dlists h !! lp)) as [l Hl].
    { pose proof E as E'. unfold doubly_list_insert in E'. first_load E'. eauto. }
    apply doubly_list_insert_ok in E as (_ & Hf & Hoob & _); [|exact Hok|exact Hc].
    destruct (Hf Hs) as [[->| ->] Hcont]; [|by split]. exfalso.
    apply (dlist_bad_false _ _ _ _ Hok Hl) in Hbad. apply Z.ltb_ge in Hbad.
    pose proof (proj1 Hoob eq_refl). lia.
  - (* remove *)
    destruct list as [lp|]; [|discriminate Hnull]. subst r. exfalso.
    assert (is_Some (dlists h !! lp)) as [l Hl].
    { pose proof E as E'. unfold doubly_list_remove in E'. first_load E'. eauto. }
    apply doubly_list_remove_ok in E as (_ & Hf & Hoob & _); [|exact Hok|exact Hc].
    destruct (Hf Hs) as [-> _].
    apply (dlist_bad_false _ _ _ _ Hok Hl) in Hbad. apply Z.leb_gt in Hbad.
    pose proof (proj1 Hoob eq_refl). lia.
  - (* get *)
    destruct list as [lp|], output as [out|]; try discriminate Hnull.
    destruct r as [s' o]. cbn in H. subst s'. exfalso.
    assert (is_Some (dlists h !! lp)) as [l Hl].
    { pose proof E as E'. unfold doubly_list_get, get_doubly_node_at in E'.
      first_load E'. eauto. }
    apply doubly_list_get_failure in E; [|exact Hok|apply Hc|exact Hs].
    apply (dlist_bad_false _ _ _ _ Hok Hl) in Hbad. apply Z.leb_gt in Hbad. lia.
  - (* set *)
    destruct list as [lp|], element as [e|]; try discriminate Hnull. subst r. exfalso.
    assert (is_Some (dlists h !! lp)) as [l Hl].
    { pose proof E as E'. unfold doubly_list_set, get_doubly_node_at in E'.
      first_load E'. eauto. }
    apply doubly_list_set_ok in E as (_ & Hf & Hoob & _); [|exact Hok|apply Hc].
    destruct (Hf Hs) as [-> _].
    apply (dlist_bad_false _ _ _ _ Hok Hl) in Hbad. apply Z.leb_gt in Hbad.
    pose proof (proj1 Hoob eq_refl). lia.
  - (* insert_before *)
    destruct list as [lp|], node as [nd|], element as [e|]; try discriminate Hnull.
    subst r. cbn in Hc. apply list_elem_of_lookup in Hc as [k Hk].
    apply (doubly_list_insert_before_ok _ _ _ k) in E as (_ & Hf & _);
      [|exact Hok|exact Hk].
    by apply Hf.
  - (* insert_after *)
    destruct list as [lp|], node as [nd|], element as [e|]; try discriminate Hnull.
    subst r. cbn in Hc. apply list_elem_of_lookup in Hc as [k Hk].
    apply (doubly_list_insert_after_ok _ _ _ k) in E as (_ & Hf & _);
      [|exact Hok|exact Hk].
    by apply Hf.
  - (* reverse *)
    destruct list as [lp|]; [|discriminate Hnull]. subst r.
    apply doubly_list_reverse_ok in E as [-> _]; [|exact Hok]. done.
  - (* iter_next *)
    destruct iter as [[l c p]|]; [|discriminate Hnull].
    destruct c as [c|]; [|discriminate Hnull]. destruct r as [[s' it'] o]. cbn in H. subst s'.
    exfalso. unfold doubly_list_iter_next in E. cbn [dli_current] in E.
    apply bind_inv in E as (? & ? & _ & E). apply bind_inv in E as (? & ? & _ & E).
    apply ret_inv in E as [E _]. congruence.
  - (* iter_prev *)
    destruct iter as [[l c p]|]; [|discriminate Hnull].
    destruct c as [c|]; [|discriminate Hnull]. destruct r as [[s' it'] o]. cbn in H. subst s'.
    exfalso. unfold doubly_list_iter_prev in E. cbn [dli_current] in E.
    apply bind_inv in E as (? & ? & _ & E). apply bind_inv in E as (? & ? & _ & E).
    apply ret_inv in E as [E _]. congruence.
  - (* iter_remove *)
    destruct r as [s' it']. cbn in H. subst s'. exfalso.
    apply doubly_list_iter_remove_failure in E as (_ & _ & _ & Hwhy); [|exact Hs].
    destruct Hwhy as [->|(it & -> & [Hn|Hn])]; [discriminate Hnull| |];
      cbn in Hnull; rewrite Hn in Hnull; cbn in Hnull;
      [discriminate Hnull | by rewrite orb_true_r in Hnull].
Qed.

(** ** Every container *)

Lemma vectors_ok_contents h h1 : contents h1 = contents h -> vectors_ok h -> vectors_ok h1.
Proof.
  intros E. apply contents_inv in E as (Ev & Eb & _).
  unfold vectors_ok, vec_ok. by rewrite Ev, Eb.
Qed.

Lemma store_ok_contents h h1 : contents h1 = contents h -> store_ok h -> store_ok h1.
Proof.
  intros E [Hv Hl]. split; [by eapply vectors_ok_contents | by eapply lists_ok_contents].
Qed.

Lemma validation_run fuel c h e :
  store_ok h -> call_ok h c -> validation h c = Some e ->
  e <> SUCCESS /\ run_call fuel c h = Ok (Some e) h.
Proof.
  intros (Hv & Hs & Hd) Hc H. destruct c as [c|[c|c]]; cbn in *.
  - by apply vector_validation_run.
  - by apply slist_validation_run.
  - by apply dlist_validation_run.
Qed.

Lemma failure_alloc fuel c h s h1 :
  store_ok h -> call_ok h c -> validation h c = None ->
  run_call fuel c h = Ok (Some s) h1 -> s <> SUCCESS ->
  s = ERROR_MEMORY_ALLOCATION /\ contents h1 = contents h.
Proof.
  intros (Hv & Hs & Hd) Hc Hval H Hne. destruct c as [c|[c|c]]; cbn in *.
  - by eapply vector_failure_alloc.
  - by eapply slist_failure_alloc.
  - by eapply dlist_failure_alloc.
Qed.

(** A call that fails leaves every container as it was.  In a
    well-formed store, for every call of a function of vector.h,
    singly_list.h or doubly_list.h that returns a status: when the
    arguments do not pass the validation (a null argument, taking from an
    empty container, an index out of bounds) the call returns the error
    code for that, in the very store it was called in; and whenever the
    call returns a status other than [SUCCESS], the contents of the store
    are those before the call, the store is still well formed, and the
    status is either the error of the failed validation or, the
    validation passed, [ERROR_MEMORY_ALLOCATION].  In particular after a
    failed [vector_reserve] the vector has its old buffer and capacity. *)
Theorem failed_call_changes_nothing fuel c h :
  store_ok h -> call_ok h c ->
  (forall e, validation h c = Some e ->
     e <> SUCCESS /\ run_call fuel c h = Ok (Some e) h) /\
  (forall s h1, run_call fuel c h = Ok (Some s) h1 -> s <> SUCCESS ->
     contents h1 = contents h /\ store_ok h1 /\
     (validation h c = Some s \/
      validation h c = None /\ s = ERROR_MEMORY_ALLOCATION)) /\
  (forall v n vec s h1,
     c = OnVector (VReserve (Some v) n) -> vectors h !! v = Some vec ->
     run_call fuel c h = Ok (Some s) h1 -> s <> SUCCESS ->
     vectors h1 !! v = Some vec /\ buffers h1 = buffers h).
Proof.
  intros Hok Hc.
  assert (forall s h1, run_call fuel c h = Ok (Some s) h1 -> s <> SUCCESS ->
            contents h1 = contents h /\
            (validation h c = Some s \/
             validation h c = None /\ s = ERROR_MEMORY_ALLOCATION)) as Hfail.
  { intros s h1 H Hs. destruct (validation h c) as [e|] eqn:Hval.
    - destruct (validation_run fuel c h e Hok Hc Hval) as [_ E].
      rewrite E in H. injection H as <- <-. split; [reflexivity | by left].
    - destruct (failure_alloc fuel c h s h1 Hok Hc Hval H Hs) as [-> Hcont].
      split; [exact Hcont | by right]. }
  split_and!.
  - intros e Hval. by apply validation_run.
  - intros s h1 H Hs. destruct (Hfail s h1 H Hs) as [Hcont Hwhy].
    split_and!; [exact Hcont | by eapply store_ok_contents | exact Hwhy].
  - intros v n vec s h1 -> Hv H Hs. destruct (Hfail s h1 H Hs) as [Hcont _].
    apply contents_inv in Hcont as (Ev & Eb & _). by rewrite Ev, Eb.
Qed.

Lemma demo_lists_store_ok al : store_ok (set_allocator al demo_lists_heap).
Proof.
  split.
  - intros v [vec Hv]. cbn in Hv. by apply lookup_empty_Some in Hv.
  - by apply (lists_ok_contents demo_lists_heap), demo_lists_ok.
Qed.

Lemma failed_call_changes_nothing_witness :
  (validation (set_allocator [] demo_lists_heap)
     (OnList (OnDoubly (DPopFront (Some 600) None))) = Some ERROR_EMPTY_CONTAINER /\
   run_call 0 (OnList (OnDoubly (DPopFront (Some 600) None)))
     (set_allocator [] demo_lists_heap)
   = Ok (Some ERROR_EMPTY_CONTAINER) (set_allocator [] demo_lists_heap)) /\
  (exists h1,
     run_call 0 (OnList (OnSingly (SPushBack (Some 400) (Some (elem4 Byte.x09)))))
       (set_allocator [] demo_lists_heap)
     = Ok (Some ERROR_MEMORY_ALLOCATION) h1 /\
     contents h1 = contents demo_lists_heap).
Proof.
  split.
  - destruct (failed_call_changes_nothing 0 (OnList (OnDoubly (DPopFront (Some 600) None)))
                (set_allocator [] demo_lists_heap) (demo_lists_store_ok []) I)
      as (Hval & _).
    split; [vm_compute; reflexivity|]. apply Hval. vm_compute. reflexivity.
  - destruct (run_call 0 (OnList (OnSingly (SPushBack (Some 400) (Some (elem4 Byte.x09)))))
                (set_allocator [] demo_lists_heap)) as [r h1| |] eqn:E;
      try (vm_compute in E; discriminate E).
    assert (r = Some ERROR_MEMORY_ALLOCATION) as -> by (vm_compute in E; congruence).
    destruct (failed_call_changes_nothing 0
                (OnList (OnSingly (SPushBack (Some 400) (Some (elem4 Byte.x09)))))
                (set_allocator [] demo_lists_heap) (demo_lists_store_ok []) I)
      as (_ & Hfail & _).
    destruct (Hfail _ _ E ltac:(discriminate)) as (Hcont & _).
    exists h1. split; [reflexivity | exact Hcont].
Defined.

(* ===================================================================== *)
(** * vector.c : copy *)
(* ===================================================================== *)

(** With room for one more element [vector_push_back] does not fail. *)
Lemma vector_push_back_room h v vec e s h1 :
  vectors h !! v = Some vec -> v_size vec < v_capacity vec ->
  vector_push_back (Some v) (Some e) h = Ok s h1 -> s = SUCCESS.
Proof.
  intros Hv Hroom H. unfold vector_push_back in H.
  apply bind_inv in H as (s0 & h0 & Hg & H).
  apply (vector_check_grow_inv _ _ _ _ _ Hv) in Hg as [(_ & -> & ->)|[? _]]; [|lia].
  change (negb (is_success SUCCESS)) with false in H. cbv iota in H.
  apply bind_inv in H as (? & ? & _ & H). apply bind_inv in H as (? & ? & _ & H).
  apply bind_inv in H as (? & ? & _ & H). by apply ret_inv in H as [<- _].
Qed.

Lemma vector_elements_slices h v vec q b :
  vectors h !! v = Some vec -> v_data vec = Some q -> buffers h !! q = Some b ->
  vector_elements h v
  = slices (Z.to_nat (v_element_size vec)) (Z.to_nat (v_size vec)) b.
Proof. intros Hv Hq Hb. unfold vector_elements. by rewrite Hv, Hq, Hb. Qed.

Lemma vector_copy_loop_ok n i s d h0 h vec q cap r h1 :
  vectors h0 !! s = Some vec -> vec_ok h0 s ->
  vectors h0 !! d = None -> buffers h0 !! q = None ->
  Z.of_nat n + i = v_size vec -> 0 <= i ->
  v_size vec <= cap -> cap <= SIZE_MAX ->
  vectors h = <[d := mk_vector (Some q) i cap (v_element_size vec)]> (vectors h0) ->
  (exists b, buffers h = <[q := b]> (buffers h0)) ->
  lists_same h0 h -> vec_ok h d ->
  vector_elements h d = take (Z.to_nat i) (vector_elements h0 s) ->
  vector_copy_loop n i s d h = Ok r h1 ->
  r = Some d /\
  vectors h1
  = <[d := mk_vector (Some q) (v_size vec) cap (v_element_size vec)]> (vectors h0) /\
  (exists b1, buffers h1 = <[q := b1]> (buffers h0)) /\
  lists_same h0 h1 /\ vec_ok h1 d /\
  vector_elements h1 d = vector_elements h0 s /\
  run_vector_calls (copy_pushes d (vector_buffer h0 s) (v_element_size vec) i n) h
  = Ok tt h1.
Proof.
  intros Hs Hoks Hd Hq.
  pose proof Hoks as (vec' & Hs' & Hes & Hsz & Hcap & Hdata).
  assert (vec' = vec) by congruence. subst vec'. clear Hs'.
  assert (s <> d) as Hsd by congruence.
  revert i h. induction n as [|n IH];
    intros i h Hn Hi Hle Hmax Hvs [b Hbs] Hlists Hokd Hel H; cbn in H.
  - apply ret_inv in H as [<- <-]. assert (i = v_size vec) as -> by lia.
    split_and!; eauto.
    rewrite Hel. apply take_ge.
    pose proof (vector_elements_length h0 s Hoks vec Hs). lia.
  - apply bind_inv in H as (vec' & h' & E & H). apply load_inv in E as [E ->].
    cbn in E. rewrite Hvs, lookup_insert_ne in E by congruence.
    assert (vec' = vec) by congruence. subst vec'. clear E.
    apply bind_inv in H as (el & h' & E & H).
    destruct (v_data vec) as [qs|] eqn:Hqs; [|discriminate E].
    destruct Hdata as (bs & Hbsrc & Hlen & Hlmax).
    assert (qs <> q) as Hqq by congruence.
    assert (to_size_t (i * v_element_size vec) = i * v_element_size vec) as Hoff
      by (apply to_size_t_small; nia).
    rewrite Hoff in E.
    apply bytes_at_inv in E as (bs' & Hbs' & Hofflen & -> & ->).
    rewrite Hbs, lookup_insert_ne in Hbs' by congruence.
    assert (bs' = bs) by congruence. subst bs'. clear Hbs'.
    apply bind_inv in H as (res & h2 & Hp & H).
    assert (vectors h !! d = Some (mk_vector (Some q) i cap (v_element_size vec))) as Hvd
      by (rewrite Hvs; apply lookup_insert_eq).
    assert (res = SUCCESS) as ->.
    { eapply vector_push_back_room; [exact Hvd | cbn; lia | exact Hp]. }
    pose proof Hp as Hp'.
    apply (vector_push_back_ok _ _ _ _ _ Hvd Hokd) in Hp'
      as (Hokd2 & (vec1 & Hv1 & Hsz1 & Hes1 & _ & Hcap1 & _) & Hel2 & _ & _
          & Esl & Esn & Edl & Edn & Hshape).
    cbn in Hsz1, Hes1, Hcap1, Hel2, Hshape.
    destruct (Hshape ltac:(lia)) as (q' & b1 & vec1' & Hq' & Hq1 & Hvs2 & Hbs2 & _).
    injection Hq' as <-.
    assert (vec1' = vec1) by (rewrite Hvs2, lookup_insert_eq in Hv1; congruence).
    subst vec1'.
    assert (vec1 = mk_vector (Some q) (i + 1) cap (v_element_size vec)) as ->.
    { destruct vec1 as [d1 s1 c1 e1]. cbn in *. f_equal; try assumption. apply Hcap1. lia. }
    change (negb (is_success SUCCESS)) with false in H. cbv iota in H.
    assert (to_size_t (i + 1) = i + 1) as Hi1 by (apply to_size_t_small; lia).
    rewrite Hi1 in H.
    apply IH in H as (Hr & Hvf & Hbf & Hlf & Hokf & Helf & Hrun).
    + split_and!; try assumption.
      cbn [copy_pushes run_vector_calls run_vector_call].
      unfold vector_buffer in Hrun |- *. rewrite Hs, Hqs, Hbsrc in Hrun |- *.
      change (default [] (Some bs)) with bs in Hrun |- *.
      rewrite Hoff, Hi1.
      by rewrite bind_assoc, (bind_Ok _ _ _ _ _ Hp), bind_ret_l.
    + lia.
    + lia.
    + lia.
    + lia.
    + by rewrite Hvs2, Hvs, insert_insert_eq.
    + exists b1. by rewrite Hbs2, Hbs, insert_insert_eq.
    + destruct Hlists as (? & ? & ? & ?). repeat split; congruence.
    + exact Hokd2.
    + rewrite Hel2, Hel.
      rewrite (vector_elements_slices h0 s vec qs bs Hs Hqs Hbsrc).
      replace (Z.to_nat (i + 1)) with (S (Z.to_nat i)) by lia.
      erewrite take_S_r; [reflexivity|].
      rewrite slices_lookup by lia. do 3 f_equal. nia.
Qed.

(** [vector_copy] of a well-formed vector. *)
Lemma vector_copy_ok h s vec r h1 :
  vectors h !! s = Some vec -> vec_ok h s ->
  vector_copy (Some s) h = Ok r h1 ->
  match r with
  | Some d =>
      let cap := if v_capacity vec =? 0 then VECTOR_INITIAL_CAPACITY
                 else v_capacity vec in
      vectors h !! d = None /\
      exists q,
        buffers h !! q = None /\
        vectors h1
        = <[d := mk_vector (Some q) (v_size vec) cap (v_element_size vec)]> (vectors h) /\
        (exists b1, buffers h1 = <[q := b1]> (buffers h)) /\
        lists_same h h1 /\ vec_ok h1 d /\
        vector_elements h1 d = vector_elements h s /\
        exists h0,
          vector_create_with_capacity (v_element_size vec) (v_capacity vec) h
          = Ok (Some d) h0 /\
          run_vector_calls
            (copy_pushes d (vector_buffer h s) (v_element_size vec) 0
               (Z.to_nat (v_size vec))) h0
          = Ok tt h1
  | None => contents h1 = contents h
  end.
Proof.
  intros Hs Hoks H. unfold vector_copy in H.
  pose proof Hoks as (vec' & Hs' & Hes & Hsz & Hcap & Hdata).
  assert (vec' = vec) by congruence. subst vec'. clear Hs'.
  apply bind_inv in H as (vec' & h' & E & H). apply load_inv in E as [E ->].
  cbn in E. assert (vec' = vec) by congruence. subst vec'. clear E.
  apply bind_inv in H as (dest & h0 & Hc & H).
  pose proof Hc as Hc'. apply vector_create_with_capacity_inv in Hc'.
  destruct dest as [d|]; [|by apply ret_inv in H as [<- <-]].
  cbv zeta in Hc'. destruct Hc' as (_ & Hsz0 & Hud & q & junk & al & Huq & Hqd & ->).
  apply in_use_false in Hud as (Hvd & _). apply in_use_false in Huq as (_ & Hbq & _).
  set (cap := if v_capacity vec =? 0 then VECTOR_INITIAL_CAPACITY else v_capacity vec) in *.
  assert (v_size vec <= cap /\ cap <= SIZE_MAX) as [Hle Hmax].
  { subst cap. unfold VECTOR_INITIAL_CAPACITY, SIZE_MAX, SIZE_BITS in *.
    destruct (Z.eqb_spec (v_capacity vec) 0); lia. }
  eapply (vector_copy_loop_ok _ 0 s d h _ vec q cap) in H;
    [ | exact Hs | exact Hoks | exact Hvd | exact Hbq | lia | lia | exact Hle | exact Hmax
      | reflexivity | eexists; reflexivity | by repeat split | | ].
  - destruct H as (-> & Hvf & Hbf & Hlf & Hokf & Helf & Hrun).
    split; [exact Hvd|]. exists q. split_and!; try assumption. eauto.
  - eexists. split; [cbn; apply lookup_insert_eq|]. cbn.
    split_and!; try lia.
    eexists. split; [apply lookup_insert_eq|].
    rewrite length_resize. pose proof (to_size_t_range (v_element_size vec * cap)). lia.
  - rewrite (vector_elements_slices _ d (mk_vector (Some q) 0 cap (v_element_size vec)) q
               (resize (Z.to_nat (to_size_t (v_element_size vec * cap))) Byte.x00 junk));
      [reflexivity | cbn; apply lookup_insert_eq | reflexivity | cbn; apply lookup_insert_eq].
Qed.

(* ===================================================================== *)
(** * vector.c : what a call leaves of the vectors it is not given *)
(* ===================================================================== *)

Lemma kept_refl h s : owns_buffer h s -> kept h h s.
Proof. intros Ho. by split_and!. Qed.

Lemma kept_trans h h0 h1 s : kept h h0 s -> kept h0 h1 s -> kept h h1 s.
Proof.
  intros (Ho0 & Hv0 & Hb0) (Ho1 & Hv1 & Hb1). split_and!; [exact Ho1 | congruence |].
  intros vec q Hv Hq. rewrite <- (Hb0 vec q Hv Hq). apply (Hb1 vec q); [congruence | exact Hq].
Qed.

Lemma kept_elements h h1 s : kept h h1 s -> vector_elements h1 s = vector_elements h s.
Proof.
  intros (_ & Hv & Hb). unfold vector_elements. rewrite Hv.
  destruct (vectors h !! s) as [vec|] eqn:Es; [|reflexivity].
  destruct (v_data vec) as [q|] eqn:Eq; [|reflexivity]. by rewrite (Hb vec q).
Qed.

Lemma kept_contents h h1 s : contents h1 = contents h -> owns_buffer h s -> kept h h1 s.
Proof.
  intros E Ho. apply contents_inv in E as (Ev & Eb & _).
  unfold kept, owns_buffer. rewrite Ev, Eb. by split_and!.
Qed.

(** An operation on another vector. *)
Lemma kept_touches h h1 w s :
  touches_only h h1 w -> w <> s -> owns_buffer h s -> kept h h1 s.
Proof.
  intros (T1 & T2 & T3) Hws Ho.
  assert (vectors h1 !! s = vectors h !! s) as Hvs by (apply T1; congruence).
  assert (forall vec q, vectors h !! s = Some vec -> v_data vec = Some q ->
                        buffers h1 !! q = buffers h !! q) as Hbs.
  { intros vec q Hv Hq. destruct (Ho vec q Hv Hq) as [Hlive Hother].
    apply T2; [exact Hlive|]. intros vecw Hw. by apply (Hother w). }
  split_and!; [|exact Hvs|exact Hbs].
  intros vec q Hv Hq. rewrite Hvs in Hv. destruct (Ho vec q Hv Hq) as [Hlive Hother].
  split; [by rewrite (Hbs vec q)|].
  intros u vecu Hus Hu Hdu. destruct (decide (u = w)) as [->|Huw].
  - destruct (T3 vecu q Hu Hdu) as [(vecw & Hw & Hdw)|Hnone].
    + by apply (Hother w vecw).
    + rewrite Hnone in Hlive. by destruct Hlive.
  - rewrite T1 in Hu by exact Huw. by apply (Hother u vecu).
Qed.

Lemma extends_refl h : extends h h.
Proof. split_and!; try done. intros u vecu a Hn Hu. congruence. Qed.

Lemma extends_touches h h0 h1 d :
  extends h h0 -> vectors h !! d = None -> touches_only h0 h1 d -> extends h h1.
Proof.
  intros (E1 & E2 & E3) Hd (T1 & T2 & T3). split_and!.
  - intros u Hu. rewrite <- (E1 u Hu). apply T1. intros ->. rewrite Hd in Hu. by destruct Hu.
  - intros a Ha. rewrite <- (E2 a Ha). apply T2; [by rewrite (E2 a Ha)|].
    intros vecd Hvd Hda. rewrite (E3 d vecd a Hd Hvd Hda) in Ha. by destruct Ha.
  - intros u vecu a Hn Hu Hda. destruct (decide (u = d)) as [->|Hud].
    + destruct (T3 vecu a Hu Hda) as [(vecd & Hvd & Hdd)|Hnone].
      * by apply (E3 d vecd a).
      * destruct (buffers h !! a) eqn:Ea; [|reflexivity].
        rewrite (E2 a) in Hnone by eauto. congruence.
    + rewrite T1 in Hu by exact Hud. by apply (E3 u vecu a).
Qed.

Lemma extends_kept h h1 s :
  extends h h1 -> is_Some (vectors h !! s) -> owns_buffer h s -> kept h h1 s.
Proof.
  intros (E1 & E2 & E3) Hs Ho.
  assert (forall vec q, vectors h !! s = Some vec -> v_data vec = Some q ->
                        buffers h1 !! q = buffers h !! q) as Hbs.
  { intros vec q Hv Hq. apply E2. by destruct (Ho vec q Hv Hq). }
  split_and!; [|by apply E1|exact Hbs].
  intros vec q Hv Hq. rewrite (E1 s Hs) in Hv. destruct (Ho vec q Hv Hq) as [Hlive Hother].
  split; [by rewrite (Hbs vec q)|].
  intros u vecu Hus Hu Hdu. destruct (vectors h !! u) as [vecu'|] eqn:Eu.
  - rewrite (E1 u) in Hu by eauto. by apply (Hother u vecu).
  - rewrite (E3 u vecu q Eu Hu Hdu) in Hlive. by destruct Hlive.
Qed.

Lemma vector_create_with_capacity_extends es cap h r h1 :
  vector_create_with_capacity es cap h = Ok r h1 ->
  extends h h1 /\ forall d, r = Some d -> vectors h !! d = None.
Proof.
  intros H. apply vector_create_with_capacity_inv in H. destruct r as [d|].
  - cbv zeta in H. destruct H as (_ & _ & Hud & q & junk & al & Huq & Hqd & ->).
    apply in_use_false in Hud as (Hvd & _). apply in_use_false in Huq as (_ & Hbq & _).
    split; [|by intros ? [= <-]]. split_and!; cbn.
    + intros u Hu. rewrite lookup_insert_ne; [reflexivity|]. intros ->.
      rewrite Hvd in Hu. by destruct Hu.
    + intros a Ha. rewrite lookup_insert_ne; [reflexivity|]. intros ->.
      rewrite Hbq in Ha. by destruct Ha.
    + intros u vecu a Hn Hu Hda. destruct (decide (u = d)) as [->|Hud].
      * rewrite lookup_insert_eq in Hu. injection Hu as <-. cbn in Hda. congruence.
      * rewrite lookup_insert_ne in Hu by congruence. congruence.
  - apply contents_inv in H as (Ev & Eb & _). split; [|discriminate].
    unfold extends. rewrite Ev, Eb. apply extends_refl.
Qed.

Lemma vector_copy_loop_extends n i src d h0 h r h1 :
  extends h0 h -> vectors h0 !! d = None ->
  vector_copy_loop n i src d h = Ok r h1 -> extends h0 h1.
Proof.
  revert i h. induction n as [|n IH]; intros i h Hext Hd H; cbn in H.
  - by apply ret_inv in H as [_ <-].
  - apply bind_inv in H as (s & h' & E & H). apply load_inv in E as [_ ->].
    apply bind_inv in H as (el & h' & E' & H). apply bytes_at_pure in E' as ->.
    apply bind_inv in H as (res & h2 & Hp & H).
    apply vector_push_back_effect in Hp as [_ (Ht & _)].
    pose proof (extends_touches _ _ _ _ Hext Hd Ht) as Hext2.
    destruct (negb (is_success res)).
    + apply bind_inv in H as (u0 & h3 & Hdes & H). apply ret_inv in H as [_ <-].
      apply vector_destroy_effect in Hdes as (Ht' & _).
      by eapply extends_touches.
    + by eapply IH.
Qed.

Lemma vector_copy_extends src h r h1 : vector_copy src h = Ok r h1 -> extends h h1.
Proof.
  unfold vector_copy. intros H. destruct src as [s|].
  2:{ apply ret_inv in H as [_ <-]. apply extends_refl. }
  apply bind_inv in H as (vec & h' & E & H). apply load_inv in E as [_ ->].
  apply bind_inv in H as (dest & h0 & Hc & H).
  apply vector_create_with_capacity_extends in Hc as [Hext Hd]. destruct dest as [d|].
  - eapply vector_copy_loop_extends; [exact Hext | by apply Hd | exact H].
  - by apply ret_inv in H as [_ <-].
Qed.

Lemma vector_swap_inv a b h u h1 :
  vector_swap (Some a) (Some b) h = Ok u h1 ->
  exists va vb,
    vectors h !! a = Some va /\ vectors h !! b = Some vb /\
    buffers h1 = buffers h /\
    forall w, vectors h1 !! w
              = if decide (w = b) then Some va
                else if decide (w = a) then Some vb else vectors h !! w.
Proof.
  intros H. unfold vector_swap in H.
  destruct (vectors h !! a) as [[da sa ca ea]|] eqn:Ha.
  2:{ unfold bind, field, bind, load in H. cbn in H. rewrite Ha in H. discriminate H. }
  destruct (vectors h !! b) as [[db sb cb eb]|] eqn:Hb.
  2:{ run_in H. unfold bind, field, bind, load in H. cbn in H. rewrite Hb in H.
      discriminate H. }
  eexists _, _. split; [reflexivity|]. split; [reflexivity|].
  destruct (decide (a = b)) as [->|Hne].
  - assert (da = db /\ sa = sb /\ ca = cb /\ ea = eb) as (-> & -> & -> & ->)
      by (split_and!; congruence).
    run_in H. injection H as <- <-. split; [reflexivity|]. intros w. cbn.
    destruct (decide (w = b)) as [->|Hw]; [by rewrite lookup_insert_eq|].
    by rewrite !lookup_insert_ne by congruence.
  - run_in H. injection H as <- <-. split; [reflexivity|]. intros w. cbn.
    destruct (decide (w = b)) as [->|Hw]; [|destruct (decide (w = a)) as [->|Hw']].
    + by rewrite lookup_insert_eq.
    + rewrite lookup_insert_ne by congruence. by rewrite lookup_insert_eq.
    + by rewrite !lookup_insert_ne by congruence.
Qed.

Lemma vector_swap_kept a b s h u h1 :
  vector_swap (Some a) (Some b) h = Ok u h1 -> a <> s -> b <> s ->
  owns_buffer h s -> kept h h1 s.
Proof.
  intros H Ha Hb Ho. apply vector_swap_inv in H as (va & vb & Hva & Hvb & Eb & Hw).
  assert (vectors h1 !! s = vectors h !! s) as Hvs.
  { rewrite Hw. by rewrite !decide_False by congruence. }
  split_and!; [|exact Hvs|intros; by rewrite Eb].
  intros vec q Hv Hq. rewrite Hvs in Hv. destruct (Ho vec q Hv Hq) as [Hlive Hother].
  split; [by rewrite Eb|]. intros w vecw Hws Hvw. rewrite Hw in Hvw.
  destruct (decide (w = b)); [injection Hvw as <-; by apply (Hother a)|].
  destruct (decide (w = a)); [injection Hvw as <-; by apply (Hother b)|].
  by apply (Hother w).
Qed.

Lemma run_vector_call_kept c s h r h1 :
  owns_buffer h s -> is_Some (vectors h !! s) -> leaves s c ->
  run_vector_call c h = Ok r h1 -> kept h h1 s.
Proof.
  intros Ho Hs Hl H. unfold leaves in Hl.
  destruct c; cbn [call_vectors] in Hl; cbn [run_vector_call] in H;
    apply bind_inv in H as (x & h0 & H & Hr); apply ret_inv in Hr as [_ <-].
  all: try (assert (vector <> Some s) as Hv by (intros ->; apply Hl, list_elem_of_here)).
  - (* create *)
    unfold vector_create in H.
    destruct (element_size =? 0); [apply ret_inv in H as [_ <-]; by apply kept_refl|].
    apply vector_create_with_capacity_extends in H as [H _]. by apply extends_kept.
  - apply vector_create_with_capacity_extends in H as [H _]. by apply extends_kept.
  - (* destroy *)
    destruct vector as [w|]; [|apply ret_inv in H as [_ <-]; by apply kept_refl].
    apply vector_destroy_effect in H as (Ht & _).
    eapply kept_touches; [exact Ht | congruence | exact Ho].
  - (* copy *)
    apply vector_copy_extends in H. by apply extends_kept.
  - (* push_back *)
    destruct vector as [w|], element as [e|];
      try (apply ret_inv in H as [_ <-]; by apply kept_refl).
    apply vector_push_back_effect in H as [_ (Ht & _)].
    eapply kept_touches; [exact Ht | congruence | exact Ho].
  - (* pop_back *)
    destruct vector as [w|]; [|apply ret_inv in H as [_ <-]; by apply kept_refl].
    destruct x as [st o]. apply vector_pop_back_effect in H as [_ (Ht & _)].
    eapply kept_touches; [exact Ht | congruence | exact Ho].
  - (* insert *)
    destruct vector as [w|], element as [e|];
      try (apply ret_inv in H as [_ <-]; by apply kept_refl).
    apply vector_insert_effect in H as (Ht & _).
    eapply kept_touches; [exact Ht | congruence | exact Ho].
  - (* remove *)
    destruct vector as [w|]; [|apply ret_inv in H as [_ <-]; by apply kept_refl].
    apply vector_remove_effect in H as [_ (Ht & _)].
    eapply kept_touches; [exact Ht | congruence | exact Ho].
  - (* clear *)
    destruct vector as [w|]; [|apply ret_inv in H as [_ <-]; by apply kept_refl].
    apply vector_clear_effect in H as (Ht & _).
    eapply kept_touches; [exact Ht | congruence | exact Ho].
  - apply vector_get_pure in H as ->. by apply kept_refl.
  - (* set *)
    destruct vector as [w|], element as [e|];
      try (apply ret_inv in H as [_ <-]; by apply kept_refl).
    apply vector_set_effect in H as [_ (Ht & _)].
    eapply kept_touches; [exact Ht | congruence | exact Ho].
  - apply vector_at_const_pure in H as ->. by apply kept_refl.
  - apply vector_at_mutable_pure in H as ->. by apply kept_refl.
  - apply vector_front_pure in H as ->. by apply kept_refl.
  - apply vector_back_pure in H as ->. by apply kept_refl.
  - apply vector_size_pure in H as ->. by apply kept_refl.
  - apply vector_capacity_pure in H as ->. by apply kept_refl.
  - apply vector_empty_pure in H as ->. by apply kept_refl.
  - (* reserve *)
    destruct vector as [w|]; [|apply ret_inv in H as [_ <-]; by apply kept_refl].
    apply vector_reserve_effect in H as [_ (Ht & _)].
    eapply kept_touches; [exact Ht | congruence | exact Ho].
  - (* shrink_to_fit *)
    destruct vector as [w|]; [|apply ret_inv in H as [_ <-]; by apply kept_refl].
    apply vector_shrink_to_fit_effect in H as (_ & Ht & _).
    eapply kept_touches; [exact Ht | congruence | exact Ho].
  - apply vector_find_pure in H as ->. by apply kept_refl.
  - apply vector_contains_pure in H as ->. by apply kept_refl.
  - (* swap *)
    destruct a as [a|], b as [b|]; try (apply ret_inv in H as [_ <-]; by apply kept_refl).
    eapply vector_swap_kept; [exact H | | | exact Ho].
    + intros ->. apply Hl, list_elem_of_here.
    + intros ->. apply Hl, list_elem_of_further, list_elem_of_here.
  - (* for_each *)
    destruct vector as [w|], func as [f|];
      try (apply ret_inv in H as [_ <-]; by apply kept_refl).
    apply vector_for_each_effect in H as (Ht & _).
    eapply kept_touches; [exact Ht | congruence | exact Ho].
Qed.

Lemma run_vector_calls_kept cs s h u h1 :
  owns_buffer h s -> is_Some (vectors h !! s) -> Forall (leaves s) cs ->
  run_vector_calls cs h = Ok u h1 -> kept h h1 s.
Proof.
  intros Ho Hs Hl. revert h Ho Hs. induction Hl as [|c cs Hc _ IH]; intros h Ho Hs H;
    cbn in H.
  - apply ret_inv in H as [_ <-]. by apply kept_refl.
  - apply bind_inv in H as (r & h0 & E & H).
    pose proof (run_vector_call_kept c s h r h0 Ho Hs Hc E) as Hk.
    eapply kept_trans; [exact Hk|]. destruct Hk as (Ho0 & Hv0 & _).
    apply IH; [exact Ho0 | by rewrite Hv0 | exact H].
Qed.



(** [vector_copy] of a well-formed vector that owns its buffer.  When it
    returns a vector, that vector is a new one, with a buffer of its own;
    its capacity is that of the source, or the initial capacity 16 when
    the source has capacity 0; its size, element size and element
    sequence are those of the source; it is well formed; it was filled by
    one [vector_push_back] per element on the vector that
    [vector_create_with_capacity] returned; the source, its buffer and
    all lists are as they were; and whatever calls follow that are not
    given the source, the copy's mutations among them, the source keeps
    its fields and its elements.  When it returns null the contents of
    the store are those before the call. *)
Theorem vector_copy_spec h s vec r h1 :
  vectors h !! s = Some vec -> vec_ok h s -> owns_buffer h s ->
  vector_copy (Some s) h = Ok r h1 ->
  match r with
  | Some d =>
      vectors h !! d = None /\
      (exists vec_d,
         vectors h1 !! d = Some vec_d /\
         v_capacity vec_d = (if v_capacity vec =? 0 then VECTOR_INITIAL_CAPACITY
                             else v_capacity vec) /\
         v_size vec_d = v_size vec /\
         v_element_size vec_d = v_element_size vec /\
         v_data vec_d <> v_data vec) /\
      vec_ok h1 d /\
      vector_elements h1 d = vector_elements h s /\
      (exists h0,
         vector_create_with_capacity (v_element_size vec) (v_capacity vec) h
         = Ok (Some d) h0 /\
         run_vector_calls
           (copy_pushes d (vector_buffer h s) (v_element_size vec) 0
              (Z.to_nat (v_size vec))) h0
         = Ok tt h1) /\
      kept h h1 s /\ lists_same h h1 /\
      (forall cs u h2,
         Forall (leaves s) cs -> run_vector_calls cs h1 = Ok u h2 ->
         vectors h2 !! s = Some vec /\ vector_elements h2 s = vector_elements h s)
  | None => contents h1 = contents h
  end.
Proof.
  intros Hs Hok Ho H.
  pose proof (vector_copy_extends _ _ _ _ H) as Hext.
  pose proof (extends_kept _ _ _ Hext ltac:(eauto) Ho) as Hk.
  apply (vector_copy_ok _ _ _ _ _ Hs Hok) in H. destruct r as [d|]; [|exact H].
  cbv zeta in H. destruct H as (Hd & q & Hq & Hv1 & Hb1 & Hl & Hokd & Hel & Hbuild).
  split_and!; try assumption.
  - eexists. split; [rewrite Hv1; apply lookup_insert_eq|]. cbn. split_and!; try reflexivity.
    intros E. destruct (Ho vec q Hs (eq_sym E)) as [[b Hb] _]. congruence.
  - intros cs u h2 Hcs Hrun. destruct Hk as (Ho1 & Hv1s & _).
    pose proof (run_vector_calls_kept cs s h1 u h2 Ho1 ltac:(rewrite Hv1s; eauto) Hcs Hrun)
      as Hk2.
    split; [destruct Hk2 as (_ & -> & _); congruence|].
    rewrite (kept_elements _ _ _ Hk2). apply kept_elements.
    by apply extends_kept; eauto.
Qed.


Lemma demo_owns_buffer al : owns_buffer (set_allocator al demo_vec_heap) 100.
Proof.
  intros vec q Hv Hq. cbn in Hv. rewrite lookup_singleton_eq in Hv. injection Hv as <-.
  cbn in Hq. injection Hq as <-. split; [cbn; rewrite lookup_singleton_eq; eauto|].
  intros u vecu Hne Hu. cbn in Hu. rewrite lookup_singleton_ne in Hu by congruence.
  discriminate Hu.
Qed.

Lemma demo_vec_ok_allocator al : vec_ok (set_allocator al demo_vec_heap) 100.
Proof.
  exists demo_vec. split; [reflexivity|]. cbn.
  split_and!; try (unfold SIZE_MAX, SIZE_BITS; lia).
  eexists. split; [reflexivity|]. cbn. unfold SIZE_MAX, SIZE_BITS. lia.
Qed.

Lemma demo_shrunk_ok : vec_ok demo_shrunk_heap 100 /\ owns_buffer demo_shrunk_heap 100.
Proof.
  split.
  - exists demo_shrunk_vec. split; [reflexivity|]. cbn.
    split_and!; try (unfold SIZE_MAX, SIZE_BITS; lia).
  - intros vec q Hv Hq. cbn in Hv. rewrite lookup_singleton_eq in Hv. injection Hv as <-.
    discriminate Hq.
Qed.

Lemma vector_copy_spec_witness :
  (exists d h1 vec_d,
     vector_copy (Some 100) (set_allocator [Some (300, []); Some (310, [])] demo_vec_heap)
     = Ok (Some d) h1 /\
     vectors h1 !! d = Some vec_d /\ v_capacity vec_d = 4 /\ v_size vec_d = 3 /\
     vector_elements h1 d = [elem4 Byte.x01; elem4 Byte.x02; elem4 Byte.x03]) /\
  (exists d h1 vec_d,
     vector_copy (Some 100) demo_shrunk_heap = Ok (Some d) h1 /\
     vectors h1 !! d = Some vec_d /\ v_capacity vec_d = 16 /\
     vector_elements h1 d = []).
Proof.
  split.
  - destruct (vector_copy (Some 100)
                (set_allocator [Some (300, []); Some (310, [])] demo_vec_heap))
      as [[d|] h1| |] eqn:E; try (vm_compute in E; discriminate E).
    pose proof (vector_copy_spec
                  (set_allocator [Some (300, []); Some (310, [])] demo_vec_heap)
                  100 demo_vec (Some d) h1 eq_refl
                  (demo_vec_ok_allocator _) (demo_owns_buffer _) E) as H.
    cbv beta iota in H.
    destruct H as (_ & (vec_d & Hvd & Hcap & Hsz & _) & _ & Hel & _).
    exists d, h1, vec_d. split_and!; [reflexivity | exact Hvd | exact Hcap | exact Hsz |].
    rewrite Hel. reflexivity.
  - destruct (vector_copy (Some 100) demo_shrunk_heap)
      as [[d|] h1| |] eqn:E; try (vm_compute in E; discriminate E).
    pose proof (vector_copy_spec demo_shrunk_heap 100 demo_shrunk_vec (Some d) h1 eq_refl
                  (proj1 demo_shrunk_ok) (proj2 demo_shrunk_ok) E) as H.
    cbv beta iota in H.
    destruct H as (_ & (vec_d & Hvd & Hcap & _) & _ & Hel & _).
    exists d, h1, vec_d. split_and!; [reflexivity | exact Hvd | exact Hcap |].
    rewrite Hel. reflexivity.
Defined.

(* ===================================================================== *)
(** * Insertions whose node the allocator grants *)
(* ===================================================================== *)

Lemma node_allocation_inv h :
  node_allocation_succeeds h = true ->
  exists n j1 a rest,
    allocator h = Some (n, j1) :: Some a :: rest /\
    valid_addr n = true /\ in_use h n = false.
Proof.
  unfold node_allocation_succeeds. intros H.
  destruct (allocator h) as [|[[n j1]|] [|[a|] rest]]; try discriminate H.
  apply andb_true_iff in H as [Hv Hu]. apply negb_true_iff in Hu.
  by exists n, j1, a, rest.
Qed.

Lemma ok_ex {A} (o : outcome A) a :
  (forall o', o = o' -> exists h1, o' = Ok a h1) -> exists h1, o = Ok a h1.
Proof. intros H. by apply H. Qed.

Lemma malloc_run {T} (R : region T) init h n j rest :
  allocator h = Some (n, j) :: rest -> valid_addr n = true -> in_use h n = false ->
  malloc R init h
  = Ok (Some n) (rset R (<[n := init j]> (rget R (set_allocator rest h)))
                   (set_allocator rest h)).
Proof.
  intros Hal Hv Hu. unfold malloc, next_answer, bind. rewrite Hal.
  change (in_use (set_allocator rest h) n) with (in_use h n).
  by rewrite Hv, Hu.
Qed.

Lemma allocation_inv old h :
  allocation_succeeds old h = true ->
  exists q junk rest,
    allocator h = Some (q, junk) :: rest /\ valid_addr q = true /\
    (old = Some q \/ in_use h q = false).
Proof.
  unfold allocation_succeeds. intros H.
  destruct (allocator h) as [|[[q junk]|] rest]; try discriminate H.
  apply andb_true_iff in H as [Hv Hu]. exists q, junk, rest.
  split_and!; [done..|]. apply orb_true_iff in Hu as [Hu|Hu].
  - left. by apply bool_decide_eq_true in Hu.
  - right. by apply negb_true_iff in Hu.
Qed.

Lemma mem_alloc_run size h :
  allocation_succeeds NULL h = true -> size <> 0 ->
  exists p junk al,
    valid_addr p = true /\ in_use h p = false /\
    mem_alloc size h
    = Ok (Some p) (rset Buffers (<[p := resize (Z.to_nat size) Byte.x00 junk]> (buffers h))
                     (set_allocator al h)).
Proof.
  intros Ha Hs.
  destruct (allocation_inv _ _ Ha) as (p & junk & rest & Hal & Hv & [Hu|Hu]); [done|].
  exists p, junk, rest. split_and!; [done..|].
  unfold mem_alloc. destruct (Z.eqb_spec size 0); [done|].
  by rewrite (malloc_run Buffers _ h p junk rest Hal Hv Hu).
Qed.

Lemma mem_alloc_data_run es h a j rest :
  es <> 0 -> allocator h = Some (a, j) :: rest ->
  mem_alloc_data es h = Ok (Some (resize (Z.to_nat es) Byte.x00 j)) (set_allocator rest h).
Proof.
  intros Hes Hal. unfold mem_alloc_data, next_answer, bind.
  destruct (Z.eqb_spec es 0); [done|]. by rewrite Hal.
Qed.

Lemma create_node_run h data es :
  node_allocation_succeeds h = true -> 0 < es <= Z.of_nat (length data) ->
  exists n al,
    valid_addr n = true /\ in_use h n = false /\
    create_node data es h
    = Ok (Some n) (rset SNodes (<[n := mk_snode (take (Z.to_nat es) data) NULL]> (snodes h))
                     (set_allocator al h)).
Proof.
  intros Ha Hes.
  destruct (node_allocation_inv h Ha) as (n & j1 & [a j2] & rest & Hal & Hv & Hu).
  enough (exists h1, create_node data es h = Ok (Some n) h1) as [h1 H].
  { pose proof (create_node_inv _ _ _ _ _ H) as (_ & _ & _ & _ & al & ->).
    exists n, al. by split_and!. }
  enough (forall o, create_node data es h = o -> exists h1, o = Ok (Some n) h1)
    as X by (by eapply X).
  intros o H. unfold create_node in H.
  rewrite (bind_Ok _ _ _ _ _ (malloc_run SNodes _ h n j1 _ Hal Hv Hu)) in H.
  erewrite (bind_Ok (mem_alloc_data es)) in H
    by (apply (mem_alloc_data_run es _ a j2 rest); [lia | reflexivity]).
  cbv iota beta in H. rewrite mem_copy_Some in H by (rewrite ?length_resize; lia).
  run_in H. subst o. eauto.
Qed.

Lemma create_doubly_node_run h data es :
  node_allocation_succeeds h = true -> 0 < es <= Z.of_nat (length data) ->
  exists n al,
    valid_addr n = true /\ in_use h n = false /\
    create_doubly_node data es h
    = Ok (Some n)
        (rset DNodes (<[n := mk_dnode (take (Z.to_nat es) data) NULL NULL]> (dnodes h))
           (set_allocator al h)).
Proof.
  intros Ha Hes.
  destruct (node_allocation_inv h Ha) as (n & j1 & [a j2] & rest & Hal & Hv & Hu).
  enough (exists h1, create_doubly_node data es h = Ok (Some n) h1) as [h1 H].
  { pose proof (create_doubly_node_inv _ _ _ _ _ H) as (_ & _ & _ & _ & al & ->).
    exists n, al. by split_and!. }
  enough (forall o, create_doubly_node data es h = o -> exists h1, o = Ok (Some n) h1)
    as X by (by eapply X).
  intros o H. unfold create_doubly_node in H.
  rewrite (bind_Ok _ _ _ _ _ (malloc_run DNodes _ h n j1 _ Hal Hv Hu)) in H.
  erewrite (bind_Ok (mem_alloc_data es)) in H
    by (apply (mem_alloc_data_run es _ a j2 rest); [lia | reflexivity]).
  cbv iota beta in H. rewrite mem_copy_Some in H by (rewrite ?length_resize; lia).
  run_in H. subst o. eauto.
Qed.

(** ** The singly linked list *)

Lemma singly_list_push_front_returns h lp l e :
  slists_ok h -> slists h !! lp = Some l ->
  node_allocation_succeeds h = true ->
  0 < sl_element_size l <= Z.of_nat (length e) ->
  exists h1, singly_list_push_front (Some lp) (Some e) h = Ok SUCCESS h1.
Proof.
  intros Hok Hl Ha Hes.
  destruct (create_node_run h e _ Ha Hes) as (n & al & Hv & Hu & Hc).
  enough (forall o, singly_list_push_front (Some lp) (Some e) h = o ->
            exists h1, o = Ok SUCCESS h1) as X by (by eapply X).
  intros o H. unfold singly_list_push_front in H. run_in H.
  rewrite (bind_Ok _ _ _ _ _ Hc) in H. run_in H.
  destruct (sl_tail l); run_in H; subst o; eauto.
Qed.

Lemma singly_list_push_back_returns h lp l e :
  slists_ok h -> slists h !! lp = Some l ->
  node_allocation_succeeds h = true ->
  0 < sl_element_size l <= Z.of_nat (length e) ->
  exists h1, singly_list_push_back (Some lp) (Some e) h = Ok SUCCESS h1.
Proof.
  intros Hok Hl Ha Hes.
  destruct (create_node_run h e _ Ha Hes) as (n & al & Hv & Hu & Hc).
  apply in_use_false in Hu as (_ & _ & _ & Hn & _).
  destruct (slists_ok_repr h lp Hok) as (l' & Hl' & Hh & Ht & Hsz & Hlk); [eauto|].
  rewrite Hl in Hl'. injection Hl' as <-.
  enough (forall o, singly_list_push_back (Some lp) (Some e) h = o ->
            exists h1, o = Ok SUCCESS h1) as X by (by eapply X).
  intros o H. unfold singly_list_push_back in H. run_in H.
  rewrite (bind_Ok _ _ _ _ _ Hc) in H. run_in H.
  destruct (sl_tail l) as [tl|] eqn:Etl.
  - symmetry in Ht. rewrite last_lookup in Ht.
    destruct (Hlk _ _ Ht) as (ndt & Hndt & _).
    assert (n <> tl) by congruence.
    run_in H. subst o. eauto.
  - run_in H. subst o. eauto.
Qed.

Lemma singly_list_insert_returns h lp l index e :
  slists_ok h -> slists h !! lp = Some l ->
  node_allocation_succeeds h = true ->
  0 < sl_element_size l <= Z.of_nat (length e) ->
  0 <= index <= Z.of_nat (length (singly_list_elements h lp)) ->
  exists h1, singly_list_insert (Some lp) index (Some e) h = Ok SUCCESS h1.
Proof.
  intros Hok Hl Ha Hes Hi. rewrite singly_list_elements_length in Hi.
  destruct (slists_ok_repr h lp Hok) as (l' & Hl' & Hh & Ht & Hsz & Hlk); [eauto|].
  rewrite Hl in Hl'. injection Hl' as <-.
  pose proof (slists_ok_repr h lp Hok ltac:(eauto)) as Hrepr.
  unfold singly_list_insert.
  rewrite (bind_Ok _ _ _ _ _ (load_Some SLists lp h l Hl)).
  destruct (Z.ltb_spec (sl_size l) index); [lia|].
  destruct (Z.eqb_spec index 0) as [->|H0].
  { by apply (singly_list_push_front_returns h lp l). }
  destruct (Z.eqb_spec index (sl_size l)) as [->|Hsize].
  { by apply (singly_list_push_back_returns h lp l). }
  pose proof (links_length_bound _ _ _ Hlk (proj1 Hok)) as Hbound.
  set (ls := singly_list_nodes h lp) in *.
  rewrite (to_size_t_small (index - 1)) by lia.
  rewrite (bind_Ok _ _ _ _ _ (get_node_at_repr h lp ls (index - 1) Hrepr ltac:(lia))).
  destruct (lookup_lt_is_Some_2 ls (Z.to_nat (index - 1)) ltac:(lia)) as [pv Hpv].
  rewrite Hpv.
  destruct (Hlk _ _ Hpv) as (ndp & Hndp & _).
  destruct (create_node_run h e _ Ha Hes) as (n & al & Hv & Hu & Hc).
  apply in_use_false in Hu as (_ & _ & _ & Hn & _).
  assert (n <> pv) by congruence.
  eexists. rewrite (bind_Ok _ _ _ _ _ Hc). run. reflexivity.
Qed.

(** ** The doubly linked list *)

Lemma doubly_list_push_front_returns h lp l e :
  dlists_ok h -> dlists h !! lp = Some l ->
  node_allocation_succeeds h = true ->
  0 < dl_element_size l <= Z.of_nat (length e) ->
  exists h1, doubly_list_push_front (Some lp) (Some e) h = Ok SUCCESS h1.
Proof.
  intros Hok Hl Ha Hes.
  destruct (create_doubly_node_run h e _ Ha Hes) as (n & al & Hv & Hu & Hc).
  apply in_use_false in Hu as (_ & _ & _ & _ & _ & Hn).
  destruct (dlists_ok_repr h lp Hok) as (l' & Hl' & Hh & Ht & Hsz & Hlk & Hbk); [eauto|].
  rewrite Hl in Hl'. injection Hl' as <-.
  unfold doubly_list_push_front. apply ok_ex; intros o'. run.
  rewrite (bind_Ok _ _ _ _ _ Hc). run.
  destruct (dl_head l) as [hd|] eqn:Ehd.
  - symmetry in Hh. rewrite head_lookup in Hh.
    destruct (Hlk _ _ Hh) as (ndh & Hndh & _).
    assert (n <> hd) by congruence.
    run. destruct (dl_tail l); run; intros <-; eauto.
  - run. destruct (dl_tail l); run; intros <-; eauto.
Qed.

Lemma doubly_list_push_back_returns h lp l e :
  dlists_ok h -> dlists h !! lp = Some l ->
  node_allocation_succeeds h = true ->
  0 < dl_element_size l <= Z.of_nat (length e) ->
  exists h1, doubly_list_push_back (Some lp) (Some e) h = Ok SUCCESS h1.
Proof.
  intros Hok Hl Ha Hes.
  destruct (create_doubly_node_run h e _ Ha Hes) as (n & al & Hv & Hu & Hc).
  apply in_use_false in Hu as (_ & _ & _ & _ & _ & Hn).
  destruct (dlists_ok_repr h lp Hok) as (l' & Hl' & Hh & Ht & Hsz & Hlk & Hbk); [eauto|].
  rewrite Hl in Hl'. injection Hl' as <-.
  unfold doubly_list_push_back. apply ok_ex; intros o'. run.
  rewrite (bind_Ok _ _ _ _ _ Hc). run.
  destruct (dl_tail l) as [tl|] eqn:Etl.
  - symmetry in Ht. rewrite last_lookup in Ht.
    destruct (Hlk _ _ Ht) as (ndt & Hndt & _).
    assert (n <> tl) by congruence.
    run. destruct (dl_head l); run; intros <-; eauto.
  - run. destruct (dl_head l); run; intros <-; eauto.
Qed.

Lemma doubly_list_insert_returns h lp l index e :
  dlists_ok h -> dlists h !! lp = Some l ->
  node_allocation_succeeds h = true ->
  0 < dl_element_size l <= Z.of_nat (length e) ->
  0 <= index <= Z.of_nat (length (doubly_list_elements h lp)) ->
  exists h1, doubly_list_insert (Some lp) index (Some e) h = Ok SUCCESS h1.
Proof.
  intros Hok Hl Ha Hes Hi. rewrite doubly_list_elements_length in Hi.
  pose proof (dlists_ok_repr h lp Hok ltac:(eauto)) as Hrepr.
  pose proof Hrepr as (l' & Hl' & Hh & Ht & Hsz & Hlk & Hbk).
  rewrite Hl in Hl'. injection Hl' as <-.
  unfold doubly_list_insert.
  rewrite (bind_Ok _ _ _ _ _ (load_Some DLists lp h l Hl)).
  destruct (Z.ltb_spec (dl_size l) index); [lia|].
  destruct (Z.eqb_spec index 0) as [->|H0].
  { by apply (doubly_list_push_front_returns h lp l). }
  destruct (Z.eqb_spec index (dl_size l)) as [->|Hsize].
  { by apply (doubly_list_push_back_returns h lp l). }
  pose proof (dlists_ok_bound h lp Hok) as Hbound.
  set (ls := doubly_list_nodes h lp) in *.
  rewrite (bind_Ok _ _ _ _ _ (get_doubly_node_at_repr h lp ls index Hrepr
             ltac:(lia) Hbound)).
  destruct (lookup_lt_is_Some_2 ls (Z.to_nat index) ltac:(lia)) as [cur Hcur].
  rewrite Hcur.
  destruct (dl_neighbours _ _ _ _ Hlk Hbk Hcur) as ((dc & Hndc) & _ & Hpv).
  destruct (create_doubly_node_run h e _ Ha Hes) as (n & al & Hv & Hu & Hc).
  apply in_use_false in Hu as (_ & _ & _ & _ & _ & Hn).
  assert (n <> cur) by congruence.
  apply ok_ex; intros o'. rewrite (bind_Ok _ _ _ _ _ Hc). run.
  destruct (pred_of ls (Z.to_nat index)) as [pv|] eqn:Ep.
  - destruct (Hpv pv eq_refl) as (Hne & (ndp & Hndp) & _).
    assert (n <> pv) by congruence.
    run. intros <-. eauto.
  - run. intros <-. eauto.
Qed.

Lemma doubly_list_insert_before_returns h lp l k nd e :
  dlists_ok h -> dlists h !! lp = Some l ->
  doubly_list_nodes h lp !! k = Some nd ->
  node_allocation_succeeds h = true ->
  0 < dl_element_size l <= Z.of_nat (length e) ->
  exists h1, doubly_list_insert_before (Some lp) (Some nd) (Some e) h = Ok SUCCESS h1.
Proof.
  intros Hok Hl Hcur Ha Hes.
  destruct (dlists_ok_repr h lp Hok) as (l' & Hl' & Hh & Ht & Hsz & Hlk & Hbk); [eauto|].
  rewrite Hl in Hl'. injection Hl' as <-.
  set (ls := doubly_list_nodes h lp) in *.
  destruct (dl_neighbours _ _ _ _ Hlk Hbk Hcur) as ((dc & Hndc) & _ & Hpv).
  destruct (create_doubly_node_run h e _ Ha Hes) as (n & al & Hv & Hu & Hc).
  apply in_use_false in Hu as (_ & _ & _ & _ & _ & Hn).
  assert (n <> nd) by congruence.
  unfold doubly_list_insert_before. apply ok_ex; intros o'. run.
  rewrite (bind_Ok _ _ _ _ _ Hc). run.
  destruct (pred_of ls k) as [pv|] eqn:Ep.
  - destruct (Hpv pv eq_refl) as (Hne & (ndp & Hndp) & _).
    assert (n <> pv) by congruence.
    run. intros <-. eauto.
  - run. intros <-. eauto.
Qed.

Lemma doubly_list_insert_after_returns h lp l k nd e :
  dlists_ok h -> dlists h !! lp = Some l ->
  doubly_list_nodes h lp !! k = Some nd ->
  node_allocation_succeeds h = true ->
  0 < dl_element_size l <= Z.of_nat (length e) ->
  exists h1, doubly_list_insert_after (Some lp) (Some nd) (Some e) h = Ok SUCCESS h1.
Proof.
  intros Hok Hl Hcur Ha Hes.
  destruct (dlists_ok_repr h lp Hok) as (l' & Hl' & Hh & Ht & Hsz & Hlk & Hbk); [eauto|].
  rewrite Hl in Hl'. injection Hl' as <-.
  set (ls := doubly_list_nodes h lp) in *.
  destruct (dl_neighbours _ _ _ _ Hlk Hbk Hcur) as ((dc & Hndc) & Hnx & _).
  destruct (create_doubly_node_run h e _ Ha Hes) as (n & al & Hv & Hu & Hc).
  apply in_use_false in Hu as (_ & _ & _ & _ & _ & Hn).
  assert (n <> nd) by congruence.
  unfold doubly_list_insert_after. apply ok_ex; intros o'. run.
  rewrite (bind_Ok _ _ _ _ _ Hc). run.
  destruct (ls !! S k) as [nx|] eqn:Ex.
  - destruct (Hnx nx eq_refl) as (Hne & (ndx & Hndx)).
    assert (n <> nx) by congruence.
    run. intros <-. eauto.
  - run. intros <-. eauto.
Qed.

(* ===================================================================== *)
(** * The list functions on element sequences *)
(* ===================================================================== *)

(** [insert] of either list, in a well-formed store and with a
    [size_t] index.  With an index past the end the call returns
    [ERROR_INDEX_OUT_OF_BOUNDS] in the store it was called in.  With an
    index up to the size ([index == size] appends), an element of at
    least [element_size] bytes and an allocator that grants the node,
    the call returns [SUCCESS].  Whatever the call returns, it is
    [ERROR_INDEX_OUT_OF_BOUNDS] exactly when the index is past the end;
    when it succeeds the elements are the former ones with the first
    [element_size] bytes of the new element put at position [index], and
    the other lists are untouched; when it fails nothing has changed. *)
Theorem list_insert_spec h lp index e :
  lists_ok h -> is_size_t index ->
  (forall s h1,
     singly_list_insert (Some lp) index (Some e) h = Ok s h1 ->
     sl_effect h h1 lp /\
     (s = ERROR_INDEX_OUT_OF_BOUNDS <->
      Z.of_nat (length (singly_list_elements h lp)) < index) /\
     (s <> SUCCESS -> contents h1 = contents h) /\
     (s = SUCCESS ->
      exists l, slists h !! lp = Some l /\
        singly_list_elements h1 lp
        = insert_at (Z.to_nat index) (take (Z.to_nat (sl_element_size l)) e)
            (singly_list_elements h lp))) /\
  (forall s h1,
     doubly_list_insert (Some lp) index (Some e) h = Ok s h1 ->
     dl_effect h h1 lp /\
     (s = ERROR_INDEX_OUT_OF_BOUNDS <->
      Z.of_nat (length (doubly_list_elements h lp)) < index) /\
     (s <> SUCCESS -> contents h1 = contents h) /\
     (s = SUCCESS ->
      exists l, dlists h !! lp = Some l /\
        doubly_list_elements h1 lp
        = insert_at (Z.to_nat index) (take (Z.to_nat (dl_element_size l)) e)
            (doubly_list_elements h lp))) /\
  (forall l, slists h !! lp = Some l ->
     (Z.of_nat (length (singly_list_elements h lp)) < index ->
      singly_list_insert (Some lp) index (Some e) h = Ok ERROR_INDEX_OUT_OF_BOUNDS h) /\
     (index <= Z.of_nat (length (singly_list_elements h lp)) ->
      node_allocation_succeeds h = true ->
      0 < sl_element_size l <= Z.of_nat (length e) ->
      exists h1,
        singly_list_insert (Some lp) index (Some e) h = Ok SUCCESS h1 /\
        singly_list_elements h1 lp
        = insert_at (Z.to_nat index) (take (Z.to_nat (sl_element_size l)) e)
            (singly_list_elements h lp))) /\
  (forall l, dlists h !! lp = Some l ->
     (Z.of_nat (length (doubly_list_elements h lp)) < index ->
      doubly_list_insert (Some lp) index (Some e) h = Ok ERROR_INDEX_OUT_OF_BOUNDS h) /\
     (index <= Z.of_nat (length (doubly_list_elements h lp)) ->
      node_allocation_succeeds h = true ->
      0 < dl_element_size l <= Z.of_nat (length e) ->
      exists h1,
        doubly_list_insert (Some lp) index (Some e) h = Ok SUCCESS h1 /\
        doubly_list_elements h1 lp
        = insert_at (Z.to_nat index) (take (Z.to_nat (dl_element_size l)) e)
            (doubly_list_elements h lp))).
Proof.
  intros [Hs Hd] Hi.
  assert (forall s h1,
     singly_list_insert (Some lp) index (Some e) h = Ok s h1 ->
     sl_effect h h1 lp /\
     (s = ERROR_INDEX_OUT_OF_BOUNDS <->
      Z.of_nat (length (singly_list_elements h lp)) < index) /\
     (s <> SUCCESS -> contents h1 = contents h) /\
     (s = SUCCESS ->
      exists l, slists h !! lp = Some l /\
        singly_list_elements h1 lp
        = insert_at (Z.to_nat index) (take (Z.to_nat (sl_element_size l)) e)
            (singly_list_elements h lp))) as HS.
  { intros s h1 H.
    apply singly_list_insert_ok in H as (Heff & Hf & Hoob & Hsucc); [|exact Hs|exact Hi].
    rewrite singly_list_elements_length. split_and!; [exact Heff | exact Hoob | |].
    + intros Hne. by apply Hf.
    + intros ->. destruct (Hsucc eq_refl) as (n & l & Hl & _ & Hel). eauto. }
  assert (forall s h1,
     doubly_list_insert (Some lp) index (Some e) h = Ok s h1 ->
     dl_effect h h1 lp /\
     (s = ERROR_INDEX_OUT_OF_BOUNDS <->
      Z.of_nat (length (doubly_list_elements h lp)) < index) /\
     (s <> SUCCESS -> contents h1 = contents h) /\
     (s = SUCCESS ->
      exists l, dlists h !! lp = Some l /\
        doubly_list_elements h1 lp
        = insert_at (Z.to_nat index) (take (Z.to_nat (dl_element_size l)) e)
            (doubly_list_elements h lp))) as HD.
  { intros s h1 H.
    apply doubly_list_insert_ok in H as (Heff & Hf & Hoob & Hsucc); [|exact Hd|exact Hi].
    rewrite doubly_list_elements_length. split_and!; [exact Heff | exact Hoob | |].
    + intros Hne. by apply Hf.
    + intros ->. destruct (Hsucc eq_refl) as (n & l & Hl & _ & Hel). eauto. }
  split_and!; [exact HS | exact HD | |].
  - intros l Hl. split.
    + intros Hoob. rewrite singly_list_elements_length in Hoob.
      destruct (slists_ok_repr h lp Hs) as (l' & Hl' & _ & _ & Hsz & _); [eauto|].
      rewrite Hl in Hl'. injection Hl' as <-.
      unfold singly_list_insert.
      rewrite (bind_Ok _ _ _ _ _ (load_Some SLists lp h l Hl)).
      by destruct (Z.ltb_spec (sl_size l) index); [|lia].
    + intros Hin Ha Hes.
      destruct (singly_list_insert_returns h lp l index e Hs Hl Ha Hes) as [h1 H].
      { unfold is_size_t in Hi. lia. }
      exists h1. split; [exact H|].
      destruct (HS _ _ H) as (_ & _ & _ & Hsucc).
      destruct (Hsucc eq_refl) as (l' & Hl' & Hel). congruence.
  - intros l Hl. split.
    + intros Hoob. rewrite doubly_list_elements_length in Hoob.
      destruct (dlists_ok_repr h lp Hd) as (l' & Hl' & _ & _ & Hsz & _); [eauto|].
      rewrite Hl in Hl'. injection Hl' as <-.
      unfold doubly_list_insert.
      rewrite (bind_Ok _ _ _ _ _ (load_Some DLists lp h l Hl)).
      by destruct (Z.ltb_spec (dl_size l) index); [|lia].
    + intros Hin Ha Hes.
      destruct (doubly_list_insert_returns h lp l index e Hd Hl Ha Hes) as [h1 H].
      { unfold is_size_t in Hi. lia. }
      exists h1. split; [exact H|].
      destruct (HD _ _ H) as (_ & _ & _ & Hsucc).
      destruct (Hsucc eq_refl) as (l' & Hl' & Hel). congruence.
Qed.

Lemma is_size_t_small z : 0 <= z <= 100 -> is_size_t z.
Proof. unfold is_size_t, SIZE_MAX, SIZE_BITS. lia. Qed.

Lemma list_insert_spec_witness :
  (exists h1,
     singly_list_insert (Some 400) 3 (Some (elem4 Byte.x09)) demo_lists_heap
     = Ok SUCCESS h1 /\
     singly_list_elements h1 400
     = [elem4 Byte.x01; elem4 Byte.x02; elem4 Byte.x03; elem4 Byte.x09]) /\
  (exists h1,
     doubly_list_insert (Some 500) 1 (Some (elem4 Byte.x09)) demo_lists_heap
     = Ok SUCCESS h1 /\
     doubly_list_elements h1 500
     = [elem4 Byte.x01; elem4 Byte.x09; elem4 Byte.x02; elem4 Byte.x03]) /\
  (exists h1,
     doubly_list_insert (Some 600) 0 (Some (elem4 Byte.x09)) demo_lists_heap
     = Ok SUCCESS h1 /\
     doubly_list_elements h1 600 = [elem4 Byte.x09]) /\
  singly_list_insert (Some 400) 4 (Some (elem4 Byte.x09)) demo_lists_heap
  = Ok ERROR_INDEX_OUT_OF_BOUNDS demo_lists_heap.
Proof.
  split_and!.
  - destruct (list_insert_spec demo_lists_heap 400 3 (elem4 Byte.x09)
                demo_lists_ok (is_size_t_small 3 ltac:(lia))) as (_ & _ & H & _).
    destruct (H _ eq_refl) as [_ Hin].
    destruct Hin as (h1 & E & Hel);
      [vm_compute; discriminate | reflexivity | cbn; lia |].
    exists h1. split; [exact E|]. exact (eq_trans Hel eq_refl).
  - destruct (list_insert_spec demo_lists_heap 500 1 (elem4 Byte.x09)
                demo_lists_ok (is_size_t_small 1 ltac:(lia))) as (_ & _ & _ & H).
    destruct (H _ eq_refl) as [_ Hin].
    destruct Hin as (h1 & E & Hel);
      [vm_compute; discriminate | reflexivity | cbn; lia |].
    exists h1. split; [exact E|]. exact (eq_trans Hel eq_refl).
  - destruct (list_insert_spec demo_lists_heap 600 0 (elem4 Byte.x09)
                demo_lists_ok (is_size_t_small 0 ltac:(lia))) as (_ & _ & _ & H).
    destruct (H _ eq_refl) as [_ Hin].
    destruct Hin as (h1 & E & Hel);
      [vm_compute; discriminate | reflexivity | cbn; lia |].
    exists h1. split; [exact E|]. exact (eq_trans Hel eq_refl).
  - destruct (list_insert_spec demo_lists_heap 400 4 (elem4 Byte.x09)
                demo_lists_ok (is_size_t_small 4 ltac:(lia))) as (_ & _ & H & _).
    destruct (H _ eq_refl) as [Hoob _]. apply Hoob. vm_compute. reflexivity.
Defined.



(* ===================================================================== *)
(** * The two ends of a list: what a pop hands back *)
(* ===================================================================== *)

Lemma singly_list_elements_lookup h lp i a nd :
  singly_list_nodes h lp !! i = Some a -> snodes h !! a = Some nd ->
  singly_list_elements h lp !! i = Some (sn_data nd).
Proof.
  intros Hi Hnd. unfold singly_list_elements.
  rewrite list_lookup_fmap, Hi. cbn. unfold sn_data_at. by rewrite Hnd.
Qed.

Lemma doubly_list_elements_lookup h lp i a nd :
  doubly_list_nodes h lp !! i = Some a -> dnodes h !! a = Some nd ->
  doubly_list_elements h lp !! i = Some (dn_data nd).
Proof.
  intros Hi Hnd. unfold doubly_list_elements.
  rewrite list_lookup_fmap, Hi. cbn. unfold dn_data_at. by rewrite Hnd.
Qed.

Lemma copy_out_result output d es h r h1 :
  copy_out output d es h = Ok r h1 -> r = output ≫= (fun o => mem_copy o d es).
Proof.
  intros H. apply copy_out_inv in H as [_ H]. destruct output as [o|]; cbn.
  - by destruct H as (o' & -> & ->).
  - exact H.
Qed.

Lemma singly_list_pop_front_output h lp output r h1 :
  slists_ok h ->
  singly_list_pop_front (Some lp) output h = Ok (SUCCESS, r) h1 ->
  exists l x, slists h !! lp = Some l /\
    head (singly_list_elements h lp) = Some x /\
    r = output ≫= (fun o => mem_copy o x (sl_element_size l)).
Proof.
  intros Hok H. unfold singly_list_pop_front in H.
  apply bind_inv in H as (hd0 & h0 & E & H). minv E. rename E into Hl.
  destruct x as [hd tl sz es]. cbn in Hl. heap_simpl_in H.
  destruct (slists_ok_repr h lp Hok) as (l' & Hl' & Hh & Ht & Hsz & Hlk); [eauto|].
  rewrite Hl in Hl'. injection Hl' as <-. cbn in Hh, Ht, Hsz.
  destruct hd as [c|]; [|by minv H].
  rewrite head_lookup in Hh. symmetry in Hh.
  destruct (Hlk _ _ Hh) as ([dc nx] & Hc & Hnx).
  apply bind_inv in H as (o & h0 & Ho & H). run_in Ho.
  pose proof (copy_out_result _ _ _ _ _ _ Ho) as ->.
  apply copy_out_inv in Ho as [-> _].
  exists (mk_slist (Some c) tl sz es), dc. split_and!; [exact Hl | | ].
  - by rewrite head_lookup, (singly_list_elements_lookup _ _ _ _ _ Hh Hc).
  - repeat (apply bind_inv in H as (? & ? & _ & H)).
    apply ret_inv in H as [H _]. by injection H.
Qed.

Lemma singly_list_pop_back_output fuel h lp output r h1 :
  slists_ok h ->
  singly_list_pop_back fuel (Some lp) output h = Ok (SUCCESS, r) h1 ->
  exists l x, slists h !! lp = Some l /\
    last (singly_list_elements h lp) = Some x /\
    r = output ≫= (fun o => mem_copy o x (sl_element_size l)).
Proof.
  intros Hok H. unfold singly_list_pop_back in H.
  apply bind_inv in H as (hd0 & h0 & E & H). minv E. rename E into Hl.
  destruct x as [hd tl sz es]. cbn in Hl. heap_simpl_in H.
  destruct (slists_ok_repr h lp Hok) as (l' & Hl' & Hh & Ht & Hsz & Hlk); [eauto|].
  rewrite Hl in Hl'. injection Hl' as <-. cbn in Hh, Ht, Hsz.
  set (ls := singly_list_nodes h lp) in *.
  destruct hd as [c|]; [|by minv H].
  rewrite head_lookup in Hh. symmetry in Hh.
  pose proof (lookup_lt_Some _ _ _ Hh) as Hlen.
  destruct (lookup_lt_is_Some_2 ls (length ls - 1)) as [t Hlast]; [lia|].
  assert (tl = Some t) as -> by (rewrite Ht, last_lookup, <- Hlast; f_equal; lia).
  destruct (Hlk _ _ Hlast) as ([dt nt] & Hndt & Hnt).
  run_in H. apply bind_inv in H as (o & h0 & Ho & H).
  exists (mk_slist (Some c) (Some t) sz es), dt. split_and!; [exact Hl | | ].
  - rewrite last_lookup. unfold singly_list_elements at 1. rewrite length_fmap.
    fold ls. replace (Init.Nat.pred (length ls)) with (length ls - 1)%nat by lia.
    exact (singly_list_elements_lookup _ _ _ _ _ Hlast Hndt).
  - assert (o = output ≫= (fun o => mem_copy o dt es)) as ->.
    { destruct output as [out|]; [|by minv Ho]. run_in Ho.
      by apply copy_out_result in Ho. }
    repeat (apply bind_inv in H as (? & ? & _ & H)).
    apply ret_inv in H as [H _]. by injection H.
Qed.

Lemma doubly_list_pop_front_output h lp output r h1 :
  dlists_ok h ->
  doubly_list_pop_front (Some lp) output h = Ok (SUCCESS, r) h1 ->
  exists l x, dlists h !! lp = Some l /\
    head (doubly_list_elements h lp) = Some x /\
    r = output ≫= (fun o => mem_copy o x (dl_element_size l)).
Proof.
  intros Hok H. unfold doubly_list_pop_front in H.
  apply bind_inv in H as (hd0 & h0 & E & H). minv E. rename E into Hl.
  destruct x as [hd tl sz es]. cbn in Hl. heap_simpl_in H.
  destruct (dlists_ok_repr h lp Hok) as (l' & Hl' & Hh & Ht & Hsz & Hlk & Hbk); [eauto|].
  rewrite Hl in Hl'. injection Hl' as <-. cbn in Hh, Ht, Hsz.
  destruct hd as [c|]; [|by minv H].
  rewrite head_lookup in Hh. symmetry in Hh.
  destruct (Hlk _ _ Hh) as ([dc nx pv] & Hc & Hnx).
  apply bind_inv in H as (o & h0 & Ho & H). run_in Ho.
  pose proof (copy_out_result _ _ _ _ _ _ Ho) as ->.
  exists (mk_dlist (Some c) tl sz es), dc. split_and!; [exact Hl | | ].
  - by rewrite head_lookup, (doubly_list_elements_lookup _ _ _ _ _ Hh Hc).
  - repeat (apply bind_inv in H as (? & ? & _ & H)).
    apply ret_inv in H as [H _]. by injection H.
Qed.

Lemma doubly_list_pop_back_output h lp output r h1 :
  dlists_ok h ->
  doubly_list_pop_back (Some lp) output h = Ok (SUCCESS, r) h1 ->
  exists l x, dlists h !! lp = Some l /\
    last (doubly_list_elements h lp) = Some x /\
    r = output ≫= (fun o => mem_copy o x (dl_element_size l)).
Proof.
  intros Hok H. unfold doubly_list_pop_back in H.
  apply bind_inv in H as (tl0 & h0 & E & H). minv E. rename E into Hl.
  destruct x as [hd tl sz es]. cbn in Hl. heap_simpl_in H.
  destruct (dlists_ok_repr h lp Hok) as (l' & Hl' & Hh & Ht & Hsz & Hlk & Hbk); [eauto|].
  rewrite Hl in Hl'. injection Hl' as <-. cbn in Hh, Ht, Hsz.
  set (ls := doubly_list_nodes h lp) in *.
  destruct tl as [c|]; [|by minv H].
  rewrite last_lookup in Ht. symmetry in Ht.
  destruct (Hlk _ _ Ht) as ([dc nx pv] & Hc & Hnx).
  apply bind_inv in H as (o & h0 & Ho & H). run_in Ho.
  pose proof (copy_out_result _ _ _ _ _ _ Ho) as ->.
  exists (mk_dlist hd (Some c) sz es), dc. split_and!; [exact Hl | | ].
  - rewrite last_lookup. unfold doubly_list_elements at 1. rewrite length_fmap.
    fold ls. exact (doubly_list_elements_lookup _ _ _ _ _ Ht Hc).
  - repeat (apply bind_inv in H as (? & ? & _ & H)).
    apply ret_inv in H as [H _]. by injection H.
Qed.

Lemma delete_last_take {A} (ls : list A) :
  delete (length ls - 1)%nat ls = take (length ls - 1) ls.
Proof.
  rewrite delete_take_drop. destruct (decide (length ls = 0%nat)) as [E|E].
  - apply length_zero_iff_nil in E. by subst.
  - rewrite drop_ge by lia. by rewrite app_nil_r.
Qed.

Lemma delete_first_drop {A} (ls : list A) : delete 0%nat ls = drop 1 ls.
Proof. by destruct ls. Qed.

(** The copy to the caller's buffer is within bounds (a null [output]
    asks for no copy). *)
Lemma copy_out_Some output d es :
  (forall o, output = Some o -> is_Some (mem_copy o d es)) ->
  forall h, copy_out output d es h = Ok (output ≫= (fun o => mem_copy o d es)) h.
Proof.
  intros Hc h. destruct output as [o|]; [|reflexivity]. cbn.
  destruct (Hc o eq_refl) as [o' Ho]. by rewrite Ho.
Qed.

Lemma doubly_list_pop_front_returns h lp l output x :
  dlists_ok h -> dlists h !! lp = Some l ->
  head (doubly_list_elements h lp) = Some x ->
  (forall o, output = Some o -> is_Some (mem_copy o x (dl_element_size l))) ->
  exists r h1, doubly_list_pop_front (Some lp) output h = Ok (SUCCESS, r) h1.
Proof.
  intros Hok Hl Hx Hroom.
  destruct (dlists_ok_repr h lp Hok) as (l' & Hl' & Hh & Ht & Hsz & Hlk & Hbk); [eauto|].
  rewrite Hl in Hl'. injection Hl' as <-.
  set (ls := doubly_list_nodes h lp) in *.
  rewrite head_lookup in Hx. rewrite head_lookup in Hh.
  destruct l as [hd tl sz es]. cbn [dl_head dl_tail dl_size dl_element_size] in *.
  destruct (ls !! 0%nat) as [c|] eqn:Hc.
  2:{ unfold doubly_list_elements in Hx. fold ls in Hx.
      by rewrite list_lookup_fmap, Hc in Hx. }
  subst hd.
  destruct (dl_neighbours _ _ _ _ Hlk Hbk Hc) as ((dc & Hndc) & Hnx & _).
  rewrite (doubly_list_elements_lookup _ _ _ _ _ Hc Hndc) in Hx. injection Hx as <-.
  cbn in Hroom.
  enough (forall o, doubly_list_pop_front (Some lp) output h = o ->
            exists r h1, o = Ok (SUCCESS, r) h1) as X by (by eapply X).
  intros o H. unfold doubly_list_pop_front in H. run_in H.
  rewrite (bind_Ok _ _ _ _ _ (copy_out_Some output dc es Hroom h)) in H.
  destruct (ls !! 1%nat) as [nx|] eqn:Hn.
  - destruct (Hnx nx eq_refl) as (Hne & ndx & Hndx).
    run_in H. subst o. eauto.
  - run_in H. subst o. eauto.
Qed.

Lemma doubly_list_pop_back_returns h lp l output x :
  dlists_ok h -> dlists h !! lp = Some l ->
  last (doubly_list_elements h lp) = Some x ->
  (forall o, output = Some o -> is_Some (mem_copy o x (dl_element_size l))) ->
  exists r h1, doubly_list_pop_back (Some lp) output h = Ok (SUCCESS, r) h1.
Proof.
  intros Hok Hl Hx Hroom.
  destruct (dlists_ok_repr h lp Hok) as (l' & Hl' & Hh & Ht & Hsz & Hlk & Hbk); [eauto|].
  rewrite Hl in Hl'. injection Hl' as <-.
  set (ls := doubly_list_nodes h lp) in *.
  rewrite last_lookup in Hx. rewrite last_lookup in Ht.
  unfold doubly_list_elements in Hx. fold ls in Hx.
  rewrite length_fmap, list_lookup_fmap in Hx.
  destruct l as [hd tl sz es]. cbn [dl_head dl_tail dl_size dl_element_size] in *.
  destruct (ls !! Init.Nat.pred (length ls)) as [c|] eqn:Hc; [|discriminate].
  subst tl.
  destruct (dl_neighbours _ _ _ _ Hlk Hbk Hc) as ((dc & Hndc) & _ & Hpv).
  cbn in Hx. unfold dn_data_at in Hx. rewrite Hndc in Hx. injection Hx as <-.
  cbn in Hroom.
  enough (forall o, doubly_list_pop_back (Some lp) output h = o ->
            exists r h1, o = Ok (SUCCESS, r) h1) as X by (by eapply X).
  intros o H. unfold doubly_list_pop_back in H. run_in H.
  rewrite (bind_Ok _ _ _ _ _ (copy_out_Some output dc es Hroom h)) in H.
  destruct (pred_of ls (Init.Nat.pred (length ls))) as [pv|] eqn:Hp.
  - destruct (Hpv pv eq_refl) as (Hne & (ndp & Hndp) & _).
    run_in H. subst o. eauto.
  - run_in H. subst o. eauto.
Qed.

Lemma singly_list_pop_front_returns h lp l output x :
  slists_ok h -> slists h !! lp = Some l ->
  head (singly_list_elements h lp) = Some x ->
  (forall o, output = Some o -> is_Some (mem_copy o x (sl_element_size l))) ->
  exists r h1, singly_list_pop_front (Some lp) output h = Ok (SUCCESS, r) h1.
Proof.
  intros Hok Hl Hx Hroom.
  destruct (slists_ok_repr h lp Hok) as (l' & Hl' & Hh & Ht & Hsz & Hlk); [eauto|].
  rewrite Hl in Hl'. injection Hl' as <-.
  set (ls := singly_list_nodes h lp) in *.
  rewrite head_lookup in Hx. rewrite head_lookup in Hh.
  destruct l as [hd tl sz es]. cbn [sl_head sl_tail sl_size sl_element_size] in *.
  destruct (ls !! 0%nat) as [c|] eqn:Hc.
  2:{ unfold singly_list_elements in Hx. fold ls in Hx.
      by rewrite list_lookup_fmap, Hc in Hx. }
  subst hd.
  destruct (Hlk _ _ Hc) as ([dc nx] & Hndc & Hnx). cbn in Hnx.
  rewrite (singly_list_elements_lookup _ _ _ _ _ Hc Hndc) in Hx. injection Hx as <-.
  cbn in Hroom.
  enough (forall o, singly_list_pop_front (Some lp) output h = o ->
            exists r h1, o = Ok (SUCCESS, r) h1) as X by (by eapply X).
  intros o H. unfold singly_list_pop_front in H. run_in H.
  rewrite (bind_Ok _ _ _ _ _ (copy_out_Some output dc es Hroom h)) in H.
  run_in H. destruct nx as [n|]; run_in H; subst o; eauto.
Qed.

Lemma singly_list_pop_back_returns fuel h lp l output x :
  slists_ok h -> slists h !! lp = Some l ->
  last (singly_list_elements h lp) = Some x ->
  (forall o, output = Some o -> is_Some (mem_copy o x (sl_element_size l))) ->
  (length (singly_list_elements h lp) <= fuel)%nat ->
  exists r h1, singly_list_pop_back fuel (Some lp) output h = Ok (SUCCESS, r) h1.
Proof.
  intros Hok Hl Hx Hroom Hfuel.
  destruct (slists_ok_repr h lp Hok) as (l' & Hl' & Hh & Ht & Hsz & Hlk); [eauto|].
  rewrite Hl in Hl'. injection Hl' as <-.
  rewrite singly_list_elements_length in Hfuel.
  set (ls := singly_list_nodes h lp) in *.
  pose proof Ht as Ht0.
  rewrite last_lookup in Hx. rewrite last_lookup in Ht. rewrite head_lookup in Hh.
  unfold singly_list_elements in Hx. fold ls in Hx.
  rewrite length_fmap, list_lookup_fmap in Hx.
  destruct l as [hd tl sz es]. cbn [sl_head sl_tail sl_size sl_element_size] in *.
  destruct (ls !! Init.Nat.pred (length ls)) as [t|] eqn:Hlast; [|discriminate].
  subst tl.
  pose proof (lookup_lt_Some _ _ _ Hlast) as Hlen.
  destruct (lookup_lt_is_Some_2 ls 0) as [c Hc]; [lia|]. rewrite Hc in Hh. subst hd.
  destruct (Hlk _ _ Hlast) as ([dt nt] & Hndt & Hnt).
  cbn in Hx. unfold sn_data_at in Hx. rewrite Hndt in Hx. injection Hx as <-.
  cbn in Hroom.
  pose proof (links_NoDup _ _ _ Hlk) as Hnd.
  enough (forall o, singly_list_pop_back fuel (Some lp) output h = o ->
            exists r h1, o = Ok (SUCCESS, r) h1) as X by (by eapply X).
  intros o H. unfold singly_list_pop_back in H. run_in H.
  assert (Hcopy : match output with
                  | Some _ => d <- field SNodes t sn_data ;;
                              es0 <- field SLists lp sl_element_size ;;
                              copy_out output d es0
                  | None => ret output
                  end h = Ok (output ≫= (fun o => mem_copy o dt es)) h).
  { destruct output as [out|]; [|reflexivity]. run.
    exact (copy_out_Some (Some out) dt es Hroom h). }
  rewrite (bind_Ok _ _ _ _ _ Hcopy) in H.
  destruct (decide (c = t)) as [->|Hne].
  - rewrite bool_decide_eq_true_2 in H by done. run_in H. subst o. eauto.
  - rewrite bool_decide_eq_false_2 in H by congruence.
    assert (2 <= length ls)%nat as Hlen2.
    { destruct (decide (length ls = 1%nat)) as [E1|]; [|lia].
      rewrite E1 in Hlast. cbn in Hlast. congruence. }
    destruct (lookup_lt_is_Some_2 ls (length ls - 2)) as [p Hp]; [lia|].
    pose proof (singly_list_pop_back_loop_links h ls fuel 0 c t p Hlk Hc (eq_sym Ht0)
                  ltac:(lia) Hp) as Hloop.
    rewrite decide_True in Hloop by lia.
    rewrite bind_assoc, (bind_Ok _ _ _ _ _ Hloop) in H.
    destruct (Hlk _ _ Hp) as (ndp & Hndp & _).
    assert (p <> t).
    { eapply NoDup_lookup_ne; [exact Hnd | exact Hp | exact Hlast | lia]. }
    run_in H. subst o. eauto.
Qed.

Lemma singly_list_pop_empty fuel h lp l output :
  slists_ok h -> slists h !! lp = Some l -> singly_list_elements h lp = [] ->
  singly_list_pop_front (Some lp) output h = Ok (ERROR_EMPTY_CONTAINER, output) h /\
  singly_list_pop_back fuel (Some lp) output h = Ok (ERROR_EMPTY_CONTAINER, output) h.
Proof.
  intros Hok Hl Hnil.
  destruct (slists_ok_repr h lp Hok) as (l' & Hl' & Hh & Ht & Hsz & Hlk); [eauto|].
  rewrite Hl in Hl'. injection Hl' as <-.
  apply (f_equal length) in Hnil. rewrite singly_list_elements_length in Hnil.
  apply length_zero_iff_nil in Hnil. rewrite Hnil in Hh, Ht.
  destruct l as [hd tl sz es]. cbn in Hh, Ht. subst hd tl.
  unfold singly_list_pop_front, singly_list_pop_back. split; by run.
Qed.

Lemma doubly_list_pop_empty h lp l output :
  dlists_ok h -> dlists h !! lp = Some l -> doubly_list_elements h lp = [] ->
  doubly_list_pop_front (Some lp) output h = Ok (ERROR_EMPTY_CONTAINER, output) h /\
  doubly_list_pop_back (Some lp) output h = Ok (ERROR_EMPTY_CONTAINER, output) h.
Proof.
  intros Hok Hl Hnil.
  destruct (dlists_ok_repr h lp Hok) as (l' & Hl' & Hh & Ht & Hsz & Hlk & Hbk); [eauto|].
  rewrite Hl in Hl'. injection Hl' as <-.
  apply (f_equal length) in Hnil. rewrite doubly_list_elements_length in Hnil.
  apply length_zero_iff_nil in Hnil. rewrite Hnil in Hh, Ht.
  destruct l as [hd tl sz es]. cbn in Hh, Ht. subst hd tl.
  unfold doubly_list_pop_front, doubly_list_pop_back. split; by run.
Qed.

(** A push that succeeded read [element_size] bytes of the element. *)
Lemma singly_list_push_front_len h lp l e h1 :
  slists h !! lp = Some l ->
  singly_list_push_front (Some lp) (Some e) h = Ok SUCCESS h1 ->
  0 < sl_element_size l -> sl_element_size l <= Z.of_nat (length e).
Proof.
  intros Hl H. unfold singly_list_push_front in H.
  apply bind_inv in H as (es0 & h0 & E & H). minv E.
  cbn in E. assert (x = l) as -> by congruence.
  apply bind_inv in H as (node & h0 & Hc & H).
  apply create_node_inv in Hc. destruct node as [n|]; [|by minv H].
  by destruct Hc as (_ & _ & _ & Hle & _).
Qed.

Lemma singly_list_push_back_len h lp l e h1 :
  slists h !! lp = Some l ->
  singly_list_push_back (Some lp) (Some e) h = Ok SUCCESS h1 ->
  0 < sl_element_size l -> sl_element_size l <= Z.of_nat (length e).
Proof.
  intros Hl H. unfold singly_list_push_back in H.
  apply bind_inv in H as (es0 & h0 & E & H). minv E.
  cbn in E. assert (x = l) as -> by congruence.
  apply bind_inv in H as (node & h0 & Hc & H).
  apply create_node_inv in Hc. destruct node as [n|]; [|by minv H].
  by destruct Hc as (_ & _ & _ & Hle & _).
Qed.

Lemma doubly_list_push_front_len h lp l e h1 :
  dlists h !! lp = Some l ->
  doubly_list_push_front (Some lp) (Some e) h = Ok SUCCESS h1 ->
  0 < dl_element_size l -> dl_element_size l <= Z.of_nat (length e).
Proof.
  intros Hl H. unfold doubly_list_push_front in H.
  apply bind_inv in H as (es0 & h0 & E & H). minv E.
  cbn in E. assert (x = l) as -> by congruence.
  apply bind_inv in H as (node & h0 & Hc & H).
  apply create_doubly_node_inv in Hc. destruct node as [n|]; [|by minv H].
  by destruct Hc as (_ & _ & _ & Hle & _).
Qed.

Lemma doubly_list_push_back_len h lp l e h1 :
  dlists h !! lp = Some l ->
  doubly_list_push_back (Some lp) (Some e) h = Ok SUCCESS h1 ->
  0 < dl_element_size l -> dl_element_size l <= Z.of_nat (length e).
Proof.
  intros Hl H. unfold doubly_list_push_back in H.
  apply bind_inv in H as (es0 & h0 & E & H). minv E.
  cbn in E. assert (x = l) as -> by congruence.
  apply bind_inv in H as (node & h0 & Hc & H).
  apply create_doubly_node_inv in Hc. destruct node as [n|]; [|by minv H].
  by destruct Hc as (_ & _ & _ & Hle & _).
Qed.

(** Copying [es] bytes of an element of that many bytes to a buffer
    with room for them is within bounds. *)
Lemma mem_copy_room o e es :
  (0 < es -> es <= Z.of_nat (length e)) -> es <= Z.of_nat (length o) ->
  is_Some (mem_copy o (take (Z.to_nat es) e) es).
Proof.
  intros He Ho. unfold mem_copy. destruct (Z.eqb_spec es 0); [eauto|].
  destruct (Z.leb_spec es (Z.of_nat (length (take (Z.to_nat es) e)))) as [_|Hx];
    [|rewrite length_take in Hx; lia].
  destruct (Z.leb_spec es (Z.of_nat (length o))); [|lia]. eauto.
Qed.

(** Popping from either end of either list, in a well-formed store: on
    an empty list the call returns [ERROR_EMPTY_CONTAINER] and changes
    neither the store nor the caller's buffer; otherwise it returns
    [SUCCESS], the elements are the former ones without the first (the
    last, for [pop_back]) one, and when [output] is not null its first
    [element_size] bytes are those of the element that was removed.  The
    other lists are untouched.  The call does return: on a non-empty
    list whenever the copy to a non-null [output] is within bounds
    (and, for [singly_list_pop_back], the fuel covers the nodes of the
    list), on an empty list always. *)
Theorem list_pop_spec fuel h lp output :
  lists_ok h ->
  (forall s r h1,
     singly_list_pop_front (Some lp) output h = Ok (s, r) h1 ->
     sl_effect h h1 lp /\
     match head (singly_list_elements h lp) with
     | None => s = ERROR_EMPTY_CONTAINER /\ r = output /\ h1 = h
     | Some x =>
         s = SUCCESS /\
         singly_list_elements h1 lp = drop 1 (singly_list_elements h lp) /\
         exists l, slists h !! lp = Some l /\
                   r = output ≫= (fun o => mem_copy o x (sl_element_size l))
     end) /\
  (forall s r h1,
     singly_list_pop_back fuel (Some lp) output h = Ok (s, r) h1 ->
     sl_effect h h1 lp /\
     match last (singly_list_elements h lp) with
     | None => s = ERROR_EMPTY_CONTAINER /\ r = output /\ h1 = h
     | Some x =>
         s = SUCCESS /\
         singly_list_elements h1 lp
         = take (length (singly_list_elements h lp) - 1) (singly_list_elements h lp) /\
         exists l, slists h !! lp = Some l /\
                   r = output ≫= (fun o => mem_copy o x (sl_element_size l))
     end) /\
  (forall s r h1,
     doubly_list_pop_front (Some lp) output h = Ok (s, r) h1 ->
     dl_effect h h1 lp /\
     match head (doubly_list_elements h lp) with
     | None => s = ERROR_EMPTY_CONTAINER /\ r = output /\ h1 = h
     | Some x =>
         s = SUCCESS /\
         doubly_list_elements h1 lp = drop 1 (doubly_list_elements h lp) /\
         exists l, dlists h !! lp = Some l /\
                   r = output ≫= (fun o => mem_copy o x (dl_element_size l))
     end) /\
  (forall s r h1,
     doubly_list_pop_back (Some lp) output h = Ok (s, r) h1 ->
     dl_effect h h1 lp /\
     match last (doubly_list_elements h lp) with
     | None => s = ERROR_EMPTY_CONTAINER /\ r = output /\ h1 = h
     | Some x =>
         s = SUCCESS /\
         doubly_list_elements h1 lp
         = take (length (doubly_list_elements h lp) - 1) (doubly_list_elements h lp) /\
         exists l, dlists h !! lp = Some l /\
                   r = output ≫= (fun o => mem_copy o x (dl_element_size l))
     end) /\
  (forall l, slists h !! lp = Some l ->
     (forall x, head (singly_list_elements h lp) = Some x ->
        (forall o, output = Some o -> is_Some (mem_copy o x (sl_element_size l))) ->
        exists r h1, singly_list_pop_front (Some lp) output h = Ok (SUCCESS, r) h1) /\
     (forall x, last (singly_list_elements h lp) = Some x ->
        (forall o, output = Some o -> is_Some (mem_copy o x (sl_element_size l))) ->
        (length (singly_list_elements h lp) <= fuel)%nat ->
        exists r h1, singly_list_pop_back fuel (Some lp) output h = Ok (SUCCESS, r) h1) /\
     (singly_list_elements h lp = [] ->
      singly_list_pop_front (Some lp) output h = Ok (ERROR_EMPTY_CONTAINER, output) h /\
      singly_list_pop_back fuel (Some lp) output h
      = Ok (ERROR_EMPTY_CONTAINER, output) h)) /\
  (forall l, dlists h !! lp = Some l ->
     (forall x, head (doubly_list_elements h lp) = Some x ->
        (forall o, output = Some o -> is_Some (mem_copy o x (dl_element_size l))) ->
        exists r h1, doubly_list_pop_front (Some lp) output h = Ok (SUCCESS, r) h1) /\
     (forall x, last (doubly_list_elements h lp) = Some x ->
        (forall o, output = Some o -> is_Some (mem_copy o x (dl_element_size l))) ->
        exists r h1, doubly_list_pop_back (Some lp) output h = Ok (SUCCESS, r) h1) /\
     (doubly_list_elements h lp = [] ->
      doubly_list_pop_front (Some lp) output h = Ok (ERROR_EMPTY_CONTAINER, output) h /\
      doubly_list_pop_back (Some lp) output h = Ok (ERROR_EMPTY_CONTAINER, output) h)).
Proof.
  intros [Hs Hd]. split_and!.
  - intros s r h1 H. pose proof H as H'.
    apply singly_list_pop_front_ok in H' as (Heff & Hfail & Hsucc); [|exact Hs].
    split; [exact Heff|]. destruct (decide (s = SUCCESS)) as [->|Hne].
    + destruct (singly_list_pop_front_output _ _ _ _ _ Hs H) as (l & x & Hl & Hx & Hr).
      rewrite Hx. destruct (Hsucc eq_refl) as [_ Hel].
      rewrite Hel, delete_first_drop. eauto.
    + destruct (Hfail Hne) as (-> & -> & -> & Hnil).
      unfold singly_list_elements. by rewrite Hnil.
  - intros s r h1 H. pose proof H as H'.
    apply singly_list_pop_back_ok in H' as (Heff & Hfail & Hsucc); [|exact Hs].
    split; [exact Heff|]. destruct (decide (s = SUCCESS)) as [->|Hne].
    + destruct (singly_list_pop_back_output _ _ _ _ _ _ Hs H) as (l & x & Hl & Hx & Hr).
      rewrite Hx. destruct (Hsucc eq_refl) as [_ Hel].
      rewrite Hel, <- singly_list_elements_length, delete_last_take. eauto.
    + destruct (Hfail Hne) as (-> & -> & -> & Hnil).
      unfold singly_list_elements. by rewrite Hnil.
  - intros s r h1 H. pose proof H as H'.
    apply doubly_list_pop_front_ok in H' as (Heff & Hfail & Hsucc); [|exact Hd].
    split; [exact Heff|]. destruct (decide (s = SUCCESS)) as [->|Hne].
    + destruct (doubly_list_pop_front_output _ _ _ _ _ Hd H) as (l & x & Hl & Hx & Hr).
      rewrite Hx. destruct (Hsucc eq_refl) as [_ Hel].
      rewrite Hel, delete_first_drop. eauto.
    + destruct (Hfail Hne) as (-> & -> & -> & Hnil).
      unfold doubly_list_elements. by rewrite Hnil.
  - intros s r h1 H. pose proof H as H'.
    apply doubly_list_pop_back_ok in H' as (Heff & Hfail & Hsucc); [|exact Hd].
    split; [exact Heff|]. destruct (decide (s = SUCCESS)) as [->|Hne].
    + destruct (doubly_list_pop_back_output _ _ _ _ _ Hd H) as (l & x & Hl & Hx & Hr).
      rewrite Hx. destruct (Hsucc eq_refl) as [_ Hel].
      rewrite Hel, <- doubly_list_elements_length, delete_last_take. eauto.
    + destruct (Hfail Hne) as (-> & -> & -> & Hnil).
      unfold doubly_list_elements. by rewrite Hnil.
  - intros l Hl. split_and!.
    + intros x Hx Hroom. by eapply singly_list_pop_front_returns.
    + intros x Hx Hroom Hfuel. by eapply singly_list_pop_back_returns.
    + intros Hnil. by eapply singly_list_pop_empty.
  - intros l Hl. split_and!.
    + intros x Hx Hroom. by eapply doubly_list_pop_front_returns.
    + intros x Hx Hroom. by eapply doubly_list_pop_back_returns.
    + intros Hnil. by eapply doubly_list_pop_empty.
Qed.

Lemma list_pop_spec_witness :
  (exists h1,
     singly_list_pop_back 3 (Some 400) (Some (replicate 5 Byte.xff)) demo_lists_heap
     = Ok (SUCCESS, Some (elem4 Byte.x03 ++ [Byte.xff])) h1 /\
     singly_list_elements h1 400 = [elem4 Byte.x01; elem4 Byte.x02]) /\
  doubly_list_pop_front (Some 600) None demo_lists_heap
  = Ok (ERROR_EMPTY_CONTAINER, None) demo_lists_heap.
Proof.
  split.
  - destruct (list_pop_spec 3 demo_lists_heap 400 (Some (replicate 5 Byte.xff))
                demo_lists_ok) as (_ & H & _ & _ & Ht & _).
    destruct (Ht (mk_slist (Some 410) (Some 430) 3 4) eq_refl) as (_ & Hret & _).
    destruct (Hret (elem4 Byte.x03) eq_refl) as (r & h1 & E).
    { intros o Ho. injection Ho as <-. vm_compute. eauto. }
    { vm_compute. lia. }
    destruct (H SUCCESS r h1 E) as (_ & Hp).
    change (last (singly_list_elements demo_lists_heap 400))
      with (Some (elem4 Byte.x03)) in Hp.
    destruct Hp as (_ & Hel & l & Hl & Hr).
    vm_compute in Hl. injection Hl as <-.
    subst r. exists h1. split; [exact (eq_trans E eq_refl)|]. rewrite Hel. reflexivity.
  - destruct (list_pop_spec 0 demo_lists_heap 600 None demo_lists_ok)
      as (_ & _ & _ & _ & _ & H).
    destruct (H (mk_dlist None None 0 4) eq_refl) as (_ & _ & He).
    exact (proj1 (He eq_refl)).
Defined.

(** A push leaves the element size of its list as it is. *)
Lemma singly_list_push_front_es h lp e s h1 :
  slists_ok h ->
  singly_list_push_front (Some lp) (Some e) h = Ok s h1 ->
  sl_element_size <$> slists h1 !! lp = sl_element_size <$> slists h !! lp.
Proof.
  intros Hok H. unfold singly_list_push_front in H.
  apply bind_inv in H as (es0 & h0 & E & H). minv E. rename E into Hl.
  destruct x as [hd tl sz es]. cbn in Hl. heap_simpl.
  apply bind_inv in H as (node & h0 & Hc & H).
  apply create_node_inv in Hc. destruct node as [n|].
  2:{ apply ret_inv in H as [<- <-]. by injection Hc as _ _ -> _ _ _. }
  destruct Hc as (Hvn & Hu & Hes & Hle & al & ->).
  apply in_use_false in Hu as (_ & _ & Hnl & Hfresh & _).
  assert (n <> lp) by congruence.
  destruct tl as [t|]; run_in H; injection H as <- <-; cbn;
    rewrite ?insert_insert_eq, lookup_insert_eq, Hl; reflexivity.
Qed.

Lemma singly_list_push_back_es h lp e s h1 :
  slists_ok h ->
  singly_list_push_back (Some lp) (Some e) h = Ok s h1 ->
  sl_element_size <$> slists h1 !! lp = sl_element_size <$> slists h !! lp.
Proof.
  intros Hok H. unfold singly_list_push_back in H.
  apply bind_inv in H as (es0 & h0 & E & H). minv E. rename E into Hl.
  destruct x as [hd tl sz es]. cbn in Hl. heap_simpl.
  apply bind_inv in H as (node & h0 & Hc & H).
  apply create_node_inv in Hc. destruct node as [n|].
  2:{ apply ret_inv in H as [<- <-]. by injection Hc as _ _ -> _ _ _. }
  destruct Hc as (Hvn & Hu & Hes & Hle & al & ->).
  apply in_use_false in Hu as (_ & _ & Hnl & Hfresh & _).
  destruct (slists_ok_repr h lp Hok) as (l' & Hl' & Hh & Ht & Hsz & Hlk); [eauto|].
  rewrite Hl in Hl'. injection Hl' as <-. cbn in Hh, Ht, Hsz.
  assert (n <> lp) by congruence.
  destruct tl as [t|].
  - symmetry in Ht. destruct (last_links_null _ _ _ _ Hlk Ht) as (ndt & Hndt & Hnt).
    assert (t <> n) by congruence.
    run_in H. injection H as <- <-. cbn.
    rewrite ?insert_insert_eq, lookup_insert_eq, Hl. reflexivity.
  - run_in H. injection H as <- <-. cbn.
    rewrite ?insert_insert_eq, lookup_insert_eq, Hl. reflexivity.
Qed.

Lemma doubly_list_push_front_es h lp e s h1 :
  dlists_ok h ->
  doubly_list_push_front (Some lp) (Some e) h = Ok s h1 ->
  dl_element_size <$> dlists h1 !! lp = dl_element_size <$> dlists h !! lp.
Proof.
  intros Hok H. unfold doubly_list_push_front in H.
  apply bind_inv in H as (es0 & h0 & E & H). minv E. rename E into Hl.
  destruct x as [hd tl sz es]. cbn in Hl. heap_simpl_in H.
  apply bind_inv in H as (node & h0 & Hc & H).
  apply create_doubly_node_inv in Hc. destruct node as [n|].
  2:{ apply ret_inv in H as [<- <-]. by injection Hc as _ _ _ _ -> _. }
  destruct Hc as (Hvn & Hu & Hes & Hle & al & ->).
  apply in_use_false in Hu as (_ & _ & _ & _ & Hnl & Hfresh).
  destruct (dlists_ok_repr h lp Hok) as (l' & Hl' & Hh & Ht & Hsz & Hlk & Hbk); [eauto|].
  rewrite Hl in Hl'. injection Hl' as <-. cbn in Hh, Ht, Hsz.
  assert (n <> lp) by congruence.
  destruct hd as [c|].
  - symmetry in Hh. rewrite head_lookup in Hh.
    destruct (Hlk _ _ Hh) as (ndc & Hndc & _). assert (c <> n) by congruence.
    destruct tl; run_in H; injection H as <- <-; cbn;
      rewrite ?insert_insert_eq, lookup_insert_eq, Hl; reflexivity.
  - destruct tl; run_in H; injection H as <- <-; cbn;
      rewrite ?insert_insert_eq, lookup_insert_eq, Hl; reflexivity.
Qed.

Lemma doubly_list_push_back_es h lp e s h1 :
  dlists_ok h ->
  doubly_list_push_back (Some lp) (Some e) h = Ok s h1 ->
  dl_element_size <$> dlists h1 !! lp = dl_element_size <$> dlists h !! lp.
Proof.
  intros Hok H. unfold doubly_list_push_back in H.
  apply bind_inv in H as (es0 & h0 & E & H). minv E. rename E into Hl.
  destruct x as [hd tl sz es]. cbn in Hl. heap_simpl_in H.
  apply bind_inv in H as (node & h0 & Hc & H).
  apply create_doubly_node_inv in Hc. destruct node as [n|].
  2:{ apply ret_inv in H as [<- <-]. by injection Hc as _ _ _ _ -> _. }
  destruct Hc as (Hvn & Hu & Hes & Hle & al & ->).
  apply in_use_false in Hu as (_ & _ & _ & _ & Hnl & Hfresh).
  destruct (dlists_ok_repr h lp Hok) as (l' & Hl' & Hh & Ht & Hsz & Hlk & Hbk); [eauto|].
  rewrite Hl in Hl'. injection Hl' as <-. cbn in Hh, Ht, Hsz.
  assert (n <> lp) by congruence.
  destruct tl as [c|].
  - symmetry in Ht. rewrite last_lookup in Ht.
    destruct (Hlk _ _ Ht) as (ndc & Hndc & _). assert (c <> n) by congruence.
    destruct hd; run_in H; injection H as <- <-; cbn;
      rewrite ?insert_insert_eq, lookup_insert_eq, Hl; reflexivity.
  - destruct hd; run_in H; injection H as <- <-; cbn;
      rewrite ?insert_insert_eq, lookup_insert_eq, Hl; reflexivity.
Qed.

Lemma delete_snoc {A} (ls : list A) x : delete (length ls) (ls ++ [x]) = ls.
Proof.
  rewrite delete_take_drop, take_app_length, drop_ge by (rewrite length_app; cbn; lia).
  by rewrite app_nil_r.
Qed.

Lemma last_snoc_Some {A} (ls : list A) x : last (ls ++ [x]) = Some x.
Proof. by rewrite last_snoc. Qed.

(** A push followed by a pop at the same end of either list, in a
    well-formed store: the push that succeeds puts the first
    [element_size] bytes of the element at that end; the pop that
    follows returns [SUCCESS] (it does return when a non-null [output]
    has room for an element and, for [singly_list_pop_back], the fuel
    covers the nodes), copies exactly these bytes to [output] (when it
    is not null) and leaves the list with the elements it had before
    the push; the other lists are untouched. *)
Theorem list_push_pop_round_trip fuel h lp e output h1 :
  lists_ok h ->
  (forall l, slists h !! lp = Some l ->
     (singly_list_push_front (Some lp) (Some e) h = Ok SUCCESS h1 ->
      singly_list_elements h1 lp
      = take (Z.to_nat (sl_element_size l)) e :: singly_list_elements h lp /\
      (forall s r h2,
         singly_list_pop_front (Some lp) output h1 = Ok (s, r) h2 ->
         s = SUCCESS /\
         r = output ≫= (fun o => mem_copy o (take (Z.to_nat (sl_element_size l)) e)
                                      (sl_element_size l)) /\
         singly_list_elements h2 lp = singly_list_elements h lp /\
         sl_effect h h2 lp) /\
      ((forall o, output = Some o -> sl_element_size l <= Z.of_nat (length o)) ->
       exists h2,
         singly_list_pop_front (Some lp) output h1
         = Ok (SUCCESS,
               output ≫= (fun o => mem_copy o (take (Z.to_nat (sl_element_size l)) e)
                                        (sl_element_size l))) h2 /\
         singly_list_elements h2 lp = singly_list_elements h lp /\
         sl_effect h h2 lp)) /\
     (singly_list_push_back (Some lp) (Some e) h = Ok SUCCESS h1 ->
      singly_list_elements h1 lp
      = singly_list_elements h lp ++ [take (Z.to_nat (sl_element_size l)) e] /\
      (forall s r h2,
         singly_list_pop_back fuel (Some lp) output h1 = Ok (s, r) h2 ->
         s = SUCCESS /\
         r = output ≫= (fun o => mem_copy o (take (Z.to_nat (sl_element_size l)) e)
                                      (sl_element_size l)) /\
         singly_list_elements h2 lp = singly_list_elements h lp /\
         sl_effect h h2 lp) /\
      ((forall o, output = Some o -> sl_element_size l <= Z.of_nat (length o)) ->
         (S (length (singly_list_elements h lp)) <= fuel)%nat ->
       exists h2,
         singly_list_pop_back fuel (Some lp) output h1
         = Ok (SUCCESS,
               output ≫= (fun o => mem_copy o (take (Z.to_nat (sl_element_size l)) e)
                                        (sl_element_size l))) h2 /\
         singly_list_elements h2 lp = singly_list_elements h lp /\
         sl_effect h h2 lp))) /\
  (forall l, dlists h !! lp = Some l ->
     (doubly_list_push_front (Some lp) (Some e) h = Ok SUCCESS h1 ->
      doubly_list_elements h1 lp
      = take (Z.to_nat (dl_element_size l)) e :: doubly_list_elements h lp /\
      (forall s r h2,
         doubly_list_pop_front (Some lp) output h1 = Ok (s, r) h2 ->
         s = SUCCESS /\
         r = output ≫= (fun o => mem_copy o (take (Z.to_nat (dl_element_size l)) e)
                                      (dl_element_size l)) /\
         doubly_list_elements h2 lp = doubly_list_elements h lp /\
         dl_effect h h2 lp) /\
      ((forall o, output = Some o -> dl_element_size l <= Z.of_nat (length o)) ->
       exists h2,
         doubly_list_pop_front (Some lp) output h1
         = Ok (SUCCESS,
               output ≫= (fun o => mem_copy o (take (Z.to_nat (dl_element_size l)) e)
                                        (dl_element_size l))) h2 /\
         doubly_list_elements h2 lp = doubly_list_elements h lp /\
         dl_effect h h2 lp)) /\
     (doubly_list_push_back (Some lp) (Some e) h = Ok SUCCESS h1 ->
      doubly_list_elements h1 lp
      = doubly_list_elements h lp ++ [take (Z.to_nat (dl_element_size l)) e] /\
      (forall s r h2,
         doubly_list_pop_back (Some lp) output h1 = Ok (s, r) h2 ->
         s = SUCCESS /\
         r = output ≫= (fun o => mem_copy o (take (Z.to_nat (dl_element_size l)) e)
                                      (dl_element_size l)) /\
         doubly_list_elements h2 lp = doubly_list_elements h lp /\
         dl_effect h h2 lp) /\
      ((forall o, output = Some o -> dl_element_size l <= Z.of_nat (length o)) ->
       exists h2,
         doubly_list_pop_back (Some lp) output h1
         = Ok (SUCCESS,
               output ≫= (fun o => mem_copy o (take (Z.to_nat (dl_element_size l)) e)
                                        (dl_element_size l))) h2 /\
         doubly_list_elements h2 lp = doubly_list_elements h lp /\
         dl_effect h h2 lp))).
Proof.
  intros [Hs Hd]. split; intros l Hl; split; intros Hpush.
  - pose proof (singly_list_push_front_es _ _ _ _ _ Hs Hpush) as Hes.
    pose proof (singly_list_push_front_len _ _ _ _ _ Hl Hpush) as Hlen.
    apply singly_list_push_front_ok in Hpush as (Heff & _ & Hsucc); [|exact Hs].
    destruct (Hsucc eq_refl) as (n & l' & Hl' & Hnodes & Hel).
    assert (l' = l) as -> by congruence. split; [exact Hel|].
    pose proof Heff as (Hs1 & _).
    assert (Hold : forall s r h2,
      singly_list_pop_front (Some lp) output h1 = Ok (s, r) h2 ->
      s = SUCCESS /\
      r = output ≫= (fun o => mem_copy o (take (Z.to_nat (sl_element_size l)) e)
                                   (sl_element_size l)) /\
      singly_list_elements h2 lp = singly_list_elements h lp /\
      sl_effect h h2 lp).
    { intros s r h2 Hpop. pose proof Hes as Hes'.
      pose proof Hpop as Hpop'.
      apply singly_list_pop_front_ok in Hpop' as (Heff2 & Hfail & Hsucc2); [|exact Hs1].
      destruct (decide (s = SUCCESS)) as [->|Hne].
      2:{ destruct (Hfail Hne) as (_ & _ & _ & Hnil). rewrite Hnodes in Hnil. discriminate. }
      destruct (singly_list_pop_front_output _ _ _ _ _ Hs1 Hpop) as (l1 & x1 & Hl1 & Hx1 & ->).
      rewrite Hel in Hx1. injection Hx1 as <-.
      rewrite Hl1, Hl in Hes'. injection Hes' as ->.
      destruct (Hsucc2 eq_refl) as [_ Hel2]. rewrite Hel in Hel2.
      split_and!; [reflexivity | reflexivity | exact Hel2 | by eapply sl_effect_trans]. }
    split; [exact Hold|]. intros Hroom.
    rewrite Hl in Hes. destruct (slists h1 !! lp) as [l1|] eqn:Hl1; [|discriminate].
    injection Hes as Hes.
    destruct (singly_list_pop_front_returns h1 lp l1 output
                (take (Z.to_nat (sl_element_size l)) e) Hs1 Hl1) as (r & h2 & E).
    { by rewrite Hel. }
    { intros o Ho. rewrite Hes. apply mem_copy_room; [exact Hlen|by apply Hroom]. }
    destruct (Hold _ _ _ E) as (_ & -> & Hel2 & Heff2). by exists h2.
  - pose proof (singly_list_push_back_es _ _ _ _ _ Hs Hpush) as Hes.
    pose proof (singly_list_push_back_len _ _ _ _ _ Hl Hpush) as Hlen.
    apply singly_list_push_back_ok in Hpush as (Heff & _ & Hsucc); [|exact Hs].
    destruct (Hsucc eq_refl) as (n & l' & Hl' & Hnodes & Hel).
    assert (l' = l) as -> by congruence. split; [exact Hel|].
    pose proof Heff as (Hs1 & _).
    assert (Hold : forall s r h2,
      singly_list_pop_back fuel (Some lp) output h1 = Ok (s, r) h2 ->
      s = SUCCESS /\
      r = output ≫= (fun o => mem_copy o (take (Z.to_nat (sl_element_size l)) e)
                                   (sl_element_size l)) /\
      singly_list_elements h2 lp = singly_list_elements h lp /\
      sl_effect h h2 lp).
    { intros s r h2 Hpop. pose proof Hes as Hes'.
      pose proof Hpop as Hpop'.
      apply singly_list_pop_back_ok in Hpop' as (Heff2 & Hfail & Hsucc2); [|exact Hs1].
      destruct (decide (s = SUCCESS)) as [->|Hne].
      2:{ destruct (Hfail Hne) as (_ & _ & _ & Hnil). rewrite Hnodes in Hnil.
          by destruct (singly_list_nodes h lp). }
      destruct (singly_list_pop_back_output _ _ _ _ _ _ Hs1 Hpop) as (l1 & x1 & Hl1 & Hx1 & ->).
      rewrite Hel, last_snoc_Some in Hx1. injection Hx1 as <-.
      rewrite Hl1, Hl in Hes'. injection Hes' as ->.
      destruct (Hsucc2 eq_refl) as [_ Hel2].
      rewrite Hel, Hnodes, length_app in Hel2. cbn in Hel2.
      replace (length (singly_list_nodes h lp) + 1 - 1)%nat
        with (length (singly_list_elements h lp)) in Hel2
        by (rewrite singly_list_elements_length; lia).
      rewrite delete_snoc in Hel2.
      split_and!; [reflexivity | reflexivity | exact Hel2 | by eapply sl_effect_trans]. }
    split; [exact Hold|]. intros Hroom Hfuel.
    rewrite Hl in Hes. destruct (slists h1 !! lp) as [l1|] eqn:Hl1; [|discriminate].
    injection Hes as Hes.
    destruct (singly_list_pop_back_returns fuel h1 lp l1 output
                (take (Z.to_nat (sl_element_size l)) e) Hs1 Hl1) as (r & h2 & E).
    { by rewrite Hel, last_snoc_Some. }
    { intros o Ho. rewrite Hes. apply mem_copy_room; [exact Hlen|by apply Hroom]. }
      { rewrite Hel, length_app. cbn. lia. }
    destruct (Hold _ _ _ E) as (_ & -> & Hel2 & Heff2). by exists h2.
  - pose proof (doubly_list_push_front_es _ _ _ _ _ Hd Hpush) as Hes.
    pose proof (doubly_list_push_front_len _ _ _ _ _ Hl Hpush) as Hlen.
    apply doubly_list_push_front_ok in Hpush as (Heff & _ & Hsucc); [|exact Hd].
    destruct (Hsucc eq_refl) as (n & l' & Hl' & Hnodes & Hel).
    assert (l' = l) as -> by congruence. split; [exact Hel|].
    pose proof Heff as (Hs1 & _).
    assert (Hold : forall s r h2,
      doubly_list_pop_front (Some lp) output h1 = Ok (s, r) h2 ->
      s = SUCCESS /\
      r = output ≫= (fun o => mem_copy o (take (Z.to_nat (dl_element_size l)) e)
                                   (dl_element_size l)) /\
      doubly_list_elements h2 lp = doubly_list_elements h lp /\
      dl_effect h h2 lp).
    { intros s r h2 Hpop. pose proof Hes as Hes'.
      pose proof Hpop as Hpop'.
      apply doubly_list_pop_front_ok in Hpop' as (Heff2 & Hfail & Hsucc2); [|exact Hs1].
      destruct (decide (s = SUCCESS)) as [->|Hne].
      2:{ destruct (Hfail Hne) as (_ & _ & _ & Hnil). rewrite Hnodes in Hnil. discriminate. }
      destruct (doubly_list_pop_front_output _ _ _ _ _ Hs1 Hpop) as (l1 & x1 & Hl1 & Hx1 & ->).
      rewrite Hel in Hx1. injection Hx1 as <-.
      rewrite Hl1, Hl in Hes'. injection Hes' as ->.
      destruct (Hsucc2 eq_refl) as [_ Hel2]. rewrite Hel in Hel2.
      split_and!; [reflexivity | reflexivity | exact Hel2 | by eapply dl_effect_trans]. }
    split; [exact Hold|]. intros Hroom.
    rewrite Hl in Hes. destruct (dlists h1 !! lp) as [l1|] eqn:Hl1; [|discriminate].
    injection Hes as Hes.
    destruct (doubly_list_pop_front_returns h1 lp l1 output
                (take (Z.to_nat (dl_element_size l)) e) Hs1 Hl1) as (r & h2 & E).
    { by rewrite Hel. }
    { intros o Ho. rewrite Hes. apply mem_copy_room; [exact Hlen|by apply Hroom]. }
    destruct (Hold _ _ _ E) as (_ & -> & Hel2 & Heff2). by exists h2.
  - pose proof (doubly_list_push_back_es _ _ _ _ _ Hd Hpush) as Hes.
    pose proof (doubly_list_push_back_len _ _ _ _ _ Hl Hpush) as Hlen.
    apply doubly_list_push_back_ok in Hpush as (Heff & _ & Hsucc); [|exact Hd].
    destruct (Hsucc eq_refl) as (n & l' & Hl' & Hnodes & Hel).
    assert (l' = l) as -> by congruence. split; [exact Hel|].
    pose proof Heff as (Hs1 & _).
    assert (Hold : forall s r h2,
      doubly_list_pop_back (Some lp) output h1 = Ok (s, r) h2 ->
      s = SUCCESS /\
      r = output ≫= (fun o => mem_copy o (take (Z.to_nat (dl_element_size l)) e)
                                   (dl_element_size l)) /\
      doubly_list_elements h2 lp = doubly_list_elements h lp /\
      dl_effect h h2 lp).
    { intros s r h2 Hpop. pose proof Hes as Hes'.
      pose proof Hpop as Hpop'.
      apply doubly_list_pop_back_ok in Hpop' as (Heff2 & Hfail & Hsucc2); [|exact Hs1].
      destruct (decide (s = SUCCESS)) as [->|Hne].
      2:{ destruct (Hfail Hne) as (_ & _ & _ & Hnil). rewrite Hnodes in Hnil.
          by destruct (doubly_list_nodes h lp). }
      destruct (doubly_list_pop_back_output _ _ _ _ _ Hs1 Hpop) as (l1 & x1 & Hl1 & Hx1 & ->).
      rewrite Hel, last_snoc_Some in Hx1. injection Hx1 as <-.
      rewrite Hl1, Hl in Hes'. injection Hes' as ->.
      destruct (Hsucc2 eq_refl) as [_ Hel2].
      rewrite Hel, Hnodes, length_app in Hel2. cbn in Hel2.
      replace (length (doubly_list_nodes h lp) + 1 - 1)%nat
        with (length (doubly_list_elements h lp)) in Hel2
        by (rewrite doubly_list_elements_length; lia).
      rewrite delete_snoc in Hel2.
      split_and!; [reflexivity | reflexivity | exact Hel2 | by eapply dl_effect_trans]. }
    split; [exact Hold|]. intros Hroom.
    rewrite Hl in Hes. destruct (dlists h1 !! lp) as [l1|] eqn:Hl1; [|discriminate].
    injection Hes as Hes.
    destruct (doubly_list_pop_back_returns h1 lp l1 output
                (take (Z.to_nat (dl_element_size l)) e) Hs1 Hl1) as (r & h2 & E).
    { by rewrite Hel, last_snoc_Some. }
    { intros o Ho. rewrite Hes. apply mem_copy_room; [exact Hlen|by apply Hroom]. }
    destruct (Hold _ _ _ E) as (_ & -> & Hel2 & Heff2). by exists h2.
Qed.

Lemma list_push_pop_round_trip_witness :
  exists h1 h2,
    doubly_list_push_back (Some 600) (Some (elem4 Byte.x09)) demo_lists_heap
    = Ok SUCCESS h1 /\
    doubly_list_pop_back (Some 600) (Some (elem4 Byte.x00)) h1
    = Ok (SUCCESS, Some (elem4 Byte.x09)) h2 /\
    doubly_list_elements h2 600 = [].
Proof.
  destruct (doubly_list_push_back (Some 600) (Some (elem4 Byte.x09)) demo_lists_heap)
    as [s1 h1| |] eqn:E1; try (vm_compute in E1; discriminate E1).
  assert (s1 = SUCCESS) as -> by (vm_compute in E1; congruence).
  destruct (list_push_pop_round_trip 0 demo_lists_heap 600 (elem4 Byte.x09)
              (Some (elem4 Byte.x00)) h1 demo_lists_ok) as [_ H].
  destruct (H (mk_dlist None None 0 4) eq_refl) as [_ Hb].
  destruct (Hb E1) as (_ & _ & Hpop).
  destruct Hpop as (h2 & E2 & Hel & _).
  { intros o Ho. injection Ho as <-. cbn. lia. }
  exists h1, h2. split_and!; [reflexivity | exact (eq_trans E2 eq_refl) | by rewrite Hel].
Defined.

(* ===================================================================== *)
(** * Emptying and destroying a list *)
(* ===================================================================== *)

Lemma singly_list_clear_run fuel h lp l :
  slists_ok h -> slists h !! lp = Some l ->
  (length (singly_list_nodes h lp) <= fuel)%nat ->
  singly_list_clear fuel (Some lp) h
  = Ok tt (rset SLists (<[lp := mk_slist NULL NULL 0 (sl_element_size l)]> (slists h))
             (rset SNodes (drop_nodes (singly_list_nodes h lp) (snodes h)) h)).
Proof.
  intros Hok Hl Hfuel. unfold singly_list_clear.
  destruct (slists_ok_repr h lp Hok) as (l' & Hl' & Hh & Ht & Hsz & Hlk); [eauto|].
  rewrite Hl in Hl'. injection Hl' as <-. destruct l as [hd tl sz es]. cbn in Hh, Ht, Hsz.
  run. rewrite Hh.
  pose proof (singly_list_clear_loop_links fuel h _ Hlk) as Hloop.
  rewrite decide_True in Hloop by exact Hfuel. rewrite (bind_Ok _ _ _ _ _ Hloop).
  run. by rewrite !insert_insert_eq.
Qed.

Lemma singly_list_destroy_run fuel h lp l :
  slists_ok h -> slists h !! lp = Some l ->
  (length (singly_list_nodes h lp) <= fuel)%nat ->
  singly_list_destroy fuel (Some lp) h
  = Ok tt (rset SLists (delete lp (slists h))
             (rset SNodes (drop_nodes (singly_list_nodes h lp) (snodes h)) h)).
Proof.
  intros Hok Hl Hfuel. unfold singly_list_destroy.
  rewrite (bind_Ok _ _ _ _ _ (singly_list_clear_run fuel h lp l Hok Hl Hfuel)).
  run. by rewrite delete_insert_eq.
Qed.

Lemma doubly_list_clear_run fuel h lp l :
  dlists_ok h -> dlists h !! lp = Some l ->
  (length (doubly_list_nodes h lp) <= fuel)%nat ->
  doubly_list_clear fuel (Some lp) h
  = Ok tt (rset DLists (<[lp := mk_dlist NULL NULL 0 (dl_element_size l)]> (dlists h))
             (rset DNodes (drop_nodes (doubly_list_nodes h lp) (dnodes h)) h)).
Proof.
  intros Hok Hl Hfuel. unfold doubly_list_clear.
  destruct (dlists_ok_repr h lp Hok) as (l' & Hl' & Hh & Ht & Hsz & Hlk & Hbk); [eauto|].
  rewrite Hl in Hl'. injection Hl' as <-. destruct l as [hd tl sz es]. cbn in Hh, Ht, Hsz.
  run. rewrite Hh.
  pose proof (doubly_list_clear_loop_links fuel h _ Hlk) as Hloop.
  rewrite decide_True in Hloop by exact Hfuel. rewrite (bind_Ok _ _ _ _ _ Hloop).
  run. by rewrite !insert_insert_eq.
Qed.

Lemma doubly_list_destroy_run fuel h lp l :
  dlists_ok h -> dlists h !! lp = Some l ->
  (length (doubly_list_nodes h lp) <= fuel)%nat ->
  doubly_list_destroy fuel (Some lp) h
  = Ok tt (rset DLists (delete lp (dlists h))
             (rset DNodes (drop_nodes (doubly_list_nodes h lp) (dnodes h)) h)).
Proof.
  intros Hok Hl Hfuel. unfold doubly_list_destroy.
  rewrite (bind_Ok _ _ _ _ _ (doubly_list_clear_run fuel h lp l Hok Hl Hfuel)).
  run. by rewrite delete_insert_eq.
Qed.

(** [clear] and [destroy] of either list, in a well-formed store and
    with fuel for the nodes of the list: both return; every node of the
    list is released and no other node is; after [clear] the list is
    empty and keeps its element size, after [destroy] the list itself is
    released as well; the other lists are untouched. *)
Theorem list_clear_releases_nodes fuel h lp :
  lists_ok h ->
  (forall l, slists h !! lp = Some l ->
     (length (singly_list_elements h lp) <= fuel)%nat ->
     exists h1 h2,
       singly_list_clear fuel (Some lp) h = Ok tt h1 /\
       singly_list_destroy fuel (Some lp) h = Ok tt h2 /\
       slists h1 = <[lp := mk_slist NULL NULL 0 (sl_element_size l)]> (slists h) /\
       slists h2 = delete lp (slists h) /\
       snodes h2 = snodes h1 /\
       (forall a, snodes h1 !! a
                  = if decide (a ∈ singly_list_nodes h lp) then None else snodes h !! a) /\
       singly_list_elements h1 lp = [] /\
       sl_effect h h1 lp /\ sl_effect h h2 lp) /\
  (forall l, dlists h !! lp = Some l ->
     (length (doubly_list_elements h lp) <= fuel)%nat ->
     exists h1 h2,
       doubly_list_clear fuel (Some lp) h = Ok tt h1 /\
       doubly_list_destroy fuel (Some lp) h = Ok tt h2 /\
       dlists h1 = <[lp := mk_dlist NULL NULL 0 (dl_element_size l)]> (dlists h) /\
       dlists h2 = delete lp (dlists h) /\
       dnodes h2 = dnodes h1 /\
       (forall a, dnodes h1 !! a
                  = if decide (a ∈ doubly_list_nodes h lp) then None else dnodes h !! a) /\
       doubly_list_elements h1 lp = [] /\
       dl_effect h h1 lp /\ dl_effect h h2 lp).
Proof.
  intros [Hs Hd]. split; intros l Hl Hfuel.
  - rewrite singly_list_elements_length in Hfuel.
    pose proof (singly_list_clear_run fuel h lp l Hs Hl Hfuel) as Hc.
    pose proof (singly_list_destroy_run fuel h lp l Hs Hl Hfuel) as Hx.
    destruct (singly_list_clear_ok _ _ _ _ _ Hs Hc) as (Heff & Hnil & _).
    destruct (singly_list_destroy_ok _ _ _ _ _ Hs Hx) as (Heff2 & _).
    eexists _, _. split; [exact Hc|]. split; [exact Hx|].
    split_and!; try reflexivity; try assumption.
    + intros a. cbn. apply drop_nodes_lookup.
    + unfold singly_list_elements. by rewrite Hnil.
  - rewrite doubly_list_elements_length in Hfuel.
    pose proof (doubly_list_clear_run fuel h lp l Hd Hl Hfuel) as Hc.
    pose proof (doubly_list_destroy_run fuel h lp l Hd Hl Hfuel) as Hx.
    destruct (doubly_list_clear_ok _ _ _ _ _ Hd Hc) as (Heff & Hnil & _).
    destruct (doubly_list_destroy_ok _ _ _ _ _ Hd Hx) as (Heff2 & _).
    eexists _, _. split; [exact Hc|]. split; [exact Hx|].
    split_and!; try reflexivity; try assumption.
    + intros a. cbn. apply drop_nodes_lookup.
    + unfold doubly_list_elements. by rewrite Hnil.
Qed.

Lemma list_clear_releases_nodes_witness :
  exists h1,
    singly_list_clear 3 (Some 400) demo_lists_heap = Ok tt h1 /\
    snodes h1 = ∅ /\ slists h1 !! 400 = Some (mk_slist NULL NULL 0 4) /\
    dnodes h1 = dnodes demo_lists_heap.
Proof.
  destruct (list_clear_releases_nodes 3 demo_lists_heap 400 demo_lists_ok) as [H _].
  destruct (H (mk_slist (Some 410) (Some 430) 3 4) eq_refl ltac:(vm_compute; lia))
    as (h1 & h2 & Hc & _ & Hl & _ & _ & Hn & _ & Heff & _).
  exists h1. split_and!; [exact Hc | | | apply Heff].
  - apply map_eq. intros a. rewrite Hn, lookup_empty.
    destruct (decide (a ∈ singly_list_nodes demo_lists_heap 400)) as [|Hnin];
      [reflexivity|].
    change (singly_list_nodes demo_lists_heap 400) with [410; 420; 430] in Hnin.
    cbn. rewrite !lookup_insert_ne, lookup_singleton_ne; [reflexivity | ..];
      intros <-; apply Hnin; set_solver.
  - rewrite Hl. apply lookup_insert_eq.
Defined.

(* ===================================================================== *)
(** * Copying a list *)
(* ===================================================================== *)

Lemma singly_list_copy_loop_elements fuel fuel0 sp dp es :
  forall k h h1,
  slists_ok h -> sp <> dp -> is_Some (slists h !! sp) ->
  sl_element_size <$> slists h !! dp = Some es ->
  singly_list_copy_loop fuel fuel0 (singly_list_nodes h sp !! k) dp h = Ok (Some dp) h1 ->
  singly_list_elements h1 dp
  = singly_list_elements h dp
    ++ (take (Z.to_nat es) <$> drop k (singly_list_elements h sp)) /\
  sl_element_size <$> slists h1 !! dp = Some es.
Proof.
  induction fuel as [|fuel IH]; intros k h h1 Hok Hne Hsp Hdp H;
    destruct (singly_list_nodes h sp !! k) as [c|] eqn:Hc; cbn in H; try discriminate H.
  1,3: minv H; rewrite drop_ge, app_nil_r
         by (rewrite singly_list_elements_length; by apply lookup_ge_None);
       split; [reflexivity | exact Hdp].
  apply bind_inv in H as (d & h0 & E & H). minv E. rename E into Hndc. cbn in Hndc.
  apply bind_inv in H as (res & h0 & Hp & H).
  pose proof (singly_list_push_back_es _ _ _ _ _ Hok Hp) as Hes.
  apply singly_list_push_back_ok in Hp as (Heff & _ & Hsucc); [|exact Hok].
  destruct (is_success res) eqn:Hres; cbn in H.
  2:{ apply bind_inv in H as (u & h2 & _ & H). minv H. }
  apply is_success_true in Hres as ->.
  destruct (Hsucc eq_refl) as (n & l' & Hl' & _ & Hel).
  rewrite Hl' in Hdp. cbn in Hdp. injection Hdp as Hdp. rewrite Hdp in Hel.
  rewrite Hl' in Hes. cbn in Hes. rewrite Hdp in Hes.
  destruct Heff as (Hok0 & Hfr & _). destruct (Hfr sp Hne) as (Hlsp & Hnsp & Helsp).
  apply bind_inv in H as (nx & h2 & E' & H). minv E'. rename E' into Hndc0.
  cbn in Hndc0.
  assert (is_Some (slists h0 !! sp)) as Hsp0 by (by rewrite Hlsp).
  destruct (slists_ok_repr h0 sp Hok0 Hsp0) as (l0 & _ & _ & _ & _ & Hlk).
  rewrite Hnsp in Hlk. destruct (Hlk _ _ Hc) as (nd & Hnd & Hnx).
  assert (nd = x0) as -> by congruence. rewrite Hnx in H.
  rewrite <- Hnsp in H.
  destruct (IH _ _ _ Hok0 Hne Hsp0 Hes H) as [Hel1 Hes1].
  split; [|exact Hes1].
  rewrite Hel1, Hel, Helsp, <- app_assoc. f_equal.
  rewrite (drop_S _ (sn_data x) k) by (by eapply singly_list_elements_lookup).
  reflexivity.
Qed.

Lemma doubly_list_copy_loop_elements fuel fuel0 sp dp es :
  forall k h h1,
  dlists_ok h -> sp <> dp -> is_Some (dlists h !! sp) ->
  dl_element_size <$> dlists h !! dp = Some es ->
  doubly_list_copy_loop fuel fuel0 (doubly_list_nodes h sp !! k) dp h = Ok (Some dp) h1 ->
  doubly_list_elements h1 dp
  = doubly_list_elements h dp
    ++ (take (Z.to_nat es) <$> drop k (doubly_list_elements h sp)) /\
  dl_element_size <$> dlists h1 !! dp = Some es.
Proof.
  induction fuel as [|fuel IH]; intros k h h1 Hok Hne Hsp Hdp H;
    destruct (doubly_list_nodes h sp !! k) as [c|] eqn:Hc; cbn in H; try discriminate H.
  1,3: minv H; rewrite drop_ge, app_nil_r
         by (rewrite doubly_list_elements_length; by apply lookup_ge_None);
       split; [reflexivity | exact Hdp].
  apply bind_inv in H as (d & h0 & E & H). minv E. rename E into Hndc. cbn in Hndc.
  apply bind_inv in H as (res & h0 & Hp & H).
  pose proof (doubly_list_push_back_es _ _ _ _ _ Hok Hp) as Hes.
  apply doubly_list_push_back_ok in Hp as (Heff & _ & Hsucc); [|exact Hok].
  destruct (is_success res) eqn:Hres; cbn in H.
  2:{ apply bind_inv in H as (u & h2 & _ & H). minv H. }
  apply is_success_true in Hres as ->.
  destruct (Hsucc eq_refl) as (n & l' & Hl' & _ & Hel).
  rewrite Hl' in Hdp. cbn in Hdp. injection Hdp as Hdp. rewrite Hdp in Hel.
  rewrite Hl' in Hes. cbn in Hes. rewrite Hdp in Hes.
  destruct Heff as (Hok0 & Hfr & _). destruct (Hfr sp Hne) as (Hlsp & Hnsp & Helsp).
  apply bind_inv in H as (nx & h2 & E' & H). minv E'. rename E' into Hndc0.
  cbn in Hndc0.
  assert (is_Some (dlists h0 !! sp)) as Hsp0 by (by rewrite Hlsp).
  destruct (dlists_ok_repr h0 sp Hok0 Hsp0) as (l0 & _ & _ & _ & _ & Hlk & _).
  rewrite Hnsp in Hlk. destruct (Hlk _ _ Hc) as (nd & Hnd & Hnx).
  assert (nd = x0) as -> by congruence. rewrite Hnx in H.
  rewrite <- Hnsp in H.
  destruct (IH _ _ _ Hok0 Hne Hsp0 Hes H) as [Hel1 Hes1].
  split; [|exact Hes1].
  rewrite Hel1, Hel, Helsp, <- app_assoc. f_equal.
  rewrite (drop_S _ (dn_data x) k) by (by eapply doubly_list_elements_lookup).
  reflexivity.
Qed.

Lemma singly_list_copy_elements fuel h sp l dp h1 :
  slists_ok h -> slists h !! sp = Some l ->
  singly_list_copy fuel (Some sp) h = Ok (Some dp) h1 ->
  slists h !! dp = None /\
  sl_element_size <$> slists h1 !! dp = Some (sl_element_size l) /\
  singly_list_elements h1 dp
  = take (Z.to_nat (sl_element_size l)) <$> singly_list_elements h sp.
Proof.
  intros Hok Hl H. unfold singly_list_copy in H.
  apply bind_inv in H as (es & h0 & E & H). minv E. rename E into Hl'. cbn in Hl'.
  assert (x = l) as -> by congruence. clear Hl'.
  apply bind_inv in H as (dest & h0 & Hc & H).
  apply singly_list_create_ok in Hc; [|exact Hok]. destruct dest as [dp'|]; [|by minv H].
  destruct Hc as (Hfresh & Heff & Hnil & ld & Hld & Hes).
  apply bind_inv in H as (cur & h2 & E' & H). minv E'. rename E' into Hl0. cbn in Hl0.
  assert (sp <> dp') as Hne by congruence.
  destruct Heff as (Hok0 & Hfr & _). destruct (Hfr sp Hne) as (Hlsp & Hnsp & Helsp).
  destruct (slists_ok_repr h0 sp Hok0) as (l0 & Hl0' & Hh & _); [eauto|].
  assert (l0 = x) as -> by congruence. rewrite Hh, head_lookup in H.
  assert (dp' = dp) as ->.
  { apply singly_list_copy_loop_ok in H as [_ [E|E]]; [discriminate E|congruence|exact Hok0]. }
  eapply singly_list_copy_loop_elements in H as [Hel Hes1];
    [ | exact Hok0 | exact Hne | eauto | by rewrite Hld; cbn; rewrite Hes ].
  split_and!; [exact Hfresh | exact Hes1 |].
  rewrite Hel, drop_0, Helsp. unfold singly_list_elements at 1. by rewrite Hnil.
Qed.

Lemma doubly_list_copy_elements fuel h sp l dp h1 :
  dlists_ok h -> dlists h !! sp = Some l ->
  doubly_list_copy fuel (Some sp) h = Ok (Some dp) h1 ->
  dlists h !! dp = None /\
  dl_element_size <$> dlists h1 !! dp = Some (dl_element_size l) /\
  doubly_list_elements h1 dp
  = take (Z.to_nat (dl_element_size l)) <$> doubly_list_elements h sp.
Proof.
  intros Hok Hl H. unfold doubly_list_copy in H.
  apply bind_inv in H as (es & h0 & E & H). minv E. rename E into Hl'. cbn in Hl'.
  assert (x = l) as -> by congruence. clear Hl'.
  apply bind_inv in H as (dest & h0 & Hc & H).
  apply doubly_list_create_ok in Hc; [|exact Hok]. destruct dest as [dp'|]; [|by minv H].
  destruct Hc as (Hfresh & Heff & Hnil & ld & Hld & Hes).
  apply bind_inv in H as (cur & h2 & E' & H). minv E'. rename E' into Hl0. cbn in Hl0.
  assert (sp <> dp') as Hne by congruence.
  destruct Heff as (Hok0 & Hfr & _). destruct (Hfr sp Hne) as (Hlsp & Hnsp & Helsp).
  destruct (dlists_ok_repr h0 sp Hok0) as (l0 & Hl0' & Hh & _); [eauto|].
  assert (l0 = x) as -> by congruence. rewrite Hh, head_lookup in H.
  assert (dp' = dp) as ->.
  { apply doubly_list_copy_loop_ok in H as [_ [E|E]]; [discriminate E|congruence|exact Hok0]. }
  eapply doubly_list_copy_loop_elements in H as [Hel Hes1];
    [ | exact Hok0 | exact Hne | eauto | by rewrite Hld; cbn; rewrite Hes ].
  split_and!; [exact Hfresh | exact Hes1 |].
  rewrite Hel, drop_0, Helsp. unfold doubly_list_elements at 1. by rewrite Hnil.
Qed.

(** [copy] of either list, in a well-formed store: whatever it returns,
    the store stays well formed and every list that existed keeps its
    fields and its elements, the source included; when it returns a
    list, that list is a new one with the element size of the source,
    and its elements are those of the source, in the same order (each
    one the first [element_size] bytes of the source's, which is all of
    it for a list filled through this interface).  With fuel for the
    nodes of the source the call does not run out of fuel. *)
Theorem list_copy_spec fuel h sp r h1 :
  lists_ok h ->
  (forall l, slists h !! sp = Some l ->
     ((length (singly_list_elements h sp) <= fuel)%nat ->
      singly_list_copy fuel (Some sp) h <> OutOfFuel) /\
     (singly_list_copy fuel (Some sp) h = Ok r h1 ->
      slists_ok h1 /\
      vectors h1 = vectors h /\ buffers h1 = buffers h /\
      dlists h1 = dlists h /\ dnodes h1 = dnodes h /\
      (forall lp, is_Some (slists h !! lp) ->
                  slists h1 !! lp = slists h !! lp /\
                  singly_list_elements h1 lp = singly_list_elements h lp) /\
      (forall dp, r = Some dp ->
         slists h !! dp = None /\
         sl_element_size <$> slists h1 !! dp = Some (sl_element_size l) /\
         singly_list_elements h1 dp
         = take (Z.to_nat (sl_element_size l)) <$> singly_list_elements h sp))) /\
  (forall l, dlists h !! sp = Some l ->
     ((length (doubly_list_elements h sp) <= fuel)%nat ->
      doubly_list_copy fuel (Some sp) h <> OutOfFuel) /\
     (doubly_list_copy fuel (Some sp) h = Ok r h1 ->
      dlists_ok h1 /\
      vectors h1 = vectors h /\ buffers h1 = buffers h /\
      slists h1 = slists h /\ snodes h1 = snodes h /\
      (forall lp, is_Some (dlists h !! lp) ->
                  dlists h1 !! lp = dlists h !! lp /\
                  doubly_list_elements h1 lp = doubly_list_elements h lp) /\
      (forall dp, r = Some dp ->
         dlists h !! dp = None /\
         dl_element_size <$> dlists h1 !! dp = Some (dl_element_size l) /\
         doubly_list_elements h1 dp
         = take (Z.to_nat (dl_element_size l)) <$> doubly_list_elements h sp))).
Proof.
  intros [Hs Hd]. split; intros l Hl; split.
  - intros Hfuel. apply singly_list_copy_noof; [exact Hs|].
    intros lp [= <-]. by rewrite <- singly_list_elements_length.
  - intros H. pose proof H as H'.
    apply singly_list_copy_ok in H' as (? & ? & ? & ? & ? & ?); [|exact Hs].
    split_and!; try assumption. intros dp ->.
    by eapply singly_list_copy_elements.
  - intros Hfuel. apply doubly_list_copy_noof; [exact Hd|].
    intros lp [= <-]. by rewrite <- doubly_list_elements_length.
  - intros H. pose proof H as H'.
    apply doubly_list_copy_ok in H' as (? & ? & ? & ? & ? & ?); [|exact Hd].
    split_and!; try assumption. intros dp ->.
    by eapply doubly_list_copy_elements.
Qed.

Lemma list_copy_spec_witness :
  exists dp h1,
    singly_list_copy 3 (Some 400) demo_lists_rich = Ok (Some dp) h1 /\
    singly_list_elements h1 dp = [elem4 Byte.x01; elem4 Byte.x02; elem4 Byte.x03] /\
    singly_list_elements h1 400 = [elem4 Byte.x01; elem4 Byte.x02; elem4 Byte.x03].
Proof.
  destruct (singly_list_copy 3 (Some 400) demo_lists_rich) as [r h1| |] eqn:E;
    try (vm_compute in E; discriminate E).
  destruct r as [dp|]; [|vm_compute in E; discriminate E].
  destruct (list_copy_spec 3 demo_lists_rich 400 (Some dp) h1
              (proj2 (demo_lists_store_ok _)))
    as [H _].
  destruct (H (mk_slist (Some 410) (Some 430) 3 4) eq_refl) as [_ Hc].
  destruct (Hc E) as (_ & _ & _ & _ & _ & Hold & Hnew).
  destruct (Hnew dp eq_refl) as (_ & _ & Hel).
  destruct (Hold 400 ltac:(by eexists)) as [_ Hel0].
  exists dp, h1. split_and!; [reflexivity | by rewrite Hel | by rewrite Hel0].
Defined.

(* ===================================================================== *)
(** * Searching a list *)
(* ===================================================================== *)

Lemma to_int_small z : 0 <= z < 2 ^ 31 -> to_int z = z.
Proof. unfold to_int. intros H. rewrite Z.mod_small by lia. lia. Qed.

Lemma list_find_index_lt {A} (P : A -> Prop) `{forall x, Decision (P x)} (l : list A) i x :
  list_find P l = Some (i, x) -> (i < length l)%nat.
Proof. intros Hf. apply list_find_Some in Hf as (Hi & _). by eapply lookup_lt_Some. Qed.

Lemma singly_list_find_loop_from h ls e (cmp : cmp_fn) :
  links sn_next (snodes h) ls -> Z.of_nat (length ls) <= SIZE_MAX ->
  forall n k, (k + n = length ls)%nat ->
  singly_list_find_loop n (Z.of_nat k) (ls !! k) e cmp h
  = Ok (match list_find (fun x => cmp x e = 0) (drop k (sn_data_at h <$> ls)) with
        | Some (j, _) => to_int (Z.of_nat (k + j))
        | None => -1
        end) h.
Proof.
  intros Hlk Hb. induction n as [|n IH]; intros k Hk.
  - rewrite drop_ge by (rewrite length_fmap; lia). reflexivity.
  - destruct (lookup_lt_is_Some_2 ls k) as [a Ha]; [lia|].
    destruct (Hlk _ _ Ha) as (nd & Hnd & Hnx). rewrite Ha. cbn [singly_list_find_loop].
    fwd. rewrite (drop_S _ (sn_data nd) k)
      by (rewrite list_lookup_fmap, Ha; cbn; unfold sn_data_at; by rewrite Hnd).
    cbn [list_find]. destruct (Z.eqb_spec (cmp (sn_data nd) e) 0) as [E|E].
    + rewrite decide_True by exact E. by rewrite Nat.add_0_r.
    + rewrite decide_False by exact E. rewrite Hnx.
      rewrite to_size_t_small by lia.
      replace (Z.of_nat k + 1) with (Z.of_nat (S k)) by lia.
      rewrite IH by lia.
      destruct (list_find _ (drop (S k) _)) as [[j x]|]; cbn; [|reflexivity].
      do 3 f_equal. lia.
Qed.

Lemma doubly_list_find_loop_from h ls e (cmp : cmp_fn) :
  links dn_next (dnodes h) ls -> Z.of_nat (length ls) <= SIZE_MAX ->
  forall n k, (k + n = length ls)%nat ->
  doubly_list_find_loop n (Z.of_nat k) (ls !! k) e cmp h
  = Ok (match list_find (fun x => cmp x e = 0) (drop k (dn_data_at h <$> ls)) with
        | Some (j, _) => to_int (Z.of_nat (k + j))
        | None => -1
        end) h.
Proof.
  intros Hlk Hb. induction n as [|n IH]; intros k Hk.
  - rewrite drop_ge by (rewrite length_fmap; lia). reflexivity.
  - destruct (lookup_lt_is_Some_2 ls k) as [a Ha]; [lia|].
    destruct (Hlk _ _ Ha) as (nd & Hnd & Hnx). rewrite Ha. cbn [doubly_list_find_loop].
    fwd. rewrite (drop_S _ (dn_data nd) k)
      by (rewrite list_lookup_fmap, Ha; cbn; unfold dn_data_at; by rewrite Hnd).
    cbn [list_find]. destruct (Z.eqb_spec (cmp (dn_data nd) e) 0) as [E|E].
    + rewrite decide_True by exact E. by rewrite Nat.add_0_r.
    + rewrite decide_False by exact E. rewrite Hnx.
      rewrite to_size_t_small by lia.
      replace (Z.of_nat k + 1) with (Z.of_nat (S k)) by lia.
      rewrite IH by lia.
      destruct (list_find _ (drop (S k) _)) as [[j x]|]; cbn; [|reflexivity].
      do 3 f_equal. lia.
Qed.

Lemma singly_list_find_elements h lp l e (cmp : cmp_fn) :
  slists_ok h -> slists h !! lp = Some l ->
  singly_list_find (Some lp) (Some e) (Some cmp) h
  = Ok (match list_find (fun x => cmp x e = 0) (singly_list_elements h lp) with
        | Some (j, _) => to_int (Z.of_nat j)
        | None => -1
        end) h.
Proof.
  intros Hok Hl. unfold singly_list_find. fwd.
  destruct (slists_ok_repr h lp Hok) as (l' & Hl' & Hh & _ & Hsz & Hlk); [eauto|].
  assert (l' = l) as -> by congruence.
  rewrite Hh, Hsz, Nat2Z.id, head_lookup.
  apply (singly_list_find_loop_from h _ e cmp Hlk
           (links_length_bound _ _ _ Hlk (proj1 Hok)) _ 0%nat). lia.
Qed.

Lemma doubly_list_find_elements h lp l e (cmp : cmp_fn) :
  dlists_ok h -> dlists h !! lp = Some l ->
  doubly_list_find (Some lp) (Some e) (Some cmp) h
  = Ok (match list_find (fun x => cmp x e = 0) (doubly_list_elements h lp) with
        | Some (j, _) => to_int (Z.of_nat j)
        | None => -1
        end) h.
Proof.
  intros Hok Hl. unfold doubly_list_find. fwd.
  destruct (dlists_ok_repr h lp Hok) as (l' & Hl' & Hh & _ & Hsz & Hlk & _); [eauto|].
  assert (l' = l) as -> by congruence.
  rewrite Hh, Hsz, Nat2Z.id, head_lookup.
  apply (doubly_list_find_loop_from h _ e cmp Hlk (dlists_ok_bound h lp Hok) _ 0%nat). lia.
Qed.

Lemma find_result_contains {A} (P : A -> Prop) `{forall x, Decision (P x)} (l : list A) :
  Z.of_nat (length l) <= 2 ^ 31 ->
  (0 <=? match list_find P l with
         | Some (j, _) => to_int (Z.of_nat j)
         | None => -1
         end) = bool_decide (Exists P l).
Proof.
  intros Hlen. destruct (list_find P l) as [[j x]|] eqn:Hf.
  - pose proof (list_find_index_lt _ _ _ _ Hf).
    apply list_find_Some in Hf as (Hj & HP & _).
    rewrite to_int_small by lia. rewrite bool_decide_eq_true_2.
    + apply Z.leb_le. lia.
    + apply Exists_exists. exists x. split; [|exact HP].
      by eapply list_elem_of_lookup_2.
  - apply list_find_None in Hf. rewrite bool_decide_eq_false_2; [reflexivity|].
    intros Hex. apply Exists_exists in Hex as (x & Hin & HP).
    rewrite Forall_forall in Hf. by apply (Hf x).
Qed.

(** [find] and [contains] of either list, in a well-formed store, with
    an element and a comparison: they change nothing; [find] returns
    the position of the first element the comparison finds equal to the
    given one (converted to [int]), or -1 when there is none; for a list
    of at most 2^31 elements [contains] tells whether there is one. *)
Theorem list_find_spec h lp e (cmp : cmp_fn) :
  lists_ok h ->
  (forall l, slists h !! lp = Some l ->
     singly_list_find (Some lp) (Some e) (Some cmp) h
     = Ok (match list_find (fun x => cmp x e = 0) (singly_list_elements h lp) with
           | Some (j, _) => to_int (Z.of_nat j)
           | None => -1
           end) h /\
     (Z.of_nat (length (singly_list_elements h lp)) <= 2 ^ 31 ->
      singly_list_contains (Some lp) (Some e) (Some cmp) h
      = Ok (bool_decide (Exists (fun x => cmp x e = 0) (singly_list_elements h lp))) h)) /\
  (forall l, dlists h !! lp = Some l ->
     doubly_list_find (Some lp) (Some e) (Some cmp) h
     = Ok (match list_find (fun x => cmp x e = 0) (doubly_list_elements h lp) with
           | Some (j, _) => to_int (Z.of_nat j)
           | None => -1
           end) h /\
     (Z.of_nat (length (doubly_list_elements h lp)) <= 2 ^ 31 ->
      doubly_list_contains (Some lp) (Some e) (Some cmp) h
      = Ok (bool_decide (Exists (fun x => cmp x e = 0) (doubly_list_elements h lp))) h)).
Proof.
  intros [Hs Hd]. split; intros l Hl.
  - pose proof (singly_list_find_elements h lp l e cmp Hs Hl) as Hf.
    split; [exact Hf|]. intros Hlen. unfold singly_list_contains.
    rewrite (bind_Ok _ _ _ _ _ Hf). unfold ret. f_equal.
    by apply find_result_contains.
  - pose proof (doubly_list_find_elements h lp l e cmp Hd Hl) as Hf.
    split; [exact Hf|]. intros Hlen. unfold doubly_list_contains.
    rewrite (bind_Ok _ _ _ _ _ Hf). unfold ret. f_equal.
    by apply find_result_contains.
Qed.

Lemma list_find_spec_witness :
  singly_list_find (Some 400) (Some (elem4 Byte.x03)) (Some (cmp_bytes 4)) demo_lists_heap
  = Ok 2 demo_lists_heap /\
  doubly_list_contains (Some 500) (Some (elem4 Byte.x07)) (Some (cmp_bytes 4))
    demo_lists_heap
  = Ok false demo_lists_heap.
Proof.
  split.
  - destruct (list_find_spec demo_lists_heap 400 (elem4 Byte.x03) (cmp_bytes 4)
                demo_lists_ok) as [H _].
    destruct (H (mk_slist (Some 410) (Some 430) 3 4) eq_refl) as [Hf _].
    exact (eq_trans Hf eq_refl).
  - destruct (list_find_spec demo_lists_heap 500 (elem4 Byte.x07) (cmp_bytes 4)
                demo_lists_ok) as [_ H].
    destruct (H (mk_dlist (Some 510) (Some 530) 3 4) eq_refl) as [_ Hc].
    exact (eq_trans (Hc ltac:(vm_compute; discriminate)) eq_refl).
Defined.

(* ===================================================================== *)
(** * Reading and overwriting an element of a list *)
(* ===================================================================== *)


Lemma singly_list_get_elements h lp l index out :
  slists_ok h -> slists h !! lp = Some l -> 0 <= index ->
  singly_list_get (Some lp) index (Some out) h
  = match singly_list_elements h lp !! Z.to_nat index with
    | Some x =>
        match mem_copy out x (sl_element_size l) with
        | Some out' => Ok (SUCCESS, Some out') h
        | None => Fault
        end
    | None => Ok (ERROR_INDEX_OUT_OF_BOUNDS, Some out) h
    end.
Proof.
  intros Hok Hl Hi.
  pose proof (slists_ok_repr h lp Hok ltac:(eauto)) as Hrepr.
  destruct (singly_list_nodes h lp !! Z.to_nat index) as [a|] eqn:Ha.
  - pose proof Hrepr as (_ & _ & _ & _ & _ & Hlk).
    destruct (Hlk _ _ Ha) as (nd & Hnd & _).
    rewrite (singly_list_elements_lookup _ _ _ _ _ Ha Hnd).
    by eapply singly_list_get_repr.
  - unfold singly_list_elements. rewrite list_lookup_fmap, Ha. cbn.
    unfold singly_list_get.
    rewrite (bind_Ok _ _ _ _ _ (get_node_at_repr h lp _ index Hrepr Hi)).
    by rewrite Ha.
Qed.

Lemma doubly_list_get_elements h lp l index out :
  dlists_ok h -> dlists h !! lp = Some l -> 0 <= index ->
  doubly_list_get (Some lp) index (Some out) h
  = match doubly_list_elements h lp !! Z.to_nat index with
    | Some x =>
        match mem_copy out x (dl_element_size l) with
        | Some out' => Ok (SUCCESS, Some out') h
        | None => Fault
        end
    | None => Ok (ERROR_INDEX_OUT_OF_BOUNDS, Some out) h
    end.
Proof.
  intros Hok Hl Hi.
  pose proof (dlists_ok_repr h lp Hok ltac:(eauto)) as Hrepr.
  pose proof (dlists_ok_bound h lp Hok) as Hb.
  destruct (doubly_list_nodes h lp !! Z.to_nat index) as [a|] eqn:Ha.
  - pose proof Hrepr as (_ & _ & _ & _ & _ & Hlk & _).
    destruct (Hlk _ _ Ha) as (nd & Hnd & _).
    rewrite (doubly_list_elements_lookup _ _ _ _ _ Ha Hnd).
    by eapply doubly_list_get_repr.
  - unfold doubly_list_elements. rewrite list_lookup_fmap, Ha. cbn.
    unfold doubly_list_get.
    rewrite (bind_Ok _ _ _ _ _ (get_doubly_node_at_repr h lp _ index Hrepr Hi Hb)).
    by rewrite Ha.
Qed.





(* ===================================================================== *)
(** * Walking a list with an iterator *)
(* ===================================================================== *)

Lemma singly_list_iter_next_at h lp l k it out :
  slists_ok h -> slists h !! lp = Some l -> sl_iter_at h lp k it ->
  match singly_list_elements h lp !! k with
  | Some x =>
      match mem_copy out x (sl_element_size l) with
      | Some out' =>
          exists it', singly_list_iter_next (Some it) (Some out) h
                      = Ok (SUCCESS, Some it', Some out') h /\
                      sl_iter_at h lp (S k) it'
      | None => singly_list_iter_next (Some it) (Some out) h = Fault
      end
  | None => singly_list_iter_next (Some it) (Some out) h
            = Ok (ERROR_INVALID_INPUT, Some it, Some out) h
  end.
Proof.
  intros Hok Hl (Hlp & Hc & Hp).
  destruct (slists_ok_repr h lp Hok) as (l' & _ & _ & _ & _ & Hlk); [eauto|].
  pose proof (links_length_bound _ _ _ Hlk (proj1 Hok)) as Hb.
  unfold singly_list_elements. rewrite list_lookup_fmap.
  unfold singly_list_iter_next, sl_iter_copy_out. rewrite Hc.
  destruct (singly_list_nodes h lp !! k) as [c|] eqn:Hk; cbn [fmap option_fmap option_map];
    [|reflexivity].
  destruct (Hlk _ _ Hk) as (nd & Hnd & Hnx). unfold sn_data_at. rewrite Hnd, Hlp.
  unfold copy_out.
  destruct (mem_copy out (sn_data nd) (sl_element_size l)) as [out'|] eqn:Hcp;
    [|run; by rewrite Hcp].
  eexists. split; [run; rewrite Hcp; run; reflexivity|].
  apply lookup_lt_Some in Hk.
  split_and!; cbn; [exact Hlp | exact Hnx |].
  rewrite Hp. rewrite to_size_t_small by lia. lia.
Qed.

Lemma doubly_list_iter_next_at h lp l k it out :
  dlists_ok h -> dlists h !! lp = Some l -> dl_iter_at h lp k it ->
  match doubly_list_elements h lp !! k with
  | Some x =>
      match mem_copy out x (dl_element_size l) with
      | Some out' =>
          exists it', doubly_list_iter_next (Some it) (Some out) h
                      = Ok (SUCCESS, Some it', Some out') h /\
                      dl_iter_at h lp (S k) it'
      | None => doubly_list_iter_next (Some it) (Some out) h = Fault
      end
  | None => doubly_list_iter_next (Some it) (Some out) h
            = Ok (ERROR_INVALID_INPUT, Some it, Some out) h
  end.
Proof.
  intros Hok Hl (Hlp & Hc & Hp).
  destruct (dlists_ok_repr h lp Hok) as (l' & _ & _ & _ & _ & Hlk & _); [eauto|].
  pose proof (dlists_ok_bound h lp Hok) as Hb.
  unfold doubly_list_elements. rewrite list_lookup_fmap.
  unfold doubly_list_iter_next, dl_iter_copy_out. rewrite Hc.
  destruct (doubly_list_nodes h lp !! k) as [c|] eqn:Hk; cbn [fmap option_fmap option_map];
    [|reflexivity].
  destruct (Hlk _ _ Hk) as (nd & Hnd & Hnx). unfold dn_data_at. rewrite Hnd, Hlp.
  unfold copy_out.
  destruct (mem_copy out (dn_data nd) (dl_element_size l)) as [out'|] eqn:Hcp;
    [|run; by rewrite Hcp].
  eexists. split; [run; rewrite Hcp; run; reflexivity|].
  apply lookup_lt_Some in Hk.
  split_and!; cbn; [exact Hlp | exact Hnx |].
  rewrite Hp. rewrite to_size_t_small by lia. lia.
Qed.

Lemma doubly_list_iter_prev_at h lp l k it out :
  dlists_ok h -> dlists h !! lp = Some l -> dl_iter_at h lp k it ->
  match doubly_list_elements h lp !! k with
  | Some x =>
      match mem_copy out x (dl_element_size l) with
      | Some out' =>
          exists it', doubly_list_iter_prev (Some it) (Some out) h
                      = Ok (SUCCESS, Some it', Some out') h /\
                      match k with
                      | S j => dl_iter_at h lp j it'
                      | O => dli_current it' = None /\ dli_position it' = SIZE_MAX
                      end
      | None => doubly_list_iter_prev (Some it) (Some out) h = Fault
      end
  | None => doubly_list_iter_prev (Some it) (Some out) h
            = Ok (ERROR_INVALID_INPUT, Some it, Some out) h
  end.
Proof.
  intros Hok Hl (Hlp & Hc & Hp).
  destruct (dlists_ok_repr h lp Hok) as (l' & _ & _ & _ & _ & Hlk & Hbk); [eauto|].
  pose proof (dlists_ok_bound h lp Hok) as Hb.
  unfold doubly_list_elements. rewrite list_lookup_fmap.
  unfold doubly_list_iter_prev, dl_iter_copy_out. rewrite Hc.
  destruct (doubly_list_nodes h lp !! k) as [c|] eqn:Hk; cbn [fmap option_fmap option_map];
    [|reflexivity].
  destruct (Hbk _ _ Hk) as (nd & Hnd & Hpv). unfold dn_data_at. rewrite Hnd, Hlp.
  unfold copy_out.
  destruct (mem_copy out (dn_data nd) (dl_element_size l)) as [out'|] eqn:Hcp;
    [|run; by rewrite Hcp].
  eexists. split; [run; rewrite Hcp; run; reflexivity|].
  apply lookup_lt_Some in Hk. destruct k as [|j]; unfold dl_iter_at; cbn; rewrite Hpv, Hp.
  - split; reflexivity.
  - split_and!; [exact Hlp | reflexivity |]. rewrite to_size_t_small by lia. lia.
Qed.

(** Walking either list with an iterator, in a well-formed store.  A
    new iterator stands on position 0, a reverse one (doubly linked
    list) on the last position.  An iterator on position [k] has a next
    element exactly when [k] is below the size; [iter_next] then copies
    the element at [k] to [output] and moves to position [k + 1], and
    [iter_prev] copies the same element and moves to position [k - 1],
    or off the list from position 0; past the end both return
    [ERROR_INVALID_INPUT] and leave the iterator and [output] alone.
    The store is never changed. *)
Theorem list_iterator_steps h lp :
  lists_ok h ->
  (forall l, slists h !! lp = Some l ->
     (exists it, singly_list_iter_create (Some lp) h = Ok it h /\ sl_iter_at h lp 0 it) /\
     forall k it, sl_iter_at h lp k it ->
       singly_list_iter_has_next (Some it)
       = bool_decide (k < length (singly_list_elements h lp))%nat /\
       forall out,
         match singly_list_elements h lp !! k with
         | Some x =>
             match mem_copy out x (sl_element_size l) with
             | Some out' =>
                 exists it', singly_list_iter_next (Some it) (Some out) h
                             = Ok (SUCCESS, Some it', Some out') h /\
                             sl_iter_at h lp (S k) it'
             | None => singly_list_iter_next (Some it) (Some out) h = Fault
             end
         | None => singly_list_iter_next (Some it) (Some out) h
                   = Ok (ERROR_INVALID_INPUT, Some it, Some out) h
         end) /\
  (forall l, dlists h !! lp = Some l ->
     (exists it, doubly_list_iter_create (Some lp) h = Ok it h /\ dl_iter_at h lp 0 it) /\
     (exists it, doubly_list_iter_create_reverse (Some lp) h = Ok it h /\
        match length (doubly_list_elements h lp) with
        | S j => dl_iter_at h lp j it
        | O => dli_current it = None /\ dli_position it = SIZE_MAX
        end) /\
     forall k it, dl_iter_at h lp k it ->
       doubly_list_iter_has_next (Some it)
       = bool_decide (k < length (doubly_list_elements h lp))%nat /\
       doubly_list_iter_has_prev (Some it)
       = bool_decide (k < length (doubly_list_elements h lp))%nat /\
       forall out,
         match doubly_list_elements h lp !! k with
         | Some x =>
             match mem_copy out x (dl_element_size l) with
             | Some out' =>
                 (exists it', doubly_list_iter_next (Some it) (Some out) h
                              = Ok (SUCCESS, Some it', Some out') h /\
                              dl_iter_at h lp (S k) it') /\
                 (exists it', doubly_list_iter_prev (Some it) (Some out) h
                              = Ok (SUCCESS, Some it', Some out') h /\
                              match k with
                              | S j => dl_iter_at h lp j it'
                              | O => dli_current it' = None /\
                                     dli_position it' = SIZE_MAX
                              end)
             | None => doubly_list_iter_next (Some it) (Some out) h = Fault /\
                       doubly_list_iter_prev (Some it) (Some out) h = Fault
             end
         | None => doubly_list_iter_next (Some it) (Some out) h
                   = Ok (ERROR_INVALID_INPUT, Some it, Some out) h /\
                   doubly_list_iter_prev (Some it) (Some out) h
                   = Ok (ERROR_INVALID_INPUT, Some it, Some out) h
         end).
Proof.
  intros [Hs Hd]. split; intros l Hl.
  - destruct (slists_ok_repr h lp Hs) as (l' & Hl' & Hh & _); [eauto|].
    assert (l' = l) as -> by congruence. split.
    + eexists. split; [unfold singly_list_iter_create; fwd; reflexivity|].
      split_and!; cbn; [reflexivity | by rewrite Hh, head_lookup | reflexivity].
    + intros k it Hat. split.
      * destruct Hat as (_ & Hc & _). cbn. rewrite Hc, singly_list_elements_length.
        destruct (singly_list_nodes h lp !! k) eqn:Hk; cbn; symmetry.
        -- apply bool_decide_eq_true_2. by eapply lookup_lt_Some.
        -- apply bool_decide_eq_false_2. apply lookup_ge_None in Hk. lia.
      * intros out. by apply singly_list_iter_next_at.
  - destruct (dlists_ok_repr h lp Hd) as (l' & Hl' & Hh & Ht & Hsz & _); [eauto|].
    assert (l' = l) as -> by congruence. split_and!.
    + eexists. split; [unfold doubly_list_iter_create; fwd; reflexivity|].
      split_and!; cbn; [reflexivity | by rewrite Hh, head_lookup | reflexivity].
    + eexists. split; [unfold doubly_list_iter_create_reverse; fwd; reflexivity|].
      rewrite doubly_list_elements_length. pose proof (dlists_ok_bound h lp Hd) as Hb.
      destruct (length (doubly_list_nodes h lp)) as [|j] eqn:Hlen; cbn.
      * apply length_zero_iff_nil in Hlen. rewrite Ht, Hsz, Hlen. by split.
      * split_and!; cbn; [reflexivity | rewrite Ht, last_lookup, Hlen; reflexivity |].
        rewrite Hsz, to_size_t_small by lia. lia.
    + intros k it Hat.
      assert (negb (is_null (dli_current it))
              = bool_decide (k < length (doubly_list_elements h lp))%nat) as Hhas.
      { destruct Hat as (_ & Hc & _). rewrite Hc, doubly_list_elements_length.
        destruct (doubly_list_nodes h lp !! k) eqn:Hk; cbn; symmetry.
        - apply bool_decide_eq_true_2. by eapply lookup_lt_Some.
        - apply bool_decide_eq_false_2. apply lookup_ge_None in Hk. lia. }
      split_and!; [exact Hhas | exact Hhas |]. intros out.
      pose proof (doubly_list_iter_next_at h lp l k it out Hd Hl Hat) as Hn.
      pose proof (doubly_list_iter_prev_at h lp l k it out Hd Hl Hat) as Hp.
      destruct (doubly_list_elements h lp !! k) as [x|]; [|by split].
      destruct (mem_copy out x (dl_element_size l)); by split.
Qed.

Lemma list_iterator_steps_witness :
  exists it0 it1 it2,
    singly_list_iter_create (Some 400) demo_lists_heap = Ok it0 demo_lists_heap /\
    singly_list_iter_next (Some it0) (Some (elem4 Byte.x00)) demo_lists_heap
    = Ok (SUCCESS, Some it1, Some (elem4 Byte.x01)) demo_lists_heap /\
    singly_list_iter_next (Some it1) (Some (elem4 Byte.x00)) demo_lists_heap
    = Ok (SUCCESS, Some it2, Some (elem4 Byte.x02)) demo_lists_heap /\
    sli_position it2 = 2.
Proof.
  destruct (list_iterator_steps demo_lists_heap 400 demo_lists_ok) as [H _].
  destruct (H (mk_slist (Some 410) (Some 430) 3 4) eq_refl)
    as ((it0 & E0 & Hat0) & Hstep).
  destruct (Hstep 0%nat it0 Hat0) as [_ Hn0]. specialize (Hn0 (elem4 Byte.x00)).
  change (singly_list_elements demo_lists_heap 400 !! 0%nat)
    with (Some (elem4 Byte.x01)) in Hn0.
  change (mem_copy (elem4 Byte.x00) (elem4 Byte.x01)
            (sl_element_size (mk_slist (Some 410) (Some 430) 3 4)))
    with (Some (elem4 Byte.x01)) in Hn0.
  destruct Hn0 as (it1 & E1 & Hat1).
  destruct (Hstep 1%nat it1 Hat1) as [_ Hn1]. specialize (Hn1 (elem4 Byte.x00)).
  change (singly_list_elements demo_lists_heap 400 !! 1%nat)
    with (Some (elem4 Byte.x02)) in Hn1.
  change (mem_copy (elem4 Byte.x00) (elem4 Byte.x02)
            (sl_element_size (mk_slist (Some 410) (Some 430) 3 4)))
    with (Some (elem4 Byte.x02)) in Hn1.
  destruct Hn1 as (it2 & E2 & Hat2).
  exists it0, it1, it2. split_and!; [exact E0 | exact E1 | exact E2 | apply Hat2].
Defined.

(* ===================================================================== *)
(** * Inserting next to a node of a doubly linked list *)
(* ===================================================================== *)

(** [insert_before] and [insert_after] of the doubly linked list, in a
    well-formed store, given the node at position [k] of the list (the
    node itself: [get_ref] at index [k] returns the pointer to that
    node's data, which is not the node).  With an element of at least
    [element_size] bytes and an allocator that grants the new node,
    the call returns [SUCCESS].  Whatever the call returns, it is
    [SUCCESS] or, with the contents of the store unchanged,
    [ERROR_MEMORY_ALLOCATION]; on success the first [element_size]
    bytes of the element are put at position [k] ([insert_before]) or
    [k + 1] ([insert_after]) of the element sequence, as [insert] at
    that index would; the other lists are untouched. *)
Theorem doubly_list_insert_at_node h lp l k nd e :
  dlists_ok h -> dlists h !! lp = Some l ->
  doubly_list_nodes h lp !! k = Some nd ->
  doubly_list_get_ref (Some lp) (Z.of_nat k) h = Ok (Some (DataOf nd)) h /\
  (forall s h1,
     doubly_list_insert_before (Some lp) (Some nd) (Some e) h = Ok s h1 ->
     dl_effect h h1 lp /\
     (s <> SUCCESS -> s = ERROR_MEMORY_ALLOCATION /\ contents h1 = contents h) /\
     (s = SUCCESS ->
      doubly_list_elements h1 lp
      = insert_at k (take (Z.to_nat (dl_element_size l)) e)
          (doubly_list_elements h lp))) /\
  (forall s h1,
     doubly_list_insert_after (Some lp) (Some nd) (Some e) h = Ok s h1 ->
     dl_effect h h1 lp /\
     (s <> SUCCESS -> s = ERROR_MEMORY_ALLOCATION /\ contents h1 = contents h) /\
     (s = SUCCESS ->
      doubly_list_elements h1 lp
      = insert_at (S k) (take (Z.to_nat (dl_element_size l)) e)
          (doubly_list_elements h lp))) /\
  (node_allocation_succeeds h = true ->
   0 < dl_element_size l <= Z.of_nat (length e) ->
   (exists h1,
      doubly_list_insert_before (Some lp) (Some nd) (Some e) h = Ok SUCCESS h1 /\
      doubly_list_elements h1 lp
      = insert_at k (take (Z.to_nat (dl_element_size l)) e)
          (doubly_list_elements h lp)) /\
   (exists h1,
      doubly_list_insert_after (Some lp) (Some nd) (Some e) h = Ok SUCCESS h1 /\
      doubly_list_elements h1 lp
      = insert_at (S k) (take (Z.to_nat (dl_element_size l)) e)
          (doubly_list_elements h lp))).
Proof.
  intros Hok Hl Hk.
  assert (forall s h1,
     doubly_list_insert_before (Some lp) (Some nd) (Some e) h = Ok s h1 ->
     dl_effect h h1 lp /\
     (s <> SUCCESS -> s = ERROR_MEMORY_ALLOCATION /\ contents h1 = contents h) /\
     (s = SUCCESS ->
      doubly_list_elements h1 lp
      = insert_at k (take (Z.to_nat (dl_element_size l)) e)
          (doubly_list_elements h lp))) as HB.
  { intros s h1 H.
    apply (doubly_list_insert_before_ok _ _ _ k) in H as (Heff & Hf & Hsucc);
      [|exact Hok|exact Hk].
    split_and!; [exact Heff | exact Hf |]. intros ->.
    destruct (Hsucc eq_refl) as (n & l' & Hl' & _ & Hel). congruence. }
  assert (forall s h1,
     doubly_list_insert_after (Some lp) (Some nd) (Some e) h = Ok s h1 ->
     dl_effect h h1 lp /\
     (s <> SUCCESS -> s = ERROR_MEMORY_ALLOCATION /\ contents h1 = contents h) /\
     (s = SUCCESS ->
      doubly_list_elements h1 lp
      = insert_at (S k) (take (Z.to_nat (dl_element_size l)) e)
          (doubly_list_elements h lp))) as HA.
  { intros s h1 H.
    apply (doubly_list_insert_after_ok _ _ _ k) in H as (Heff & Hf & Hsucc);
      [|exact Hok|exact Hk].
    split_and!; [exact Heff | exact Hf |]. intros ->.
    destruct (Hsucc eq_refl) as (n & l' & Hl' & _ & Hel). congruence. }
  split_and!; [| exact HB | exact HA |].
  - unfold doubly_list_get_ref.
    rewrite (bind_Ok _ _ _ _ _
               (get_doubly_node_at_repr h lp _ (Z.of_nat k)
                  (dlists_ok_repr h lp Hok ltac:(eauto))
                  ltac:(lia) (dlists_ok_bound h lp Hok))).
    rewrite Nat2Z.id, Hk.
    destruct (dlists_ok_in_dom h lp nd Hok) as [x Hx];
      [by eapply list_elem_of_lookup_2|].
    by rewrite (bind_Ok _ _ _ _ _ (load_Some DNodes nd h x Hx)).
  - intros Ha Hes. split.
    + destruct (doubly_list_insert_before_returns h lp l k nd e Hok Hl Hk Ha Hes)
        as [h1 H].
      exists h1. split; [exact H|]. destruct (HB _ _ H) as (_ & _ & Hsucc). by apply Hsucc.
    + destruct (doubly_list_insert_after_returns h lp l k nd e Hok Hl Hk Ha Hes)
        as [h1 H].
      exists h1. split; [exact H|]. destruct (HA _ _ H) as (_ & _ & Hsucc). by apply Hsucc.
Qed.

Lemma doubly_list_insert_at_node_witness :
  doubly_list_get_ref (Some 500) 1 demo_lists_heap
  = Ok (Some (DataOf 520)) demo_lists_heap /\
  (exists h1,
     doubly_list_insert_before (Some 500) (Some 520) (Some (elem4 Byte.x09)) demo_lists_heap
     = Ok SUCCESS h1 /\
     doubly_list_elements h1 500
     = [elem4 Byte.x01; elem4 Byte.x09; elem4 Byte.x02; elem4 Byte.x03]) /\
  (exists h1,
     doubly_list_insert_after (Some 500) (Some 520) (Some (elem4 Byte.x09)) demo_lists_heap
     = Ok SUCCESS h1 /\
     doubly_list_elements h1 500
     = [elem4 Byte.x01; elem4 Byte.x02; elem4 Byte.x09; elem4 Byte.x03]).
Proof.
  destruct (doubly_list_insert_at_node demo_lists_heap 500 _ 1 520 (elem4 Byte.x09)
              (proj2 demo_lists_ok) eq_refl eq_refl) as (Hg & _ & _ & Hr).
  destruct Hr as [(h1 & E1 & Hel1) (h2 & E2 & Hel2)]; [reflexivity | cbn; lia |].
  split_and!; [exact Hg | |].
  - exists h1. split; [exact E1|]. exact (eq_trans Hel1 eq_refl).
  - exists h2. split; [exact E2|]. exact (eq_trans Hel2 eq_refl).
Defined.

(* ===================================================================== *)
(** * Swapping two containers *)
(* ===================================================================== *)

Lemma vector_swap_run a b h va vb :
  vectors h !! a = Some va -> vectors h !! b = Some vb ->
  exists h1, vector_swap (Some a) (Some b) h = Ok tt h1.
Proof.
  intros Ha Hb. unfold vector_swap. destruct (decide (a = b)) as [->|Hne].
  - assert (vb = va) as -> by congruence. eexists. fwd. reflexivity.
  - eexists. fwd. reflexivity.
Qed.

Lemma singly_list_swap_run a b h la lb :
  slists h !! a = Some la -> slists h !! b = Some lb ->
  exists h1, singly_list_swap (Some a) (Some b) h = Ok tt h1.
Proof.
  intros Ha Hb. unfold singly_list_swap. destruct (decide (a = b)) as [->|Hne].
  - assert (lb = la) as -> by congruence. eexists. run. reflexivity.
  - eexists. run. reflexivity.
Qed.

Lemma doubly_list_swap_run a b h la lb :
  dlists h !! a = Some la -> dlists h !! b = Some lb ->
  exists h1, doubly_list_swap (Some a) (Some b) h = Ok tt h1.
Proof.
  intros Ha Hb. unfold doubly_list_swap. destruct (decide (a = b)) as [->|Hne].
  - assert (lb = la) as -> by congruence. eexists. run. reflexivity.
  - eexists. run. reflexivity.
Qed.

Lemma singly_list_swap_records a b h la lb h1 :
  slists h !! a = Some la -> slists h !! b = Some lb ->
  singly_list_swap (Some a) (Some b) h = Ok tt h1 ->
  forall lp, slists h1 !! lp
             = slists h !! (if decide (lp = a) then b
                            else if decide (lp = b) then a else lp).
Proof.
  intros Ha Hb E lp. unfold singly_list_swap in E.
  destruct (decide (a = b)) as [->|Hne].
  - assert (lb = la) as -> by congruence. run_in E. injection E as <-. cbn.
    rewrite !insert_insert_eq. destruct (decide (lp = b)) as [->|Hlp].
    + rewrite lookup_insert_eq, Ha. by destruct la.
    + by rewrite lookup_insert_ne by done.
  - run_in E. injection E as <-. cbn.
    destruct (decide (lp = a)) as [->|Hla].
    + repeat first [rewrite lookup_insert_eq | rewrite lookup_insert_ne by congruence].
      rewrite Hb. by destruct la, lb.
    + destruct (decide (lp = b)) as [->|Hlb].
      * repeat first [rewrite lookup_insert_eq | rewrite lookup_insert_ne by congruence].
        rewrite Ha. by destruct la, lb.
      * by repeat rewrite lookup_insert_ne by congruence.
Qed.

Lemma doubly_list_swap_records a b h la lb h1 :
  dlists h !! a = Some la -> dlists h !! b = Some lb ->
  doubly_list_swap (Some a) (Some b) h = Ok tt h1 ->
  forall lp, dlists h1 !! lp
             = dlists h !! (if decide (lp = a) then b
                            else if decide (lp = b) then a else lp).
Proof.
  intros Ha Hb E lp. unfold doubly_list_swap in E.
  destruct (decide (a = b)) as [->|Hne].
  - assert (lb = la) as -> by congruence. run_in E. injection E as <-. cbn.
    rewrite !insert_insert_eq. destruct (decide (lp = b)) as [->|Hlp].
    + rewrite lookup_insert_eq, Ha. by destruct la.
    + by rewrite lookup_insert_ne by done.
  - run_in E. injection E as <-. cbn.
    destruct (decide (lp = a)) as [->|Hla].
    + repeat first [rewrite lookup_insert_eq | rewrite lookup_insert_ne by congruence].
      rewrite Hb. by destruct la, lb.
    + destruct (decide (lp = b)) as [->|Hlb].
      * repeat first [rewrite lookup_insert_eq | rewrite lookup_insert_ne by congruence].
        rewrite Ha. by destruct la, lb.
      * by repeat rewrite lookup_insert_ne by congruence.
Qed.

(** [swap] of two live containers of a kind returns, and exchanges what
    the two addresses hold: afterwards each of the two has the fields
    (head, tail, size and element size for a list) and the elements the
    other had, and every other container is as it was.  No element is
    copied: the buffers of vectors and the nodes of lists are
    untouched. *)
Theorem swap_exchanges_contents h a b :
  (forall va vb, vectors h !! a = Some va -> vectors h !! b = Some vb ->
     exists h1, vector_swap (Some a) (Some b) h = Ok tt h1 /\
       buffers h1 = buffers h /\ lists_same h h1 /\
       (forall w, vectors h1 !! w
                  = vectors h !! (if decide (w = a) then b
                                  else if decide (w = b) then a else w)) /\
       (forall w, vector_elements h1 w
                  = vector_elements h (if decide (w = a) then b
                                       else if decide (w = b) then a else w))) /\
  (forall la lb, slists_ok h -> slists h !! a = Some la -> slists h !! b = Some lb ->
     exists h1, singly_list_swap (Some a) (Some b) h = Ok tt h1 /\
       slists_ok h1 /\ snodes h1 = snodes h /\
       vectors h1 = vectors h /\ buffers h1 = buffers h /\
       dlists h1 = dlists h /\ dnodes h1 = dnodes h /\
       (forall lp, slists h1 !! lp
                   = slists h !! (if decide (lp = a) then b
                                  else if decide (lp = b) then a else lp)) /\
       (forall lp, singly_list_elements h1 lp
                   = singly_list_elements h (if decide (lp = a) then b
                                             else if decide (lp = b) then a else lp))) /\
  (forall la lb, dlists_ok h -> dlists h !! a = Some la -> dlists h !! b = Some lb ->
     exists h1, doubly_list_swap (Some a) (Some b) h = Ok tt h1 /\
       dlists_ok h1 /\ dnodes h1 = dnodes h /\
       vectors h1 = vectors h /\ buffers h1 = buffers h /\
       slists h1 = slists h /\ snodes h1 = snodes h /\
       (forall lp, dlists h1 !! lp
                   = dlists h !! (if decide (lp = a) then b
                                  else if decide (lp = b) then a else lp)) /\
       (forall lp, doubly_list_elements h1 lp
                   = doubly_list_elements h (if decide (lp = a) then b
                                             else if decide (lp = b) then a else lp))).
Proof.
  split_and!.
  - intros va vb Ha Hb. destruct (vector_swap_run a b h va vb Ha Hb) as [h1 E].
    exists h1. split; [exact E|].
    destruct (vector_swap_frame _ _ _ _ _ E) as (Hb1 & Hls & _).
    apply vector_swap_inv in E as (va' & vb' & Ha' & Hb' & _ & Hv).
    assert (va' = va) as -> by congruence. assert (vb' = vb) as -> by congruence.
    assert (forall w, vectors h1 !! w
                      = vectors h !! (if decide (w = a) then b
                                      else if decide (w = b) then a else w)) as Hw.
    { intros w. rewrite Hv. destruct (decide (w = b)) as [->|Hnb].
      - destruct (decide (b = a)) as [->|]; congruence.
      - destruct (decide (w = a)) as [->|]; congruence. }
    split_and!; [exact Hb1 | exact Hls | exact Hw |].
    intros w. unfold vector_elements. by rewrite Hw, Hb1.
  - intros la lb Hok Ha Hb. destruct (singly_list_swap_run a b h la lb Ha Hb) as [h1 E].
    exists h1. split; [exact E|].
    pose proof E as E'.
    apply singly_list_swap_ok in E' as (Hok1 & Hv & Hbuf & Hdl & Hdn & Hel); [|exact Hok].
    split_and!; try assumption.
    + unfold singly_list_swap in E. fields_inv E. reflexivity.
    + exact (singly_list_swap_records a b h la lb h1 Ha Hb E).
  - intros la lb Hok Ha Hb. destruct (doubly_list_swap_run a b h la lb Ha Hb) as [h1 E].
    exists h1. split; [exact E|].
    pose proof E as E'.
    apply doubly_list_swap_ok in E' as (Hok1 & Hv & Hbuf & Hdl & Hdn & Hel); [|exact Hok].
    split_and!; try assumption.
    + unfold doubly_list_swap in E. fields_inv E. reflexivity.
    + exact (doubly_list_swap_records a b h la lb h1 Ha Hb E).
Qed.

Lemma swap_exchanges_contents_witness :
  (exists h1,
     vector_swap (Some 100) (Some 110) demo_two_heap = Ok tt h1 /\
     vector_elements h1 110 = [elem4 Byte.x01; elem4 Byte.x02; elem4 Byte.x03] /\
     vector_elements h1 100 = []) /\
  (exists h1,
     doubly_list_swap (Some 500) (Some 600) demo_lists_heap = Ok tt h1 /\
     dlists h1 !! 600 = Some (mk_dlist (Some 510) (Some 530) 3 4) /\
     dlists h1 !! 500 = Some (mk_dlist None None 0 4) /\
     doubly_list_elements h1 600 = [elem4 Byte.x01; elem4 Byte.x02; elem4 Byte.x03]).
Proof.
  split.
  - destruct (swap_exchanges_contents demo_two_heap 100 110) as [H _].
    destruct (H demo_vec demo_small_vec eq_refl eq_refl) as (h1 & E & _ & _ & _ & Hel).
    exists h1. split_and!; [exact E | by rewrite Hel | by rewrite Hel].
  - destruct (swap_exchanges_contents demo_lists_heap 500 600) as (_ & _ & H).
    destruct (H (mk_dlist (Some 510) (Some 530) 3 4) (mk_dlist None None 0 4)
                (proj2 demo_lists_ok) eq_refl eq_refl)
      as (h1 & E & _ & _ & _ & _ & _ & _ & Hrec & Hel).
    exists h1. split_and!; [exact E | | |].
    + exact (eq_trans (Hrec 600) eq_refl).
    + exact (eq_trans (Hrec 500) eq_refl).
    + exact (eq_trans (Hel 600) eq_refl).
Defined.

(* ===================================================================== *)
(** * The vector functions on element sequences *)
(* ===================================================================== *)

Lemma vec_ok_live h v vec :
  vectors h !! v = Some vec -> vec_ok h v -> v_size vec <> 0 ->
  exists d b, v_data vec = Some d /\ buffers h !! d = Some b /\
              v_size vec * v_element_size vec <= Z.of_nat (length b) /\
              Z.of_nat (length b) <= SIZE_MAX /\
              0 < v_element_size vec <= SIZE_MAX /\
              0 < v_size vec <= v_capacity vec /\ v_capacity vec <= SIZE_MAX.
Proof.
  intros Hv (vec' & Hv' & Hes & Hsz & Hcap & Hd) Hne.
  assert (vec' = vec) as -> by congruence.
  destruct (v_data vec) as [d|]; [|lia].
  destruct Hd as (b & Hb & Hlen & Hmax). exists d, b. split_and!; try done; lia.
Qed.

Lemma vec_ok_resize h v vec n :
  vectors h !! v = Some vec -> vec_ok h v -> 0 <= n <= v_size vec ->
  vec_ok (rset Vectors (<[v := set_v_size n vec]> (vectors h)) h) v.
Proof.
  intros Hv (vec' & Hv' & Hes & Hsz & Hcap & Hd) Hn.
  assert (vec' = vec) as -> by congruence.
  exists (set_v_size n vec). cbn. rewrite lookup_insert_eq.
  split_and!; try done; try lia.
  destruct (v_data vec) as [d|]; [|lia].
  destruct Hd as (b & Hb & Hlen & Hmax). exists b. split_and!; [done| |done]. nia.
Qed.

Lemma vector_elements_resize h v vec n :
  vectors h !! v = Some vec -> vec_ok h v -> 0 <= n <= v_size vec ->
  vector_elements (rset Vectors (<[v := set_v_size n vec]> (vectors h)) h) v
  = take (Z.to_nat n) (vector_elements h v).
Proof.
  intros Hv (vec' & Hv' & Hes & Hsz & Hcap & Hd) Hn.
  assert (vec' = vec) as -> by congruence.
  unfold vector_elements. cbn. rewrite lookup_insert_eq, Hv. cbn.
  destruct (v_data vec) as [d|]; [|by rewrite take_nil].
  destruct Hd as (b & Hb & _). rewrite Hb. rewrite slices_take by lia. reflexivity.
Qed.

Lemma vector_last_element h v vec d b :
  vectors h !! v = Some vec -> v_data vec = Some d -> buffers h !! d = Some b ->
  0 < v_size vec ->
  last (vector_elements h v)
  = Some (take (Z.to_nat (v_element_size vec))
            (drop (Z.to_nat (v_size vec - 1) * Z.to_nat (v_element_size vec)) b)).
Proof.
  intros Hv Hd Hb Hsz. rewrite (vector_elements_slices _ _ _ _ _ Hv Hd Hb).
  rewrite last_lookup, slices_length.
  replace (Init.Nat.pred (Z.to_nat (v_size vec))) with (Z.to_nat (v_size vec - 1)) by lia.
  apply slices_lookup. lia.
Qed.

Lemma vector_pop_back_run h v vec output :
  vectors h !! v = Some vec -> vec_ok h v ->
  vector_pop_back (Some v) output h
  = match last (vector_elements h v) with
    | None => Ok (ERROR_EMPTY_CONTAINER, output) h
    | Some x =>
        match output with
        | None =>
            Ok (SUCCESS, None)
               (rset Vectors (<[v := set_v_size (v_size vec - 1) vec]> (vectors h)) h)
        | Some out =>
            if decide (length x <= length out)%nat
            then Ok (SUCCESS, Some (x ++ drop (length x) out))
                    (rset Vectors (<[v := set_v_size (v_size vec - 1) vec]> (vectors h)) h)
            else Fault
        end
    end.
Proof.
  intros Hv Hok. unfold vector_pop_back. fwd.
  destruct (Z.eqb_spec (v_size vec) 0) as [E0|Hne].
  - assert (vector_elements h v = []) as ->; [|reflexivity].
    apply length_zero_iff_nil. pose proof (vector_elements_length h v Hok vec Hv). lia.
  - destruct (vec_ok_live h v vec Hv Hok Hne)
      as (d & b & Hd & Hb & Hlen & Hmax & Hes & Hsz & Hcap).
    rewrite (vector_last_element h v vec d b Hv Hd Hb) by lia.
    set (es := Z.to_nat (v_element_size vec)) in *.
    assert ((v_size vec - 1) * v_element_size vec + v_element_size vec
            = v_size vec * v_element_size vec) as Hm by ring.
    assert (0 <= (v_size vec - 1) * v_element_size vec) as Hm0
        by (apply Z.mul_nonneg_nonneg; lia).
    assert (Z.to_nat ((v_size vec - 1) * v_element_size vec)
            = (Z.to_nat (v_size vec - 1) * es)%nat) as E1
        by (subst es; rewrite Z2Nat.inj_mul; lia).
    assert (length (take es (drop (Z.to_nat (v_size vec - 1) * es) b)) = es) as Elen.
    { rewrite length_take, length_drop. lia. }
    rewrite Elen. rewrite (to_size_t_small (v_size vec - 1)) by lia.
    destruct output as [out|].
    + rewrite Hd, (to_size_t_small (_ * _)) by lia.
      unfold mem_copy_out. fwd.
      assert ((v_size vec - 1) * v_element_size vec <= Z.of_nat (length b)) as Hoff by lia.
      rewrite (bind_Ok _ _ _ _ _ (bytes_at_Some d _ h b Hb Hoff)).
      destruct (decide (es <= length out)%nat) as [Hout|Hout].
      * rewrite mem_copy_Some by (rewrite ?length_drop; lia).
        fwd. rewrite E1. cbn [set_v_size v_size].
        rewrite (to_size_t_small (v_size vec - 1)) by lia. reflexivity.
      * unfold mem_copy. destruct (Z.eqb_spec (v_element_size vec) 0); [lia|].
        destruct (Z.leb_spec (v_element_size vec) (Z.of_nat (length out))); [lia|].
        by rewrite andb_false_r.
    + fwd. cbn [set_v_size v_size].
      rewrite (to_size_t_small (v_size vec - 1)) by lia. reflexivity.
Qed.

(** [vector_pop_back] on a well-formed vector: on an empty vector it
    returns [ERROR_EMPTY_CONTAINER] and changes nothing; otherwise it
    returns [SUCCESS], the last element is copied to [output] when that
    is not null (writing past a shorter [output] is undefined), and the
    only change to the store is the size of the vector, one less: the
    elements are the former ones without the last, the capacity and the
    buffer stay.  After a [vector_push_back] that succeeded it hands
    back the first [element_size] bytes of what was pushed and the
    elements are those before the push. *)
Theorem vector_pop_back_spec h v vec output :
  vectors h !! v = Some vec -> vec_ok h v ->
  vector_pop_back (Some v) output h
  = match last (vector_elements h v) with
    | None => Ok (ERROR_EMPTY_CONTAINER, output) h
    | Some x =>
        match output with
        | None =>
            Ok (SUCCESS, None)
               (rset Vectors (<[v := set_v_size (v_size vec - 1) vec]> (vectors h)) h)
        | Some out =>
            if decide (length x <= length out)%nat
            then Ok (SUCCESS, Some (x ++ drop (length x) out))
                    (rset Vectors (<[v := set_v_size (v_size vec - 1) vec]> (vectors h)) h)
            else Fault
        end
    end /\
  (v_size vec <> 0 ->
   vec_ok (rset Vectors (<[v := set_v_size (v_size vec - 1) vec]> (vectors h)) h) v /\
   vector_elements (rset Vectors (<[v := set_v_size (v_size vec - 1) vec]> (vectors h)) h) v
   = take (length (vector_elements h v) - 1) (vector_elements h v)) /\
  (forall e h1 out,
     vector_push_back (Some v) (Some e) h = Ok SUCCESS h1 ->
     (Z.to_nat (v_element_size vec) <= length out)%nat ->
     exists h2,
       vector_pop_back (Some v) (Some out) h1
       = Ok (SUCCESS, Some (take (Z.to_nat (v_element_size vec)) e
                            ++ drop (Z.to_nat (v_element_size vec)) out)) h2 /\
       vec_ok h2 v /\ vector_elements h2 v = vector_elements h v).
Proof.
  intros Hv Hok. split_and!.
  - by apply vector_pop_back_run.
  - intros Hne. pose proof (vector_elements_length h v Hok vec Hv) as Hlen.
    pose proof Hok as (vec' & Hv' & _ & Hsz & _). assert (vec' = vec) as -> by congruence.
    split; [apply vec_ok_resize; [done..|lia]|].
    rewrite vector_elements_resize by (done || lia). f_equal. lia.
  - intros e h1 out Hpush Hout.
    destruct (vector_push_back_ok h v vec e h1 Hv Hok Hpush)
      as (Hok1 & (vec1 & Hv1 & Hsz1 & Hes1 & _) & Hel & Hle & _).
    pose proof (vector_elements_length h v Hok vec Hv) as Hlen.
    pose proof Hok as (vec' & Hv' & Hes & Hsz & _). assert (vec' = vec) as -> by congruence.
    assert (length (take (Z.to_nat (v_element_size vec)) e)
            = Z.to_nat (v_element_size vec)) as Hx by (rewrite length_take; lia).
    rewrite (vector_pop_back_run h1 v vec1 (Some out) Hv1 Hok1), Hel, last_snoc.
    rewrite Hx, decide_True by exact Hout.
    eexists. split; [reflexivity|]. split.
    + apply vec_ok_resize; [done..|lia].
    + rewrite vector_elements_resize by (done || lia).
      rewrite Hel, Hsz1, take_app_length'; [reflexivity|lia].
Qed.

Lemma vector_pop_back_spec_witness :
  exists h1 h2,
    vector_push_back (Some 100) (Some (elem4 Byte.x09)) demo_vec_heap = Ok SUCCESS h1 /\
    vector_pop_back (Some 100) (Some (elem4 Byte.x00)) h1
    = Ok (SUCCESS, Some (elem4 Byte.x09)) h2 /\
    vector_elements h2 100 = [elem4 Byte.x01; elem4 Byte.x02; elem4 Byte.x03].
Proof.
  destruct (vector_push_back (Some 100) (Some (elem4 Byte.x09)) demo_vec_heap)
    as [s h1| |] eqn:E; try (vm_compute in E; discriminate E).
  assert (s = SUCCESS) as -> by (vm_compute in E; congruence).
  destruct (vector_pop_back_spec demo_vec_heap 100 demo_vec None eq_refl demo_vec_ok)
    as (_ & _ & H).
  destruct (H (elem4 Byte.x09) h1 (elem4 Byte.x00) E ltac:(cbn; lia)) as (h2 & E2 & _ & Hel).
  exists h1, h2. split_and!; [reflexivity | exact E2 | by rewrite Hel].
Defined.

Lemma mem_move_run d dst src n h b :
  buffers h !! d = Some b -> 0 <= dst -> 0 <= src -> 0 <= n ->
  src + n <= Z.of_nat (length b) -> dst + n <= Z.of_nat (length b) ->
  mem_move (Some d) dst src n h
  = Ok tt (rset Buffers
             (<[d := take (Z.to_nat dst) b ++ take (Z.to_nat n) (drop (Z.to_nat src) b)
                     ++ drop (Z.to_nat n) (drop (Z.to_nat dst) b)]> (buffers h)) h).
Proof.
  intros Hb Hdst Hsrc Hn Hs Hd. unfold mem_move.
  rewrite (bind_Ok _ _ _ _ _ (bytes_at_Some d src h b Hb ltac:(lia))).
  unfold mem_copy_in.
  rewrite (bind_Ok _ _ _ _ _ (bytes_at_Some d dst h b Hb ltac:(lia))).
  destruct (Z.eq_dec n 0) as [->|Hn0].
  - unfold mem_copy. cbn [Z.eqb]. unfold put_bytes_at. fwd.
    destruct (Z.leb_spec dst (Z.of_nat (length b))); [|lia]. fwd.
    cbn. by rewrite take_0, drop_0.
  - rewrite mem_copy_Some by (rewrite length_drop; lia).
    unfold put_bytes_at. fwd.
    destruct (Z.leb_spec dst (Z.of_nat (length b))); [|lia]. fwd. reflexivity.
Qed.

Lemma slices_delete es n i b :
  (i < n)%nat -> (n * es <= length b)%nat ->
  slices es (n - 1)
    (take (i * es) b ++ take ((n - i - 1) * es) (drop (i * es + es) b)
     ++ drop ((n - i - 1) * es) (drop (i * es) b))
  = delete i (slices es n b).
Proof.
  intros Hi Hlen. rewrite delete_take_drop.
  assert (i * es + es <= n * es)%nat as Hies.
  { replace (i * es + es)%nat with (S i * es)%nat by (cbn [Nat.mul]; lia).
    apply Nat.mul_le_mono_r. lia. }
  assert ((n - i - 1) * es + (i * es + es) = n * es)%nat as Ear.
  { rewrite <- Nat.mul_succ_l, <- Nat.mul_add_distr_r. f_equal. lia. }
  replace (n - 1)%nat with (i + (n - i - 1))%nat by lia.
  rewrite slices_app. f_equal.
  - rewrite slices_take by lia. apply slices_ext.
    rewrite take_app_length' by (rewrite length_take; lia).
    reflexivity.
  - rewrite drop_app_length' by (rewrite length_take; lia).
    rewrite slices_prefix by (rewrite length_take, length_drop; lia).
    rewrite slices_drop by lia.
    replace (n - S i)%nat with (n - i - 1)%nat by lia.
    replace (S i * es)%nat with (i * es + es)%nat by (cbn [Nat.mul]; lia).
    apply slices_ext. by rewrite take_take, Nat.min_id.
Qed.

Lemma vector_remove_run h v vec index :
  vectors h !! v = Some vec -> vec_ok h v -> 0 <= index ->
  if decide (v_size vec <= index)
  then vector_remove (Some v) index h = Ok ERROR_INDEX_OUT_OF_BOUNDS h
  else exists h1,
    vector_remove (Some v) index h = Ok SUCCESS h1 /\
    vec_ok h1 v /\
    vector_elements h1 v = delete (Z.to_nat index) (vector_elements h v) /\
    vectors h1 = <[v := set_v_size (v_size vec - 1) vec]> (vectors h) /\
    (forall a, v_data vec <> Some a -> buffers h1 !! a = buffers h !! a) /\
    lists_same h h1 /\ allocator h1 = allocator h.
Proof.
  intros Hv Hok Hi.
  assert (forall k : status_t -> M status_t,
            bind (vector_check_index v index) k h
            = k (if v_size vec <=? index then ERROR_INDEX_OUT_OF_BOUNDS else SUCCESS) h)
    as Hchk.
  { intros k. unfold vector_check_index. fwd. by destruct (v_size vec <=? index). }
  unfold vector_remove. rewrite Hchk.
  destruct (decide (v_size vec <= index)) as [Hoob|Hin].
  - destruct (Z.leb_spec (v_size vec) index); [|lia]. reflexivity.
  - destruct (Z.leb_spec (v_size vec) index); [lia|].
    change (negb (is_success SUCCESS)) with false. cbv iota.
    destruct (vec_ok_live h v vec Hv Hok ltac:(lia))
      as (d & b & Hd & Hb & Hlen & Hmax & Hes & Hsz & Hcap).
    pose proof (vector_elements_length h v Hok vec Hv) as Hel.
    rewrite (bind_Ok _ _ _ _ _ (load_Some Vectors v h vec Hv)).
    rewrite (to_size_t_small (v_size vec - 1)) by lia.
    destruct (Z.eqb_spec index (v_size vec - 1)) as [->|Hne].
    + pose proof (vector_pop_back_run h v vec None Hv Hok) as Hpop.
      destruct (last (vector_elements h v)) eqn:Hlast.
      2:{ apply last_None in Hlast. rewrite Hlast in Hel. cbn in Hel. lia. }
      rewrite (bind_Ok _ _ _ _ _ Hpop).
      eexists. split; [reflexivity|]. cbn [fst].
      split_and!; try reflexivity; try (by repeat split).
      * apply vec_ok_resize; [done..|lia].
      * rewrite vector_elements_resize by (done || lia).
        replace (Z.to_nat (v_size vec - 1)) with (length (vector_elements h v) - 1)%nat
          by lia.
        by rewrite delete_last_take.
    + assert ((index + 1) * v_element_size vec <= v_size vec * v_element_size vec) as Hm1
          by (apply Z.mul_le_mono_nonneg_r; lia).
      assert (0 <= index * v_element_size vec) as Hm3 by (apply Z.mul_nonneg_nonneg; lia).
      assert (0 <= (v_size vec - index - 1) * v_element_size vec) as Hm4
          by (apply Z.mul_nonneg_nonneg; lia).
      assert ((v_size vec - index - 1) * v_element_size vec
              + (index + 1) * v_element_size vec
              = v_size vec * v_element_size vec) as Hm5 by ring.
      assert ((index + 1) * v_element_size vec
              = index * v_element_size vec + v_element_size vec) as Hm6 by ring.
      rewrite Hd.
      rewrite (to_size_t_small (index + 1)) by lia.
      rewrite (to_size_t_small (v_size vec - index)) by lia.
      rewrite (to_size_t_small (v_size vec - index - 1)) by lia.
      rewrite (to_size_t_small ((index + 1) * _)) by lia.
      rewrite (to_size_t_small (index * _)) by lia.
      rewrite (to_size_t_small ((v_size vec - index - 1) * _)) by lia.
      rewrite (bind_Ok _ _ _ _ _
                 (mem_move_run d (index * v_element_size vec)
                    ((index + 1) * v_element_size vec)
                    ((v_size vec - index - 1) * v_element_size vec)
                    h b Hb Hm3 ltac:(lia) Hm4 ltac:(lia) ltac:(lia))).
      set (es := Z.to_nat (v_element_size vec)) in *.
      set (n := Z.to_nat (v_size vec)) in *.
      set (i := Z.to_nat index) in *.
      assert (Z.to_nat (index * v_element_size vec) = (i * es)%nat) as E1
          by (subst i es; rewrite Z2Nat.inj_mul; lia).
      assert (Z.to_nat ((index + 1) * v_element_size vec) = (i * es + es)%nat) as E2
          by (subst i es; rewrite Z2Nat.inj_mul, Z2Nat.inj_add; lia).
      assert (Z.to_nat ((v_size vec - index - 1) * v_element_size vec)
              = ((n - i - 1) * es)%nat) as E3
          by (subst i es n; rewrite Z2Nat.inj_mul, !Z2Nat.inj_sub; lia).
      rewrite E1, E2, E3.
      assert (Z.of_nat (n * es) = v_size vec * v_element_size vec) as Ez
          by (subst n es; rewrite Nat2Z.inj_mul; lia).
      set (b1 := take (i * es) b ++ take ((n - i - 1) * es) (drop (i * es + es) b)
                 ++ drop ((n - i - 1) * es) (drop (i * es) b)).
      assert (length b1 = length b) as Hlen1.
      { subst b1. rewrite !length_app, !length_take, !length_drop. lia. }
      eexists. split.
      { fwd. cbn [set_v_size v_size].
        rewrite (to_size_t_small (v_size vec - 1)) by lia. reflexivity. }
      split_and!; try reflexivity; try (by repeat split).
      * exists (set_v_size (v_size vec - 1) vec). cbn. rewrite lookup_insert_eq.
        split_and!; try done; try lia. rewrite Hd.
        exists b1. rewrite lookup_insert_eq. split_and!; [done| |lia]. nia.
      * unfold vector_elements at 1. cbn. rewrite lookup_insert_eq. cbn.
        rewrite Hd, lookup_insert_eq.
        rewrite (vector_elements_slices _ _ _ _ _ Hv Hd Hb).
        replace (Z.to_nat (v_size vec - 1)) with (n - 1)%nat by lia.
        fold es n. subst b1. apply slices_delete; lia.
      * intros a Ha. cbn. rewrite lookup_insert_ne by congruence. reflexivity.
Qed.

Lemma delete_inserted {A} (l : list A) i x :
  (i <= length l)%nat -> delete i (take i l ++ x :: drop i l) = l.
Proof.
  intros Hi. rewrite delete_take_drop.
  rewrite take_app_length' by (rewrite length_take; lia).
  rewrite (cons_middle x), app_assoc.
  rewrite drop_app_length' by (rewrite length_app, length_take; cbn; lia).
  apply take_drop.
Qed.

(** [vector_remove] on a well-formed vector, with a [size_t] index: it
    returns [ERROR_INDEX_OUT_OF_BOUNDS], changing nothing, exactly when
    the index is not below the size; otherwise it returns [SUCCESS], the
    elements are the former ones without the one at [index], and apart
    from the bytes of the vector's own buffer only the size of the
    vector changes: no reallocation, same capacity.  A [vector_remove]
    at the index of a [vector_insert] that succeeded restores the
    elements. *)
Theorem vector_remove_spec h v vec index :
  vectors h !! v = Some vec -> vec_ok h v -> is_size_t index ->
  (if decide (v_size vec <= index)
   then vector_remove (Some v) index h = Ok ERROR_INDEX_OUT_OF_BOUNDS h
   else exists h1,
     vector_remove (Some v) index h = Ok SUCCESS h1 /\
     vec_ok h1 v /\
     vector_elements h1 v = delete (Z.to_nat index) (vector_elements h v) /\
     vectors h1 = <[v := set_v_size (v_size vec - 1) vec]> (vectors h) /\
     (forall a, v_data vec <> Some a -> buffers h1 !! a = buffers h !! a) /\
     lists_same h h1 /\ allocator h1 = allocator h) /\
  (forall e h1,
     vector_insert (Some v) index (Some e) h = Ok SUCCESS h1 ->
     exists h2,
       vector_remove (Some v) index h1 = Ok SUCCESS h2 /\
       vec_ok h2 v /\ vector_elements h2 v = vector_elements h v).
Proof.
  intros Hv Hok [Hi _]. split; [by apply vector_remove_run|].
  intros e h1 H.
  pose proof (vector_insert_oob_iff _ _ _ _ _ _ _ Hv H) as Hiff.
  pose proof Hok as (vec' & Hv' & Hes & Hsz & Hcap & Hd).
  assert (vec' = vec) by congruence. subst vec'. clear Hv'.
  assert (index <= v_size vec) as Hle.
  { destruct (Z.le_gt_cases index (v_size vec)) as [?|Hgt]; [assumption|].
    apply Hiff in Hgt. discriminate. }
  set (xs := vector_elements h v).
  assert (length xs = Z.to_nat (v_size vec)) as Hlen.
  { pose proof (vector_elements_length h v Hok vec Hv). subst xs. lia. }
  assert (vec_ok h1 v /\
          vector_elements h1 v
          = take (Z.to_nat index) xs
            ++ take (Z.to_nat (v_element_size vec)) e :: drop (Z.to_nat index) xs)
    as (Hok1 & Hel1).
  { destruct (Z.eq_dec index (v_size vec)) as [->|Hne].
    - rewrite (vector_insert_at_end h v vec e Hv) in H by lia.
      apply (vector_push_back_ok _ _ _ _ _ Hv Hok) in H as (Hok1 & _ & Hel & _).
      split; [exact Hok1|].
      fold xs in Hel. rewrite Hel. rewrite (take_ge xs), (drop_ge xs) by lia. reflexivity.
    - apply (vector_insert_middle_ok _ _ _ _ _ _ Hv Hok) in H
        as (Hok1 & _ & Hel & _); [|lia]. fold xs in Hel. auto. }
  pose proof Hok1 as (vec1 & Hv1 & _).
  pose proof (vector_elements_length h1 v Hok1 vec1 Hv1) as Hlen1.
  rewrite Hel1, length_app, length_take in Hlen1. cbn in Hlen1.
  rewrite length_drop in Hlen1.
  pose proof (vector_remove_run h1 v vec1 index Hv1 Hok1 Hi) as Hrem.
  destruct (decide (v_size vec1 <= index)) as [|_]; [lia|].
  destruct Hrem as (h2 & E & Hok2 & Hel2 & _).
  exists h2. split_and!; [exact E | exact Hok2 |].
  rewrite Hel2, Hel1. apply delete_inserted. lia.
Qed.

Lemma vector_remove_spec_witness :
  exists h1,
    vector_remove (Some 100) 0 demo_vec_heap = Ok SUCCESS h1 /\
    vector_elements h1 100 = [elem4 Byte.x02; elem4 Byte.x03] /\
    vector_remove (Some 100) 3 demo_vec_heap
    = Ok ERROR_INDEX_OUT_OF_BOUNDS demo_vec_heap.
Proof.
  destruct (vector_remove_spec demo_vec_heap 100 demo_vec 0 eq_refl demo_vec_ok
              (is_size_t_small 0 ltac:(lia))) as [H0 _].
  destruct (vector_remove_spec demo_vec_heap 100 demo_vec 3 eq_refl demo_vec_ok
              (is_size_t_small 3 ltac:(lia))) as [H3 _].
  destruct (decide (v_size demo_vec <= 0)) as [Hle|_]; [cbn in Hle; lia|].
  destruct (decide (v_size demo_vec <= 3)) as [_|Hgt]; [|cbn in Hgt; lia].
  destruct H0 as (h1 & E & _ & Hel & _).
  exists h1. split_and!; [exact E | by rewrite Hel | exact H3].
Defined.

Lemma slices_insert es n i b x :
  (i < n)%nat -> (n * es <= length b)%nat -> length x = es ->
  slices es n (take (i * es) b ++ x ++ drop es (drop (i * es) b))
  = <[i := x]> (slices es n b).
Proof.
  intros Hi Hlen Hx. rewrite insert_take_drop by (rewrite slices_length; lia).
  assert (i * es + es <= n * es)%nat as Hies.
  { replace (i * es + es)%nat with (S i * es)%nat by (cbn [Nat.mul]; lia).
    apply Nat.mul_le_mono_r. lia. }
  replace n with (i + S (n - i - 1))%nat at 1 by lia.
  rewrite slices_app. f_equal.
  - rewrite slices_take by lia. apply slices_ext.
    rewrite take_app_length' by (rewrite length_take; lia). reflexivity.
  - rewrite drop_app_length' by (rewrite length_take; lia).
    rewrite slices_cons by exact Hx. f_equal.
    rewrite slices_drop by lia. rewrite drop_drop.
    replace (n - S i)%nat with (n - i - 1)%nat by lia.
    replace (S i * es)%nat with (i * es + es)%nat by (cbn [Nat.mul]; lia).
    reflexivity.
Qed.

Lemma mem_copy_in_run d off src n h b :
  buffers h !! d = Some b -> 0 <= off -> 0 < n ->
  off + n <= Z.of_nat (length b) ->
  mem_copy_in (Some d) off src n h
  = if decide (n <= Z.of_nat (length src))
    then Ok tt (rset Buffers
                  (<[d := take (Z.to_nat off) b ++ take (Z.to_nat n) src
                          ++ drop (Z.to_nat n) (drop (Z.to_nat off) b)]> (buffers h)) h)
    else Fault.
Proof.
  intros Hb Hoff Hn Hfit. unfold mem_copy_in.
  rewrite (bind_Ok _ _ _ _ _ (bytes_at_Some d off h b Hb ltac:(lia))).
  destruct (decide (n <= Z.of_nat (length src))) as [Hs|Hs].
  - rewrite mem_copy_Some by (rewrite ?length_drop; lia).
    unfold put_bytes_at. fwd.
    destruct (Z.leb_spec off (Z.of_nat (length b))); [|lia]. fwd. reflexivity.
  - unfold mem_copy. destruct (Z.eqb_spec n 0); [lia|].
    destruct (Z.leb_spec n (Z.of_nat (length src))); [lia|]. reflexivity.
Qed.

Lemma vector_get_run h v vec index out :
  vectors h !! v = Some vec -> vec_ok h v -> 0 <= index ->
  vector_get (Some v) index (Some out) h
  = match vector_elements h v !! Z.to_nat index with
    | Some x =>
        if decide (length x <= length out)%nat
        then Ok (SUCCESS, Some (x ++ drop (length x) out)) h
        else Fault
    | None => Ok (ERROR_INDEX_OUT_OF_BOUNDS, Some out) h
    end.
Proof.
  intros Hv Hok Hi.
  pose proof (vector_elements_length h v Hok vec Hv) as Hel.
  destruct (vector_elements h v !! Z.to_nat index) as [x|] eqn:Hx.
  - destruct (decide (length x <= length out)%nat) as [Hout|Hout].
    + apply vector_get_ok; [done..|lia].
    + apply lookup_lt_Some in Hx as Hlt.
      destruct (vec_ok_live h v vec Hv Hok ltac:(lia))
        as (d & b & Hd & Hb & Hlen & Hmax & Hes & Hsz & Hcap).
      rewrite (vector_elements_slices _ _ _ _ _ Hv Hd Hb) in Hx.
      rewrite slices_lookup in Hx by lia. injection Hx as <-.
      assert ((index + 1) * v_element_size vec <= v_size vec * v_element_size vec) as Hm1
          by (apply Z.mul_le_mono_nonneg_r; lia).
      assert (0 <= index * v_element_size vec) as Hm3 by (apply Z.mul_nonneg_nonneg; lia).
      assert ((index + 1) * v_element_size vec
              = index * v_element_size vec + v_element_size vec) as Hm5 by ring.
      assert (Z.to_nat (index * v_element_size vec)
              = (Z.to_nat index * Z.to_nat (v_element_size vec))%nat) as E1
          by (rewrite Z2Nat.inj_mul; lia).
      rewrite length_take, length_drop in Hout.
      unfold vector_get, vector_check_index. fwd.
      destruct (Z.leb_spec (v_size vec) index); [lia|]. fwd.
      change (negb (is_success SUCCESS)) with false. cbv iota. fwd.
      rewrite Hd, (to_size_t_small (index * _)) by lia.
      unfold mem_copy_out.
      assert (index * v_element_size vec <= Z.of_nat (length b)) as Hoff by lia.
      rewrite bind_assoc, (bind_Ok _ _ _ _ _ (bytes_at_Some d _ h b Hb Hoff)).
      unfold mem_copy. destruct (Z.eqb_spec (v_element_size vec) 0); [lia|].
      destruct (Z.leb_spec (v_element_size vec) (Z.of_nat (length out))); [lia|].
      by rewrite andb_false_r.
  - apply lookup_ge_None in Hx.
    unfold vector_get, vector_check_index. fwd.
    destruct (Z.leb_spec (v_size vec) index); [|lia]. reflexivity.
Qed.

Lemma vector_set_run h v vec index e :
  vectors h !! v = Some vec -> vec_ok h v -> 0 <= index ->
  match vector_elements h v !! Z.to_nat index with
  | Some x =>
      if decide (v_element_size vec <= Z.of_nat (length e))
      then exists h1,
             vector_set (Some v) index (Some e) h = Ok SUCCESS h1 /\
             vec_ok h1 v /\
             vector_elements h1 v
             = <[Z.to_nat index := take (Z.to_nat (v_element_size vec)) e]>
                 (vector_elements h v) /\
             vectors h1 = vectors h /\
             (forall a, v_data vec <> Some a -> buffers h1 !! a = buffers h !! a) /\
             lists_same h h1 /\ allocator h1 = allocator h
      else vector_set (Some v) index (Some e) h = Fault
  | None => vector_set (Some v) index (Some e) h = Ok ERROR_INDEX_OUT_OF_BOUNDS h
  end.
Proof.
  intros Hv Hok Hi.
  pose proof (vector_elements_length h v Hok vec Hv) as Hel.
  assert (forall k : status_t -> M status_t,
            bind (vector_check_index v index) k h
            = k (if v_size vec <=? index then ERROR_INDEX_OUT_OF_BOUNDS else SUCCESS) h)
    as Hchk.
  { intros k. unfold vector_check_index. fwd. by destruct (v_size vec <=? index). }
  unfold vector_set. rewrite Hchk.
  destruct (vector_elements h v !! Z.to_nat index) as [x|] eqn:Hx.
  2:{ apply lookup_ge_None in Hx. destruct (Z.leb_spec (v_size vec) index); [|lia].
      reflexivity. }
  apply lookup_lt_Some in Hx as Hlt.
  destruct (Z.leb_spec (v_size vec) index); [lia|].
  change (negb (is_success SUCCESS)) with false. cbv iota.
  destruct (vec_ok_live h v vec Hv Hok ltac:(lia))
    as (d & b & Hd & Hb & Hlen & Hmax & Hes & Hsz & Hcap).
  assert ((index + 1) * v_element_size vec <= v_size vec * v_element_size vec) as Hm1
      by (apply Z.mul_le_mono_nonneg_r; lia).
  assert (0 <= index * v_element_size vec) as Hm3 by (apply Z.mul_nonneg_nonneg; lia).
  assert ((index + 1) * v_element_size vec
          = index * v_element_size vec + v_element_size vec) as Hm5 by ring.
  rewrite (bind_Ok _ _ _ _ _ (load_Some Vectors v h vec Hv)).
  rewrite Hd, (to_size_t_small (index * _)) by lia.
  pose proof (mem_copy_in_run d (index * v_element_size vec) e (v_element_size vec) h b
                Hb Hm3 ltac:(lia) ltac:(lia)) as Hrun.
  destruct (decide (v_element_size vec <= Z.of_nat (length e))) as [He|He].
  2:{ by rewrite (bind_Fault _ _ _ Hrun). }
  rewrite (bind_Ok _ _ _ _ _ Hrun).
  set (es := Z.to_nat (v_element_size vec)) in *.
  set (n := Z.to_nat (v_size vec)) in *.
  set (i := Z.to_nat index) in *.
  assert (Z.to_nat (index * v_element_size vec) = (i * es)%nat) as E1
      by (subst i es; rewrite Z2Nat.inj_mul; lia).
  rewrite E1.
  assert (Z.of_nat (n * es) = v_size vec * v_element_size vec) as Ez
      by (subst n es; rewrite Nat2Z.inj_mul; lia).
  assert (length (take es e) = es) as Hxe by (rewrite length_take; lia).
  eexists. split; [reflexivity|].
  split_and!; try reflexivity; try (by repeat split).
  - exists vec. cbn. split_and!; try done; try lia. rewrite Hd.
    eexists. rewrite lookup_insert_eq. split; [reflexivity|].
    rewrite !length_app, !length_take, !length_drop. lia.
  - unfold vector_elements at 1. cbn. rewrite Hv, Hd, lookup_insert_eq.
    rewrite (vector_elements_slices _ _ _ _ _ Hv Hd Hb). fold es n.
    apply slices_insert; [lia | lia | exact Hxe].
  - intros a Ha. cbn. rewrite lookup_insert_ne by congruence. reflexivity.
Qed.

(** [vector_get] and [vector_set] on a well-formed vector, with a
    [size_t] index.  [vector_get] changes nothing: below the size it
    returns [SUCCESS] with the element at [index] copied to [output]
    (undefined when [output] is shorter than an element), otherwise
    [ERROR_INDEX_OUT_OF_BOUNDS].  [vector_set] fails in the same way;
    when it succeeds the element at [index] is replaced by the first
    [element_size] bytes of the new one (reading a shorter element is
    undefined), nothing else changes but the vector's own buffer, and a
    [vector_get] at the same index reads back what was written. *)
Theorem vector_get_set_spec h v vec index :
  vectors h !! v = Some vec -> vec_ok h v -> is_size_t index ->
  (forall out,
     vector_get (Some v) index (Some out) h
     = match vector_elements h v !! Z.to_nat index with
       | Some x =>
           if decide (length x <= length out)%nat
           then Ok (SUCCESS, Some (x ++ drop (length x) out)) h
           else Fault
       | None => Ok (ERROR_INDEX_OUT_OF_BOUNDS, Some out) h
       end) /\
  (forall e,
     match vector_elements h v !! Z.to_nat index with
     | Some x =>
         if decide (v_element_size vec <= Z.of_nat (length e))
         then exists h1,
                vector_set (Some v) index (Some e) h = Ok SUCCESS h1 /\
                vec_ok h1 v /\
                vector_elements h1 v
                = <[Z.to_nat index := take (Z.to_nat (v_element_size vec)) e]>
                    (vector_elements h v) /\
                vectors h1 = vectors h /\
                (forall a, v_data vec <> Some a -> buffers h1 !! a = buffers h !! a) /\
                lists_same h h1 /\
                (forall out,
                   (Z.to_nat (v_element_size vec) <= length out)%nat ->
                   vector_get (Some v) index (Some out) h1
                   = Ok (SUCCESS, Some (take (Z.to_nat (v_element_size vec)) e
                                        ++ drop (Z.to_nat (v_element_size vec)) out)) h1)
         else vector_set (Some v) index (Some e) h = Fault
     | None => vector_set (Some v) index (Some e) h = Ok ERROR_INDEX_OUT_OF_BOUNDS h
     end).
Proof.
  intros Hv Hok [Hi _]. split.
  - intros out. by apply (vector_get_run h v vec).
  - intros e. pose proof (vector_set_run h v vec index e Hv Hok Hi) as Hset.
    destruct (vector_elements h v !! Z.to_nat index) as [x|] eqn:Hx; [|exact Hset].
    destruct (decide (v_element_size vec <= Z.of_nat (length e))) as [He|He];
      [|exact Hset].
    destruct Hset as (h1 & E & Hok1 & Hel & Hvs & Hfr & Hls & _).
    exists h1. split_and!; try assumption.
    intros out Hout.
    pose proof Hok as (vec' & Hv' & Hes & _). assert (vec' = vec) as -> by congruence.
    assert (length (take (Z.to_nat (v_element_size vec)) e)
            = Z.to_nat (v_element_size vec)) as Hxe by (rewrite length_take; lia).
    assert (vectors h1 !! v = Some vec) as Hv1 by congruence.
    rewrite (vector_get_run h1 v vec index out Hv1 Hok1 Hi).
    apply lookup_lt_Some in Hx.
    rewrite Hel, list_lookup_insert_eq by exact Hx.
    rewrite Hxe, decide_True by exact Hout. reflexivity.
Qed.

Lemma vector_get_set_spec_witness :
  exists h1,
    vector_set (Some 100) 1 (Some (elem4 Byte.x09)) demo_vec_heap = Ok SUCCESS h1 /\
    vector_elements h1 100 = [elem4 Byte.x01; elem4 Byte.x09; elem4 Byte.x03] /\
    vector_get (Some 100) 1 (Some (elem4 Byte.x00)) h1
    = Ok (SUCCESS, Some (elem4 Byte.x09)) h1 /\
    vector_get (Some 100) 3 (Some (elem4 Byte.x00)) demo_vec_heap
    = Ok (ERROR_INDEX_OUT_OF_BOUNDS, Some (elem4 Byte.x00)) demo_vec_heap.
Proof.
  destruct (vector_get_set_spec demo_vec_heap 100 demo_vec 1 eq_refl demo_vec_ok
              (is_size_t_small 1 ltac:(lia))) as [_ Hs].
  destruct (vector_get_set_spec demo_vec_heap 100 demo_vec 3 eq_refl demo_vec_ok
              (is_size_t_small 3 ltac:(lia))) as [Hg _].
  specialize (Hs (elem4 Byte.x09)).
  change (vector_elements demo_vec_heap 100 !! Z.to_nat 1)
    with (Some (elem4 Byte.x02)) in Hs.
  destruct (decide (v_element_size demo_vec <= Z.of_nat (length (elem4 Byte.x09))))
    as [_|Hn]; [|cbn in Hn; lia].
  destruct Hs as (h1 & E & _ & Hel & _ & _ & _ & Hget).
  exists h1. split_and!; [exact E | by rewrite Hel | | exact (Hg _)].
  exact (Hget (elem4 Byte.x00) ltac:(cbn; lia)).
Defined.

(* ===================================================================== *)
(** * The capacity of a vector *)
(* ===================================================================== *)






(* ===================================================================== *)
(** * Searching a vector *)
(* ===================================================================== *)

Lemma vector_find_loop_from h v vec d b e (cmp : cmp_fn) :
  vectors h !! v = Some vec -> v_data vec = Some d -> buffers h !! d = Some b ->
  0 < v_element_size vec -> 0 <= v_size vec ->
  v_size vec * v_element_size vec <= Z.of_nat (length b) ->
  Z.of_nat (length b) <= SIZE_MAX ->
  (forall x, cmp x e = cmp (take (Z.to_nat (v_element_size vec)) x) e) ->
  forall n k, (k + n = Z.to_nat (v_size vec))%nat ->
  vector_find_loop n (Z.of_nat k) v e cmp h
  = Ok (match list_find (fun x => cmp x e = 0) (drop k (vector_elements h v)) with
        | Some (j, _) => to_int (Z.of_nat (k + j))
        | None => -1
        end) h.
Proof.
  intros Hv Hd Hb Hes Hsz Hlen Hmax Hcmp.
  rewrite (vector_elements_slices _ _ _ _ _ Hv Hd Hb).
  induction n as [|n IH]; intros k Hk.
  - rewrite drop_ge by (rewrite slices_length; lia). reflexivity.
  - cbn [vector_find_loop]. fwd. rewrite Hd.
    assert (Z.of_nat k < v_size vec) as Hlt by lia.
    assert ((Z.of_nat k + 1) * v_element_size vec <= v_size vec * v_element_size vec)
      as Hm1 by (apply Z.mul_le_mono_nonneg_r; lia).
    assert (0 <= Z.of_nat k * v_element_size vec) as Hm3
        by (apply Z.mul_nonneg_nonneg; lia).
    rewrite (to_size_t_small (Z.of_nat k * _)) by lia.
    assert (Z.of_nat k * v_element_size vec <= Z.of_nat (length b)) as Hoff by lia.
    rewrite (bind_Ok _ _ _ _ _ (bytes_at_Some d _ h b Hb Hoff)).
    assert (Z.to_nat (Z.of_nat k * v_element_size vec)
            = (k * Z.to_nat (v_element_size vec))%nat) as E1
        by (rewrite Z2Nat.inj_mul; lia).
    rewrite E1.
    rewrite (drop_S _ (take (Z.to_nat (v_element_size vec))
                         (drop (k * Z.to_nat (v_element_size vec)) b)) k)
      by (apply slices_lookup; lia).
    cbn [list_find]. rewrite Hcmp.
    destruct (Z.eqb_spec (cmp (take (Z.to_nat (v_element_size vec))
                                 (drop (k * Z.to_nat (v_element_size vec)) b)) e) 0)
      as [E|E].
    + rewrite decide_True by exact E. by rewrite Nat.add_0_r.
    + rewrite decide_False by exact E.
      assert (v_size vec <= v_size vec * v_element_size vec) by nia.
      rewrite to_size_t_small by lia.
      replace (Z.of_nat k + 1) with (Z.of_nat (S k)) by lia.
      rewrite IH by lia.
      destruct (list_find _ (drop (S k) _)) as [[j x]|]; cbn; [|reflexivity].
      do 3 f_equal. lia.
Qed.

Lemma vector_find_elements h v vec e (cmp : cmp_fn) :
  vectors h !! v = Some vec -> vec_ok h v ->
  (forall x, cmp x e = cmp (take (Z.to_nat (v_element_size vec)) x) e) ->
  vector_find (Some v) (Some e) (Some cmp) h
  = Ok (match list_find (fun x => cmp x e = 0) (vector_elements h v) with
        | Some (j, _) => to_int (Z.of_nat j)
        | None => -1
        end) h.
Proof.
  intros Hv Hok Hcmp. unfold vector_find. fwd.
  destruct (Z.eq_dec (v_size vec) 0) as [E0|Hne].
  - rewrite E0. cbn [Z.to_nat vector_find_loop].
    assert (vector_elements h v = []) as ->; [|reflexivity].
    apply length_zero_iff_nil. pose proof (vector_elements_length h v Hok vec Hv). lia.
  - destruct (vec_ok_live h v vec Hv Hok Hne)
      as (d & b & Hd & Hb & Hlen & Hmax & Hes & Hsz & Hcap).
    apply (vector_find_loop_from h v vec d b e cmp Hv Hd Hb ltac:(lia) ltac:(lia)
             Hlen Hmax Hcmp _ 0%nat). lia.
Qed.

(** [vector_find] and [vector_contains] on a well-formed vector, with
    an element and a comparison that reads no more than [element_size]
    bytes of what it is given: they change nothing; [vector_find]
    returns the position of the first element the comparison finds
    equal to the given one (converted to [int]), or -1 when there is
    none; for a vector of at most 2^31 elements [vector_contains] tells
    whether there is one. *)
Theorem vector_find_spec h v vec e (cmp : cmp_fn) :
  vectors h !! v = Some vec -> vec_ok h v ->
  (forall x, cmp x e = cmp (take (Z.to_nat (v_element_size vec)) x) e) ->
  vector_find (Some v) (Some e) (Some cmp) h
  = Ok (match list_find (fun x => cmp x e = 0) (vector_elements h v) with
        | Some (j, _) => to_int (Z.of_nat j)
        | None => -1
        end) h /\
  (v_size vec <= 2 ^ 31 ->
   vector_contains (Some v) (Some e) (Some cmp) h
   = Ok (bool_decide (Exists (fun x => cmp x e = 0) (vector_elements h v))) h).
Proof.
  intros Hv Hok Hcmp.
  pose proof (vector_find_elements h v vec e cmp Hv Hok Hcmp) as Hf.
  split; [exact Hf|]. intros Hlen. unfold vector_contains.
  rewrite (bind_Ok _ _ _ _ _ Hf). unfold ret. f_equal.
  apply find_result_contains.
  pose proof (vector_elements_length h v Hok vec Hv). lia.
Qed.

Lemma mem_cmp_loop_take n x y :
  mem_cmp_loop n (take n x) y = mem_cmp_loop n x y.
Proof.
  revert x y. induction n as [|n IH]; intros x y; [reflexivity|].
  destruct x as [|b1 r1]; [reflexivity|]. cbn.
  destruct y as [|b2 r2]; [reflexivity|]. by rewrite IH.
Qed.

Lemma cmp_bytes_take n x e : 0 <= n -> cmp_bytes n x e = cmp_bytes n (take (Z.to_nat n) x) e.
Proof.
  intros Hn. unfold cmp_bytes, mem_cmp. destruct (n =? 0); [reflexivity|].
  by rewrite mem_cmp_loop_take.
Qed.

Lemma vector_find_spec_witness :
  vector_find (Some 100) (Some (elem4 Byte.x02)) (Some (cmp_bytes 4)) demo_vec_heap
  = Ok 1 demo_vec_heap /\
  vector_contains (Some 100) (Some (elem4 Byte.xff)) (Some (cmp_bytes 4)) demo_vec_heap
  = Ok false demo_vec_heap.
Proof.
  split.
  - destruct (vector_find_spec demo_vec_heap 100 demo_vec (elem4 Byte.x02) (cmp_bytes 4)
                eq_refl demo_vec_ok (fun x => cmp_bytes_take 4 x _ ltac:(lia))) as [Hf _].
    exact (eq_trans Hf eq_refl).
  - destruct (vector_find_spec demo_vec_heap 100 demo_vec (elem4 Byte.xff) (cmp_bytes 4)
                eq_refl demo_vec_ok (fun x => cmp_bytes_take 4 x _ ltac:(lia))) as [_ Hc].
    exact (eq_trans (Hc ltac:(vm_compute; discriminate)) eq_refl).
Defined.

(* ===================================================================== *)
(** * vector.c : insertions that return *)
(* ===================================================================== *)

Lemma mem_realloc_run p size h :
  allocation_succeeds p h = true -> 0 < size ->
  (forall d, p = Some d -> is_Some (buffers h !! d)) ->
  exists q b1 bufs al,
    mem_realloc p size h
    = Ok (Some q) (rset Buffers (<[q := b1]> bufs) (set_allocator al h)) /\
    Z.of_nat (length b1) = size.
Proof.
  intros Ha Hs Hlive. destruct p as [d|].
  - destruct (Hlive d eq_refl) as [b Hb].
    destruct (allocation_inv _ _ Ha) as (q & junk & rest & Hal & Hv & Hu).
    exists q, (resize (Z.to_nat size) Byte.x00 (b ++ junk)), (delete d (buffers h)), rest.
    split; [|rewrite length_resize; lia].
    unfold mem_realloc. destruct (Z.eqb_spec size 0); [lia|].
    rewrite (bind_Ok _ _ _ _ _ (load_Some Buffers d h b Hb)).
    unfold next_answer, bind. rewrite Hal.
    change (in_use (set_allocator rest h) q) with (in_use h q).
    assert (valid_addr q && (bool_decide (q = d) || negb (in_use h q)) = true) as ->.
    { rewrite Hv. cbn. destruct Hu as [[= ->]|Hu].
      - by rewrite bool_decide_eq_true_2.
      - rewrite Hu. by rewrite orb_true_r. }
    reflexivity.
  - destruct (mem_alloc_run size h Ha ltac:(lia)) as (q & junk & al & _ & _ & H).
    exists q, (resize (Z.to_nat size) Byte.x00 junk), (buffers h), al.
    split; [|rewrite length_resize; lia].
    unfold mem_realloc. by destruct (Z.eqb_spec size 0); [lia|].
Qed.

Lemma vector_reserve_returns h v vec n :
  vectors h !! v = Some vec -> vec_ok h v -> v_capacity vec < n ->
  n * v_element_size vec <= SIZE_MAX ->
  allocation_succeeds (v_data vec) h = true ->
  exists h1 q b1,
    vector_reserve (Some v) n h = Ok SUCCESS h1 /\
    vectors h1 !! v = Some (mk_vector (Some q) (v_size vec) n (v_element_size vec)) /\
    buffers h1 !! q = Some b1 /\
    Z.of_nat (length b1) = n * v_element_size vec.
Proof.
  intros Hv (vec' & Hv' & Hes & Hsz & Hcap & Hd) Hn Hmul Ha.
  assert (vec' = vec) by congruence. subst vec'.
  destruct (mem_realloc_run (v_data vec) (n * v_element_size vec) h Ha ltac:(nia))
    as (q & b1 & bufs & al & Hr & Hlen).
  { intros d Ed. rewrite Ed in Hd. destruct Hd as (b & Hb & _). eauto. }
  eexists _, q, b1. split_and!; [| | |exact Hlen].
  - unfold vector_reserve. fwd.
    destruct (Z.leb_spec n (v_capacity vec)); [lia|].
    rewrite to_size_t_small by nia.
    rewrite (bind_Ok _ _ _ _ _ Hr). fwd. reflexivity.
  - cbn. rewrite insert_insert_eq, lookup_insert_eq. by destruct vec.
  - cbn. by rewrite lookup_insert_eq.
Qed.

Lemma vector_check_grow_room h v vec :
  vectors h !! v = Some vec -> v_size vec < v_capacity vec ->
  vector_check_grow v h = Ok SUCCESS h.
Proof.
  intros Hv Hroom. unfold vector_check_grow. fwd.
  by destruct (Z.leb_spec (v_capacity vec) (v_size vec)); [lia|].
Qed.

(** With a free cell in a block that holds the capacity, [push_back]
    and [insert] return [SUCCESS]. *)
Lemma vector_push_back_free_cell h v vec d b e :
  vectors h !! v = Some vec -> v_data vec = Some d -> buffers h !! d = Some b ->
  0 < v_element_size vec -> 0 <= v_size vec < v_capacity vec ->
  v_capacity vec * v_element_size vec <= Z.of_nat (length b) ->
  Z.of_nat (length b) <= SIZE_MAX ->
  v_element_size vec <= Z.of_nat (length e) ->
  exists h1, vector_push_back (Some v) (Some e) h = Ok SUCCESS h1.
Proof.
  intros Hv Hd Hb Hes Hsz Hcap Hmax He.
  unfold vector_push_back. apply ok_ex; intros o'.
  rewrite (bind_Ok _ _ _ _ _ (vector_check_grow_room h v vec Hv ltac:(lia))).
  change (negb (is_success SUCCESS)) with false. cbv iota. fwd.
  rewrite Hd. rewrite to_size_t_small by nia.
  rewrite (bind_Ok _ _ _ _ _ (eq_trans
             (mem_copy_in_run d (v_size vec * v_element_size vec) e (v_element_size vec)
                h b Hb ltac:(nia) Hes ltac:(nia))
             (decide_True _ _ He))).
  fwd. intros <-. eauto.
Qed.

Lemma vector_insert_free_cell h v vec d b index e :
  vectors h !! v = Some vec -> v_data vec = Some d -> buffers h !! d = Some b ->
  0 < v_element_size vec -> 0 <= v_size vec < v_capacity vec ->
  v_capacity vec * v_element_size vec <= Z.of_nat (length b) ->
  Z.of_nat (length b) <= SIZE_MAX ->
  v_element_size vec <= Z.of_nat (length e) ->
  0 <= index <= v_size vec ->
  exists h1, vector_insert (Some v) index (Some e) h = Ok SUCCESS h1.
Proof.
  intros Hv Hd Hb Hes Hsz Hcap Hmax He Hi.
  unfold vector_insert. apply ok_ex; intros o'. fwd.
  destruct (Z.ltb_spec (v_size vec) index); [lia|].
  rewrite (bind_Ok _ _ _ _ _ (vector_check_grow_room h v vec Hv ltac:(lia))).
  change (negb (is_success SUCCESS)) with false. cbv iota. fwd.
  destruct (Z.eqb_spec index (v_size vec)) as [->|Hne].
  { intros <-. by apply (vector_push_back_free_cell h v vec d b e). }
  assert (v_capacity vec <= SIZE_MAX) by nia.
  cbv zeta. rewrite Hd.
  rewrite (to_size_t_small (index + 1)) by lia.
  rewrite (to_size_t_small (v_size vec - index)) by lia.
  rewrite !to_size_t_small by nia.
  rewrite (bind_Ok _ _ _ _ _
             (mem_move_run d ((index + 1) * v_element_size vec) (index * v_element_size vec)
                ((v_size vec - index) * v_element_size vec) h b Hb
                ltac:(nia) ltac:(nia) ltac:(nia) ltac:(nia) ltac:(nia))).
  set (b' := take _ b ++ _ ++ _).
  assert (length b' = length b) as Hb'.
  { unfold b'. rewrite !length_app, !length_take, !length_drop. nia. }
  set (h' := rset Buffers (<[d := b']> (buffers h)) h).
  assert (buffers h' !! d = Some b') as Hb2 by (cbn; apply lookup_insert_eq).
  rewrite (bind_Ok _ _ _ _ _ (eq_trans
             (mem_copy_in_run d (index * v_element_size vec) e (v_element_size vec)
                h' b' Hb2 ltac:(nia) Hes ltac:(nia))
             (decide_True _ _ He))).
  fwd. intros <-. eauto.
Qed.

(** On a full vector [vector_check_grow] returns [SUCCESS] when the
    allocator grants the larger block, and leaves a free cell. *)
Lemma vector_check_grow_returns h v vec :
  vectors h !! v = Some vec -> vec_ok h v -> v_size vec = v_capacity vec ->
  growth_fits vec -> allocation_succeeds (v_data vec) h = true ->
  exists h1 q b1 n,
    vector_check_grow v h = Ok SUCCESS h1 /\
    vectors h1 !! v = Some (mk_vector (Some q) (v_size vec) n (v_element_size vec)) /\
    v_size vec < n /\ n * v_element_size vec <= SIZE_MAX /\
    buffers h1 !! q = Some b1 /\
    Z.of_nat (length b1) = n * v_element_size vec.
Proof.
  intros Hv Hok Hfull (gp & Hgp & Hmul) Ha.
  pose proof Hok as (vec' & Hv' & Hes & Hsz & Hcap & Hd).
  assert (vec' = vec) by congruence. subst vec'.
  assert (v_capacity vec < SIZE_MAX) as Hlt.
  { destruct (Z.eq_dec (v_capacity vec) SIZE_MAX) as [E|E]; [|lia].
    rewrite E, growth_product_SIZE_MAX in Hgp. discriminate. }
  pose proof (next_capacity_gt gp (v_capacity vec) ltac:(lia)) as Hgt.
  destruct (vector_reserve_returns h v vec _ Hv Hok Hgt Hmul Ha)
    as (h1 & q & b1 & Hr & Hv1 & Hb1 & Hlen).
  exists h1, q, b1, (next_capacity gp (v_capacity vec)).
  split_and!; try done; [|lia].
  unfold vector_check_grow. fwd.
  destruct (Z.leb_spec (v_capacity vec) (v_size vec)); [|lia].
  rewrite Hgp. exact Hr.
Qed.

Lemma vector_push_back_grow h v vec e :
  vectors h !! v = Some vec -> vec_ok h v -> v_size vec = v_capacity vec ->
  growth_fits vec -> allocation_succeeds (v_data vec) h = true ->
  v_element_size vec <= Z.of_nat (length e) ->
  exists h1, vector_push_back (Some v) (Some e) h = Ok SUCCESS h1.
Proof.
  intros Hv Hok Hfull Hfit Ha He.
  destruct (vector_check_grow_returns h v vec Hv Hok Hfull Hfit Ha)
    as (h0 & q & b1 & n & Hg & Hv0 & Hn & Hmul & Hb1 & Hlen).
  destruct Hok as (vec' & Hv' & Hes & Hsz & Hcap & Hd).
  assert (vec' = vec) by congruence. subst vec'.
  destruct (vector_push_back_free_cell h0 v _ q b1 e Hv0 eq_refl Hb1) as [h1 H1];
    cbn; try lia.
  exists h1. rewrite <- H1. unfold vector_push_back.
  rewrite (bind_Ok _ _ _ _ _ Hg).
  by rewrite (bind_Ok _ _ _ _ _ (vector_check_grow_room h0 v _ Hv0 ltac:(cbn; lia))).
Qed.

Lemma vector_insert_grow h v vec index e :
  vectors h !! v = Some vec -> vec_ok h v -> v_size vec = v_capacity vec ->
  growth_fits vec -> allocation_succeeds (v_data vec) h = true ->
  v_element_size vec <= Z.of_nat (length e) ->
  0 <= index <= v_size vec ->
  exists h1, vector_insert (Some v) index (Some e) h = Ok SUCCESS h1.
Proof.
  intros Hv Hok Hfull Hfit Ha He Hi.
  destruct (vector_check_grow_returns h v vec Hv Hok Hfull Hfit Ha)
    as (h0 & q & b1 & n & Hg & Hv0 & Hn & Hmul & Hb1 & Hlen).
  destruct Hok as (vec' & Hv' & Hes & Hsz & Hcap & Hd).
  assert (vec' = vec) by congruence. subst vec'.
  destruct (vector_insert_free_cell h0 v _ q b1 index e Hv0 eq_refl Hb1) as [h1 H1];
    cbn; try lia.
  exists h1. rewrite <- H1. unfold vector_insert.
  rewrite (bind_Ok _ _ _ _ _ (load_Some Vectors v h vec Hv)).
  rewrite (bind_Ok _ _ _ _ _ (load_Some Vectors v h0 _ Hv0)).
  cbn [v_size]. destruct (Z.ltb_spec (v_size vec) index); [lia|].
  rewrite (bind_Ok _ _ _ _ _ Hg).
  by rewrite (bind_Ok _ _ _ _ _ (vector_check_grow_room h0 v _ Hv0 ltac:(cbn; lia))).
Qed.

Lemma vector_push_back_returns h v vec e :
  vectors h !! v = Some vec -> vec_ok h v ->
  v_element_size vec <= Z.of_nat (length e) ->
  (v_size vec < v_capacity vec /\ holds_capacity h v) \/
  (v_size vec = v_capacity vec /\ growth_fits vec /\
   allocation_succeeds (v_data vec) h = true) ->
  exists h1, vector_push_back (Some v) (Some e) h = Ok SUCCESS h1.
Proof.
  intros Hv Hok He Hcase.
  pose proof Hok as (vec' & Hv' & Hes & Hsz & Hcap & Hd).
  assert (vec' = vec) by congruence. subst vec'.
  destruct Hcase as [[Hroom (vec' & d & b & Hv2 & Hd2 & Hb & Hlen)]|(Hfull & Hfit & Ha)].
  - assert (vec' = vec) by congruence. subst vec'.
    rewrite Hd2 in Hd. destruct Hd as (b' & Hb' & _ & Hmax).
    assert (b' = b) by congruence. subst b'.
    apply (vector_push_back_free_cell h v vec d b e); try done; lia.
  - by apply (vector_push_back_grow h v vec e).
Qed.

(** C4 — For every vector of size [n], [insert(index, element)] fails
    with IndexOutOfBounds exactly when [index > n] ([index == n] is a
    valid append); on success, [get(index)] returns the inserted element
    and the elements formerly at positions [index .. n) occupy positions
    [index+1 .. n+1) in their original order (those before [index] stay
    where they were).

    In a well-formed store: with [index > n] the call returns
    [ERROR_INDEX_OUT_OF_BOUNDS] and the store is as it was; with
    [index <= n] and an element of at least [element_size] bytes the
    call returns [SUCCESS], both when the vector has a free cell in a
    block that holds its capacity and when it is full, the grown
    capacity fits [size_t] and the allocator grants the larger block;
    and whatever the call returns, it is [ERROR_INDEX_OUT_OF_BOUNDS]
    exactly when [index > n], and on [SUCCESS] the elements are as
    described. *)
Theorem vector_insert_spec h v vec index e :
  vectors h !! v = Some vec -> vec_ok h v -> 0 <= index ->
  (v_size vec < index ->
   vector_insert (Some v) index (Some e) h = Ok ERROR_INDEX_OUT_OF_BOUNDS h) /\
  (index <= v_size vec ->
   v_element_size vec <= Z.of_nat (length e) ->
   (v_size vec < v_capacity vec /\ holds_capacity h v) \/
   (v_size vec = v_capacity vec /\ growth_fits vec /\
    allocation_succeeds (v_data vec) h = true) ->
   exists h1, vector_insert (Some v) index (Some e) h = Ok SUCCESS h1) /\
  (forall s h1,
     vector_insert (Some v) index (Some e) h = Ok s h1 ->
     (s = ERROR_INDEX_OUT_OF_BOUNDS <-> v_size vec < index) /\
     (s = SUCCESS ->
      let es := Z.to_nat (v_element_size vec) in
      let x := take es e in
      length x = es /\
      vector_elements h1 v
      = take (Z.to_nat index) (vector_elements h v)
        ++ x :: drop (Z.to_nat index) (vector_elements h v) /\
      (forall out, (es <= length out)%nat ->
         vector_get (Some v) index (Some out) h1
         = Ok (SUCCESS, Some (x ++ drop es out)) h1) /\
      (forall j out, index <= j < v_size vec -> (es <= length out)%nat ->
         exists y, vector_get (Some v) j (Some out) h
                   = Ok (SUCCESS, Some (y ++ drop es out)) h /\
                   vector_get (Some v) (j + 1) (Some out) h1
                   = Ok (SUCCESS, Some (y ++ drop es out)) h1) /\
      (forall j out, 0 <= j < index -> (es <= length out)%nat ->
         exists y, vector_get (Some v) j (Some out) h
                   = Ok (SUCCESS, Some (y ++ drop es out)) h /\
                   vector_get (Some v) j (Some out) h1
                   = Ok (SUCCESS, Some (y ++ drop es out)) h1))).
Proof.
  intros Hv Hok Hidx. split_and!.
  - intros Hoob. unfold vector_insert. fwd.
    by destruct (Z.ltb_spec (v_size vec) index); [|lia].
  - intros Hin He Hcase.
    pose proof Hok as (vec' & Hv' & Hes & Hsz & Hcap & Hd).
    assert (vec' = vec) by congruence. subst vec'.
    destruct Hcase as [[Hroom (vec' & d & b & Hv2 & Hd2 & Hb & Hlen)]|(Hfull & Hfit & Ha)].
    + assert (vec' = vec) by congruence. subst vec'.
      rewrite Hd2 in Hd. destruct Hd as (b' & Hb' & _ & Hmax).
      assert (b' = b) by congruence. subst b'.
      apply (vector_insert_free_cell h v vec d b index e); try done; lia.
    + by apply (vector_insert_grow h v vec index e).
  - intros s h1 H. by eapply vector_insert_returned.
Qed.

Lemma vector_insert_spec_witness :
  (exists h1,
     vector_insert (Some 100) 3 (Some (elem4 Byte.x63)) demo_vec_heap = Ok SUCCESS h1 /\
     vector_elements h1 100
     = [elem4 Byte.x01; elem4 Byte.x02; elem4 Byte.x03; elem4 Byte.x63] /\
     vector_get (Some 100) 3 (Some (elem4 Byte.x00)) h1
     = Ok (SUCCESS, Some (elem4 Byte.x63)) h1) /\
  (exists h1,
     vector_insert (Some 100) 16 (Some (elem4 Byte.x63)) demo_full_heap = Ok SUCCESS h1 /\
     vector_elements h1 100
     = replicate 16 (replicate 4 Byte.x07) ++ [elem4 Byte.x63]) /\
  (exists h1,
     vector_insert (Some 100) 1 (Some (elem4 Byte.x63)) demo_full_heap = Ok SUCCESS h1 /\
     vector_elements h1 100
     = replicate 4 Byte.x07 :: elem4 Byte.x63 :: replicate 15 (replicate 4 Byte.x07)) /\
  vector_insert (Some 100) 4 (Some (elem4 Byte.x63)) demo_vec_heap
  = Ok ERROR_INDEX_OUT_OF_BOUNDS demo_vec_heap.
Proof.
  assert (holds_capacity demo_vec_heap 100) as Hhold.
  { eexists demo_vec, 200, _. split_and!; try reflexivity; cbn; lia. }
  assert (growth_fits demo_full_vec) as Hfit.
  { exists 24. split; [reflexivity|]. vm_compute. discriminate. }
  split_and!.
  - destruct (vector_insert_spec demo_vec_heap 100 demo_vec 3 (elem4 Byte.x63)
                eq_refl demo_vec_ok ltac:(lia)) as (_ & Hret & Heff).
    destruct Hret as [h1 E]; [cbn; lia | cbn; lia | left; split; [cbn; lia | exact Hhold] |].
    destruct (Heff _ _ E) as [_ H]. destruct (H eq_refl) as (_ & Hel & Hget & _).
    exists h1. split_and!; [exact E | exact Hel |].
    apply (Hget (elem4 Byte.x00)). cbn. lia.
  - destruct (vector_insert_spec demo_full_heap 100 demo_full_vec 16 (elem4 Byte.x63)
                eq_refl demo_full_ok ltac:(lia)) as (_ & Hret & Heff).
    destruct Hret as [h1 E];
      [cbn; lia | cbn; lia | right; split_and!; [reflexivity | exact Hfit | reflexivity] |].
    destruct (Heff _ _ E) as [_ H]. destruct (H eq_refl) as (_ & Hel & _).
    exists h1. split; [exact E|]. rewrite Hel. reflexivity.
  - destruct (vector_insert_spec demo_full_heap 100 demo_full_vec 1 (elem4 Byte.x63)
                eq_refl demo_full_ok ltac:(lia)) as (_ & Hret & Heff).
    destruct Hret as [h1 E];
      [cbn; lia | cbn; lia | right; split_and!; [reflexivity | exact Hfit | reflexivity] |].
    destruct (Heff _ _ E) as [_ H]. destruct (H eq_refl) as (_ & Hel & _).
    exists h1. split; [exact E|]. rewrite Hel. reflexivity.
  - destruct (vector_insert_spec demo_vec_heap 100 demo_vec 4 (elem4 Byte.x63)
                eq_refl demo_vec_ok ltac:(lia)) as (Hoob & _).
    apply Hoob. cbn. lia.
Defined.

(* ===================================================================== *)
(** * core.c : [mem_cmp] *)
(* ===================================================================== *)

Lemma byte_value_inj b1 b2 : byte_value b1 = byte_value b2 -> b1 = b2.
Proof.
  unfold byte_value. intros H. apply N2Z.inj in H.
  pose proof (Byte.of_to_N b1) as H1. rewrite H, Byte.of_to_N in H1. congruence.
Qed.

Lemma byte_value_range b : 0 <= byte_value b <= 255.
Proof. unfold byte_value. pose proof (Byte.to_N_bounded b). lia. Qed.

Lemma mem_cmp_loop_spec n : forall p1 p2,
  (n <= length p1)%nat -> (n <= length p2)%nat ->
  exists r,
    mem_cmp_loop n p1 p2 = Some r /\
    mem_cmp_loop n p2 p1 = Some (- r) /\
    (r = 0 <-> take n p1 = take n p2) /\
    (r <> 0 ->
     exists i b1 b2,
       (i < n)%nat /\ take i p1 = take i p2 /\
       p1 !! i = Some b1 /\ p2 !! i = Some b2 /\
       r = byte_value b1 - byte_value b2).
Proof.
  induction n as [|n IH]; intros p1 p2 H1 H2.
  - exists 0. cbn. split_and!; try done.
  - destruct p1 as [|b1 r1]; [cbn in H1; lia|].
    destruct p2 as [|b2 r2]; [cbn in H2; lia|].
    cbn in H1, H2. cbn [mem_cmp_loop].
    destruct (Z.eqb_spec (byte_value b1) (byte_value b2)) as [E|E].
    + apply byte_value_inj in E as ->. rewrite Z.eqb_refl.
      destruct (IH r1 r2 ltac:(lia) ltac:(lia)) as (r & E1 & E2 & Hz & Hd).
      exists r. split_and!; [exact E1 | exact E2 | |].
      * rewrite Hz. cbn. split; [by intros -> | by intros [= ->]].
      * intros Hr. destruct (Hd Hr) as (i & c1 & c2 & Hi & Ht & Hc1 & Hc2 & ->).
        exists (S i), c1, c2. cbn. split_and!; try done; [lia | by rewrite Ht].
    + assert ((byte_value b2 =? byte_value b1) = false) as -> by (apply Z.eqb_neq; lia).
      exists (byte_value b1 - byte_value b2). split_and!; [reflexivity | f_equal; lia | |].
      * cbn. split; [lia | intros [= -> _]; lia].
      * intros _. exists 0%nat, b1, b2. cbn. split_and!; try done. lia.
Qed.

(** [mem_cmp] on two blocks that hold at least [count] bytes each: it
    returns 0 exactly when their first [count] bytes are the same, and
    otherwise the difference of the first two bytes that differ, read
    as unsigned; exchanging the arguments negates the result, which
    lies between -255 and 255.  With a null pointer it returns 0 as
    well, whatever the other argument. *)
Theorem mem_cmp_spec p1 p2 count :
  0 <= count <= Z.of_nat (length p1) -> count <= Z.of_nat (length p2) ->
  exists r,
    mem_cmp (Some p1) (Some p2) count = Some r /\
    mem_cmp (Some p2) (Some p1) count = Some (- r) /\
    (r = 0 <-> take (Z.to_nat count) p1 = take (Z.to_nat count) p2) /\
    (r <> 0 ->
     exists i b1 b2,
       (i < Z.to_nat count)%nat /\ take i p1 = take i p2 /\
       p1 !! i = Some b1 /\ p2 !! i = Some b2 /\
       r = byte_value b1 - byte_value b2) /\
    -255 <= r <= 255 /\
    mem_cmp None (Some p2) count = Some 0 /\ mem_cmp (Some p1) None count = Some 0.
Proof.
  intros H1 H2. unfold mem_cmp.
  destruct (mem_cmp_loop_spec (Z.to_nat count) p1 p2 ltac:(lia) ltac:(lia))
    as (r & E1 & E2 & Hz & Hd).
  destruct (Z.eqb_spec count 0) as [->|Hne].
  - cbn in E1. injection E1 as <-. exists 0. split_and!; try done; try lia.
  - assert (-255 <= r <= 255) as Hrange.
    { destruct (Z.eq_dec r 0) as [->|Hr]; [lia|].
      destruct (Hd Hr) as (i & b1 & b2 & _ & _ & _ & _ & ->).
      pose proof (byte_value_range b1). pose proof (byte_value_range b2). lia. }
    exists r. split_and!; try done; lia.
Qed.

Lemma mem_cmp_spec_witness :
  mem_cmp (Some (elem4 Byte.x01)) (Some (elem4 Byte.x03)) 4 = Some (-2) /\
  mem_cmp (Some (elem4 Byte.x03)) (Some (elem4 Byte.x01)) 4 = Some 2.
Proof.
  destruct (mem_cmp_spec (elem4 Byte.x01) (elem4 Byte.x03) 4 ltac:(cbn; lia)
              ltac:(cbn; lia)) as (r & E1 & E2 & _).
  assert (r = -2) as -> by (vm_compute in E1; congruence).
  split; [exact E1 | exact E2].
Defined.

(* ===================================================================== *)
(** * The containers of module 4 over their underlying container *)
(* ===================================================================== *)

(** A call that reads its object and hands over to the underlying
    container leaves the adapters as they are. *)
Lemma wrap_run {T A} (R : aregion T) p x (f : T -> M A) w h :
  aget R w !! p = Some x ->
  (x0 <~ aload R p ;; lift (f x0)) w h
  = match f x h with
    | Ok a h1 => Ok (a, w) h1
    | Fault => Fault
    | OutOfFuel => OutOfFuel
    end.
Proof.
  intros E. unfold bind4, aload, lift, bind, ret. rewrite E. cbn.
  by destruct (f x h).
Qed.

Lemma wrap_inv {T A} (R : aregion T) p x (f : T -> M A) w h a w1 h1 :
  aget R w !! p = Some x ->
  (x0 <~ aload R p ;; lift (f x0)) w h = Ok (a, w1) h1 ->
  w1 = w /\ f x h = Ok a h1.
Proof.
  intros E H. rewrite (wrap_run R p x f w h E) in H.
  destruct (f x h); [|done|done]. by injection H as -> -> ->.
Qed.

Lemma bind4_aload {T B} (R : aregion T) p x (k : T -> A4 B) w h :
  aget R w !! p = Some x -> (x0 <~ aload R p ;; k x0) w h = k x w h.
Proof. intros E. unfold bind4, aload, bind, ret. by rewrite E. Qed.

Lemma bind4_lift {A B} (m : M A) (k : A -> A4 B) w h a h1 :
  m h = Ok a h1 -> (x <~ lift m ;; k x) w h = k a w h1.
Proof. intros E. unfold bind4, lift, bind, ret. by rewrite E. Qed.

Lemma lift_run {A} (m : M A) w h :
  lift m w h
  = match m h with
    | Ok a h1 => Ok (a, w) h1
    | Fault => Fault
    | OutOfFuel => OutOfFuel
    end.
Proof. unfold lift, bind, ret. by destruct (m h). Qed.

Lemma bind4_ret4 {A B} (a : A) (k : A -> A4 B) w h : (x <~ ret4 a ;; k x) w h = k a w h.
Proof. reflexivity. Qed.

Lemma bind4_amodify {T B} (R : aregion T) p x f (k : unit -> A4 B) w h :
  aget R w !! p = Some x ->
  (u <~ amodify R p f ;; k u) w h = k tt (aset R (<[p := f x]> (aget R w)) w) h.
Proof. intros E. unfold bind4, amodify, bind, ret. by rewrite E. Qed.

Lemma doubly_list_elements_contents h h1 lp :
  contents h1 = contents h -> doubly_list_elements h1 lp = doubly_list_elements h lp.
Proof.
  unfold contents. intros H. injection H as _ _ _ _ Hl Hn.
  unfold doubly_list_elements, doubly_list_nodes, dn_data_at. by rewrite Hl, Hn.
Qed.

Lemma singly_list_elements_contents h h1 lp :
  contents h1 = contents h -> singly_list_elements h1 lp = singly_list_elements h lp.
Proof.
  unfold contents. intros H. injection H as _ _ Hl Hn _ _.
  unfold singly_list_elements, singly_list_nodes, sn_data_at. by rewrite Hl, Hn.
Qed.

Lemma doubly_list_size_run h lp l :
  dlists_ok h -> dlists h !! lp = Some l ->
  doubly_list_size (Some lp) h = Ok (Z.of_nat (length (doubly_list_elements h lp))) h /\
  doubly_list_empty (Some lp) h
  = Ok (bool_decide (doubly_list_elements h lp = [])) h.
Proof.
  intros Hok Hl. destruct (dlist_len_live h lp l Hok Hl) as (_ & Hsz & _).
  rewrite doubly_list_elements_length.
  unfold doubly_list_size, doubly_list_empty, field, bind, load, ret. cbn.
  rewrite Hl, Hsz. split; [done|]. f_equal.
  destruct (doubly_list_elements h lp) eqn:E;
    rewrite <- (doubly_list_elements_length h lp), E; cbn; [done|].
  apply Z.eqb_neq. lia.
Qed.

(** A deque over the doubly linked list [lp], as the sequence of the
    elements of its list.  [deque_push_front] and [deque_push_back] put
    the first [element_size] bytes of the element before, respectively
    after, the others, or fail with [ERROR_MEMORY_ALLOCATION] and leave
    the sequence as it is.  [deque_pop_front] and [deque_pop_back] take
    the first, respectively the last, element away and copy it to a
    non-null [output]; on an empty deque both return
    [ERROR_EMPTY_CONTAINER] and change nothing.  [deque_peek_front] and
    [deque_peek_back] copy that element out and change nothing; on an
    empty deque [deque_peek_back] returns [ERROR_EMPTY_CONTAINER] but
    [deque_peek_front] returns [ERROR_INDEX_OUT_OF_BOUNDS].
    [deque_size] is the length of the sequence and [deque_empty] tells
    whether it is empty.  No call changes the deque object itself, and
    each leaves the lists well formed.  The pops do return: on a
    non-empty deque whenever the copy to a non-null [output] is within
    bounds, on an empty deque always.  The pushes return [SUCCESS] for
    an element of at least [element_size] bytes whenever the allocator
    grants the node. *)
Theorem deque_ends_spec w h d dq lp l e o :
  deques w !! d = Some dq -> dq_list dq = Some lp ->
  dlists h !! lp = Some l -> dlists_ok h ->
  (forall s w1 h1,
     deque_push_front (Some d) (Some e) w h = Ok (s, w1) h1 ->
     w1 = w /\ dl_effect h h1 lp /\
     (s = SUCCESS \/ s = ERROR_MEMORY_ALLOCATION) /\
     doubly_list_elements h1 lp
     = if decide (s = SUCCESS)
       then take (Z.to_nat (dl_element_size l)) e :: doubly_list_elements h lp
       else doubly_list_elements h lp) /\
  (forall s w1 h1,
     deque_push_back (Some d) (Some e) w h = Ok (s, w1) h1 ->
     w1 = w /\ dl_effect h h1 lp /\
     (s = SUCCESS \/ s = ERROR_MEMORY_ALLOCATION) /\
     doubly_list_elements h1 lp
     = if decide (s = SUCCESS)
       then doubly_list_elements h lp ++ [take (Z.to_nat (dl_element_size l)) e]
       else doubly_list_elements h lp) /\
  (forall output s r w1 h1,
     deque_pop_front (Some d) output w h = Ok (s, r, w1) h1 ->
     w1 = w /\ dl_effect h h1 lp /\
     match head (doubly_list_elements h lp) with
     | None => s = ERROR_EMPTY_CONTAINER /\ r = output /\ h1 = h
     | Some x =>
         s = SUCCESS /\
         doubly_list_elements h1 lp = drop 1 (doubly_list_elements h lp) /\
         r = output ≫= (fun out => mem_copy out x (dl_element_size l))
     end) /\
  (forall output s r w1 h1,
     deque_pop_back (Some d) output w h = Ok (s, r, w1) h1 ->
     w1 = w /\ dl_effect h h1 lp /\
     match last (doubly_list_elements h lp) with
     | None => s = ERROR_EMPTY_CONTAINER /\ r = output /\ h1 = h
     | Some x =>
         s = SUCCESS /\
         doubly_list_elements h1 lp
         = take (length (doubly_list_elements h lp) - 1) (doubly_list_elements h lp) /\
         r = output ≫= (fun out => mem_copy out x (dl_element_size l))
     end) /\
  deque_peek_front (Some d) (Some o) w h
  = match head (doubly_list_elements h lp) with
    | None => Ok (ERROR_INDEX_OUT_OF_BOUNDS, Some o, w) h
    | Some x =>
        match mem_copy o x (dl_element_size l) with
        | Some o' => Ok (SUCCESS, Some o', w) h
        | None => Fault
        end
    end /\
  deque_peek_back (Some d) (Some o) w h
  = match last (doubly_list_elements h lp) with
    | None => Ok (ERROR_EMPTY_CONTAINER, Some o, w) h
    | Some x =>
        match mem_copy o x (dl_element_size l) with
        | Some o' => Ok (SUCCESS, Some o', w) h
        | None => Fault
        end
    end /\
  deque_size (Some d) w h = Ok (Z.of_nat (length (doubly_list_elements h lp)), w) h /\
  deque_empty (Some d) w h = Ok (bool_decide (doubly_list_elements h lp = []), w) h /\
  (forall output x,
     head (doubly_list_elements h lp) = Some x ->
     (forall out, output = Some out -> is_Some (mem_copy out x (dl_element_size l))) ->
     exists r h1, deque_pop_front (Some d) output w h = Ok (SUCCESS, r, w) h1) /\
  (forall output x,
     last (doubly_list_elements h lp) = Some x ->
     (forall out, output = Some out -> is_Some (mem_copy out x (dl_element_size l))) ->
     exists r h1, deque_pop_back (Some d) output w h = Ok (SUCCESS, r, w) h1) /\
  (forall output,
     doubly_list_elements h lp = [] ->
     deque_pop_front (Some d) output w h = Ok (ERROR_EMPTY_CONTAINER, output, w) h /\
     deque_pop_back (Some d) output w h = Ok (ERROR_EMPTY_CONTAINER, output, w) h) /\
  (0 < dl_element_size l <= Z.of_nat (length e) ->
   node_allocation_succeeds h = true ->
   (exists h1,
      deque_push_front (Some d) (Some e) w h = Ok (SUCCESS, w) h1 /\
      doubly_list_elements h1 lp
      = take (Z.to_nat (dl_element_size l)) e :: doubly_list_elements h lp) /\
   (exists h1,
      deque_push_back (Some d) (Some e) w h = Ok (SUCCESS, w) h1 /\
      doubly_list_elements h1 lp
      = doubly_list_elements h lp ++ [take (Z.to_nat (dl_element_size l)) e])).
Proof.
  intros Hd Hlp Hl Hok.
  assert (Hd' : aget Deques w !! d = Some dq) by exact Hd.
  destruct (doubly_list_size_run h lp l Hok Hl) as [Hsize Hempty].
  split_and!.
  - intros s w1 h1 H. unfold deque_push_front in H.
    apply (wrap_inv Deques d dq) in H as [-> H]; [|exact Hd']. rewrite Hlp in H.
    destruct (doubly_list_push_front_ok _ _ _ _ _ Hok H) as (Heff & Hfail & Hsucc).
    split_and!; [done|exact Heff| |].
    + destruct (decide (s = SUCCESS)) as [->|Hne]; [by left|right; by apply Hfail].
    + destruct (decide (s = SUCCESS)) as [->|Hne].
      * destruct (Hsucc eq_refl) as (n & l' & Hl' & _ & He).
        rewrite Hl in Hl'. by injection Hl' as <-.
      * apply doubly_list_elements_contents. by apply Hfail.
  - intros s w1 h1 H. unfold deque_push_back in H.
    apply (wrap_inv Deques d dq) in H as [-> H]; [|exact Hd']. rewrite Hlp in H.
    destruct (doubly_list_push_back_ok _ _ _ _ _ Hok H) as (Heff & Hfail & Hsucc).
    split_and!; [done|exact Heff| |].
    + destruct (decide (s = SUCCESS)) as [->|Hne]; [by left|right; by apply Hfail].
    + destruct (decide (s = SUCCESS)) as [->|Hne].
      * destruct (Hsucc eq_refl) as (n & l' & Hl' & _ & He).
        rewrite Hl in Hl'. by injection Hl' as <-.
      * apply doubly_list_elements_contents. by apply Hfail.
  - intros output s r w1 h1 H. unfold deque_pop_front in H.
    apply (wrap_inv Deques d dq) in H as [-> H]; [|exact Hd']. rewrite Hlp in H.
    pose proof H as H'.
    apply doubly_list_pop_front_ok in H' as (Heff & Hfail & Hsucc); [|exact Hok].
    split_and!; [done|exact Heff|]. destruct (decide (s = SUCCESS)) as [->|Hne].
    + destruct (doubly_list_pop_front_output _ _ _ _ _ Hok H) as (l' & x & Hl' & Hx & Hr).
      rewrite Hl in Hl'. injection Hl' as <-.
      rewrite Hx. destruct (Hsucc eq_refl) as [_ Hel].
      by rewrite Hel, delete_first_drop.
    + destruct (Hfail Hne) as (-> & -> & -> & Hnil).
      unfold doubly_list_elements. by rewrite Hnil.
  - intros output s r w1 h1 H. unfold deque_pop_back in H.
    apply (wrap_inv Deques d dq) in H as [-> H]; [|exact Hd']. rewrite Hlp in H.
    pose proof H as H'.
    apply doubly_list_pop_back_ok in H' as (Heff & Hfail & Hsucc); [|exact Hok].
    split_and!; [done|exact Heff|]. destruct (decide (s = SUCCESS)) as [->|Hne].
    + destruct (doubly_list_pop_back_output _ _ _ _ _ Hok H) as (l' & x & Hl' & Hx & Hr).
      rewrite Hl in Hl'. injection Hl' as <-.
      rewrite Hx. destruct (Hsucc eq_refl) as [_ Hel].
      by rewrite Hel, <- doubly_list_elements_length, delete_last_take.
    + destruct (Hfail Hne) as (-> & -> & -> & Hnil).
      unfold doubly_list_elements. by rewrite Hnil.
  - unfold deque_peek_front. rewrite (wrap_run Deques d dq _ w h Hd'), Hlp.
    rewrite (doubly_list_get_elements h lp l 0 o Hok Hl) by lia.
    rewrite head_lookup. change (Z.to_nat 0) with 0%nat.
    destruct (doubly_list_elements h lp !! 0%nat) as [x|]; [|done].
    by destruct (mem_copy o x (dl_element_size l)).
  - unfold deque_peek_back. rewrite (bind4_aload Deques d dq _ w h Hd'), Hlp.
    rewrite (bind4_lift _ _ w h _ _ Hempty).
    pose proof (dlists_ok_bound h lp Hok) as Hb.
    rewrite <- doubly_list_elements_length in Hb.
    destruct (doubly_list_elements h lp) as [|x0 xs] eqn:E using rev_ind.
    + done.
    + clear IHxs. rewrite last_snoc. rewrite bool_decide_eq_false_2 by by destruct xs.
      rewrite (bind4_lift _ _ w h _ _ Hsize), lift_run.
      rewrite length_app in Hb |- *. cbn [length] in Hb |- *.
      assert (Hi : to_size_t (Z.of_nat (length xs + 1) - 1) = Z.of_nat (length xs)).
      { unfold to_size_t. rewrite Z.mod_small; [lia|]. unfold SIZE_MAX in Hb. lia. }
      rewrite Hi.
      rewrite (doubly_list_get_elements h lp l _ o Hok Hl) by lia.
      rewrite E, Nat2Z.id, list_lookup_middle by done.
      by destruct (mem_copy o x0 (dl_element_size l)).
  - unfold deque_size. by rewrite (wrap_run Deques d dq _ w h Hd'), Hlp, Hsize.
  - unfold deque_empty. by rewrite (wrap_run Deques d dq _ w h Hd'), Hlp, Hempty.
  - intros output x Hx Hroom.
    destruct (doubly_list_pop_front_returns h lp l output x Hok Hl Hx Hroom)
      as (r & h1 & E).
    exists r, h1. unfold deque_pop_front.
    by rewrite (wrap_run Deques d dq _ w h Hd'), Hlp, E.
  - intros output x Hx Hroom.
    destruct (doubly_list_pop_back_returns h lp l output x Hok Hl Hx Hroom)
      as (r & h1 & E).
    exists r, h1. unfold deque_pop_back.
    by rewrite (wrap_run Deques d dq _ w h Hd'), Hlp, E.
  - intros output Hnil.
    destruct (doubly_list_pop_empty h lp l output Hok Hl Hnil) as [Ef Eb].
    unfold deque_pop_front, deque_pop_back.
    by rewrite !(wrap_run Deques d dq _ w h Hd'), Hlp, Ef, Eb.
  - intros Hle Hal. split.
    + destruct (doubly_list_push_front_returns h lp l e Hok Hl Hal Hle) as [h1 H].
      exists h1. split.
      * unfold deque_push_front.
        by rewrite (wrap_run Deques d dq _ w h Hd'), Hlp, H.
      * destruct (doubly_list_push_front_ok _ _ _ _ _ Hok H) as (_ & _ & Hsucc).
        destruct (Hsucc eq_refl) as (n & l' & Hl' & _ & He).
        rewrite Hl in Hl'. by injection Hl' as <-.
    + destruct (doubly_list_push_back_returns h lp l e Hok Hl Hal Hle) as [h1 H].
      exists h1. split.
      * unfold deque_push_back.
        by rewrite (wrap_run Deques d dq _ w h Hd'), Hlp, H.
      * destruct (doubly_list_push_back_ok _ _ _ _ _ Hok H) as (_ & _ & Hsucc).
        destruct (Hsucc eq_refl) as (n & l' & Hl' & _ & He).
        rewrite Hl in Hl'. by injection Hl' as <-.
Qed.

Lemma deque_ends_spec_witness :
  deque_peek_front (Some 810) (Some (elem4 Byte.xff)) demo_adapters demo_lists_heap
  = Ok (ERROR_INDEX_OUT_OF_BOUNDS, Some (elem4 Byte.xff), demo_adapters) demo_lists_heap /\
  deque_peek_back (Some 810) (Some (elem4 Byte.xff)) demo_adapters demo_lists_heap
  = Ok (ERROR_EMPTY_CONTAINER, Some (elem4 Byte.xff), demo_adapters) demo_lists_heap /\
  deque_peek_back (Some 800) (Some (elem4 Byte.xff)) demo_adapters demo_lists_heap
  = Ok (SUCCESS, Some (elem4 Byte.x03), demo_adapters) demo_lists_heap /\
  deque_size (Some 800) demo_adapters demo_lists_heap = Ok (3, demo_adapters) demo_lists_heap /\
  (exists h1,
     deque_pop_back (Some 800) (Some (elem4 Byte.xff)) demo_adapters demo_lists_heap
     = Ok (SUCCESS, Some (elem4 Byte.x03), demo_adapters) h1 /\
     doubly_list_elements h1 500 = [elem4 Byte.x01; elem4 Byte.x02]) /\
  (exists h1,
     deque_push_front (Some 800) (Some (elem4 Byte.xff)) demo_adapters demo_lists_heap
     = Ok (SUCCESS, demo_adapters) h1 /\
     doubly_list_elements h1 500
     = [elem4 Byte.xff; elem4 Byte.x01; elem4 Byte.x02; elem4 Byte.x03]) /\
  (exists h1,
     deque_push_back (Some 810) (Some (elem4 Byte.xff)) demo_adapters demo_lists_heap
     = Ok (SUCCESS, demo_adapters) h1 /\
     doubly_list_elements h1 600 = [elem4 Byte.xff]).
Proof.
  destruct (deque_ends_spec demo_adapters demo_lists_heap 810 (mk_deque (Some 600)) 600
              (mk_dlist None None 0 4) (elem4 Byte.xff) (elem4 Byte.xff)
              eq_refl eq_refl eq_refl (proj2 demo_lists_ok))
    as (_ & _ & _ & _ & Hf & Hb & _ & _ & _ & _ & _ & Hpush0).
  destruct (deque_ends_spec demo_adapters demo_lists_heap 800 (mk_deque (Some 500)) 500
              (mk_dlist (Some 510) (Some 530) 3 4) (elem4 Byte.xff) (elem4 Byte.xff)
              eq_refl eq_refl eq_refl (proj2 demo_lists_ok))
    as (_ & _ & _ & Hpb & _ & Hb3 & Hs & _ & _ & Hret & _ & Hpush3).
  split_and!.
  - exact (eq_trans Hf eq_refl).
  - exact (eq_trans Hb eq_refl).
  - exact (eq_trans Hb3 eq_refl).
  - exact (eq_trans Hs eq_refl).
  - destruct (Hret (Some (elem4 Byte.xff)) (elem4 Byte.x03) eq_refl) as (r & h1 & E).
    { intros out Ho. injection Ho as <-. vm_compute. eauto. }
    destruct (Hpb _ _ _ _ _ E) as (_ & _ & Hp).
    change (last (doubly_list_elements demo_lists_heap 500))
      with (Some (elem4 Byte.x03)) in Hp.
    destruct Hp as (_ & Hel & ->).
    exists h1. split; [exact (eq_trans E eq_refl)|]. by rewrite Hel.
  - destruct Hpush3 as [(h1 & E & Hel) _]; [cbn; lia | reflexivity |].
    exists h1. split; [exact E|]. rewrite Hel. reflexivity.
  - destruct Hpush0 as [_ (h1 & E & Hel)]; [cbn; lia | reflexivity |].
    exists h1. split; [exact E|]. rewrite Hel. reflexivity.
Defined.

(* ===================================================================== *)
(** * The two stacks *)
(* ===================================================================== *)

Lemma vec_ok_contents h h1 v : contents h1 = contents h -> vec_ok h v -> vec_ok h1 v.
Proof.
  unfold contents. intros H. injection H as Hv Hb _ _ _ _.
  unfold vec_ok. by rewrite Hv, Hb.
Qed.

Lemma vector_elements_contents h h1 v :
  contents h1 = contents h -> vector_elements h1 v = vector_elements h v.
Proof.
  unfold contents. intros H. injection H as Hv Hb _ _ _ _.
  unfold vector_elements. by rewrite Hv, Hb.
Qed.

Lemma vector_size_run h v vec :
  vectors h !! v = Some vec -> vec_ok h v ->
  vector_size (Some v) h = Ok (Z.of_nat (length (vector_elements h v))) h /\
  vector_empty (Some v) h = Ok (bool_decide (vector_elements h v = [])) h.
Proof.
  intros Hv Hok. pose proof (vector_elements_length h v Hok vec Hv) as Hlen.
  unfold vector_size, vector_empty, bind, load, ret. cbn. rewrite Hv, Hlen.
  split; [done|]. f_equal. rewrite <- Hlen.
  destruct (vector_elements h v); cbn; [done|]. apply Z.eqb_neq. lia.
Qed.

Lemma singly_list_size_run h lp l :
  slists_ok h -> slists h !! lp = Some l ->
  singly_list_size (Some lp) h = Ok (Z.of_nat (length (singly_list_elements h lp))) h /\
  singly_list_empty (Some lp) h
  = Ok (bool_decide (singly_list_elements h lp = [])) h.
Proof.
  intros Hok Hl. destruct (slist_len_live h lp l Hok Hl) as (_ & Hsz & _).
  rewrite singly_list_elements_length.
  unfold singly_list_size, singly_list_empty, field, bind, load, ret. cbn.
  rewrite Hl, Hsz. split; [done|]. f_equal.
  destruct (singly_list_elements h lp) eqn:E;
    rewrite <- (singly_list_elements_length h lp), E; cbn; [done|].
  apply Z.eqb_neq. lia.
Qed.

Lemma singly_list_push_front_seq h lp l e s h1 :
  slists_ok h -> slists h !! lp = Some l ->
  singly_list_push_front (Some lp) (Some e) h = Ok s h1 ->
  sl_effect h h1 lp /\ (s = SUCCESS \/ s = ERROR_MEMORY_ALLOCATION) /\
  singly_list_elements h1 lp
  = if decide (s = SUCCESS)
    then take (Z.to_nat (sl_element_size l)) e :: singly_list_elements h lp
    else singly_list_elements h lp.
Proof.
  intros Hok Hl H.
  destruct (singly_list_push_front_ok _ _ _ _ _ Hok H) as (Heff & Hfail & Hsucc).
  split_and!; [exact Heff| |].
  - destruct (decide (s = SUCCESS)) as [->|Hne]; [by left|right; by apply Hfail].
  - destruct (decide (s = SUCCESS)) as [->|Hne].
    + destruct (Hsucc eq_refl) as (n & l' & Hl' & _ & He).
      rewrite Hl in Hl'. by injection Hl' as <-.
    + apply singly_list_elements_contents. by apply Hfail.
Qed.

Lemma singly_list_push_back_seq h lp l e s h1 :
  slists_ok h -> slists h !! lp = Some l ->
  singly_list_push_back (Some lp) (Some e) h = Ok s h1 ->
  sl_effect h h1 lp /\ (s = SUCCESS \/ s = ERROR_MEMORY_ALLOCATION) /\
  singly_list_elements h1 lp
  = if decide (s = SUCCESS)
    then singly_list_elements h lp ++ [take (Z.to_nat (sl_element_size l)) e]
    else singly_list_elements h lp.
Proof.
  intros Hok Hl H.
  destruct (singly_list_push_back_ok _ _ _ _ _ Hok H) as (Heff & Hfail & Hsucc).
  split_and!; [exact Heff| |].
  - destruct (decide (s = SUCCESS)) as [->|Hne]; [by left|right; by apply Hfail].
  - destruct (decide (s = SUCCESS)) as [->|Hne].
    + destruct (Hsucc eq_refl) as (n & l' & Hl' & _ & He).
      rewrite Hl in Hl'. by injection Hl' as <-.
    + apply singly_list_elements_contents. by apply Hfail.
Qed.

Lemma singly_list_pop_front_seq h lp l output s r h1 :
  slists_ok h -> slists h !! lp = Some l ->
  singly_list_pop_front (Some lp) output h = Ok (s, r) h1 ->
  sl_effect h h1 lp /\
  match head (singly_list_elements h lp) with
  | None => s = ERROR_EMPTY_CONTAINER /\ r = output /\ h1 = h
  | Some x =>
      s = SUCCESS /\
      singly_list_elements h1 lp = drop 1 (singly_list_elements h lp) /\
      r = output ≫= (fun out => mem_copy out x (sl_element_size l))
  end.
Proof.
  intros Hok Hl H. pose proof H as H'.
  apply singly_list_pop_front_ok in H' as (Heff & Hfail & Hsucc); [|exact Hok].
  split; [exact Heff|]. destruct (decide (s = SUCCESS)) as [->|Hne].
  - destruct (singly_list_pop_front_output _ _ _ _ _ Hok H) as (l' & x & Hl' & Hx & Hr).
    rewrite Hl in Hl'. injection Hl' as <-.
    rewrite Hx. destruct (Hsucc eq_refl) as [_ Hel].
    by rewrite Hel, delete_first_drop.
  - destruct (Hfail Hne) as (-> & -> & -> & Hnil).
    unfold singly_list_elements. by rewrite Hnil.
Qed.

Lemma singly_list_get_first h lp l o :
  slists_ok h -> slists h !! lp = Some l ->
  singly_list_get (Some lp) 0 (Some o) h
  = match head (singly_list_elements h lp) with
    | None => Ok (ERROR_INDEX_OUT_OF_BOUNDS, Some o) h
    | Some x =>
        match mem_copy o x (sl_element_size l) with
        | Some o' => Ok (SUCCESS, Some o') h
        | None => Fault
        end
    end.
Proof.
  intros Hok Hl. rewrite (singly_list_get_elements h lp l 0 o Hok Hl) by lia.
  rewrite head_lookup. by change (Z.to_nat 0) with 0%nat.
Qed.

Lemma demo_store_vec_ok : vec_ok demo_store 100.
Proof.
  exists demo_vec. split; [reflexivity|]. cbn.
  split_and!; try (unfold SIZE_MAX, SIZE_BITS; lia).
  eexists. split; [reflexivity|]. cbn. unfold SIZE_MAX, SIZE_BITS. lia.
Qed.

Lemma demo_store_lists_ok : lists_ok demo_store.
Proof. exact demo_lists_ok. Qed.

(** The two stacks of stack.c.  The stack on the vector [v] keeps its
    elements in the vector, the top last: [stack_array_push] appends the
    first [element_size] bytes of the element, or fails with
    [ERROR_MEMORY_ALLOCATION] and leaves the elements as they are;
    [stack_array_pop] removes the last element and copies it to a
    non-null [output]; [stack_array_peek] copies it out and changes
    nothing; a pop right after a successful push hands back what was
    pushed and leaves the elements that were there before.  The stack
    on the singly linked list [lp] keeps the top at the head:
    [stack_list_push] puts the element before the others,
    [stack_list_pop] removes the head, [stack_list_peek] copies it out.
    On an empty stack both pops return [ERROR_EMPTY_CONTAINER] and
    change nothing, and so does [stack_array_peek], but
    [stack_list_peek] returns [ERROR_INDEX_OUT_OF_BOUNDS].  The sizes
    are the numbers of elements, and no call changes a stack object.
    The pops do return: on a non-empty stack whenever the copy to a
    non-null [output] is within bounds, on an empty stack always.  The
    pushes return [SUCCESS] for an element of at least [element_size]
    bytes: [stack_array_push] when the vector has a free cell in a
    block that holds its capacity, or is full and the allocator grants
    the larger block of a capacity that fits [size_t];
    [stack_list_push] when the allocator grants the node. *)
Theorem stack_spec w h sa st v vec sl stl lp l e o :
  stack_arrays w !! sa = Some st -> sa_vector st = Some v ->
  vectors h !! v = Some vec -> vec_ok h v ->
  stack_lists w !! sl = Some stl -> stl_list stl = Some lp ->
  slists h !! lp = Some l -> slists_ok h ->
  (forall s w1 h1,
     stack_array_push (Some sa) (Some e) w h = Ok (s, w1) h1 ->
     w1 = w /\ vec_ok h1 v /\
     (s = SUCCESS \/ s = ERROR_MEMORY_ALLOCATION) /\
     vector_elements h1 v
     = if decide (s = SUCCESS)
       then vector_elements h v ++ [take (Z.to_nat (v_element_size vec)) e]
       else vector_elements h v) /\
  (forall output s r w1 h1,
     stack_array_pop (Some sa) output w h = Ok (s, r, w1) h1 ->
     w1 = w /\ vec_ok h1 v /\
     match last (vector_elements h v) with
     | None => s = ERROR_EMPTY_CONTAINER /\ r = output /\ h1 = h
     | Some x =>
         s = SUCCESS /\
         vector_elements h1 v
         = take (length (vector_elements h v) - 1) (vector_elements h v) /\
         r = (fun out => x ++ drop (length x) out) <$> output
     end) /\
  stack_array_peek (Some sa) (Some o) w h
  = match last (vector_elements h v) with
    | None => Ok (ERROR_EMPTY_CONTAINER, Some o, w) h
    | Some x =>
        if decide (length x <= length o)%nat
        then Ok (SUCCESS, Some (x ++ drop (length x) o), w) h
        else Fault
    end /\
  (forall w1 h1,
     stack_array_push (Some sa) (Some e) w h = Ok (SUCCESS, w1) h1 ->
     v_element_size vec <= Z.of_nat (length o) ->
     exists h2,
       stack_array_pop (Some sa) (Some o) w1 h1
       = Ok (SUCCESS,
             Some (take (Z.to_nat (v_element_size vec)) e
                   ++ drop (Z.to_nat (v_element_size vec)) o), w1) h2 /\
       vector_elements h2 v = vector_elements h v) /\
  stack_array_size (Some sa) w h = Ok (Z.of_nat (length (vector_elements h v)), w) h /\
  stack_array_empty (Some sa) w h = Ok (bool_decide (vector_elements h v = []), w) h /\
  (forall s w1 h1,
     stack_list_push (Some sl) (Some e) w h = Ok (s, w1) h1 ->
     w1 = w /\ sl_effect h h1 lp /\
     (s = SUCCESS \/ s = ERROR_MEMORY_ALLOCATION) /\
     singly_list_elements h1 lp
     = if decide (s = SUCCESS)
       then take (Z.to_nat (sl_element_size l)) e :: singly_list_elements h lp
       else singly_list_elements h lp) /\
  (forall output s r w1 h1,
     stack_list_pop (Some sl) output w h = Ok (s, r, w1) h1 ->
     w1 = w /\ sl_effect h h1 lp /\
     match head (singly_list_elements h lp) with
     | None => s = ERROR_EMPTY_CONTAINER /\ r = output /\ h1 = h
     | Some x =>
         s = SUCCESS /\
         singly_list_elements h1 lp = drop 1 (singly_list_elements h lp) /\
         r = output ≫= (fun out => mem_copy out x (sl_element_size l))
     end) /\
  stack_list_peek (Some sl) (Some o) w h
  = match head (singly_list_elements h lp) with
    | None => Ok (ERROR_INDEX_OUT_OF_BOUNDS, Some o, w) h
    | Some x =>
        match mem_copy o x (sl_element_size l) with
        | Some o' => Ok (SUCCESS, Some o', w) h
        | None => Fault
        end
    end /\
  stack_list_size (Some sl) w h
  = Ok (Z.of_nat (length (singly_list_elements h lp)), w) h /\
  stack_list_empty (Some sl) w h
  = Ok (bool_decide (singly_list_elements h lp = []), w) h /\
  (forall output x,
     last (vector_elements h v) = Some x ->
     (forall out, output = Some out -> (length x <= length out)%nat) ->
     exists r h1, stack_array_pop (Some sa) output w h = Ok (SUCCESS, r, w) h1) /\
  (forall output,
     vector_elements h v = [] ->
     stack_array_pop (Some sa) output w h = Ok (ERROR_EMPTY_CONTAINER, output, w) h) /\
  (forall output x,
     head (singly_list_elements h lp) = Some x ->
     (forall out, output = Some out -> is_Some (mem_copy out x (sl_element_size l))) ->
     exists r h1, stack_list_pop (Some sl) output w h = Ok (SUCCESS, r, w) h1) /\
  (forall output,
     singly_list_elements h lp = [] ->
     stack_list_pop (Some sl) output w h = Ok (ERROR_EMPTY_CONTAINER, output, w) h) /\
  (v_element_size vec <= Z.of_nat (length e) ->
   (v_size vec < v_capacity vec /\ holds_capacity h v) \/
   (v_size vec = v_capacity vec /\ growth_fits vec /\
    allocation_succeeds (v_data vec) h = true) ->
   exists h1,
     stack_array_push (Some sa) (Some e) w h = Ok (SUCCESS, w) h1 /\
     vector_elements h1 v
     = vector_elements h v ++ [take (Z.to_nat (v_element_size vec)) e]) /\
  (0 < sl_element_size l <= Z.of_nat (length e) ->
   node_allocation_succeeds h = true ->
   exists h1,
     stack_list_push (Some sl) (Some e) w h = Ok (SUCCESS, w) h1 /\
     singly_list_elements h1 lp
     = take (Z.to_nat (sl_element_size l)) e :: singly_list_elements h lp).
Proof.
  intros Hsa Hvp Hv Hok Hsl Hlp Hl Hoks.
  assert (Hsl' : aget StackLists w !! sl = Some stl) by exact Hsl.
  destruct (singly_list_size_run h lp l Hoks Hl) as [Hlsize Hlempty].
  assert (Hsa' : aget StackArrays w !! sa = Some st) by exact Hsa.
  destruct (vector_size_run h v vec Hv Hok) as [Hsize Hempty].
  pose proof (vector_elements_length h v Hok vec Hv) as Hlen.
  assert (Hpush : forall s w1 h1,
     stack_array_push (Some sa) (Some e) w h = Ok (s, w1) h1 ->
     w1 = w /\ vec_ok h1 v /\
     (s = SUCCESS \/ s = ERROR_MEMORY_ALLOCATION) /\
     vector_elements h1 v
     = if decide (s = SUCCESS)
       then vector_elements h v ++ [take (Z.to_nat (v_element_size vec)) e]
       else vector_elements h v).
  { intros s w1 h1 H. unfold stack_array_push in H.
    apply (wrap_inv StackArrays sa st) in H as [-> H]; [|exact Hsa']. rewrite Hvp in H.
    pose proof (vector_push_back_status _ _ _ _ _ H) as Hst.
    destruct (decide (s = SUCCESS)) as [->|Hne].
    - destruct (vector_push_back_ok _ _ _ _ _ Hv Hok H) as (Hok1 & _ & He & _).
      by split_and!.
    - destruct (vector_push_back_effect _ _ _ _ _ H) as [Hf _].
      destruct (Hf Hne) as [_ Hc]. split_and!; [done| |done|].
      + by apply (vec_ok_contents h).
      + by apply vector_elements_contents. }
  assert (Hpop : forall h0 vec0 output s r w1 h1,
     vectors h0 !! v = Some vec0 -> vec_ok h0 v ->
     stack_array_pop (Some sa) output w h0 = Ok (s, r, w1) h1 ->
     w1 = w /\ vec_ok h1 v /\
     match last (vector_elements h0 v) with
     | None => s = ERROR_EMPTY_CONTAINER /\ r = output /\ h1 = h0
     | Some x =>
         s = SUCCESS /\
         vector_elements h1 v
         = take (length (vector_elements h0 v) - 1) (vector_elements h0 v) /\
         r = (fun out => x ++ drop (length x) out) <$> output
     end).
  { intros h0 vec0 output s r w1 h1 Hv0 Hok0 H. unfold stack_array_pop in H.
    apply (wrap_inv StackArrays sa st) in H as [-> H]; [|exact Hsa']. rewrite Hvp in H.
    rewrite (vector_pop_back_run h0 v vec0 output Hv0 Hok0) in H.
    pose proof (vector_elements_length h0 v Hok0 vec0 Hv0) as Hlen0.
    destruct (last (vector_elements h0 v)) as [x|] eqn:El.
    - assert (v_size vec0 <> 0) as Hne.
      { intros E0. rewrite E0 in Hlen0.
        destruct (vector_elements h0 v); [done|cbn in Hlen0; lia]. }
      assert (0 <= v_size vec0 - 1 <= v_size vec0) as Hr by lia.
      pose proof (vec_ok_resize h0 v vec0 _ Hv0 Hok0 Hr) as Hok1.
      pose proof (vector_elements_resize h0 v vec0 _ Hv0 Hok0 Hr) as He1.
      replace (Z.to_nat (v_size vec0 - 1))
        with (length (vector_elements h0 v) - 1)%nat in He1 by lia.
      destruct output as [out|].
      + destruct (decide (length x <= length out)%nat); [|done].
        injection H as <- <- <-. by split_and!.
      + injection H as <- <- <-. by split_and!.
    - injection H as <- <- <-. by split_and!. }
  split_and!.
  - exact Hpush.
  - intros output s r w1 h1 H. exact (Hpop h vec output s r w1 h1 Hv Hok H).
  - unfold stack_array_peek. rewrite (bind4_aload StackArrays sa st _ w h Hsa'), Hvp.
    rewrite (bind4_lift _ _ w h _ _ Hempty).
    pose proof (proj1 (to_size_t_range 0)) as _.
    destruct (vector_elements h v) as [|x0 xs] eqn:E using rev_ind.
    + done.
    + clear IHxs. rewrite last_snoc. rewrite bool_decide_eq_false_2 by by destruct xs.
      rewrite (bind4_lift _ _ w h _ _ Hsize), lift_run.
      rewrite length_app in Hlen |- *. cbn [length] in Hlen |- *.
      assert (v_size vec <= SIZE_MAX) as Hmax.
      { destruct Hok as (vec' & Hv' & _ & ? & ? & _).
        assert (vec' = vec) as -> by congruence. lia. }
      rewrite (to_size_t_small (Z.of_nat (length xs + 1) - 1)) by lia.
      rewrite (vector_get_run h v vec _ o Hv Hok) by lia.
      replace (Z.to_nat (Z.of_nat (length xs + 1) - 1)) with (length xs) by lia.
      rewrite E, list_lookup_middle by done.
      by destruct (decide (length x0 <= length o)%nat).
  - intros w1 h1 H Hlo. pose proof H as H'. apply Hpush in H' as (-> & Hok1 & _ & He1).
    rewrite decide_True in He1 by done.
    unfold stack_array_push in H.
    apply (wrap_inv StackArrays sa st) in H as [_ H]; [|exact Hsa']. rewrite Hvp in H.
    destruct (vector_push_back_ok _ _ _ _ _ Hv Hok H)
      as (_ & (vec1 & Hv1 & _) & _ & Hle & _).
    unfold stack_array_pop. rewrite (wrap_run StackArrays sa st _ w h1 Hsa'), Hvp.
    rewrite (vector_pop_back_run h1 v vec1 (Some o) Hv1 Hok1), He1, last_snoc.
    assert (Hes : 0 <= v_element_size vec).
    { destruct Hok as (vec' & Hv' & ? & _).
      assert (vec' = vec) as -> by congruence. lia. }
    rewrite length_take.
    replace (Z.to_nat (v_element_size vec) `min` length e)%nat
      with (Z.to_nat (v_element_size vec)) by lia.
    rewrite decide_True by lia. eexists. split; [reflexivity|].
    pose proof (vector_elements_length h1 v Hok1 vec1 Hv1) as Hlen1.
    rewrite He1, length_app in Hlen1. cbn [length] in Hlen1.
    rewrite (vector_elements_resize h1 v vec1 _ Hv1 Hok1) by lia.
    rewrite He1. replace (Z.to_nat (v_size vec1 - 1))
      with (length (vector_elements h v)) by lia.
    by rewrite take_app_length.
  - unfold stack_array_size.
    by rewrite (wrap_run StackArrays sa st _ w h Hsa'), Hvp, Hsize.
  - unfold stack_array_empty.
    by rewrite (wrap_run StackArrays sa st _ w h Hsa'), Hvp, Hempty.
  - intros s w1 h1 H. unfold stack_list_push in H.
    apply (wrap_inv StackLists sl stl) in H as [-> H]; [|exact Hsl']. rewrite Hlp in H.
    split; [done|]. exact (singly_list_push_front_seq h lp l e s h1 Hoks Hl H).
  - intros output s r w1 h1 H. unfold stack_list_pop in H.
    apply (wrap_inv StackLists sl stl) in H as [-> H]; [|exact Hsl']. rewrite Hlp in H.
    split; [done|]. exact (singly_list_pop_front_seq h lp l output s r h1 Hoks Hl H).
  - unfold stack_list_peek. rewrite (wrap_run StackLists sl stl _ w h Hsl'), Hlp.
    rewrite (singly_list_get_first h lp l o Hoks Hl).
    destruct (head (singly_list_elements h lp)) as [x|]; [|done].
    by destruct (mem_copy o x (sl_element_size l)).
  - unfold stack_list_size.
    by rewrite (wrap_run StackLists sl stl _ w h Hsl'), Hlp, Hlsize.
  - unfold stack_list_empty.
    by rewrite (wrap_run StackLists sl stl _ w h Hsl'), Hlp, Hlempty.
  - intros output x Hx Hroom. unfold stack_array_pop.
    rewrite (wrap_run StackArrays sa st _ w h Hsa'), Hvp.
    rewrite (vector_pop_back_run h v vec output Hv Hok), Hx.
    destruct output as [out|]; [|eauto].
    rewrite decide_True by (by apply Hroom). eauto.
  - intros output Hnil. unfold stack_array_pop.
    rewrite (wrap_run StackArrays sa st _ w h Hsa'), Hvp.
    by rewrite (vector_pop_back_run h v vec output Hv Hok), Hnil.
  - intros output x Hx Hroom.
    destruct (singly_list_pop_front_returns h lp l output x Hoks Hl Hx Hroom)
      as (r & h1 & E).
    exists r, h1. unfold stack_list_pop.
    by rewrite (wrap_run StackLists sl stl _ w h Hsl'), Hlp, E.
  - intros output Hnil.
    destruct (singly_list_pop_empty 0 h lp l output Hoks Hl Hnil) as [Ef _].
    unfold stack_list_pop.
    by rewrite (wrap_run StackLists sl stl _ w h Hsl'), Hlp, Ef.
  - intros He Hcase.
    destruct (vector_push_back_returns h v vec e Hv Hok He Hcase) as [h1 H].
    assert (stack_array_push (Some sa) (Some e) w h = Ok (SUCCESS, w) h1) as Hp.
    { unfold stack_array_push.
      by rewrite (wrap_run StackArrays sa st _ w h Hsa'), Hvp, H. }
    exists h1. split; [exact Hp|].
    destruct (Hpush _ _ _ Hp) as (_ & _ & _ & Hel).
    by rewrite decide_True in Hel by done.
  - intros Hle Hal.
    destruct (singly_list_push_front_returns h lp l e Hoks Hl Hal Hle) as [h1 H].
    exists h1. split.
    + unfold stack_list_push.
      by rewrite (wrap_run StackLists sl stl _ w h Hsl'), Hlp, H.
    + destruct (singly_list_push_front_seq h lp l e _ h1 Hoks Hl H) as (_ & _ & Hel).
      by rewrite decide_True in Hel by done.
Qed.

Lemma stack_spec_witness :
  stack_array_peek (Some 840) (Some (elem4 Byte.xff)) demo_adapters demo_store
  = Ok (SUCCESS, Some (elem4 Byte.x03), demo_adapters) demo_store /\
  stack_list_peek (Some 820) (Some (elem4 Byte.xff)) demo_adapters demo_store
  = Ok (SUCCESS, Some (elem4 Byte.x01), demo_adapters) demo_store /\
  stack_array_size (Some 840) demo_adapters demo_store = Ok (3, demo_adapters) demo_store /\
  (exists h1,
     stack_array_pop (Some 840) (Some (elem4 Byte.xff)) demo_adapters demo_store
     = Ok (SUCCESS, Some (elem4 Byte.x03), demo_adapters) h1 /\
     vector_elements h1 100 = [elem4 Byte.x01; elem4 Byte.x02]) /\
  (exists h1,
     stack_list_pop (Some 820) (Some (elem4 Byte.xff)) demo_adapters demo_store
     = Ok (SUCCESS, Some (elem4 Byte.x01), demo_adapters) h1 /\
     singly_list_elements h1 400 = [elem4 Byte.x02; elem4 Byte.x03]) /\
  (exists h1,
     stack_array_push (Some 840) (Some (elem4 Byte.x04)) demo_adapters demo_store_rich
     = Ok (SUCCESS, demo_adapters) h1 /\
     vector_elements h1 100
     = [elem4 Byte.x01; elem4 Byte.x02; elem4 Byte.x03; elem4 Byte.x04]) /\
  (exists h1,
     stack_list_push (Some 820) (Some (elem4 Byte.x04)) demo_adapters demo_store_rich
     = Ok (SUCCESS, demo_adapters) h1 /\
     singly_list_elements h1 400
     = [elem4 Byte.x04; elem4 Byte.x01; elem4 Byte.x02; elem4 Byte.x03]).
Proof.
  destruct (stack_spec demo_adapters demo_store 840 (mk_stack_array (Some 100)) 100 demo_vec
              820 (mk_stack_list (Some 400)) 400 (mk_slist (Some 410) (Some 430) 3 4)
              (elem4 Byte.xff) (elem4 Byte.xff)
              eq_refl eq_refl eq_refl demo_store_vec_ok
              eq_refl eq_refl eq_refl (proj1 demo_store_lists_ok))
    as (_ & Hap & Ha & _ & Hs & _ & _ & Hlp & Hl & _ & _ & Hapr & _ & Hlpr & _).
  destruct (stack_spec demo_adapters demo_store_rich 840 (mk_stack_array (Some 100)) 100
              demo_vec
              820 (mk_stack_list (Some 400)) 400 (mk_slist (Some 410) (Some 430) 3 4)
              (elem4 Byte.x04) (elem4 Byte.xff)
              eq_refl eq_refl eq_refl
              (vec_ok_contents demo_store demo_store_rich 100 eq_refl demo_store_vec_ok)
              eq_refl eq_refl eq_refl (proj1 demo_lists_ok))
    as (_ & _ & _ & _ & _ & _ & _ & _ & _ & _ & _ & _ & _ & _ & _ & Hpa & Hpl).
  split_and!.
  - exact (eq_trans Ha eq_refl).
  - exact (eq_trans Hl eq_refl).
  - exact (eq_trans Hs eq_refl).
  - destruct (Hapr (Some (elem4 Byte.xff)) (elem4 Byte.x03) eq_refl) as (r & h1 & E).
    { intros out Ho. injection Ho as <-. cbn. lia. }
    destruct (Hap _ _ _ _ _ E) as (_ & _ & Hp).
    change (last (vector_elements demo_store 100)) with (Some (elem4 Byte.x03)) in Hp.
    destruct Hp as (_ & Hel & ->).
    exists h1. split; [exact (eq_trans E eq_refl)|]. by rewrite Hel.
  - destruct (Hlpr (Some (elem4 Byte.xff)) (elem4 Byte.x01) eq_refl) as (r & h1 & E).
    { intros out Ho. injection Ho as <-. vm_compute. eauto. }
    destruct (Hlp _ _ _ _ _ E) as (_ & _ & Hp).
    change (head (singly_list_elements demo_store 400)) with (Some (elem4 Byte.x01)) in Hp.
    destruct Hp as (_ & Hel & ->).
    exists h1. split; [exact (eq_trans E eq_refl)|]. by rewrite Hel.
  - destruct Hpa as (h1 & E & Hel); [cbn; lia | left; split; [cbn; lia|] |].
    { eexists demo_vec, 200, _. split_and!; try reflexivity; cbn; lia. }
    exists h1. split; [exact E|]. rewrite Hel. reflexivity.
  - destruct Hpl as (h1 & E & Hel); [cbn; lia | reflexivity |].
    exists h1. split; [exact E|]. rewrite Hel. reflexivity.
Defined.

(* ===================================================================== *)
(** * The circular array of the queue *)
(* ===================================================================== *)

Lemma cell_length es b k :
  0 <= es -> 0 <= k -> (k + 1) * es <= Z.of_nat (length b) ->
  length (cell es b k) = Z.to_nat es.
Proof.
  intros Hes Hk Hb. unfold cell. rewrite length_take, length_drop. nia.
Qed.

Lemma cell_drop es b f i :
  0 <= es -> 0 <= f -> 0 <= i ->
  cell es (drop (Z.to_nat (f * es)) b) i = cell es b (f + i).
Proof.
  intros Hes Hf Hi. unfold cell. rewrite drop_drop. do 2 f_equal. nia.
Qed.

Lemma cell_app_l es b rest k :
  0 <= es -> 0 <= k -> (k + 1) * es <= Z.of_nat (length b) ->
  cell es (b ++ rest) k = cell es b k.
Proof.
  intros Hes Hk Hb. unfold cell.
  rewrite drop_app_le by nia. rewrite take_app_le; [done|].
  rewrite length_drop. nia.
Qed.

Lemma cell_app_r es pre b p k :
  0 <= es -> 0 <= p <= k -> Z.of_nat (length pre) = p * es ->
  cell es (pre ++ b) k = cell es b (k - p).
Proof.
  intros Hes Hk Hp. unfold cell.
  rewrite drop_app_ge by nia. do 2 f_equal. nia.
Qed.

Lemma cell_take es b n k :
  0 <= es -> 0 <= k -> (k + 1) * es <= n ->
  cell es (take (Z.to_nat n) b) k = cell es b k.
Proof.
  intros Hes Hk Hn. unfold cell.
  rewrite !take_drop_commute, take_take. do 2 f_equal. nia.
Qed.

Lemma ring_elements_length qu b :
  length (ring_elements qu b) = Z.to_nat (qa_size qu).
Proof. unfold ring_elements. by rewrite length_fmap, length_seq. Qed.

Lemma ring_elements_lookup qu b i :
  (i < Z.to_nat (qa_size qu))%nat ->
  ring_elements qu b !! i
  = Some (cell (qa_element_size qu) b ((qa_front qu + Z.of_nat i) mod qa_capacity qu)).
Proof.
  intros Hi. unfold ring_elements. rewrite list_lookup_fmap, lookup_seq_lt by done.
  reflexivity.
Qed.

(** Two circular arrays with the same number of elements and the same
    cell at each position hold the same sequence. *)
Lemma ring_elements_ext qu b qu' b' :
  qa_size qu' = qa_size qu ->
  (forall i, 0 <= i < qa_size qu ->
     cell (qa_element_size qu') b' ((qa_front qu' + i) mod qa_capacity qu')
     = cell (qa_element_size qu) b ((qa_front qu + i) mod qa_capacity qu)) ->
  ring_elements qu' b' = ring_elements qu b.
Proof.
  intros Hs Hc. apply list_eq. intros i.
  destruct (decide (i < Z.to_nat (qa_size qu))%nat) as [Hi|Hi].
  - rewrite !ring_elements_lookup by lia. f_equal. apply Hc. lia.
  - rewrite !(proj2 (lookup_ge_None _ _)); [done| |];
      rewrite ring_elements_length; lia.
Qed.

Lemma queue_array_elements_ring w h q qu d b :
  queue_arrays w !! q = Some qu -> qa_data qu = Some d -> buffers h !! d = Some b ->
  queue_array_elements w h q = ring_elements qu b.
Proof. intros Hq Hd Hb. unfold queue_array_elements. by rewrite Hq, Hd, Hb. Qed.

Lemma bind4_lift_inv {A B} (m : M A) (k : A -> A4 B) w h r h2 :
  (x <~ lift m ;; k x) w h = Ok r h2 ->
  exists a h1, m h = Ok a h1 /\ k a w h1 = Ok r h2.
Proof.
  unfold bind4, lift, bind, ret. destruct (m h) as [a h1| |]; [|done|done].
  cbn. eauto.
Qed.

Lemma bind4_lift_Fault {A B} (m : M A) (k : A -> A4 B) w h :
  m h = Fault -> (x <~ lift m ;; k x) w h = Fault.
Proof. intros E. unfold bind4, lift, bind. by rewrite E. Qed.

Lemma bind4_Ok {A B} (m : A4 A) (k : A -> A4 B) w h a w1 h1 :
  m w h = Ok (a, w1) h1 -> (x <~ m ;; k x) w h = k a w1 h1.
Proof. intros E. unfold bind4, bind. by rewrite E. Qed.

Lemma bind4_inv {A B} (m : A4 A) (k : A -> A4 B) w h r h2 :
  (x <~ m ;; k x) w h = Ok r h2 ->
  exists a w1 h1, m w h = Ok (a, w1) h1 /\ k a w1 h1 = Ok r h2.
Proof.
  unfold bind4, bind. destruct (m w h) as [[a w1] h1| |]; [|done|done]. eauto.
Qed.

Lemma mem_copy_in_run0 d off src n h b :
  buffers h !! d = Some b -> 0 <= off -> 0 <= n ->
  off + n <= Z.of_nat (length b) -> n <= Z.of_nat (length src) ->
  mem_copy_in (Some d) off src n h
  = Ok tt (rset Buffers
             (<[d := take (Z.to_nat off) b ++ take (Z.to_nat n) src
                     ++ drop (Z.to_nat n) (drop (Z.to_nat off) b)]> (buffers h)) h).
Proof.
  intros Hb Hoff Hn Hlen Hsrc. destruct (decide (n = 0)) as [->|Hne].
  - unfold mem_copy_in. rewrite (bind_Ok _ _ _ _ _ (bytes_at_Some d off h b Hb ltac:(lia))).
    cbn. unfold put_bytes_at, bind, load, store. cbn. rewrite Hb.
    destruct (Z.leb_spec off (Z.of_nat (length b))); [|lia]. cbn. by rewrite Hb.
  - rewrite (mem_copy_in_run d off src n h b Hb) by lia.
    by rewrite decide_True by lia.
Qed.

Lemma qa_ok_fields w h q qu :
  qa_ok w h q -> queue_arrays w !! q = Some qu ->
  exists d b,
    qa_data qu = Some d /\ buffers h !! d = Some b /\
    0 < qa_element_size qu /\ 0 < qa_capacity qu /\
    qa_capacity qu * qa_element_size qu <= Z.of_nat (length b) /\
    Z.of_nat (length b) <= SIZE_MAX /\
    0 <= qa_size qu <= qa_capacity qu /\
    0 <= qa_front qu < qa_capacity qu /\
    qa_rear qu = (qa_front qu + qa_size qu) mod qa_capacity qu.
Proof.
  intros (qu' & d & b & Hq & H) Hq'. assert (qu' = qu) as -> by congruence. eauto.
Qed.

Lemma ring_cell_bound cap es k len :
  0 < es -> 0 < cap -> cap * es <= len -> 0 <= k < cap ->
  0 <= k * es /\ (k + 1) * es <= len /\ k * es + es <= len.
Proof. intros. nia. Qed.

(** The queue after [queue_array_dequeue] moved [front] on. *)
Lemma ring_elements_dequeue qu b x rest :
  0 < qa_capacity qu -> 0 <= qa_front qu ->
  ring_elements qu b = x :: rest ->
  ring_elements
    (set_qa_size (qa_size qu - 1)
       (set_qa_front ((qa_front qu + 1) mod qa_capacity qu) qu)) b
  = rest.
Proof.
  intros Hcap Hf E.
  pose proof (ring_elements_length qu b) as Hlen. rewrite E in Hlen. cbn in Hlen.
  apply list_eq. intros i.
  destruct (decide (i < length rest)%nat) as [Hi|Hi].
  - rewrite ring_elements_lookup by (cbn; lia). cbn.
    assert (ring_elements qu b !! S i = rest !! i) as <- by by rewrite E.
    rewrite ring_elements_lookup by lia. do 2 f_equal.
    rewrite Zplus_mod_idemp_l. f_equal. lia.
  - rewrite !(proj2 (lookup_ge_None _ _)); [done|lia|].
    rewrite ring_elements_length. cbn. lia.
Qed.

Lemma ring_elements_head qu b :
  head (ring_elements qu b)
  = if decide (0 < qa_size qu)
    then Some (cell (qa_element_size qu) b (qa_front qu mod qa_capacity qu))
    else None.
Proof.
  rewrite head_lookup. destruct (decide (0 < qa_size qu)) as [Hs|Hs].
  - rewrite ring_elements_lookup by lia. do 3 f_equal. lia.
  - apply lookup_ge_None. rewrite ring_elements_length. lia.
Qed.

Lemma mem_copy_out_run out d off n h b :
  buffers h !! d = Some b -> 0 <= off -> 0 < n -> off + n <= Z.of_nat (length b) ->
  mem_copy_out out (Some d) off n h
  = if decide (n <= Z.of_nat (length out))
    then Ok (take (Z.to_nat n) (drop (Z.to_nat off) b) ++ drop (Z.to_nat n) out) h
    else Fault.
Proof.
  intros Hb Hoff Hn Hlen. unfold mem_copy_out.
  rewrite (bind_Ok _ _ _ _ _ (bytes_at_Some d off h b Hb ltac:(lia))).
  destruct (decide (n <= Z.of_nat (length out))) as [Ho|Ho].
  - rewrite mem_copy_Some; [done| |done]. rewrite length_drop. lia.
  - unfold mem_copy. destruct (Z.eqb_spec n 0); [lia|].
    destruct (Z.leb_spec n (Z.of_nat (length out))); [lia|].
    by rewrite andb_false_r.
Qed.

Lemma queue_array_dequeue_run w h q qu output :
  qa_ok w h q -> queue_arrays w !! q = Some qu ->
  queue_array_dequeue (Some q) output w h
  = match queue_array_elements w h q with
    | [] => Ok (ERROR_EMPTY_CONTAINER, output, w) h
    | x :: _ =>
        if has_room (qa_element_size qu) output
        then Ok (SUCCESS,
                 (fun o => x ++ drop (Z.to_nat (qa_element_size qu)) o) <$> output,
                 aset QueueArrays
                   (<[q := set_qa_size (qa_size qu - 1)
                             (set_qa_front ((qa_front qu + 1) mod qa_capacity qu) qu)]>
                      (queue_arrays w)) w) h
        else Fault
    end.
Proof.
  intros Hok Hq.
  destruct (qa_ok_fields w h q qu Hok Hq)
    as (d & b & Hd & Hb & Hes & Hcap & Hlen & Hmax & Hsz & Hfr & Hrear).
  rewrite (queue_array_elements_ring w h q qu d b Hq Hd Hb).
  assert (Hq' : aget QueueArrays w !! q = Some qu) by exact Hq.
  unfold queue_array_dequeue. rewrite (bind4_aload QueueArrays q qu _ w h Hq').
  pose proof (ring_elements_head qu b) as Hhd.
  destruct (Z.eqb_spec (qa_size qu) 0) as [E0|Hne].
  - rewrite decide_False in Hhd by lia.
    by destruct (ring_elements qu b).
  - rewrite decide_True in Hhd by lia. rewrite Z.mod_small in Hhd by lia.
    destruct (ring_elements qu b) as [|x rest]; [done|]. injection Hhd as ->.
    destruct (ring_cell_bound _ _ (qa_front qu) _ Hes Hcap Hlen Hfr) as (Hc0 & Hc1 & Hc2).
    assert (Hfe : to_size_t (qa_front qu * qa_element_size qu)
                  = qa_front qu * qa_element_size qu) by (apply to_size_t_small; lia).
    assert (Hf1 : to_size_t (qa_front qu + 1) = qa_front qu + 1).
    { apply to_size_t_small. nia. }
    assert (Hs1 : to_size_t (qa_size qu - 1) = qa_size qu - 1).
    { apply to_size_t_small. nia. }
    assert (Hfin : forall (r : option bytes) w0,
      w0 = w ->
      (front <~ size_mod (to_size_t (qa_front qu + 1)) (qa_capacity qu) ;;
       amodify QueueArrays q (set_qa_front front) ;;~
       amodify QueueArrays q (fun x => set_qa_size (to_size_t (qa_size x - 1)) x) ;;~
       ret4 (SUCCESS, r)) w0 h
      = Ok (SUCCESS, r,
            aset QueueArrays
              (<[q := set_qa_size (qa_size qu - 1)
                        (set_qa_front ((qa_front qu + 1) mod qa_capacity qu) qu)]>
                 (queue_arrays w)) w) h).
    { intros r w0 ->. unfold size_mod.
      destruct (Z.eqb_spec (qa_capacity qu) 0); [lia|]. rewrite bind4_ret4.
      rewrite (bind4_amodify QueueArrays q qu _ _ w h Hq').
      erewrite bind4_amodify; [|cbn; apply lookup_insert_eq].
      cbn. rewrite insert_insert_eq, Hf1, Hs1. reflexivity. }
    destruct output as [o|]; cbn [has_room fmap option_fmap option_map].
    + rewrite Hd, Hfe.
      pose proof (mem_copy_out_run o d _ _ h b Hb Hc0 Hes Hc2) as Hout.
      destruct (Z.leb_spec (qa_element_size qu) (Z.of_nat (length o))).
      * rewrite decide_True in Hout by done.
        erewrite bind4_lift; [|by rewrite (bind_Ok _ _ _ _ _ Hout)].
        by apply Hfin.
      * rewrite decide_False in Hout by lia.
        apply bind4_lift_Fault. by apply bind_Fault.
    + rewrite bind4_ret4. by apply Hfin.
Qed.

Lemma cell_write_eq es b k x :
  0 <= es -> 0 <= k -> k * es <= Z.of_nat (length b) -> length x = Z.to_nat es ->
  cell es (take (Z.to_nat (k * es)) b ++ x ++ drop (Z.to_nat es) (drop (Z.to_nat (k * es)) b)) k
  = x.
Proof.
  intros Hes Hk Hb Hx.
  rewrite (cell_app_r es _ _ k k) by (rewrite ?length_take; nia).
  rewrite Z.sub_diag. unfold cell. cbn. rewrite drop_0.
  by rewrite take_app_length' by done.
Qed.

Lemma cell_write_ne es b k x j :
  0 <= es -> 0 <= k -> 0 <= j -> j <> k ->
  (k + 1) * es <= Z.of_nat (length b) -> length x = Z.to_nat es ->
  cell es (take (Z.to_nat (k * es)) b ++ x ++ drop (Z.to_nat es) (drop (Z.to_nat (k * es)) b)) j
  = cell es b j.
Proof.
  intros Hes Hk Hj Hne Hb Hx. destruct (decide (j < k)) as [Hlt|Hgt].
  - rewrite cell_app_l by (rewrite ?length_take; nia).
    apply cell_take; nia.
  - rewrite app_assoc.
    rewrite (cell_app_r es _ _ (k + 1) j) by (rewrite ?length_app, ?length_take; nia).
    rewrite drop_drop.
    replace (Z.to_nat (k * es) + Z.to_nat es)%nat with (Z.to_nat ((k + 1) * es)) by nia.
    rewrite cell_drop by lia. f_equal. lia.
Qed.

Lemma queue_array_peek_run w h q qu o :
  qa_ok w h q -> queue_arrays w !! q = Some qu ->
  queue_array_peek (Some q) (Some o) w h
  = match queue_array_elements w h q with
    | [] => Ok (ERROR_EMPTY_CONTAINER, Some o, w) h
    | x :: _ =>
        if qa_element_size qu <=? Z.of_nat (length o)
        then Ok (SUCCESS, Some (x ++ drop (Z.to_nat (qa_element_size qu)) o), w) h
        else Fault
    end.
Proof.
  intros Hok Hq.
  destruct (qa_ok_fields w h q qu Hok Hq)
    as (d & b & Hd & Hb & Hes & Hcap & Hlen & Hmax & Hsz & Hfr & Hrear).
  rewrite (queue_array_elements_ring w h q qu d b Hq Hd Hb).
  assert (Hq' : aget QueueArrays w !! q = Some qu) by exact Hq.
  unfold queue_array_peek. rewrite (bind4_aload QueueArrays q qu _ w h Hq').
  pose proof (ring_elements_head qu b) as Hhd.
  destruct (Z.eqb_spec (qa_size qu) 0) as [E0|Hne].
  - rewrite decide_False in Hhd by lia.
    by destruct (ring_elements qu b).
  - rewrite decide_True in Hhd by lia. rewrite Z.mod_small in Hhd by lia.
    destruct (ring_elements qu b) as [|x rest]; [done|]. injection Hhd as ->.
    destruct (ring_cell_bound _ _ (qa_front qu) _ Hes Hcap Hlen Hfr) as (Hc0 & Hc1 & Hc2).
    rewrite Hd, (to_size_t_small (qa_front qu * qa_element_size qu)) by lia.
    pose proof (mem_copy_out_run o d _ _ h b Hb Hc0 Hes Hc2) as Hout.
    rewrite lift_run.
    destruct (Z.leb_spec (qa_element_size qu) (Z.of_nat (length o))).
    + rewrite decide_True in Hout by done. by rewrite (bind_Ok _ _ _ _ _ Hout).
    + rewrite decide_False in Hout by lia. by rewrite (bind_Fault _ _ _ Hout).
Qed.

(** The invariant after a change of [front], [rear] and [size] that
    keeps the block. *)
Lemma qa_ok_update w h q qu qu' :
  qa_ok w h q -> queue_arrays w !! q = Some qu ->
  qa_data qu' = qa_data qu -> qa_element_size qu' = qa_element_size qu ->
  qa_capacity qu' = qa_capacity qu ->
  0 <= qa_size qu' <= qa_capacity qu -> 0 <= qa_front qu' < qa_capacity qu ->
  qa_rear qu' = (qa_front qu' + qa_size qu') mod qa_capacity qu ->
  qa_ok (aset QueueArrays (<[q := qu']> (queue_arrays w)) w) h q.
Proof.
  intros Hok Hq Ed Ees Ecap Hsz' Hfr' Hrear'.
  destruct (qa_ok_fields w h q qu Hok Hq)
    as (d & b & Hd & Hb & Hes & Hcap & Hlen & Hmax & Hsz & Hfr & Hrear).
  exists qu', d, b. cbn. rewrite lookup_insert_eq, Ed, Ees, Ecap.
  split_and!; try done; try lia.
Qed.

Lemma qa_ok_dequeue w h q qu :
  qa_ok w h q -> queue_arrays w !! q = Some qu -> 0 < qa_size qu ->
  qa_ok (aset QueueArrays
           (<[q := set_qa_size (qa_size qu - 1)
                     (set_qa_front ((qa_front qu + 1) mod qa_capacity qu) qu)]>
              (queue_arrays w)) w) h q.
Proof.
  intros Hok Hq Hpos.
  destruct (qa_ok_fields w h q qu Hok Hq)
    as (d & b & Hd & Hb & Hes & Hcap & Hlen & Hmax & Hsz & Hfr & Hrear).
  apply (qa_ok_update w h q qu); try done; cbn.
  - lia.
  - apply Z.mod_pos_bound. lia.
  - rewrite Hrear, Zplus_mod_idemp_l. f_equal. lia.
Qed.

(** [queue_array_enqueue] on a queue with a free cell. *)
Lemma queue_array_enqueue_room w h q qu e :
  qa_ok w h q -> queue_arrays w !! q = Some qu -> qa_size qu < qa_capacity qu ->
  (Z.of_nat (length e) < qa_element_size qu ->
   queue_array_enqueue (Some q) (Some e) w h = Fault) /\
  (qa_element_size qu <= Z.of_nat (length e) ->
   exists w1 h1,
     queue_array_enqueue (Some q) (Some e) w h = Ok (SUCCESS, w1) h1 /\
     qa_ok w1 h1 q /\
     queue_array_elements w1 h1 q
     = queue_array_elements w h q ++ [take (Z.to_nat (qa_element_size qu)) e] /\
     (exists qu1, queue_arrays w1 !! q = Some qu1 /\
                  qa_capacity qu1 = qa_capacity qu /\
                  qa_element_size qu1 = qa_element_size qu) /\
     vectors h1 = vectors h /\ lists_same h h1 /\ allocator h1 = allocator h).
Proof.
  intros Hok Hq Hroom.
  destruct (qa_ok_fields w h q qu Hok Hq)
    as (d & b & Hd & Hb & Hes & Hcap & Hlen & Hmax & Hsz & Hfr & Hrear).
  assert (Hq' : aget QueueArrays w !! q = Some qu) by exact Hq.
  assert (Hr : 0 <= qa_rear qu < qa_capacity qu).
  { rewrite Hrear. apply Z.mod_pos_bound. lia. }
  destruct (ring_cell_bound _ _ (qa_rear qu) _ Hes Hcap Hlen Hr) as (Hc0 & Hc1 & Hc2).
  set (es := qa_element_size qu) in *.
  set (b1 := take (Z.to_nat (qa_rear qu * es)) b ++ take (Z.to_nat es) e
             ++ drop (Z.to_nat es) (drop (Z.to_nat (qa_rear qu * es)) b)).
  set (qu1 := set_qa_size (qa_size qu + 1)
                (set_qa_rear ((qa_rear qu + 1) mod qa_capacity qu) qu)).
  assert (Hgrow : queue_array_check_grow q w h = Ok (SUCCESS, w) h).
  { unfold queue_array_check_grow.
    rewrite (bind4_aload QueueArrays q qu _ w h Hq').
    by destruct (Z.leb_spec (qa_capacity qu) (qa_size qu)); [lia|]. }
  pose proof (mem_copy_in_run d _ e es h b Hb Hc0 Hes Hc2) as Hin.
  assert (Hrun : queue_array_enqueue (Some q) (Some e) w h
    = (if es <=? Z.of_nat (length e)
       then Ok (SUCCESS, aset QueueArrays (<[q := qu1]> (queue_arrays w)) w)
               (rset Buffers (<[d := b1]> (buffers h)) h)
       else Fault)).
  { unfold queue_array_enqueue. rewrite (bind4_Ok _ _ w h _ _ _ Hgrow).
    change (negb (is_success SUCCESS)) with false. cbv iota.
    rewrite (bind4_aload QueueArrays q qu _ w h Hq'). fold es.
    rewrite Hd, (to_size_t_small (qa_rear qu * es)) by lia.
    destruct (Z.leb_spec es (Z.of_nat (length e))).
    + rewrite decide_True in Hin by done. rewrite (bind4_lift _ _ w h _ _ Hin).
      unfold size_mod. destruct (Z.eqb_spec (qa_capacity qu) 0); [lia|].
      rewrite bind4_ret4, (bind4_amodify QueueArrays q qu _ _ w _ Hq').
      erewrite bind4_amodify; [|cbn; apply lookup_insert_eq].
      cbn. rewrite insert_insert_eq.
      rewrite (to_size_t_small (qa_rear qu + 1)), (to_size_t_small (qa_size qu + 1)) by nia.
      reflexivity.
    + rewrite decide_False in Hin by lia. by apply bind4_lift_Fault. }
  split.
  { intros He. rewrite Hrun. by destruct (Z.leb_spec es (Z.of_nat (length e))); [lia|]. }
  intros He. rewrite Hrun. destruct (Z.leb_spec es (Z.of_nat (length e))); [|lia].
  assert (Hx : length (take (Z.to_nat es) e) = Z.to_nat es) by (rewrite length_take; lia).
  assert (Hb1 : length b1 = length b).
  { unfold b1. rewrite !length_app, Hx, length_take, !length_drop. nia. }
  eexists _, _. split; [reflexivity|]. split_and!.
  - exists qu1, d, b1. cbn. rewrite !lookup_insert_eq, Hb1. fold es.
    split_and!; try done; try lia.
    rewrite Hrear, Zplus_mod_idemp_l. f_equal. lia.
  - rewrite (queue_array_elements_ring _ _ q qu1 d b1);
      [|cbn; apply lookup_insert_eq|exact Hd|cbn; apply lookup_insert_eq].
    rewrite (queue_array_elements_ring w h q qu d b Hq Hd Hb).
    apply list_eq. intros i.
    destruct (decide (i < Z.to_nat (qa_size qu))%nat) as [Hi|Hi].
    + rewrite lookup_app_l by (rewrite ring_elements_length; lia).
      rewrite !ring_elements_lookup by (cbn; lia). cbn. fold es. f_equal.
      pose proof (Z.mod_pos_bound (qa_front qu + Z.of_nat i) (qa_capacity qu) Hcap).
      apply cell_write_ne; try lia.
      rewrite Hrear. intros Heq.
      assert ((qa_front qu + Z.of_nat i) mod qa_capacity qu
              = (qa_front qu + qa_size qu) mod qa_capacity qu) as Hm by exact Heq.
      apply (f_equal (fun z => (z - qa_front qu) mod qa_capacity qu)) in Hm.
      rewrite !Zminus_mod_idemp_l in Hm.
      replace (qa_front qu + Z.of_nat i - qa_front qu) with (Z.of_nat i) in Hm by lia.
      replace (qa_front qu + qa_size qu - qa_front qu) with (qa_size qu) in Hm by lia.
      rewrite !Z.mod_small in Hm by lia. lia.
    + destruct (decide (i = Z.to_nat (qa_size qu))) as [->|Hne].
      * rewrite lookup_app_r by (rewrite ring_elements_length; lia).
        rewrite ring_elements_length, Nat.sub_diag.
        rewrite ring_elements_lookup by (cbn; lia). cbn. fold es. f_equal.
        rewrite Z2Nat.id, <- Hrear by lia.
        apply cell_write_eq; try lia.
      * rewrite !(proj2 (lookup_ge_None _ _)); [done| |].
        -- rewrite length_app, ring_elements_length. cbn. lia.
        -- rewrite ring_elements_length. cbn. lia.
  - exists qu1. cbn. by rewrite lookup_insert_eq.
  - reflexivity.
  - by repeat split.
  - reflexivity.
Qed.

Lemma mod_wrap x cap : cap <= x < 2 * cap -> x mod cap = x - cap.
Proof. intros H. symmetry. apply (Z.mod_unique _ _ 1); lia. Qed.

(** The block [queue_array_resize] fills: whichever way the elements
    lie in the old block [b], cell [i] of the new block is the element
    at position [i] of the queue. *)
Lemma queue_array_resize_copy h0 w qu d b p b2 n :
  buffers h0 !! d = Some b -> buffers h0 !! p = Some b2 -> p <> d ->
  qa_data qu = Some d ->
  0 < qa_element_size qu -> 0 < qa_capacity qu ->
  qa_capacity qu * qa_element_size qu <= Z.of_nat (length b) ->
  Z.of_nat (length b) <= SIZE_MAX ->
  0 <= qa_size qu <= qa_capacity qu -> 0 <= qa_front qu < qa_capacity qu ->
  qa_rear qu = (qa_front qu + qa_size qu) mod qa_capacity qu ->
  qa_size qu <= n -> Z.of_nat (length b2) = n * qa_element_size qu ->
  exists b3,
    (if 0 <? qa_size qu then
       if qa_front qu <? qa_rear qu then
         lift (src <- bytes_at (qa_data qu) (to_size_t (qa_front qu * qa_element_size qu)) ;;
               mem_copy_in (Some p) 0 src (to_size_t (qa_size qu * qa_element_size qu)))
       else
         lift (src1 <- bytes_at (qa_data qu)
                         (to_size_t (qa_front qu * qa_element_size qu)) ;;
               mem_copy_in (Some p) 0 src1
                 (to_size_t (to_size_t (qa_capacity qu - qa_front qu)
                             * qa_element_size qu)) ;;;
               src2 <- bytes_at (qa_data qu) 0 ;;
               mem_copy_in (Some p)
                 (to_size_t (to_size_t (qa_capacity qu - qa_front qu)
                             * qa_element_size qu))
                 src2 (to_size_t (qa_rear qu * qa_element_size qu)))
     else ret4 tt) w h0
    = Ok (tt, w) (rset Buffers (<[p := b3]> (buffers h0)) h0) /\
    length b3 = length b2 /\
    forall i, 0 <= i < qa_size qu ->
      cell (qa_element_size qu) b3 i
      = cell (qa_element_size qu) b ((qa_front qu + i) mod qa_capacity qu).
Proof.
  intros Hb Hp Hpd Hd Hes Hcap Hlen Hmax Hsz Hfr Hrear Hn Hb2.
  set (es := qa_element_size qu) in *. set (cap := qa_capacity qu) in *.
  set (front := qa_front qu) in *. set (size := qa_size qu) in *.
  destruct (Z.ltb_spec 0 size) as [Hpos|Hzero].
  2: { exists b2. split_and!; [|done|intros; lia].
       unfold ret4, ret. do 2 f_equal. destruct h0. cbn in *.
       by rewrite insert_id. }
  assert (Hfe : to_size_t (front * es) = front * es) by (apply to_size_t_small; nia).
  assert (Hsrc : front * es <= Z.of_nat (length b)) by nia.
  rewrite Hd, Hfe.
  pose proof (bytes_at_Some d (front * es) h0 b Hb Hsrc) as Hat.
  destruct (Z.ltb_spec front (qa_rear qu)) as [Hlt|Hge].
  - assert (Hcont : front + size < cap).
    { destruct (decide (front + size < cap)); [done|].
      rewrite Hrear, mod_wrap in Hlt by lia. lia. }
    rewrite (to_size_t_small (size * es)) by nia.
    eexists. split_and!.
    + rewrite lift_run, (bind_Ok _ _ _ _ _ Hat).
      rewrite (mem_copy_in_run0 p 0 _ (size * es) h0 b2 Hp);
        [reflexivity|lia|nia|nia|rewrite length_drop; nia].
    + rewrite !length_app, !length_take, !length_drop. nia.
    + intros i Hi. rewrite Z.mod_small by lia.
      change (Z.to_nat 0) with 0%nat. rewrite take_0, app_nil_l.
      rewrite cell_app_l by (rewrite ?length_take, ?length_drop; nia).
      rewrite cell_take by nia. apply cell_drop; lia.
  - assert (Hwrap : cap <= front + size).
    { destruct (decide (cap <= front + size)); [done|].
      rewrite Hrear, Z.mod_small in Hge by lia. lia. }
    assert (Hr : qa_rear qu = front + size - cap).
    { rewrite Hrear. apply mod_wrap. lia. }
    rewrite Hr.
    rewrite (to_size_t_small (cap - front)) by nia.
    rewrite (to_size_t_small ((cap - front) * es)) by nia.
    rewrite (to_size_t_small ((front + size - cap) * es)) by nia.
    set (b3' := take (Z.to_nat 0) b2
                ++ take (Z.to_nat ((cap - front) * es)) (drop (Z.to_nat (front * es)) b)
                ++ drop (Z.to_nat ((cap - front) * es)) (drop (Z.to_nat 0) b2)).
    assert (Hl3 : length b3' = length b2).
    { unfold b3'. rewrite !length_app, !length_take, !length_drop. nia. }
    assert (H1 : mem_copy_in (Some p) 0 (drop (Z.to_nat (front * es)) b)
                   ((cap - front) * es) h0
                 = Ok tt (rset Buffers (<[p := b3']> (buffers h0)) h0)).
    { apply (mem_copy_in_run0 p 0 _ _ h0 b2 Hp); [lia|nia|nia|].
      rewrite length_drop. nia. }
    set (h1 := rset Buffers (<[p := b3']> (buffers h0)) h0) in *.
    assert (Hb' : buffers h1 !! d = Some b).
    { unfold h1. cbn. by rewrite lookup_insert_ne. }
    assert (Hp' : buffers h1 !! p = Some b3').
    { unfold h1. cbn. by rewrite lookup_insert_eq. }
    pose proof (bytes_at_Some d 0 h1 b Hb' ltac:(lia)) as Hat2.
    eexists. split_and!.
    + rewrite lift_run, (bind_Ok _ _ _ _ _ Hat), (bind_Ok _ _ _ _ _ H1).
      rewrite (bind_Ok _ _ _ _ _ Hat2).
      rewrite (mem_copy_in_run0 p _ _ ((front + size - cap) * es) h1 b3' Hp');
        [|nia|nia|nia|rewrite length_drop; nia].
      unfold h1. cbn. rewrite insert_insert_eq. destruct h0. reflexivity.
    + rewrite !length_app, !length_take, !length_drop. nia.
    + intros i Hi. change (Z.to_nat 0) with 0%nat. rewrite drop_0.
      assert (Htk : take (Z.to_nat ((cap - front) * es)) b3'
                    = take (Z.to_nat ((cap - front) * es))
                        (drop (Z.to_nat (front * es)) b)).
      { unfold b3'. change (Z.to_nat 0) with 0%nat. rewrite take_0, app_nil_l.
        rewrite take_app_le by (rewrite length_take, length_drop; nia).
        rewrite take_take. f_equal. lia. }
      rewrite Htk. destruct (decide (front + i < cap)) as [Hi1|Hi2].
      * rewrite Z.mod_small by lia.
        rewrite cell_app_l by (rewrite ?length_take, ?length_drop; nia).
        rewrite cell_take by nia. apply cell_drop; lia.
      * rewrite mod_wrap by lia.
        rewrite (cell_app_r es _ _ (cap - front) i)
          by (rewrite ?length_take, ?length_drop; nia).
        rewrite cell_app_l by (rewrite ?length_take; nia).
        rewrite cell_take by nia. f_equal. lia.
Qed.

Lemma queue_array_resize_inv w h q qu n s w1 h1 :
  qa_ok w h q -> queue_arrays w !! q = Some qu ->
  qa_size qu < n -> n * qa_element_size qu <= SIZE_MAX ->
  queue_array_resize (Some q) n w h = Ok (s, w1) h1 ->
  vectors h1 = vectors h /\ lists_same h h1 /\
  ((s = ERROR_MEMORY_ALLOCATION /\ w1 = w /\ contents h1 = contents h) \/
   (s = SUCCESS /\ qa_ok w1 h1 q /\
    queue_array_elements w1 h1 q = queue_array_elements w h q /\
    exists d d1 b1,
      qa_data qu = Some d /\ d1 <> d /\ buffers h !! d1 = None /\
      buffers h1 = delete d (<[d1 := b1]> (buffers h)) /\
      w1 = aset QueueArrays
             (<[q := mk_queue_array (Some d1) 0 (qa_size qu) (qa_size qu) n
                       (qa_element_size qu)]> (queue_arrays w)) w)).
Proof.
  intros Hok Hq Hn Hmul H.
  destruct (qa_ok_fields w h q qu Hok Hq)
    as (d & b & Hd & Hb & Hes & Hcap & Hlen & Hmax & Hsz & Hfr & Hrear).
  assert (Hq' : aget QueueArrays w !! q = Some qu) by exact Hq.
  unfold queue_array_resize in H. rewrite (bind4_aload QueueArrays q qu _ w h Hq') in H.
  destruct (Z.ltb_spec n (qa_size qu)); [lia|]. cbv zeta in H.
  apply bind4_lift_inv in H as (nd & h0 & Ha & H).
  rewrite to_size_t_small in Ha by nia.
  apply mem_alloc_inv in Ha as (al & Ha).
  destruct nd as [p|].
  2: { subst h0. injection H as <- <- <-. split_and!; [done|by repeat split|].
       left. by split_and!. }
  destruct Ha as (Hsz0 & Hvalid & Hfree & junk & ->).
  apply in_use_false in Hfree as (_ & Hpfree & _).
  assert (Hpd : p <> d) by congruence.
  set (b2 := resize (Z.to_nat (n * qa_element_size qu)) Byte.x00 junk) in *.
  set (h0 := rset Buffers (<[p := b2]> (buffers h)) (set_allocator al h)) in *.
  assert (Hb0 : buffers h0 !! d = Some b) by (unfold h0; cbn; by rewrite lookup_insert_ne).
  assert (Hp0 : buffers h0 !! p = Some b2) by (unfold h0; cbn; by rewrite lookup_insert_eq).
  assert (Hb2 : Z.of_nat (length b2) = n * qa_element_size qu).
  { unfold b2. rewrite length_resize. nia. }
  destruct (queue_array_resize_copy h0 w qu d b p b2 n Hb0 Hp0 Hpd Hd Hes Hcap Hlen Hmax
              Hsz Hfr Hrear ltac:(lia) Hb2) as (b3 & Hcopy & Hl3 & Hcells).
  rewrite (bind4_Ok _ _ w h0 _ _ _ Hcopy) in H.
  set (h2 := rset Buffers (<[p := b3]> (buffers h0)) h0) in *.
  assert (Hfree : mem_free Buffers (qa_data qu) h2
                  = Ok tt (rset Buffers (delete d (buffers h2)) h2)).
  { rewrite Hd. unfold mem_free, free. cbn. by rewrite lookup_insert_ne, lookup_insert_ne, Hb. }
  rewrite (bind4_lift _ _ w h2 _ _ Hfree) in H.
  rewrite (bind4_amodify QueueArrays q qu _ _ w _ Hq') in H.
  do 4 (erewrite bind4_amodify in H; [|cbn; apply lookup_insert_eq]).
  cbn in H. rewrite !insert_insert_eq in H.
  injection H as <- <- <-. cbn.
  split_and!; [done|by repeat split|]. right.
  set (qu1 := mk_queue_array (Some p) 0 (qa_size qu) (qa_size qu) n (qa_element_size qu)).
  assert (Hbuf : delete d (<[p := b3]> (buffers h)) !! p = Some b3).
  { by rewrite lookup_delete_ne, lookup_insert_eq. }
  split_and!.
  - done.
  - exists qu1, p, b3. cbn. rewrite lookup_insert_eq, Hbuf.
    split_and!; try done; try lia. rewrite Z.mod_small; lia.
  - rewrite (queue_array_elements_ring _ _ q qu1 p b3);
      [|cbn; apply lookup_insert_eq|done|exact Hbuf].
    rewrite (queue_array_elements_ring w h q qu d b Hq Hd Hb).
    apply ring_elements_ext; [done|]. intros i Hi. cbn.
    rewrite Z.mod_small by lia. by apply Hcells.
  - by exists d, p, b3.
Qed.

Lemma qa_ok_contents w h h1 q : contents h1 = contents h -> qa_ok w h q -> qa_ok w h1 q.
Proof.
  unfold contents. intros H. injection H as _ Hb _ _ _ _.
  unfold qa_ok. by rewrite Hb.
Qed.

Lemma queue_array_elements_contents w h h1 q :
  contents h1 = contents h -> queue_array_elements w h1 q = queue_array_elements w h q.
Proof.
  unfold contents. intros H. injection H as _ Hb _ _ _ _.
  unfold queue_array_elements. by rewrite Hb.
Qed.

Lemma queue_array_check_grow_room w h q qu :
  queue_arrays w !! q = Some qu -> qa_size qu < qa_capacity qu ->
  queue_array_check_grow q w h = Ok (SUCCESS, w) h.
Proof.
  intros Hq Hroom. unfold queue_array_check_grow.
  rewrite (bind4_aload QueueArrays q qu _ w h Hq).
  by destruct (Z.leb_spec (qa_capacity qu) (qa_size qu)); [lia|].
Qed.

(** [queue_array_enqueue] in general: on a full queue the array grows
    to twice its capacity, at least 16, before the element is stored. *)
Lemma queue_array_enqueue_inv w h q qu e s w1 h1 :
  qa_ok w h q -> queue_arrays w !! q = Some qu ->
  (qa_size qu = qa_capacity qu ->
   Z.max (2 * qa_capacity qu) 16 * qa_element_size qu <= SIZE_MAX) ->
  queue_array_enqueue (Some q) (Some e) w h = Ok (s, w1) h1 ->
  qa_ok w1 h1 q /\
  (s = SUCCESS \/ s = ERROR_MEMORY_ALLOCATION) /\
  queue_array_elements w1 h1 q
  = (if decide (s = SUCCESS)
     then queue_array_elements w h q ++ [take (Z.to_nat (qa_element_size qu)) e]
     else queue_array_elements w h q) /\
  (exists qu1,
     queue_arrays w1 !! q = Some qu1 /\
     qa_element_size qu1 = qa_element_size qu /\
     qa_capacity qu1
     = if decide (s = SUCCESS /\ qa_size qu = qa_capacity qu)
       then Z.max (2 * qa_capacity qu) 16 else qa_capacity qu) /\
  vectors h1 = vectors h /\ lists_same h h1.
Proof.
  intros Hok Hq Hmul H.
  destruct (qa_ok_fields w h q qu Hok Hq)
    as (d & b & Hd & Hb & Hes & Hcap & Hlen & Hmax & Hsz & Hfr & Hrear).
  destruct (decide (qa_size qu < qa_capacity qu)) as [Hroom|Hfull].
  - destruct (queue_array_enqueue_room w h q qu e Hok Hq Hroom) as [Hshort Hlong].
    destruct (decide (qa_element_size qu <= Z.of_nat (length e))) as [He|He].
    + destruct (Hlong He) as (w1' & h1' & Hrun & Hok1 & Hel & (qu1 & Hq1 & Hc1 & He1)
                              & Hv & Hls & _).
      rewrite Hrun in H. injection H as <- <- <-.
      rewrite decide_True by done. rewrite decide_False by lia.
      split_and!; try done; [by left|by exists qu1].
    + rewrite Hshort in H by lia. done.
  - assert (Hfull' : qa_size qu = qa_capacity qu) by lia.
    specialize (Hmul Hfull').
    assert (Hq' : aget QueueArrays w !! q = Some qu) by exact Hq.
    pose proof H as H0. unfold queue_array_enqueue in H.
    apply bind4_inv in H as (res & w' & h' & Hg & H).
    unfold queue_array_check_grow in Hg.
    rewrite (bind4_aload QueueArrays q qu _ w h Hq') in Hg.
    destruct (Z.leb_spec (qa_capacity qu) (qa_size qu)); [|lia].
    unfold QUEUE_GROWTH_FACTOR, QUEUE_INITIAL_CAPACITY in Hg.
    rewrite (to_size_t_small (qa_capacity qu * 2)) in Hg by nia.
    assert (Hnew : (if qa_capacity qu * 2 <? 16 then 16 else qa_capacity qu * 2)
                   = Z.max (2 * qa_capacity qu) 16).
    { destruct (Z.ltb_spec (qa_capacity qu * 2) 16); lia. }
    rewrite Hnew in Hg.
    assert (Hlt : qa_size qu < Z.max (2 * qa_capacity qu) 16) by lia.
    destruct (queue_array_resize_inv w h q qu _ res w' h' Hok Hq Hlt Hmul Hg)
      as (Hv & Hls & [(-> & -> & Hc)|(-> & Hok' & Hel' & d0 & d1 & b1 & _ & _ & _ & _ & Hw')]).
    + injection H as <- <- <-. rewrite decide_False by done.
      rewrite decide_False by (intros [? _]; done).
      split_and!; try done.
      * by apply (qa_ok_contents w h).
      * by right.
      * by apply queue_array_elements_contents.
      * by exists qu.
    + change (negb (is_success SUCCESS)) with false in H. cbv iota in H.
      set (qu' := mk_queue_array (Some d1) 0 (qa_size qu) (qa_size qu)
                    (Z.max (2 * qa_capacity qu) 16) (qa_element_size qu)) in *.
      assert (Hqn : queue_arrays w' !! q = Some qu').
      { rewrite Hw'. cbn. apply lookup_insert_eq. }
      assert (Hroom : qa_size qu' < qa_capacity qu') by (cbn; lia).
      assert (Hsame : queue_array_enqueue (Some q) (Some e) w' h' = Ok (s, w1) h1).
      { unfold queue_array_enqueue.
        rewrite (bind4_Ok _ _ w' h' _ _ _ (queue_array_check_grow_room w' h' q qu' Hqn Hroom)).
        exact H. }
      destruct (queue_array_enqueue_room w' h' q qu' e Hok' Hqn Hroom) as [Hshort Hlong].
      destruct (decide (qa_element_size qu <= Z.of_nat (length e))) as [He|He].
      * destruct (Hlong He) as (w1' & h1' & Hrun & Hok1 & Hel & (qu1 & Hq1 & Hc1 & He1)
                                & Hv1 & Hls1 & _).
        rewrite Hrun in Hsame. injection Hsame as <- <- <-.
        rewrite !decide_True by done.
        split_and!; try done.
        -- by left.
        -- by rewrite Hel, Hel'.
        -- by exists qu1.
        -- congruence.
        -- destruct Hls as (? & ? & ? & ?), Hls1 as (? & ? & ? & ?).
           repeat split; congruence.
      * rewrite Hshort in Hsame by (cbn; lia). done.
Qed.

Lemma amalloc_inv {T} (R : aregion T) init w h r w1 h1 :
  amalloc R init w h = Ok (r, w1) h1 ->
  exists al,
    h1 = set_allocator al h /\
    match r with
    | None => w1 = w
    | Some p =>
        valid_addr p = true /\ in_use h p = false /\ adapter_in_use w p = false /\
        w1 = aset R (<[p := init]> (aget R w)) w
    end.
Proof.
  unfold amalloc, bind, next_answer, ret. intros H.
  destruct (allocator h) as [|[[p junk]|] rest] eqn:Eal.
  - injection H as <- <- <-. exists []. split; [|done].
    destruct h. cbn in *. by subst.
  - destruct (valid_addr p && negb (in_use (set_allocator rest h) p)
              && negb (adapter_in_use w p)) eqn:E; [|done].
    injection H as <- <- <-. exists rest.
    apply andb_prop in E as [E E3]. apply andb_prop in E as [E1 E2].
    apply negb_true_iff in E2, E3. by split_and!.
  - injection H as <- <- <-. by exists rest.
Qed.

Lemma adapter_in_use_false w a :
  adapter_in_use w a = false ->
  deques w !! a = None /\ stack_arrays w !! a = None /\ stack_lists w !! a = None /\
  queue_arrays w !! a = None /\ queue_lists w !! a = None.
Proof.
  unfold adapter_in_use. rewrite !orb_false_iff, !bool_decide_eq_false.
  intros [[[[H1 H2] H3] H4] H5].
  split_and!; apply eq_None_not_Some; done.
Qed.

Lemma aset_queue_arrays_id w : aset QueueArrays (queue_arrays w) w = w.
Proof. by destruct w. Qed.

Lemma rset_buffers_id h al :
  rset Buffers (buffers h) (set_allocator al h) = set_allocator al h.
Proof. by destruct h. Qed.

Lemma queue_array_create_with_capacity_inv es cap w h r w1 h1 :
  0 <= es -> 0 <= cap ->
  (if cap =? 0 then QUEUE_INITIAL_CAPACITY else cap) * es <= SIZE_MAX ->
  queue_array_create_with_capacity es cap w h = Ok (r, w1) h1 ->
  vectors h1 = vectors h /\ lists_same h h1 /\
  match r with
  | None => w1 = w /\ contents h1 = contents h
  | Some q =>
      es <> 0 /\ adapter_in_use w q = false /\ in_use h q = false /\
      exists d b,
        buffers h !! d = None /\
        buffers h1 = <[d := b]> (buffers h) /\
        Z.of_nat (length b) = (if cap =? 0 then QUEUE_INITIAL_CAPACITY else cap) * es /\
        w1 = aset QueueArrays
               (<[q := mk_queue_array (Some d) 0 0 0
                         (if cap =? 0 then QUEUE_INITIAL_CAPACITY else cap) es]>
                  (queue_arrays w)) w
  end.
Proof.
  intros Hes Hcap Hmul H. unfold queue_array_create_with_capacity in H.
  destruct (Z.eqb_spec es 0) as [->|Hne].
  { injection H as <- <- <-. split_and!; try done; by repeat split. }
  cbv zeta in H. set (c := if cap =? 0 then QUEUE_INITIAL_CAPACITY else cap) in *.
  assert (Hc : 0 < c).
  { unfold c, QUEUE_INITIAL_CAPACITY. destruct (Z.eqb_spec cap 0); lia. }
  apply bind4_inv in H as (queue & w0 & h0 & Ha & H).
  apply amalloc_inv in Ha as (al & -> & Ha).
  destruct queue as [q|].
  2: { subst w0. injection H as <- <- <-. split_and!; try done; by repeat split. }
  destruct Ha as (Hvq & Hfq & Hwq & ->).
  apply bind4_lift_inv in H as (d & h0 & Hd & H).
  rewrite to_size_t_small in Hd by nia.
  apply mem_alloc_inv in Hd as (al' & Hd).
  erewrite bind4_amodify in H; [|cbn; apply lookup_insert_eq].
  cbn [aget aset QueueArrays queue_arrays] in H. rewrite insert_insert_eq in H.
  destruct (adapter_in_use_false w q Hwq) as (_ & _ & _ & Hq & _).
  destruct d as [d|].
  - destruct Hd as (_ & Hvd & Hfd & junk & ->).
    do 5 (erewrite bind4_amodify in H; [|cbn; apply lookup_insert_eq]).
    cbn in H. rewrite !insert_insert_eq in H. injection H as <- <- <-. cbn.
    apply in_use_false in Hfd as (_ & Hbd & _). cbn in Hbd.
    split_and!; try done; try (by repeat split).
    eexists d, _. split_and!; [done|reflexivity| |reflexivity].
    rewrite length_resize. nia.
  - subst h0. unfold bind4 at 1, afree at 1, bind at 1 in H. cbn in H.
    rewrite lookup_insert_eq in H. cbn in H. injection H as <- <- <-.
    rewrite delete_insert_eq, delete_id by done.
    split_and!; try done; try (by repeat split). by destruct w.
Qed.

(* ===================================================================== *)
(** * The two queues *)
(* ===================================================================== *)

Lemma queue_array_size_run w h q qu :
  qa_ok w h q -> queue_arrays w !! q = Some qu ->
  queue_array_size (Some q) w h
  = Ok (Z.of_nat (length (queue_array_elements w h q)), w) h /\
  queue_array_empty (Some q) w h
  = Ok (bool_decide (queue_array_elements w h q = []), w) h /\
  queue_array_capacity (Some q) w h = Ok (qa_capacity qu, w) h.
Proof.
  intros Hok Hq.
  destruct (qa_ok_fields w h q qu Hok Hq)
    as (d & b & Hd & Hb & Hes & Hcap & Hlen & Hmax & Hsz & Hfr & Hrear).
  rewrite (queue_array_elements_ring w h q qu d b Hq Hd Hb).
  assert (Hq' : aget QueueArrays w !! q = Some qu) by exact Hq.
  pose proof (ring_elements_length qu b) as Hl.
  unfold queue_array_size, queue_array_empty, queue_array_capacity.
  rewrite !(bind4_aload QueueArrays q qu _ w h Hq'). unfold ret4, ret.
  rewrite Hl, Z2Nat.id by lia. split_and!; [done| |done]. do 3 f_equal.
  destruct (ring_elements qu b); cbn in Hl.
  - rewrite bool_decide_eq_true_2 by done. apply Z.eqb_eq. lia.
  - rewrite bool_decide_eq_false_2 by done. apply Z.eqb_neq. lia.
Qed.

Lemma demo_queue_ok : qa_ok demo_adapters demo_store 850.
Proof.
  exists demo_queue, 250, (elem4 Byte.x03 ++ elem4 Byte.xff ++ elem4 Byte.x01 ++ elem4 Byte.x02).
  split_and!; try reflexivity; cbn; unfold SIZE_MAX, SIZE_BITS; lia.
Qed.

(** [queue_array_resize] to a larger capacity returns [SUCCESS] when the
    allocator grants the new array. *)
Lemma queue_array_resize_returns w h q qu n :
  qa_ok w h q -> queue_arrays w !! q = Some qu ->
  qa_size qu < n -> n * qa_element_size qu <= SIZE_MAX ->
  allocation_succeeds NULL h = true ->
  exists w1 h1, queue_array_resize (Some q) n w h = Ok (SUCCESS, w1) h1.
Proof.
  intros Hok Hq Hn Hmul Hal.
  destruct (qa_ok_fields w h q qu Hok Hq)
    as (d & b & Hd & Hb & Hes & Hcap & Hlen & Hmax & Hsz & Hfr & Hrear).
  assert (Hq' : aget QueueArrays w !! q = Some qu) by exact Hq.
  unfold queue_array_resize. rewrite (bind4_aload QueueArrays q qu _ w h Hq').
  destruct (Z.ltb_spec n (qa_size qu)); [lia|]. cbv zeta.
  rewrite to_size_t_small by nia.
  destruct (mem_alloc_run (n * qa_element_size qu) h Hal ltac:(nia))
    as (p & junk & al & Hvalid & Hfree & Ha).
  rewrite (bind4_lift _ _ w h _ _ Ha).
  apply in_use_false in Hfree as (_ & Hpfree & _).
  assert (Hpd : p <> d) by congruence.
  set (b2 := resize (Z.to_nat (n * qa_element_size qu)) Byte.x00 junk) in *.
  set (h0 := rset Buffers (<[p := b2]> (buffers h)) (set_allocator al h)) in *.
  assert (Hb0 : buffers h0 !! d = Some b) by (unfold h0; cbn; by rewrite lookup_insert_ne).
  assert (Hp0 : buffers h0 !! p = Some b2) by (unfold h0; cbn; by rewrite lookup_insert_eq).
  assert (Hb2 : Z.of_nat (length b2) = n * qa_element_size qu).
  { unfold b2. rewrite length_resize. nia. }
  destruct (queue_array_resize_copy h0 w qu d b p b2 n Hb0 Hp0 Hpd Hd Hes Hcap Hlen Hmax
              Hsz Hfr Hrear ltac:(lia) Hb2) as (b3 & Hcopy & Hl3 & Hcells).
  rewrite (bind4_Ok _ _ w h0 _ _ _ Hcopy).
  set (h2 := rset Buffers (<[p := b3]> (buffers h0)) h0) in *.
  assert (Hfree : mem_free Buffers (qa_data qu) h2
                  = Ok tt (rset Buffers (delete d (buffers h2)) h2)).
  { rewrite Hd. unfold mem_free, free. cbn. by rewrite lookup_insert_ne, lookup_insert_ne, Hb. }
  rewrite (bind4_lift _ _ w h2 _ _ Hfree).
  rewrite (bind4_amodify QueueArrays q qu _ _ w _ Hq').
  do 4 (erewrite bind4_amodify; [|cbn; apply lookup_insert_eq]).
  eauto.
Qed.

(** [queue_array_enqueue] on a full queue returns [SUCCESS] when the
    allocator grants the larger array. *)
Lemma queue_array_enqueue_full w h q qu e :
  qa_ok w h q -> queue_arrays w !! q = Some qu ->
  qa_size qu = qa_capacity qu ->
  Z.max (2 * qa_capacity qu) 16 * qa_element_size qu <= SIZE_MAX ->
  allocation_succeeds NULL h = true ->
  qa_element_size qu <= Z.of_nat (length e) ->
  exists w1 h1, queue_array_enqueue (Some q) (Some e) w h = Ok (SUCCESS, w1) h1.
Proof.
  intros Hok Hq Hfull Hmul Hal He.
  destruct (qa_ok_fields w h q qu Hok Hq)
    as (d & b & Hd & Hb & Hes & Hcap & Hlen & Hmax & Hsz & Hfr & Hrear).
  assert (Hq' : aget QueueArrays w !! q = Some qu) by exact Hq.
  assert (Hlt : qa_size qu < Z.max (2 * qa_capacity qu) 16) by lia.
  destruct (queue_array_resize_returns w h q qu _ Hok Hq Hlt Hmul Hal) as (w' & h' & Hr).
  assert (Hg : queue_array_check_grow q w h = Ok (SUCCESS, w') h').
  { unfold queue_array_check_grow.
    rewrite (bind4_aload QueueArrays q qu _ w h Hq').
    destruct (Z.leb_spec (qa_capacity qu) (qa_size qu)); [|lia].
    unfold QUEUE_GROWTH_FACTOR, QUEUE_INITIAL_CAPACITY.
    rewrite (to_size_t_small (qa_capacity qu * 2)) by nia.
    assert (Hnew : (if qa_capacity qu * 2 <? 16 then 16 else qa_capacity qu * 2)
                   = Z.max (2 * qa_capacity qu) 16).
    { destruct (Z.ltb_spec (qa_capacity qu * 2) 16); lia. }
    rewrite Hnew. exact Hr. }
  destruct (queue_array_resize_inv w h q qu _ _ w' h' Hok Hq Hlt Hmul Hr)
    as (_ & _ & [(Hs & _)|(_ & Hok' & _ & d0 & d1 & b1 & _ & _ & _ & _ & Hw')]);
    [discriminate Hs|].
  set (qu' := mk_queue_array (Some d1) 0 (qa_size qu) (qa_size qu)
                (Z.max (2 * qa_capacity qu) 16) (qa_element_size qu)) in *.
  assert (Hqn : queue_arrays w' !! q = Some qu').
  { rewrite Hw'. cbn. apply lookup_insert_eq. }
  assert (Hroom : qa_size qu' < qa_capacity qu') by (cbn; lia).
  destruct (queue_array_enqueue_room w' h' q qu' e Hok' Hqn Hroom) as [_ Hlong].
  destruct (Hlong He) as (w1 & h1 & Hrun & _).
  exists w1, h1. rewrite <- Hrun. unfold queue_array_enqueue.
  rewrite (bind4_Ok _ _ w h _ _ _ Hg).
  by rewrite (bind4_Ok _ _ w' h' _ _ _ (queue_array_check_grow_room w' h' q qu' Hqn Hroom)).
Qed.

(** The two queues of queue.c.  The queue on the circular array at [q]
    holds the cells from [front] on, wrapping around at the end of the
    array.  [queue_array_enqueue] appends the first [element_size] bytes
    of the element: when the array is full it first moves the elements
    to a new array of twice the capacity (at least 16; the byte size of
    that array must fit [size_t]), and when that allocation fails it
    returns [ERROR_MEMORY_ALLOCATION] and the queue is as it was.  With
    an element of at least [element_size] bytes it returns [SUCCESS]
    whenever a cell is free, and on a full queue whenever the allocator
    grants the new array.  [queue_array_dequeue] removes the first
    element and copies it to a non-null [output] that has room for it;
    [queue_array_peek] copies it out and changes nothing; on an empty
    queue both return [ERROR_EMPTY_CONTAINER].  The queue on the singly
    linked list [lp] appends at the tail ([queue_list_enqueue] returns
    [SUCCESS] whenever the allocator grants the node) and removes at
    the head: [queue_list_dequeue] returns [SUCCESS] on a queue that is
    not empty, when a non-null [output] has room for the element; on an
    empty queue it returns [ERROR_EMPTY_CONTAINER] but [queue_list_peek]
    returns [ERROR_INDEX_OUT_OF_BOUNDS].  Every call keeps the invariant
    of its queue, and the sizes are the numbers of elements. *)
Theorem queue_fifo_spec w h q qu ql qlt lp l e o :
  qa_ok w h q -> queue_arrays w !! q = Some qu ->
  queue_lists w !! ql = Some qlt -> ql_list qlt = Some lp ->
  slists h !! lp = Some l -> slists_ok h ->
  (forall s w1 h1,
     (qa_size qu = qa_capacity qu ->
      Z.max (2 * qa_capacity qu) 16 * qa_element_size qu <= SIZE_MAX) ->
     queue_array_enqueue (Some q) (Some e) w h = Ok (s, w1) h1 ->
     qa_ok w1 h1 q /\
     (s = SUCCESS \/ s = ERROR_MEMORY_ALLOCATION) /\
     queue_array_elements w1 h1 q
     = (if decide (s = SUCCESS)
        then queue_array_elements w h q ++ [take (Z.to_nat (qa_element_size qu)) e]
        else queue_array_elements w h q) /\
     queue_array_capacity (Some q) w1 h1
     = Ok (if decide (s = SUCCESS /\ qa_size qu = qa_capacity qu)
           then Z.max (2 * qa_capacity qu) 16 else qa_capacity qu, w1) h1 /\
     vectors h1 = vectors h /\ lists_same h h1) /\
  (forall output s r w1 h1,
     queue_array_dequeue (Some q) output w h = Ok (s, r, w1) h1 ->
     h1 = h /\ qa_ok w1 h q /\
     match queue_array_elements w h q with
     | [] => s = ERROR_EMPTY_CONTAINER /\ r = output /\ w1 = w
     | x :: rest =>
         s = SUCCESS /\ queue_array_elements w1 h q = rest /\
         r = (fun out => x ++ drop (Z.to_nat (qa_element_size qu)) out) <$> output
     end) /\
  (forall output,
     has_room (qa_element_size qu) output = true ->
     exists s r w1, queue_array_dequeue (Some q) output w h = Ok (s, r, w1) h) /\
  queue_array_peek (Some q) (Some o) w h
  = match queue_array_elements w h q with
    | [] => Ok (ERROR_EMPTY_CONTAINER, Some o, w) h
    | x :: _ =>
        if qa_element_size qu <=? Z.of_nat (length o)
        then Ok (SUCCESS, Some (x ++ drop (Z.to_nat (qa_element_size qu)) o), w) h
        else Fault
    end /\
  queue_array_size (Some q) w h
  = Ok (Z.of_nat (length (queue_array_elements w h q)), w) h /\
  queue_array_empty (Some q) w h
  = Ok (bool_decide (queue_array_elements w h q = []), w) h /\
  (forall s w1 h1,
     queue_list_enqueue (Some ql) (Some e) w h = Ok (s, w1) h1 ->
     w1 = w /\ sl_effect h h1 lp /\
     (s = SUCCESS \/ s = ERROR_MEMORY_ALLOCATION) /\
     singly_list_elements h1 lp
     = if decide (s = SUCCESS)
       then singly_list_elements h lp ++ [take (Z.to_nat (sl_element_size l)) e]
       else singly_list_elements h lp) /\
  (forall output s r w1 h1,
     queue_list_dequeue (Some ql) output w h = Ok (s, r, w1) h1 ->
     w1 = w /\ sl_effect h h1 lp /\
     match head (singly_list_elements h lp) with
     | None => s = ERROR_EMPTY_CONTAINER /\ r = output /\ h1 = h
     | Some x =>
         s = SUCCESS /\
         singly_list_elements h1 lp = drop 1 (singly_list_elements h lp) /\
         r = output ≫= (fun out => mem_copy out x (sl_element_size l))
     end) /\
  queue_list_peek (Some ql) (Some o) w h
  = match head (singly_list_elements h lp) with
    | None => Ok (ERROR_INDEX_OUT_OF_BOUNDS, Some o, w) h
    | Some x =>
        match mem_copy o x (sl_element_size l) with
        | Some o' => Ok (SUCCESS, Some o', w) h
        | None => Fault
        end
    end /\
  queue_list_size (Some ql) w h
  = Ok (Z.of_nat (length (singly_list_elements h lp)), w) h /\
  queue_list_empty (Some ql) w h
  = Ok (bool_decide (singly_list_elements h lp = []), w) h /\
  (qa_element_size qu <= Z.of_nat (length e) ->
   (qa_size qu < qa_capacity qu \/
    (Z.max (2 * qa_capacity qu) 16 * qa_element_size qu <= SIZE_MAX /\
     allocation_succeeds NULL h = true)) ->
   exists w1 h1,
     queue_array_enqueue (Some q) (Some e) w h = Ok (SUCCESS, w1) h1 /\
     queue_array_elements w1 h1 q
     = queue_array_elements w h q ++ [take (Z.to_nat (qa_element_size qu)) e]) /\
  (0 < sl_element_size l <= Z.of_nat (length e) ->
   node_allocation_succeeds h = true ->
   exists h1,
     queue_list_enqueue (Some ql) (Some e) w h = Ok (SUCCESS, w) h1 /\
     singly_list_elements h1 lp
     = singly_list_elements h lp ++ [take (Z.to_nat (sl_element_size l)) e]) /\
  (forall output x,
     head (singly_list_elements h lp) = Some x ->
     (forall out, output = Some out -> is_Some (mem_copy out x (sl_element_size l))) ->
     exists h1,
       queue_list_dequeue (Some ql) output w h
       = Ok (SUCCESS, output ≫= (fun out => mem_copy out x (sl_element_size l)), w) h1 /\
       singly_list_elements h1 lp = drop 1 (singly_list_elements h lp)) /\
  (forall output,
     singly_list_elements h lp = [] ->
     queue_list_dequeue (Some ql) output w h = Ok (ERROR_EMPTY_CONTAINER, output, w) h).
Proof.
  intros Hok Hq Hql Hlp Hl Hoks.
  assert (Hql' : aget QueueLists w !! ql = Some qlt) by exact Hql.
  destruct (singly_list_size_run h lp l Hoks Hl) as [Hlsize Hlempty].
  destruct (queue_array_size_run w h q qu Hok Hq) as (Hsize & Hempty & _).
  pose proof (queue_array_dequeue_run w h q qu) as Hdeq.
  destruct (qa_ok_fields w h q qu Hok Hq)
    as (d & b & Hd & Hb & Hes & Hcap & Hlen & Hmax & Hsz & Hfr & Hrear).
  pose proof (queue_array_elements_ring w h q qu d b Hq Hd Hb) as Hring.
  split_and!.
  - intros s w1 h1 Hmul H.
    destruct (queue_array_enqueue_inv w h q qu e s w1 h1 Hok Hq Hmul H)
      as (Hok1 & Hs & Hel & (qu1 & Hq1 & _ & Hc1) & Hv & Hls).
    split_and!; try done.
    destruct (queue_array_size_run w1 h1 q qu1 Hok1 Hq1) as (_ & _ & Hc).
    by rewrite Hc, Hc1.
  - intros output s r w1 h1 H. rewrite (Hdeq output Hok Hq) in H.
    destruct (queue_array_elements w h q) as [|x rest] eqn:E.
    + injection H as <- <- <- <-. by split_and!.
    + destruct (has_room (qa_element_size qu) output); [|done].
      injection H as <- <- <- <-.
      assert (Hpos : 0 < qa_size qu).
      { pose proof (ring_elements_length qu b) as Hl0.
        rewrite <- Hring in Hl0. cbn in Hl0. lia. }
      split_and!; try done.
      * by apply qa_ok_dequeue.
      * erewrite (queue_array_elements_ring _ _ q _ d b);
          [|cbn; apply lookup_insert_eq|exact Hd|exact Hb].
        apply (ring_elements_dequeue qu b x); [lia|lia|done].
  - intros output Hroom. rewrite (Hdeq output Hok Hq), Hroom.
    destruct (queue_array_elements w h q); eauto.
  - by apply queue_array_peek_run.
  - exact Hsize.
  - exact Hempty.
  - intros s w1 h1 H. unfold queue_list_enqueue in H.
    apply (wrap_inv QueueLists ql qlt) in H as [-> H]; [|exact Hql']. rewrite Hlp in H.
    split; [done|]. exact (singly_list_push_back_seq h lp l e s h1 Hoks Hl H).
  - intros output s r w1 h1 H. unfold queue_list_dequeue in H.
    apply (wrap_inv QueueLists ql qlt) in H as [-> H]; [|exact Hql']. rewrite Hlp in H.
    split; [done|]. exact (singly_list_pop_front_seq h lp l output s r h1 Hoks Hl H).
  - unfold queue_list_peek. rewrite (wrap_run QueueLists ql qlt _ w h Hql'), Hlp.
    rewrite (singly_list_get_first h lp l o Hoks Hl).
    destruct (head (singly_list_elements h lp)) as [x|]; [|done].
    by destruct (mem_copy o x (sl_element_size l)).
  - unfold queue_list_size.
    by rewrite (wrap_run QueueLists ql qlt _ w h Hql'), Hlp, Hlsize.
  - unfold queue_list_empty.
    by rewrite (wrap_run QueueLists ql qlt _ w h Hql'), Hlp, Hlempty.
  - intros He Hcase.
    assert (exists w1 h1, queue_array_enqueue (Some q) (Some e) w h = Ok (SUCCESS, w1) h1)
      as (w1 & h1 & H).
    { destruct Hcase as [Hroom|[Hmul Hal]].
      - destruct (queue_array_enqueue_room w h q qu e Hok Hq Hroom) as [_ Hlong].
        destruct (Hlong He) as (w1 & h1 & Hrun & _). eauto.
      - destruct (decide (qa_size qu < qa_capacity qu)) as [Hroom|Hfull].
        + destruct (queue_array_enqueue_room w h q qu e Hok Hq Hroom) as [_ Hlong].
          destruct (Hlong He) as (w1 & h1 & Hrun & _). eauto.
        + apply (queue_array_enqueue_full w h q qu e); try done. lia. }
    exists w1, h1. split; [exact H|].
    assert (qa_size qu = qa_capacity qu ->
            Z.max (2 * qa_capacity qu) 16 * qa_element_size qu <= SIZE_MAX) as Hmul.
    { intros Hfull. destruct Hcase as [?|[? _]]; [lia|done]. }
    destruct (queue_array_enqueue_inv w h q qu e _ w1 h1 Hok Hq Hmul H)
      as (_ & _ & Hel & _).
    by rewrite decide_True in Hel by done.
  - intros Hle Hal.
    destruct (singly_list_push_back_returns h lp l e Hoks Hl Hal Hle) as [h1 H].
    exists h1. split.
    + unfold queue_list_enqueue.
      by rewrite (wrap_run QueueLists ql qlt _ w h Hql'), Hlp, H.
    + destruct (singly_list_push_back_seq h lp l e _ h1 Hoks Hl H) as (_ & _ & Hel).
      by rewrite decide_True in Hel by done.
  - intros output x Hx Hroom.
    destruct (singly_list_pop_front_returns h lp l output x Hoks Hl Hx Hroom)
      as (r & h1 & H).
    destruct (singly_list_pop_front_seq h lp l output _ r h1 Hoks Hl H) as (_ & Hm).
    rewrite Hx in Hm. destruct Hm as (_ & Hel & ->).
    exists h1. split; [|exact Hel].
    unfold queue_list_dequeue.
    by rewrite (wrap_run QueueLists ql qlt _ w h Hql'), Hlp, H.
  - intros output Hnil.
    unfold queue_list_dequeue.
    rewrite (wrap_run QueueLists ql qlt _ w h Hql'), Hlp.
    by rewrite (proj1 (singly_list_pop_empty 0 h lp l output Hoks Hl Hnil)).
Qed.

Lemma demo_full_queue_ok : qa_ok demo_full_adapters demo_store_rich 850.
Proof.
  exists demo_full_queue, 250,
    (elem4 Byte.x03 ++ elem4 Byte.xff ++ elem4 Byte.x01 ++ elem4 Byte.x02).
  split_and!; try reflexivity; cbn; unfold SIZE_MAX, SIZE_BITS; lia.
Qed.

Lemma queue_fifo_spec_witness :
  queue_array_peek (Some 850) (Some (elem4 Byte.xff)) demo_adapters demo_store
  = Ok (SUCCESS, Some (elem4 Byte.x01), demo_adapters) demo_store /\
  queue_list_peek (Some 830) (Some (elem4 Byte.xff)) demo_adapters demo_store
  = Ok (SUCCESS, Some (elem4 Byte.x01), demo_adapters) demo_store /\
  (exists w1 h1,
     queue_array_enqueue (Some 850) (Some (elem4 Byte.x04)) demo_adapters demo_store
     = Ok (SUCCESS, w1) h1 /\
     queue_array_elements w1 h1 850
     = [elem4 Byte.x01; elem4 Byte.x02; elem4 Byte.x03; elem4 Byte.x04]) /\
  (exists h1,
     queue_list_dequeue (Some 830) (Some (elem4 Byte.xff)) demo_adapters demo_store
     = Ok (SUCCESS, Some (elem4 Byte.x01), demo_adapters) h1 /\
     singly_list_elements h1 400 = [elem4 Byte.x02; elem4 Byte.x03]) /\
  (exists w1 h1,
     queue_array_enqueue (Some 850) (Some (elem4 Byte.x04))
       demo_full_adapters demo_store_rich
     = Ok (SUCCESS, w1) h1 /\
     queue_array_elements w1 h1 850
     = [elem4 Byte.x01; elem4 Byte.x02; elem4 Byte.x03; elem4 Byte.xff; elem4 Byte.x04]) /\
  (exists h1,
     queue_list_enqueue (Some 830) (Some (elem4 Byte.x04))
       demo_full_adapters demo_store_rich
     = Ok (SUCCESS, demo_full_adapters) h1 /\
     singly_list_elements h1 400
     = [elem4 Byte.x01; elem4 Byte.x02; elem4 Byte.x03; elem4 Byte.x04]).
Proof.
  destruct (queue_fifo_spec demo_adapters demo_store 850 demo_queue
              830 (mk_queue_list (Some 400)) 400 (mk_slist (Some 410) (Some 430) 3 4)
              (elem4 Byte.x04) (elem4 Byte.xff)
              demo_queue_ok eq_refl eq_refl eq_refl eq_refl (proj1 demo_store_lists_ok))
    as (_ & _ & _ & Ha & _ & _ & _ & _ & Hl & _ & _ & He & _ & Hd & _).
  destruct (queue_fifo_spec demo_full_adapters demo_store_rich 850 demo_full_queue
              830 (mk_queue_list (Some 400)) 400 (mk_slist (Some 410) (Some 430) 3 4)
              (elem4 Byte.x04) (elem4 Byte.xff)
              demo_full_queue_ok eq_refl eq_refl eq_refl eq_refl (proj1 demo_lists_ok))
    as (_ & _ & _ & _ & _ & _ & _ & _ & _ & _ & _ & Hf & Hle & _).
  split_and!.
  - exact (eq_trans Ha eq_refl).
  - exact (eq_trans Hl eq_refl).
  - destruct He as (w1 & h1 & E & Hel); [cbn; lia | left; cbn; lia |].
    exists w1, h1. split; [exact E|]. exact (eq_trans Hel eq_refl).
  - destruct (Hd (Some (elem4 Byte.xff)) (elem4 Byte.x01) eq_refl) as (h1 & E & Hel).
    { intros out Ho. injection Ho as <-. by eexists. }
    exists h1. split; [exact (eq_trans E eq_refl)|]. exact (eq_trans Hel eq_refl).
  - destruct Hf as (w1 & h1 & E & Hel);
      [cbn; lia | right; split; [cbn; unfold SIZE_MAX, SIZE_BITS; lia | reflexivity] |].
    exists w1, h1. split; [exact E|]. exact (eq_trans Hel eq_refl).
  - destruct Hle as (h1 & E & Hel); [cbn; lia | reflexivity |].
    exists h1. split; [exact E|]. exact (eq_trans Hel eq_refl).
Defined.

(* ===================================================================== *)
(** * The circular array: creation, reservation, destruction *)
(* ===================================================================== *)

Lemma queue_array_destroy_run w h q qu d :
  queue_arrays w !! q = Some qu -> qa_data qu = Some d -> is_Some (buffers h !! d) ->
  queue_array_destroy (Some q) w h
  = Ok (tt, aset QueueArrays (delete q (queue_arrays w)) w)
       (rset Buffers (delete d (buffers h)) h).
Proof.
  intros Hq Hd [b Hb]. assert (Hq' : aget QueueArrays w !! q = Some qu) by exact Hq.
  unfold queue_array_destroy. rewrite (bind4_aload QueueArrays q qu _ w h Hq').
  assert (Hfree : mem_free Buffers (qa_data qu) h
                  = Ok tt (rset Buffers (delete d (buffers h)) h)).
  { rewrite Hd. unfold mem_free, free. cbn. by rewrite Hb. }
  rewrite (bind4_lift _ _ w h _ _ Hfree).
  rewrite (bind4_amodify QueueArrays q qu _ _ w _ Hq').
  unfold afree, ret. cbn. rewrite lookup_insert_eq. by rewrite delete_insert_eq.
Qed.

Lemma queue_array_reserve_inv w h q qu n s w1 h1 :
  qa_ok w h q -> queue_arrays w !! q = Some qu ->
  n * qa_element_size qu <= SIZE_MAX ->
  queue_array_reserve (Some q) n w h = Ok (s, w1) h1 ->
  qa_ok w1 h1 q /\
  queue_array_elements w1 h1 q = queue_array_elements w h q /\
  (s = SUCCESS \/ s = ERROR_MEMORY_ALLOCATION /\ qa_capacity qu < n) /\
  (exists qu1, queue_arrays w1 !! q = Some qu1 /\
     qa_element_size qu1 = qa_element_size qu /\
     qa_capacity qu1
     = if decide (s = SUCCESS) then Z.max n (qa_capacity qu) else qa_capacity qu) /\
  vectors h1 = vectors h /\ lists_same h h1.
Proof.
  intros Hok Hq Hmul H.
  destruct (qa_ok_fields w h q qu Hok Hq)
    as (d & b & Hd & Hb & Hes & Hcap & Hlen & Hmax & Hsz & Hfr & Hrear).
  assert (Hq' : aget QueueArrays w !! q = Some qu) by exact Hq.
  unfold queue_array_reserve in H. rewrite (bind4_aload QueueArrays q qu _ w h Hq') in H.
  destruct (Z.leb_spec n (qa_capacity qu)) as [Hle|Hgt].
  - injection H as <- <- <-. rewrite decide_True by done.
    split_and!; try done; try (by left); try (by repeat split).
    exists qu. split_and!; [done|done|lia].
  - assert (Hlt : qa_size qu < n) by lia.
    destruct (queue_array_resize_inv w h q qu n s w1 h1 Hok Hq Hlt Hmul H)
      as (Hv & Hls & [(-> & -> & Hc)|(-> & Hok' & Hel' & d0 & d1 & b1 & _ & _ & _ & _ & Hw')]).
    + rewrite decide_False by done. split_and!; try done.
      * by apply (qa_ok_contents w h).
      * by apply queue_array_elements_contents.
      * by right.
      * by exists qu.
    + rewrite decide_True by done. split_and!; try done; try (by left).
      eexists. split; [rewrite Hw'; cbn; apply lookup_insert_eq|]. cbn. split; [done|lia].
Qed.

(** Creating, reserving and destroying the circular array queue.
    [queue_array_create_with_capacity], for an element size and a
    capacity whose product fits [size_t] (a capacity of 0 stands for
    16), returns null and leaves everything as it was, or returns a new
    empty queue of that capacity that satisfies the invariant;
    [queue_array_destroy] on that queue leaves the adapters and the
    contents of the store as they were before the creation.  With an
    element size of 0 the creation returns null.
    [queue_array_reserve], when the requested byte size fits [size_t],
    keeps the invariant and the elements in their order; on [SUCCESS]
    the capacity is the larger of the old one and the requested one,
    and the only failure is [ERROR_MEMORY_ALLOCATION], for a request
    above the capacity, which leaves the capacity as it was. *)
Theorem queue_array_capacity_spec w h :
  (forall es cap r w1 h1,
     0 <= es -> 0 <= cap ->
     (if cap =? 0 then QUEUE_INITIAL_CAPACITY else cap) * es <= SIZE_MAX ->
     queue_array_create_with_capacity es cap w h = Ok (r, w1) h1 ->
     match r with
     | None => w1 = w /\ contents h1 = contents h
     | Some q =>
         es <> 0 /\ queue_arrays w !! q = None /\
         qa_ok w1 h1 q /\ queue_array_elements w1 h1 q = [] /\
         queue_array_capacity (Some q) w1 h1
         = Ok (if cap =? 0 then QUEUE_INITIAL_CAPACITY else cap, w1) h1 /\
         exists h2, queue_array_destroy (Some q) w1 h1 = Ok (tt, w) h2 /\
                    contents h2 = contents h
     end) /\
  (forall cap, queue_array_create_with_capacity 0 cap w h = Ok (NULL, w) h) /\
  (forall q qu n s w1 h1,
     qa_ok w h q -> queue_arrays w !! q = Some qu ->
     n * qa_element_size qu <= SIZE_MAX ->
     queue_array_reserve (Some q) n w h = Ok (s, w1) h1 ->
     qa_ok w1 h1 q /\
     queue_array_elements w1 h1 q = queue_array_elements w h q /\
     (s = SUCCESS \/ s = ERROR_MEMORY_ALLOCATION /\ qa_capacity qu < n) /\
     queue_array_capacity (Some q) w1 h1
     = Ok (if decide (s = SUCCESS) then Z.max n (qa_capacity qu) else qa_capacity qu,
           w1) h1).
Proof.
  split_and!.
  - intros es cap r w1 h1 Hes Hcap Hmul H.
    destruct (queue_array_create_with_capacity_inv es cap w h r w1 h1 Hes Hcap Hmul H)
      as (Hv & Hls & Hr).
    destruct r as [q|]; [|exact Hr].
    destruct Hr as (Hne & Hwq & Hhq & d & b & Hd & Hb1 & Hlen & ->).
    destruct (adapter_in_use_false w q Hwq) as (_ & _ & _ & Hq & _).
    set (c := if cap =? 0 then QUEUE_INITIAL_CAPACITY else cap) in *.
    assert (Hc : 0 < c).
    { unfold c, QUEUE_INITIAL_CAPACITY. destruct (Z.eqb_spec cap 0); lia. }
    set (qu := mk_queue_array (Some d) 0 0 0 c es).
    set (w1 := aset QueueArrays (<[q := qu]> (queue_arrays w)) w).
    assert (Hq1 : queue_arrays w1 !! q = Some qu) by (cbn; apply lookup_insert_eq).
    assert (Hbd : buffers h1 !! d = Some b) by (rewrite Hb1; apply lookup_insert_eq).
    assert (Hok1 : qa_ok w1 h1 q).
    { exists qu, d, b. cbn. rewrite lookup_insert_eq.
      split_and!; try done; try lia. }
    split_and!; try done.
    + by rewrite (queue_array_elements_ring w1 h1 q qu d b Hq1 eq_refl Hbd).
    + by destruct (queue_array_size_run w1 h1 q qu Hok1 Hq1) as (_ & _ & ->).
    + eexists. split.
      * rewrite (queue_array_destroy_run w1 h1 q qu d Hq1 eq_refl) by eauto.
        cbn. rewrite delete_insert_eq, delete_id by done. by destruct w.
      * unfold contents. cbn. rewrite Hb1, delete_insert_eq, delete_id by done.
        destruct Hls as (-> & -> & -> & ->). by rewrite Hv.
  - intros cap. reflexivity.
  - intros q qu n s w1 h1 Hok Hq Hmul H.
    destruct (queue_array_reserve_inv w h q qu n s w1 h1 Hok Hq Hmul H)
      as (Hok1 & Hel & Hs & (qu1 & Hq1 & _ & Hc1) & _).
    split_and!; try done.
    destruct (queue_array_size_run w1 h1 q qu1 Hok1 Hq1) as (_ & _ & ->).
    by rewrite Hc1.
Qed.

Lemma queue_array_capacity_spec_witness :
  exists w1 h1,
    queue_array_reserve (Some 850) 8 demo_adapters demo_store = Ok (SUCCESS, w1) h1 /\
    queue_array_elements w1 h1 850 = [elem4 Byte.x01; elem4 Byte.x02; elem4 Byte.x03] /\
    queue_array_capacity (Some 850) w1 h1 = Ok (8, w1) h1.
Proof.
  destruct (queue_array_capacity_spec demo_adapters demo_store) as (_ & _ & Hr).
  destruct (queue_array_reserve (Some 850) 8 demo_adapters demo_store)
    as [[s w1] h1| |] eqn:E; try (vm_compute in E; discriminate E).
  assert (s = SUCCESS) as -> by (vm_compute in E; by injection E as <- _ _).
  exists w1, h1. split; [reflexivity|].
  destruct (Hr 850 demo_queue 8 SUCCESS w1 h1 demo_queue_ok eq_refl
              ltac:(cbn; unfold SIZE_MAX, SIZE_BITS; lia) E) as (_ & Hel & _ & Hc).
  split.
  - exact (eq_trans Hel eq_refl).
  - exact (eq_trans Hc eq_refl).
Defined.
